(* ===== verification/_CoqProject ===== *)
-Q . S2P
Prelude.v
GoStrings.v
GoBase64.v
GoPath.v
GoTime.v
Json.v
JsonText.v
Interleaving.v
ReleaseSpec.v
ReleaseSnapshot.v
ReleaseValidation.v
Models.v
PlatformModels.v
Security.v
NodeMaintenance.v
RegistryNodes.v
ReleaseRendering.v
Cluster.v
ClusterResources.v
KubernetesApplier.v
ApplierGuarantees.v
Store.v
PlatformStore.v
Api.v
AuditTrail.v
Tokens.v
IntegrationSessions.v
AgentRequests.v
RegistryStore.v
AgentOperations.v
AgentSafety.v
AgentGrants.v
ReleaseExecution.v
ReleaseWorkflow.v
Templates.v
HandlerSteps.v
IntegrationApplications.v
ReleaseDeployment.v
ApplicationHandlers.v
Endpoints.v
PlatformReleases.v
PlatformReleaseSafety.v
RegistryMirrors.v
AlertAutomation.v
VolumeMigration.v
