(* ===== verification/Prelude.v ===== *)
(** * Cylism Manager: verification development

    Cylism Manager is a Go service that manages projects, environments and applications on a K3s
    cluster: it stores deployment templates, renders releases to Kubernetes objects, applies them, waits
    for them and keeps a record of every step; around this it lets people, agents and other control
    planes ask for operations, each within what it was granted. This library models that program
    (packages under [src/internal/]) as executable definitions and proves what makes it correct. This file
    is the prelude: errors, results, the state-and-error monad with its Hoare triples, machine integers,
    and the list lemmas shared by the components.

    ** How the program is put together, and where each part is

    Releases:

    - A request to deploy reaches the use cases of [service/application/release_workflow.go] (file
      ReleaseWorkflow): a release is made from a template, a restart, a retry or a rollback. The
      specification (type [ReleaseSpec], file ReleaseSpec, from [release_spec_types.go],
      [release_spec_normalization.go] and [release_spec_security.go]) gets the decrypted secrets (file
      Security, [security/]) and the registry credential and mirror (file RegistryStore).
    - [release_spec_validation.go] (file ReleaseValidation) decides whether a specification is acceptable;
      [release_spec_rendering.go] (file ReleaseRendering) turns an accepted one into objects.
    - [release_execution.go] (file ReleaseExecution) stores the release with a sanitised JSON snapshot (file
      ReleaseSnapshot) and runs it: verify the image, preflight, apply, synchronise the endpoints, wait.
      Every step is recorded and every status written to the database.
    - The steps run on the cluster through the interface [ResourceApplier]. Its implementation,
      [kubernetes_applier.go] with the adapters of [k8s/application.go], is the file KubernetesApplier, over the
      API server of the file Cluster; volume claims, custom resources and the detection of the ingress
      controller ([k8s/pvc.go], [k8s/client.go], [k8s/ingress.go]) are the file ClusterResources. The theorems on
      waiting, migration and diagnostics are in ApplierGuarantees.
    - ReleaseDeployment puts these together: the applier behind the interfaces of the execution, the workflow
      and the change of workload kind ([workload.go]).

    The database ([store/]; files Store, PlatformStore and RegistryStore) is a record of tables; a statement is
    atomic, may fail on its own account ([fault]), and respects primary keys, column defaults and unique
    indexes. The rows are in Models and PlatformModels ([model/]).

    Requests:

    - Api has the answers and identifiers of requests ([api/shared/]), AuditTrail the audit records
      ([service/audit/]), Tokens the signed tokens, logins and both middlewares ([service/auth/], [api/auth/]);
      a token is signed text over its JSON (JsonText).
    - ApplicationHandlers has the handlers of projects, environments and applications with the preparation of
      namespaces ([project_handler.go], [environment_handler.go], [application_handler.go],
      [kubernetes_adapter.go] of [api/application/]), Templates those of deployment templates
      ([template_handler.go]), Endpoints those of the domains bound to an application ([endpoint_handler.go]).
    - Other control planes are handed over to with a code, get a session and a delegation and act through it:
      IntegrationSessions ([integration_session_handler.go]) and IntegrationApplications
      ([integration_application_handler.go]).
    - Agents ask for operations that a person approves: AgentRequests has the validation of what they ask,
      AgentOperations the handlers ([api/agent/]), AgentSafety and AgentGrants the theorems. What is
      performed on approval is modelled in NodeMaintenance ([service/maintenance/]: cleanups and inspections of
      disks) and RegistryNodes ([service/registry/node_agent_service.go]: pulls on nodes).
    - The platform replaces its own image when a build or a person asks for it: PlatformReleases
      ([service/platform/release_service.go], [api/delivery/platform_handler.go], [k8s/platform.go],
      [store/platform_repository.go]), with the theorems on all schedules in PlatformReleaseSafety.
    - RegistryMirrors has the registry mirrors of the nodes: their definition and verification, the rendering of
      the configuration, the task that writes it to the nodes, the restart of a node and the handlers
      ([mirror_service.go], [node_mirror.go], [image_reference.go], [node_mirror_applier.go],
      [node_k3s_restarter.go] of [service/registry/], [api/delivery/node_registry_mirror_handler.go]).
    - AlertAutomation has the alerts: the webhook, the stored events, the policy that lets an agent runtime
      analyse them, the analysis with the event stream it reads, silences, the cache of resolved alerts and the
      channels that are notified ([service/observability/alerting/], [runtime/chat/sse.go], the endpoints of
      [runtime/adapter.go], [api/system/alerting_handler.go]).

    GoStrings, GoPath, GoBase64, GoTime, Json and JsonText model the parts of the Go standard library the code
    uses ([strings], [strconv], [path], [encoding/base64], [time], [encoding/json]) on byte strings.

    ** How it is modelled

    A function that may fail returns [result], one with effects is a computation [M W A] whose state
    survives an error, as in Go; [x, err := f()] with [err] inspected is [attempt], a wrapped error is
    [wrapping], sentinels and [errors.Is] are [ESent] and [err_is]. A panic is the error tagged "panic". Go maps
    are [gmap], and where Go iterates over a map the code sorts or the order cannot be observed. [uint] is
    [Z] modulo [2^64], [int32] is [Z] with its wrap-around where the code adds. The answer of a handler is its
    result: a value, or the error with the status and message that are written.

    A handler that other requests can disturb is a program whose steps are statements of the database, calls
    of the cluster and commands on nodes (file Interleaving): [interleave] runs a list of such programs under
    any schedule, [alone] runs one to its end. HandlerSteps has what these handlers share. The agent handlers,
    the handlers of sessions and those of the releases of the platform are correct under every schedule, and so
    are the locks of the mirrors and the form of the alerts; those of projects, environments, applications and endpoints are correct
    one after the other, and the lemmas [hierarchy_raced], [routes_raced], [removal_panics],
    [deleted_mirror_restored], [update_restores_running_state], [resolved_alert_fires_again] and
    [alert_analysed_twice] are schedules under which something goes wrong. A goroutine that a handler starts is
    the rest of the handler, and an analysis of an alert a program of its own that the schedule starts. The release path is one
    sequence of statements and API requests; goroutines of other releases are covered in so far as the answers
    of the database and of the API server may depend on anything.

    Code that is not in the repository is a parameter: the name validators and quantities of
    apimachinery ([K8sLibrary]), the cipher ([AesGcm]), digests and password hashes ([Digests]), the source of
    random bytes ([Entropy]), the parsers of image references and URLs ([ImageReferences], [ImageNames],
    [URLParser], [URLs], [MirrorLibrary], [RemoteHead]), the clock and the failures of the database ([Surroundings]), the API server and its
    latencies ([APIServer]), the commands on nodes ([Nodes], [Shell]), Alertmanager, the channels of
    notifications, the secret of the alerting and the runtimes of agents ([Outside]), the reading of certificates (an argument of
    [NewKubernetesAdapter]). The API server answers every request from the whole history of exchanges, so
    other writers, failures and cancellation at any point are included. Theorems that need a documented
    behaviour of such code name it as a hypothesis ([expired_context_fails]: requests fail once their context is
    done; [cipher_opens]: what was sealed opens) and have a witness with a concrete instance.

    Loops over data are structural. The polling loops take fuel [poll_fuel timeout], the seconds of their
    timeout plus two: every iteration but the last receives a tick of a one-second ticker and the first
    iteration after the deadline fails; [waiting_terminates] proves that this is enough. The parser of JSON
    takes twice the length of its text as fuel, and every call but those that read an element consumes a
    character.

    ** What the theorems show

    - end to end: an execution on a cluster writes only objects that carry the manager's label or did
      not exist, and a release that succeeds had every object accepted in order and was observed ready
      ([execution_on_cluster]); an asynchronous execution ends in a terminal status (lemma
      [async_execution_terminates]);
    - specification: sanitising removes every secret, the snapshot decodes to what was stored
      ([sanitize_removes_secrets], [snapshot_roundtrip]);
    - validation accepts exactly the well-formed specifications, stated without the loops of the code
      ([validation_decides_well_formed]), and rendering is total on them ([rendering_total]); mounts, selectors,
      ports, ingress rules and projections of the rendered objects fit together (ReleaseRendering);
    - execution: statuses and calls follow the script whatever fails, retry and rollback replay the right
      snapshot ([execution_order], [execution_outcome] and the lemmas of ReleaseExecution and ReleaseWorkflow);
    - workflow: the prepared release carries the right image, secrets and registry, endpoints are synchronised
      to TCP ports of the service, managed files follow the template ([template_release_prepared],
      [managed_files_follow_template], lemma [endpoints_synchronised]);
    - store: namespaces stay exclusive, template updates are not lost, the default template exists, versions
      of managed files advance once ([template_no_lost_update], lemmas [namespace_exclusive],
      [default_template_exists] and [managed_file_version_cas]);
    - cluster: ownership of every write, order of application, termination of waiting, restoration after a
      failed migration, bounded and redacted diagnostics, claims of an environment
      ([applier_respects_ownership], [apply_in_order], [waiting_terminates], [migration_restores],
      [diagnostics_bounded_and_redacted], [claims_stay_in_their_environment]); and one defect: the kind of
      the workload of a released application cannot be changed ([released_kind_cannot_change]);
    - agents: under every schedule an operation has at most one effect, after an approval, and it is the one
      that was recorded ([operations_execute_once]); the stored operations stay well typed and only move along
      the state machine ([operations_stay_well_formed]); without a grant nothing is recorded or done
      ([ungranted_requests_refused]); grants are replaced all or nothing (lemma [grants_replaced]); what reaches
      the shell of a node is data (lemma [commands_carry_data]) and what comes back is bounded
      (lemma [inspection_bounded]);
    - tokens and sessions: a delegation reads back as its claims while it lives ([delegation_round_trip]); a
      code is exchanged at most once ([handoff_exchanged_once]); what the delegations of a session and of
      an application admit (lemmas [session_delegation_scope], [application_delegation_scope]); and one defect: a
      delegation is accepted as a login ([delegation_substitutes_login]);
    - handlers of applications: no orphans and no shared namespace ([hierarchy_preserved]), no namespace of
      another project is taken ([namespaces_claimed]), what a saved template holds ([template_saved]), no shared
      route ([routes_kept_apart]), the cluster serves what is stored ([endpoints_follow_cluster]), and nothing
      is done for another control plane outside its delegation ([integration_scoped], [managed_config_replaced]);
    - releases of the platform: under every schedule only images of recorded releases reach the one Deployment
      of the platform and no nonce serves twice ([platform_requests_safe]); a build is answered only for a fresh,
      signed request with an allowed image ([deployment_authenticated]); releases only move on
      ([platform_releases_progress]);
    - registry mirrors: a task writes the stored configuration to exactly the chosen nodes and its result is what
      the nodes answered ([mirror_applied]); a mirror has one task at a time and is never left locked, under
      every schedule ([mirror_locks_released]);
    - alerts: under every schedule the stored alerts, the policy, the started analyses and the cache stay well
      formed ([alerts_stay_well_formed]); only who knows the token is heard ([notifications_authenticated]), an
      analysis is started when the policy wants it ([alerts_dispatched_when_due]), and what it may touch and
      send ([analysis_guarded]).

    ** Not modelled

    Routing, decoding of requests and encoding of answers, the release handlers that only call the workflow,
    the read-only views (lists by time of creation, running pods, discovery, dashboards, the read-only handlers
    of agents), the web console and the sockets: they decide nothing, they only pass on what the modelled
    code answers. The registry catalogue, the managed registry, the registry proxy, the inspection of the
    configuration on the nodes, system components, the queries of logs and metrics, the runtimes of agents, and the
    services of networks, certificates, nodes and storage: what they do happens in systems outside the
    repository (a registry, Helm charts, a monitoring stack, DNS, shells on hosts), so that a model would be mostly
    parameters. Of the modelled packages: the data migration of volume claims, the views of ingresses, the ingress
    and certificate of the platform, and uploads of artifacts, for the same reason; the size of a journal,
    which is computed in floating point; the rendering of alerts to cards and mails, their transport
    and the installation of Alertmanager. The depth limit of the JSON decoder (ten thousand levels) is left out. *)
From Stdlib Require Import ZArith.
From stdpp Require Import base sorting pretty numbers gmap strings list.

Declare Scope cylism_scope.
Delimit Scope cylism_scope with cylism.
Create HintDb cylism.
Create Rewrite HintDb cylism_simpl.

(** ** Go errors

    [errors.New] and [fmt.Errorf] without a wrapping verb give [EText]; a package-level sentinel
    ([gorm.ErrRecordNotFound], the Kubernetes NotFound status, [ErrReleaseTemplateRead]) is
    [ESent], identified by its tag; [fmt.Errorf("pre%wpost", cause)] is [EWrap]. *)
Inductive goerr :=
  | EText (text : string)
  | ESent (tag text : string)
  | EWrap (pre : string) (cause : goerr) (post : string).

#[export] Instance goerr_eq_dec : EqDecision goerr.
Proof. solve_decision. Defined.

(** [err.Error()]. *)
Fixpoint err_text (e : goerr) : string :=
  match e with
  | EText t => t
  | ESent _ t => t
  | EWrap pre cause post => pre +:+ err_text cause +:+ post
  end.

(** [errors.Is(err, sentinel)]: the sentinel occurs in the chain of wrapped errors. *)
Fixpoint err_is (tag : string) (e : goerr) : bool :=
  match e with
  | EText _ => false
  | ESent t _ => bool_decide (t = tag)
  | EWrap _ cause _ => err_is tag cause
  end.

(** ** Results: the [(value, error)] pairs of Go *)
Inductive result (A : Type) :=
  | Ok (a : A)
  | Err (e : goerr).
Arguments Ok {A} _.
Arguments Err {A} _.

#[export] Instance result_ret : MRet result := @Ok.
#[export] Instance result_bind : MBind result := λ A B f m,
  match m with Ok a => f a | Err e => Err e end.
#[export] Instance result_fmap : FMap result := λ A B f m,
  match m with Ok a => Ok (f a) | Err e => Err e end.

Definition is_ok {A} (r : result A) : bool := match r with Ok _ => true | Err _ => false end.

(** The value of a successful result. *)
Definition from_ok {A} (d : A) (r : result A) : A := match r with Ok a => a | Err _ => d end.

Lemma from_ok_spec {A} (d : A) (r : result A) : is_ok r = true → r = Ok (from_ok d r).
Proof. by destruct r. Qed.

Lemma result_bind_Ok {A B} (m : result A) (f : A → result B) b :
  m ≫= f = Ok b ↔ ∃ a, m = Ok a ∧ f a = Ok b.
Proof. destruct m; simpl; naive_solver. Qed.

(** [if err != nil { return ..., wrap err }] *)
Definition map_err {A} (f : goerr → goerr) (r : result A) : result A :=
  match r with Ok a => Ok a | Err e => Err (f e) end.

(** ** Stateful fallible code: the state survives an error, as it does in Go *)
Definition M (W A : Type) : Type := W → result A * W.

#[export] Instance M_ret W : MRet (M W) := λ A a w, (Ok a, w).
#[export] Instance M_bind W : MBind (M W) := λ A B f m w,
  match m w with
  | (Ok a, w') => f a w'
  | (Err e, w') => (Err e, w')
  end.

Section monad_operations.
Context {W : Type}.

Definition throw {A} (e : goerr) : M W A := λ w, (Err e, w).
Definition lift {A} (r : result A) : M W A := λ w, (r, w).
Definition gets {A} (f : W → A) : M W A := λ w, (Ok (f w), w).
Definition modify (f : W → W) : M W unit := λ w, (Ok tt, f w).
(** [x, err := m] with [err] inspected by the caller. *)
Definition attempt {A} (m : M W A) : M W (result A) := λ w, let '(r, w') := m w in (Ok r, w').
(** [_ = m] *)
Definition ignore {A} (m : M W A) : M W unit := λ w, (Ok tt, (m w).2).
(** [if err := m; err != nil { return fmt.Errorf(..., err) }] *)
Definition wrapping {A} (f : goerr → goerr) (m : M W A) : M W A :=
  λ w, let '(r, w') := m w in (map_err f r, w').
(** [if err := m; err != nil { return h(err) }] *)
Definition catching {A} (m : M W A) (h : goerr → M W A) : M W A :=
  λ w, match m w with (Ok a, w') => (Ok a, w') | (Err e, w') => h e w' end.
(** [if c { return err }] *)
Definition guard_not (c : bool) (e : goerr) : M W unit := if c then throw e else mret tt.
End monad_operations.

(** ** Inversion of successful computations *)

Section inversion.
Context {W : Type}.

Lemma bind_Ok {A B} (m : M W A) (f : A → M W B) w b w' :
  (m ≫= f) w = (Ok b, w') ↔ ∃ a w1, m w = (Ok a, w1) ∧ f a w1 = (Ok b, w').
Proof.
  unfold mbind, M_bind. destruct (m w) as [[a|e] w1]; split; try done; naive_solver.
Qed.

Lemma wrapping_Ok {A} g (m : M W A) w a w' : wrapping g m w = (Ok a, w') ↔ m w = (Ok a, w').
Proof. unfold wrapping. destruct (m w) as [[|] ?]; simpl; split; congruence. Qed.

Lemma lift_Ok {A} (r : result A) w a (w' : W) : lift r w = (Ok a, w') ↔ r = Ok a ∧ w' = w.
Proof. unfold lift. split; [by intros [= -> ->] | by intros [-> ->]]. Qed.

Lemma guard_not_Ok c e w u (w' : W) : guard_not c e w = (Ok u, w') ↔ c = false ∧ w' = w.
Proof.
  destruct c, u; unfold guard_not, throw; simpl; split.
  - done.
  - by intros [? _].
  - by intros [= ->].
  - by intros [_ ->].
Qed.

Lemma ret_Ok {A} (a b : A) (w w' : W) : (mret a : M W A) w = (Ok b, w') ↔ b = a ∧ w' = w.
Proof. split; [by intros [= -> ->] | by intros [-> ->]]. Qed.
End inversion.

(** [for _, x := range l { if err := f(x); err != nil { return err } }] *)
Fixpoint for_each {W A} (f : A → M W unit) (l : list A) : M W unit :=
  match l with
  | [] => mret tt
  | x :: l => f x ;; for_each f l
  end.

(** ** Hoare triples for [M] *)
Definition triple {W A} (P : W → Prop) (m : M W A) (Q : result A → W → Prop) : Prop :=
  ∀ w, P w → Q (m w).1 (m w).2.

Section triples.
Context {W : Type}.
Implicit Types (P : W → Prop).

Lemma triple_bind {A B} P (m : M W A) (f : A → M W B) R Q :
  triple P m R →
  (∀ a, triple (R (Ok a)) (f a) Q) →
  (∀ e w, R (Err e) w → Q (Err e) w) →
  triple P (m ≫= f) Q.
Proof.
  intros Hm Hf He w Hw. specialize (Hm w Hw). unfold mbind, M_bind.
  destruct (m w) as [[a|e] w']; [by apply Hf | by apply He].
Qed.

Lemma triple_weaken {A} P P' (m : M W A) (Q Q' : result A → W → Prop) :
  triple P' m Q' → (∀ w, P w → P' w) → (∀ r w, Q' r w → Q r w) → triple P m Q.
Proof. intros H HP HQ w Hw. apply HQ, H, HP, Hw. Qed.

Lemma triple_ret {A} P (a : A) (Q : result A → W → Prop) :
  (∀ w, P w → Q (Ok a) w) → triple P (mret a) Q.
Proof. intros H w Hw. by apply H. Qed.

Lemma triple_throw {A} P e (Q : result A → W → Prop) :
  (∀ w, P w → Q (Err e) w) → triple P (throw e) Q.
Proof. intros H w Hw. by apply H. Qed.

Lemma triple_catching {A} P (m : M W A) h R (Q : result A → W → Prop) :
  triple P m R →
  (∀ a w, R (Ok a) w → Q (Ok a) w) →
  (∀ e, triple (R (Err e)) (h e) Q) →
  triple P (catching m h) Q.
Proof.
  intros Hm Ha He w Hw. specialize (Hm w Hw). unfold catching.
  destruct (m w) as [[a|e] w']; [by apply Ha | by apply He].
Qed.

(** An invariant every step of a computation preserves, whatever it returns. *)
Definition keeps {A} P (m : M W A) : Prop := triple P m (λ _, P).

Lemma keeps_bind {A B} P (m : M W A) (f : A → M W B) :
  keeps P m → (∀ a, keeps P (f a)) → keeps P (m ≫= f).
Proof. intros Hm Hf. eapply triple_bind; [exact Hm | intros a; apply Hf | done]. Qed.

Lemma keeps_ret {A} P (a : A) : keeps P (mret a).
Proof. by apply triple_ret. Qed.

Lemma keeps_throw {A} P e : keeps P (throw (A := A) e).
Proof. by apply triple_throw. Qed.

Lemma keeps_lift {A} P (r : result A) : keeps P (lift r).
Proof. by intros w Hw. Qed.

Lemma keeps_gets {A} P (f : W → A) : keeps P (gets f).
Proof. by intros w Hw. Qed.

Lemma keeps_attempt {A} P (m : M W A) : keeps P m → keeps P (attempt m).
Proof. intros Hm w Hw. specialize (Hm w Hw). unfold attempt. by destruct (m w). Qed.

Lemma keeps_ignore {A} P (m : M W A) : keeps P m → keeps P (ignore m).
Proof. intros Hm w Hw. apply (Hm w Hw). Qed.

Lemma keeps_wrapping {A} P f (m : M W A) : keeps P m → keeps P (wrapping f m).
Proof. intros Hm w Hw. specialize (Hm w Hw). unfold wrapping. by destruct (m w). Qed.

Lemma keeps_catching {A} P (m : M W A) h :
  keeps P m → (∀ e, keeps P (h e)) → keeps P (catching m h).
Proof. intros Hm Hh. eapply triple_catching; [exact Hm | done | apply Hh]. Qed.

Lemma keeps_guard_not P c e : keeps P (guard_not c e).
Proof. destruct c; [apply keeps_throw | apply keeps_ret]. Qed.

Lemma keeps_for_each {A} P (f : A → M W unit) l :
  (∀ x, x ∈ l → keeps P (f x)) → keeps P (for_each f l).
Proof.
  induction l as [|x l IH]; intros Hf; [apply keeps_ret|].
  apply keeps_bind; [apply Hf; left | intros _; apply IH; intros y Hy; apply Hf; by right].
Qed.
End triples.

#[export] Hint Resolve keeps_bind keeps_ret keeps_throw keeps_lift keeps_gets keeps_attempt
  keeps_ignore keeps_wrapping keeps_catching keeps_guard_not : cylism.

(** ** Machine integers and decimals *)

(** [uint] is 64 bits wide on every platform the manager is built for. *)
Definition u64 (z : Z) : Z := z `mod` 2 ^ 64.
Definition is_u64 (z : Z) : Prop := (0 ≤ z < 2 ^ 64)%Z.
Definition is_i32 (z : Z) : Prop := (- 2 ^ 31 ≤ z < 2 ^ 31)%Z.
Definition is_i64 (z : Z) : Prop := (- 2 ^ 63 ≤ z < 2 ^ 63)%Z.
#[export] Instance is_i64_dec z : Decision (is_i64 z) := _.
#[export] Instance is_u64_dec z : Decision (is_u64 z) := _.
#[export] Instance is_i32_dec z : Decision (is_i32 z) := _.

Lemma u64_small z : is_u64 z → u64 z = z.
Proof. intros Hz. apply Z.mod_small, Hz. Qed.

Lemma u64_range z : is_u64 (u64 z).
Proof. apply Z.mod_pos_bound. lia. Qed.

(** [fmt.Sprintf("%d", z)] *)
Definition dec (z : Z) : string := pretty z.
(** [fmt.Sprintf("%d", i)] for a slice index *)
Definition dec_nat (n : nat) : string := pretty n.

(** ** Lists walked with a [seen] set *)
Section dedup.
Context {A K : Type} `{Countable K} (key : A → K).

(** [if _, ok := seen[k]; ok { continue }; seen[k] = struct{}{}; out = append(out, x)] *)
Fixpoint dedup_from (seen : gset K) (l : list A) : list A :=
  match l with
  | [] => []
  | x :: l =>
      if decide (key x ∈ seen) then dedup_from seen l
      else x :: dedup_from ({[key x]} ∪ seen) l
  end.
Definition dedup_by (l : list A) : list A := dedup_from ∅ l.

Lemma dedup_from_fresh seen l x : x ∈ dedup_from seen l → (key x ∉ seen) ∧ x ∈ l.
Proof.
  revert seen. induction l as [|y l IH]; intros seen; simpl; [by intros ?%not_elem_of_nil|].
  rewrite elem_of_cons. case_decide as Hy; [|rewrite elem_of_cons].
  - intros Hx. apply IH in Hx as [??]. auto.
  - intros [->|Hx]; [by auto|]. apply IH in Hx as [??]. split; [set_solver | by right].
Qed.

Lemma dedup_by_subset l x : x ∈ dedup_by l → x ∈ l.
Proof. by intros [_ ?]%dedup_from_fresh. Qed.

Lemma dedup_by_NoDup l : NoDup (key <$> dedup_by l).
Proof.
  unfold dedup_by. generalize (∅ : gset K) as seen.
  induction l as [|x l IH]; intros seen; simpl; [constructor|].
  case_decide; [apply IH|]. rewrite fmap_cons. constructor; [|apply IH].
  intros (y & Hxy & [Hy _]%dedup_from_fresh)%list_elem_of_fmap. set_solver.
Qed.

Lemma dedup_from_covers seen l x :
  x ∈ l → key x ∈ seen ∨ ∃ y, y ∈ dedup_from seen l ∧ key y = key x.
Proof.
  revert seen. induction l as [|z l IH]; intros seen; [by intros ?%not_elem_of_nil|].
  intros [->|Hx]%elem_of_cons; simpl; case_decide as Hz; auto.
  - right. exists z. split; [left | done].
  - destruct (IH ({[key z]} ∪ seen) Hx) as [[Hk%elem_of_singleton|?]%elem_of_union|(y & ? & ?)].
    + right. exists z. split; [left | done].
    + by left.
    + right. exists y. split; [by right | done].
Qed.

Lemma dedup_by_covers l x : x ∈ l → ∃ y, y ∈ dedup_by l ∧ key y = key x.
Proof. intros Hx. destruct (dedup_from_covers ∅ l x Hx); [set_solver | done]. Qed.

Lemma dedup_from_id seen l :
  NoDup (key <$> l) → (∀ x, x ∈ l → key x ∉ seen) → dedup_from seen l = l.
Proof.
  revert seen. induction l as [|x l IH]; intros seen Hnd Hs; simpl; [done|].
  rewrite fmap_cons in Hnd. apply NoDup_cons in Hnd as [Hx Hnd].
  case_decide as Hk; [destruct (Hs x); [left | done]|]. f_equal. apply IH; [done|].
  intros y Hy [Hyx%elem_of_singleton|Hys]%elem_of_union.
  - apply Hx. rewrite <-Hyx. by apply list_elem_of_fmap_2.
  - by apply (Hs y); [right|].
Qed.

Lemma dedup_by_id l : NoDup (key <$> l) → dedup_by l = l.
Proof. intros Hl. apply dedup_from_id; [done | set_solver]. Qed.

Lemma dedup_by_idem l : dedup_by (dedup_by l) = dedup_by l.
Proof. apply dedup_by_id, dedup_by_NoDup. Qed.

Lemma dedup_from_snoc seen l x :
  dedup_from seen (l ++ [x]) =
  dedup_from seen l ++ if decide (key x ∈ seen ∨ key x ∈ key <$> l) then [] else [x].
Proof.
  revert seen. induction l as [|y l IH]; intros seen; cbn [dedup_from app].
  - case_decide; [rewrite decide_True by auto | rewrite decide_False by set_solver]; done.
  - rewrite !fmap_cons. destruct (decide (key y ∈ seen)) as [Hy|Hy]; rewrite IH.
    + f_equal. apply decide_ext. rewrite elem_of_cons.
      split; [tauto|]. intros [?|[Hk|?]]; [tauto | left; by rewrite Hk | tauto].
    + simpl. do 2 f_equal. apply decide_ext.
      rewrite elem_of_union, elem_of_singleton, elem_of_cons. tauto.
Qed.

Lemma dedup_by_snoc l x :
  dedup_by (l ++ [x]) = dedup_by l ++ if decide (key x ∈ key <$> l) then [] else [x].
Proof. unfold dedup_by. rewrite dedup_from_snoc. f_equal. apply decide_ext. set_solver. Qed.

Lemma dedup_by_keys l k : k ∈ key <$> dedup_by l ↔ k ∈ key <$> l.
Proof.
  rewrite !list_elem_of_fmap. split.
  - intros (x & -> & Hx). exists x. split; [done | by eapply dedup_by_subset].
  - intros (x & -> & Hx). destruct (dedup_by_covers l x Hx) as (y & ? & ?). by exists y.
Qed.

(** The elements with the key of [x]. *)
Definition same_key_as (x : A) (l : list A) : list A := filter (λ y, key y = key x) l.

(** An element kept by [dedup_by] is the first one of its key. *)
Lemma dedup_by_head l x : x ∈ dedup_by l → head (same_key_as x l) = Some x.
Proof.
  unfold dedup_by, same_key_as. generalize (∅ : gset K) as seen.
  induction l as [|y l IH]; intros seen; cbn [dedup_from]; [by intros ?%not_elem_of_nil|].
  destruct (decide (key y ∈ seen)) as [Hy|Hy].
  - intros Hx. pose proof (dedup_from_fresh _ _ _ Hx) as [Hxs _].
    rewrite filter_cons_False by (intros Heq; congruence). by eapply IH.
  - intros [->|Hx]%elem_of_cons; [by rewrite filter_cons_True|].
    pose proof (dedup_from_fresh _ _ _ Hx) as [Hxs _].
    rewrite filter_cons_False by set_solver. by eapply IH.
Qed.

Lemma same_key_as_tail l x :
  x ∈ dedup_by l → same_key_as x l = x :: tail (same_key_as x l).
Proof. intros Hx%dedup_by_head. destruct (same_key_as x l); by simplify_eq/=. Qed.

Lemma dedup_by_key_inj l x y :
  x ∈ dedup_by l → y ∈ dedup_by l → key x = key y → x = y.
Proof.
  intros Hx%dedup_by_head Hy%dedup_by_head Hk. unfold same_key_as in *. rewrite Hk in Hx. congruence.
Qed.
End dedup.

(** ** Slices grouped through an index map

    [if i, ok := index[k]; ok { add(groups[i], x) } else { index[k] = len(groups); groups =
    append(groups, new(x)) }] *)
Section grouping.
Context {A K G : Type} `{Countable K} (key : A → K) (new : A → G) (add : A → G → G).

Definition group_step (st : list G * gmap K nat) (x : A) : list G * gmap K nat :=
  let '(groups, index) := st in
  match index !! key x with
  | Some i => (alter (add x) i groups, index)
  | None => (groups ++ [new x], <[key x := length groups]> index)
  end.
Definition group_fold (l : list A) : list G * gmap K nat := foldl group_step ([], ∅) l.

(** The group of a key: its first element opens it, the others are added in order. *)
Definition open_group (l : list A) (x : A) : G :=
  foldl (λ g y, add y g) (new x) (tail (same_key_as key x l)).

Lemma open_group_snoc_other l x d : key d ≠ key x → open_group (l ++ [x]) d = open_group l d.
Proof.
  intros Hne. unfold open_group, same_key_as. rewrite filter_app, filter_cons_False by congruence.
  by rewrite filter_nil, app_nil_r.
Qed.

Lemma open_group_snoc_same l x d : key d = key x → d ∈ l →
  open_group (l ++ [x]) d = add x (open_group l d).
Proof.
  intros Hk Hd. unfold open_group, same_key_as. rewrite filter_app, filter_cons_True by congruence.
  rewrite filter_nil. assert (Hin : d ∈ filter (λ y, key y = key d) l) by by apply list_elem_of_filter.
  destruct (filter (λ y, key y = key d) l) as [|y ys]; [by apply not_elem_of_nil in Hin|].
  simpl. by rewrite foldl_app.
Qed.

Lemma open_group_snoc_new l x : key x ∉ key <$> l → open_group (l ++ [x]) x = new x.
Proof.
  intros Hx. unfold open_group, same_key_as. rewrite filter_app, filter_cons_True by done.
  rewrite filter_nil. destruct (filter (λ y, key y = key x) l) as [|y ys] eqn:Hf; [done|].
  assert (y ∈ filter (λ y, key y = key x) l) as [Hk Hy]%list_elem_of_filter by (rewrite Hf; left).
  destruct Hx. rewrite <-Hk. by apply list_elem_of_fmap_2.
Qed.

(** The loop computes the groups of the distinct keys, in the order of their first elements. *)
Lemma group_fold_spec l :
  (group_fold l).1 = open_group l <$> dedup_by key l ∧
  (∀ k i, (group_fold l).2 !! k = Some i ↔ (key <$> dedup_by key l) !! i = Some k).
Proof.
  unfold group_fold. induction l as [|x l [IHg IHi]] using rev_ind.
  { split; [done|]. intros k i. simpl. by rewrite lookup_empty, lookup_nil. }
  rewrite foldl_app, dedup_by_snoc. cbn [foldl].
  destruct (foldl group_step ([], ∅) l) as [groups index]. unfold group_step. cbn [fst snd] in IHg, IHi. subst groups.
  destruct (index !! key x) as [i|] eqn:Hi; cbn [fst snd].
  - apply IHi in Hi as Hki. rewrite decide_True by (rewrite <-dedup_by_keys; by eapply list_elem_of_lookup_2).
    rewrite app_nil_r. split; [|exact IHi]. apply list_eq. intros j. rewrite list_lookup_fmap.
    apply list_lookup_fmap_Some in Hki as (d & Hdx & Hd).
    destruct (decide (j = i)) as [->|Hj].
    + rewrite list_lookup_alter_eq, list_lookup_fmap, Hd. simpl. f_equal.
      symmetry. apply open_group_snoc_same; [done|]. eapply dedup_by_subset, list_elem_of_lookup_2, Hd.
    + rewrite list_lookup_alter_ne, list_lookup_fmap by done.
      destruct (dedup_by key l !! j) as [e|] eqn:He; [|done]. simpl. f_equal.
      symmetry. apply open_group_snoc_other. intros Hex. apply Hj.
      apply (NoDup_lookup (key <$> dedup_by key l) j i (key x)); [apply dedup_by_NoDup|..];
        rewrite list_lookup_fmap; [by rewrite He, <-Hex | by rewrite Hd, Hdx].
  - assert (Hx : key x ∉ key <$> l).
    { rewrite <-dedup_by_keys. intros [i Hk]%list_elem_of_lookup. apply IHi in Hk. congruence. }
    rewrite decide_False by done. split.
    + rewrite fmap_app. simpl. rewrite open_group_snoc_new by done. f_equal.
      apply list_fmap_ext. intros j d Hd. symmetry. apply open_group_snoc_other.
      intros Hk. apply Hx. rewrite <-Hk, <-dedup_by_keys.
      by apply list_elem_of_fmap_2, (list_elem_of_lookup_2 _ j).
    + intros k i. rewrite fmap_app, length_fmap. destruct (decide (k = key x)) as [->|Hk].
      * rewrite lookup_insert_eq. split.
        -- intros [= <-]. rewrite lookup_app_r by (by rewrite length_fmap).
           by rewrite length_fmap, Nat.sub_diag.
        -- intros Hl. destruct (decide (i < length (key <$> dedup_by key l))) as [Hlt|Hge].
           { rewrite lookup_app_l in Hl by done. apply IHi in Hl. congruence. }
           rewrite lookup_app_r in Hl by lia.
           destruct (i - length (key <$> dedup_by key l)) eqn:He; [|done].
           rewrite length_fmap in *. f_equal. lia.
      * rewrite lookup_insert_ne, IHi by done. split.
        -- intros Hl. by apply lookup_app_l_Some.
        -- intros [Hl|[Hlen Hl]]%lookup_app_Some; [done|].
           destruct (i - length (key <$> dedup_by key l)); by simplify_eq/=.
Qed.
End grouping.

(** ** Sorted strings: [sort.Strings] and the key order of [encoding/json] *)
Definition sort_strings (l : list string) : list string := merge_sort String.le l.

Lemma elem_of_sort_strings l x : x ∈ sort_strings l ↔ x ∈ l.
Proof. unfold sort_strings. by rewrite merge_sort_Permutation. Qed.

Lemma sort_strings_sorted l : StronglySorted String.le (sort_strings l).
Proof. apply StronglySorted_merge_sort; apply _. Qed.

Lemma sort_strings_Permutation l : sort_strings l ≡ₚ l.
Proof. apply merge_sort_Permutation. Qed.

(** [keys := ...; for key := range m { keys = append(keys, key) }; sort.Strings(keys)] *)
Definition sorted_keys {A} (m : gmap string A) : list string := sort_strings (map_to_list m).*1.

Lemma elem_of_sorted_keys {A} (m : gmap string A) k : k ∈ sorted_keys m ↔ is_Some (m !! k).
Proof.
  unfold sorted_keys. rewrite elem_of_sort_strings, list_elem_of_fmap. split.
  - intros ([k' a] & -> & Hk%elem_of_map_to_list). by exists a.
  - intros [a Ha]. exists (k, a). split; [done | by apply elem_of_map_to_list].
Qed.

Lemma sorted_keys_NoDup {A} (m : gmap string A) : NoDup (sorted_keys m).
Proof.
  unfold sorted_keys. rewrite sort_strings_Permutation. apply NoDup_fst_map_to_list.
Qed.

(** ** The first element that satisfies a test *)
Definition find_first {A} (f : A → bool) (l : list A) : option A := List.find f l.

Lemma find_first_Some {A} (f : A → bool) l x :
  find_first f l = Some x → x ∈ l ∧ f x = true.
Proof. intros [??]%List.find_some. by rewrite list_elem_of_In. Qed.

Lemma find_first_None {A} (f : A → bool) l :
  find_first f l = None ↔ ∀ x, x ∈ l → f x = false.
Proof.
  split.
  - intros H x Hx%list_elem_of_In. by eapply List.find_none.
  - intros H. unfold find_first. induction l as [|y l IH]; simpl; [done|].
    rewrite (H y) by left. apply IH. intros x ?. apply H. by right.
Qed.

(** The element found is the first of the list that satisfies the test. *)
Lemma find_first_split {A} (f : A → bool) l x :
  find_first f l = Some x ↔
  ∃ l1 l2, l = l1 ++ x :: l2 ∧ f x = true ∧ ∀ y, y ∈ l1 → f y = false.
Proof.
  unfold find_first. induction l as [|z l IH]; simpl.
  - split; [done | by intros ([] & ? & ? & _)].
  - destruct (f z) eqn:Hz.
    + split.
      * intros [= <-]. exists [], l. split_and!; [done..|]. by intros ? ?%not_elem_of_nil.
      * intros ([|y l1] & l2 & Heq & Hx & Hl1); simplify_eq/=; [done|].
        specialize (Hl1 y ltac:(left)). congruence.
    + rewrite IH. split.
      * intros (l1 & l2 & -> & Hx & Hl1). exists (z :: l1), l2. split_and!; [done..|].
        intros y [->|Hy]%elem_of_cons; [done | by apply Hl1].
      * intros ([|y l1] & l2 & Heq & Hx & Hl1); simplify_eq/=; [congruence|].
        exists l1, l2. split_and!; [done..|]. intros w Hw. apply Hl1. by right.
Qed.

(** ** Tactics *)

(** Case analysis on the scrutinees of a hypothesis, closing the contradictory branches. *)
Ltac inv_match H :=
  repeat match type of H with
  | context [match ?x with _ => _ end] => destruct x eqn:?; simplify_eq/=; try done
  end.

(** Decide a [bool_decide], [decide] or boolean test of the goal. *)
Ltac split_tests := repeat (case_bool_decide || case_decide || case_match); simplify_eq/=.
