(* ===== verification/GoStrings.v ===== *)
(** * Go strings

    Go strings are byte sequences: they are modelled as [string], a list of 8-bit characters, so
    [String.length] is [len]. This file holds the operations of the packages [strings] and [fmt]
    the modelled code uses, each executable, with the lemmas the components share. The Unicode
    tables are reduced to what the code can observe: [trim_space] knows every multi-byte white
    space of [unicode.IsSpace]; [to_lower] and [to_upper] map ASCII letters and the non-ASCII runes
    whose image is an ASCII letter, so comparing their result with an ASCII literal is exact. *)
From Stdlib Require Import ZArith Ascii String.
From stdpp Require Import base sorting pretty numbers gmap strings list.
From S2P Require Import Prelude.

Abbreviation chars := list_ascii_of_string (only parsing).
Abbreviation of_chars := string_of_list_ascii (only parsing).

(** ** Appending, prefixes and suffixes *)

Lemma app_str_nil_r (s : string) : s +:+ "" = s.
Proof. induction s as [|c s IH]; [done|]. change (String c (s +:+ "") = String c s). by rewrite IH. Qed.

Lemma app_str_assoc (a b c : string) : a +:+ (b +:+ c) = (a +:+ b) +:+ c.
Proof.
  induction a as [|x a IH]; [done|].
  change (String x (a +:+ (b +:+ c)) = String x ((a +:+ b) +:+ c)). by rewrite IH.
Qed.

Lemma chars_app (a b : string) : chars (a +:+ b) = chars a ++ chars b.
Proof. induction a as [|x a IH]; [done|]. simpl. f_equal. apply IH. Qed.

Lemma of_chars_app (a b : list ascii) : of_chars (a ++ b) = of_chars a +:+ of_chars b.
Proof.
  induction a as [|x a IH]; [done|]. simpl. rewrite IH. done.
Qed.

Lemma chars_inj (a b : string) : chars a = chars b → a = b.
Proof.
  intros H. rewrite <-(string_of_list_ascii_of_string a), H. apply string_of_list_ascii_of_string.
Qed.

Lemma length_str_app (a b : string) : String.length (a +:+ b) = String.length a + String.length b.
Proof. induction a as [|x a IH]; [done|]. change (S (String.length (a +:+ b)) = S (String.length a) + String.length b). by rewrite IH. Qed.

(** [strings.HasPrefix(s, p)] *)
Fixpoint has_prefix (p s : string) : bool :=
  match p, s with
  | EmptyString, _ => true
  | String c p, String d s => if decide (c = d) then has_prefix p s else false
  | String _ _, EmptyString => false
  end.

(** [s[n:]] *)
Fixpoint drop_str (n : nat) (s : string) : string :=
  match n, s with
  | S n, String _ s => drop_str n s
  | _, _ => s
  end.

(** [s[:n]] *)
Fixpoint take_str (n : nat) (s : string) : string :=
  match n, s with
  | S n, String c s => String c (take_str n s)
  | _, _ => EmptyString
  end.

Lemma has_prefix_spec p s : has_prefix p s = true ↔ ∃ r, s = p +:+ r.
Proof.
  revert s. induction p as [|c p IH]; intros s; simpl.
  - split; [by exists s | done].
  - destruct s as [|d s]; [split; [done | intros [r [=]]]|]. case_decide as Hcd; subst.
    + rewrite IH. split; intros [r Hr].
      * exists r. by rewrite Hr.
      * exists r. by injection Hr.
    + split; [done | intros [r [=]]]. congruence.
Qed.

Lemma has_prefix_app p r : has_prefix p (p +:+ r) = true.
Proof. apply has_prefix_spec. by exists r. Qed.

Lemma drop_str_app p r : drop_str (String.length p) (p +:+ r) = r.
Proof. induction p as [|c p IH]; [by destruct r | exact IH]. Qed.

(** [strings.TrimPrefix(s, p)] *)
Definition trim_prefix (s p : string) : string :=
  if has_prefix p s then drop_str (String.length p) s else s.

Lemma trim_prefix_app p r : trim_prefix (p +:+ r) p = r.
Proof. unfold trim_prefix. by rewrite has_prefix_app, drop_str_app. Qed.

(** [strings.HasSuffix(s, x)] *)
Definition has_suffix (x s : string) : bool :=
  bool_decide (String.length x ≤ String.length s) &&
  bool_decide (drop_str (String.length s - String.length x) s = x).

(** [strings.TrimSuffix(s, x)] *)
Definition trim_suffix (s x : string) : string :=
  if has_suffix x s then take_str (String.length s - String.length x) s else s.

Lemma take_drop_str n s : take_str n s +:+ drop_str n s = s.
Proof.
  revert s. induction n as [|n IH]; intros [|c s]; try done.
  change (String c (take_str n s +:+ drop_str n s) = String c s). by rewrite IH.
Qed.

Lemma length_take_str n s : String.length (take_str n s) = Nat.min n (String.length s).
Proof. revert s. induction n as [|n IH]; intros [|c s]; simpl; [done..|]. by rewrite IH. Qed.
Lemma take_str_app a b : take_str (String.length a) (a +:+ b) = a.
Proof.
  induction a as [|c a IH]; [by destruct b|].
  change (String c (take_str (String.length a) (a +:+ b)) = String c a). by rewrite IH.
Qed.

Lemma has_suffix_spec x s : has_suffix x s = true ↔ ∃ r, s = r +:+ x.
Proof.
  unfold has_suffix. rewrite andb_true_iff, !bool_decide_eq_true. split.
  - intros [_ H]. exists (take_str (String.length s - String.length x) s).
    rewrite <-(take_drop_str (String.length s - String.length x) s) at 1. by rewrite H.
  - intros [r ->]. rewrite length_str_app. split; [lia|].
    replace (String.length r + String.length x - String.length x) with (String.length r) by lia.
    apply drop_str_app.
Qed.

Lemma trim_suffix_app r x : trim_suffix (r +:+ x) x = r.
Proof.
  unfold trim_suffix. rewrite (proj2 (has_suffix_spec x (r +:+ x))) by by exists r.
  rewrite length_str_app.
  replace (String.length r + String.length x - String.length x) with (String.length r) by lia.
  apply take_str_app.
Qed.

(** ** Searching *)

(** [strings.ContainsRune] for an ASCII character *)
Fixpoint contains_char (c : ascii) (s : string) : bool :=
  match s with
  | EmptyString => false
  | String d s => bool_decide (c = d) || contains_char c s
  end.

(** [strings.ContainsAny(s, cs)] for ASCII [cs] *)
Fixpoint contains_any (s cs : string) : bool :=
  match s with
  | EmptyString => false
  | String d s => contains_char d cs || contains_any s cs
  end.

(** [strings.Contains(s, sub)] *)
Fixpoint contains (s sub : string) : bool :=
  has_prefix sub s ||
  match s with
  | EmptyString => false
  | String _ s => contains s sub
  end.

Lemma contains_char_spec c s : contains_char c s = true ↔ c ∈ chars s.
Proof.
  induction s as [|d s IH]; simpl; [set_solver|].
  rewrite orb_true_iff, bool_decide_eq_true, IH, elem_of_cons. done.
Qed.

Lemma contains_char_app c a b : contains_char c (a +:+ b) = contains_char c a || contains_char c b.
Proof.
  apply eq_bool_prop_intro. rewrite orb_True, !Is_true_true, !contains_char_spec, chars_app.
  apply elem_of_app.
Qed.

Lemma contains_spec s sub : contains s sub = true ↔ ∃ a b, s = a +:+ sub +:+ b.
Proof.
  induction s as [|c s IH]; simpl; rewrite orb_true_iff, has_prefix_spec.
  - split; [|intros (a & b & H)].
    + intros [[r ->]|?]; [exists "", r|]; done.
    + left. destruct a; [by exists b | done].
  - rewrite IH. split.
    + intros [[r Hr]|(a & b & ->)]; [by exists "", r | by exists (String c a), b].
    + intros ([|d a] & b & H); [left; by exists b|]. right. exists a, b. by injection H.
Qed.

(** [strings.LastIndex(s, "c") + 1], the length of the text up to the last [c] included *)
Fixpoint after_last_from (c : ascii) (i acc : nat) (s : string) : nat :=
  match s with
  | EmptyString => acc
  | String d s => after_last_from c (S i) (if decide (c = d) then S i else acc) s
  end.
Definition after_last (c : ascii) (s : string) : nat := after_last_from c 0 0 s.

(** ** Trimming *)

(** [unicode.IsSpace] on the rune at the head of the bytes: its width, or 0. *)
Definition code (c : ascii) : N := N_of_ascii c.
Definition space1 (c : ascii) : bool :=
  let n := code c in ((9 <=? n) && (n <=? 13) || (n =? 32))%N.
Definition space2 (a b : ascii) : bool :=
  ((code a =? 194) && ((code b =? 133) || (code b =? 160)))%N.
Definition space3 (a b c : ascii) : bool :=
  let '(x, y, z) := (code a, code b, code c) in
  ((x =? 225) && (y =? 154) && (z =? 128)
   || (x =? 226) && (y =? 128) && (((128 <=? z) && (z <=? 138)) || (z =? 168) || (z =? 169) || (z =? 175))
   || (x =? 226) && (y =? 129) && (z =? 159)
   || (x =? 227) && (y =? 128) && (z =? 128))%N.

Definition space_width (l : list ascii) : nat :=
  match l with
  | [] => 0
  | a :: l =>
      if space1 a then 1 else
      match l with
      | [] => 0
      | b :: l =>
          if space2 a b then 2 else
          match l with
          | [] => 0
          | c :: _ => if space3 a b c then 3 else 0
          end
      end
  end.

(** The same for the last rune, on the reversed bytes. *)
Definition space_width_rev (l : list ascii) : nat :=
  match l with
  | [] => 0
  | a :: l =>
      if space1 a then 1 else
      match l with
      | [] => 0
      | b :: l =>
          if space2 b a then 2 else
          match l with
          | [] => 0
          | c :: _ => if space3 c b a then 3 else 0
          end
      end
  end.

Section strip.
Variable width : list ascii → nat.

Fixpoint strip_fuel (fuel : nat) (l : list ascii) : list ascii :=
  match fuel with
  | 0 => l
  | S fuel => match width l with 0 => l | S k => strip_fuel fuel (drop (S k) l) end
  end.
(** Every round removes at least one byte, so the length is enough fuel. *)
Definition strip (l : list ascii) : list ascii := strip_fuel (List.length l) l.

Lemma strip_fuel_done fuel l :
  width [] = 0 → List.length l ≤ fuel → width (strip_fuel fuel l) = 0.
Proof.
  intros Hnil. revert l. induction fuel as [|fuel IH]; intros l Hl; simpl.
  - by destruct l; [|simpl in Hl; lia].
  - destruct (width l) as [|k] eqn:Hw; [done|]. apply IH.
    rewrite length_drop. destruct l; simpl in *; lia.
Qed.

Lemma strip_done l : width [] = 0 → width (strip l) = 0.
Proof. intros. by apply strip_fuel_done. Qed.

Lemma strip_fuel_id fuel l : width l = 0 → strip_fuel fuel l = l.
Proof. intros Hw. destruct fuel; simpl; by rewrite ?Hw. Qed.

Lemma strip_suffix l : strip l `suffix_of` l.
Proof.
  unfold strip. generalize (List.length l) as fuel. intros fuel. revert l.
  induction fuel as [|fuel IH]; intros l; simpl; [done|].
  destruct (width l) as [|k]; [done|].
  etrans; [apply IH|]. exists (take (S k) l). by rewrite take_drop.
Qed.
End strip.

Definition trim_left_chars (l : list ascii) : list ascii := strip space_width l.
Definition trim_right_chars (l : list ascii) : list ascii :=
  reverse (strip space_width_rev (reverse l)).

(** [strings.TrimSpace(s)] *)
Definition trim_space (s : string) : string :=
  of_chars (trim_right_chars (trim_left_chars (chars s))).

Lemma space_width_prefix l l' : l `prefix_of` l' → space_width l' = 0 → space_width l = 0.
Proof.
  intros [k ->]. destruct l as [|a [|b [|c l]]]; simpl; try done; repeat case_match; done.
Qed.

Lemma trim_right_prefix l : trim_right_chars l `prefix_of` l.
Proof.
  unfold trim_right_chars. rewrite <-(reverse_involutive l) at 2.
  apply prefix_suffix_reverse. rewrite !reverse_involutive. apply strip_suffix.
Qed.

Lemma trim_space_idem s : trim_space (trim_space s) = trim_space s.
Proof.
  unfold trim_space. rewrite list_ascii_of_string_of_list_ascii. f_equal.
  set (l := trim_left_chars (chars s)).
  assert (Hl : space_width l = 0) by by apply strip_done.
  unfold trim_left_chars at 1, strip. rewrite strip_fuel_id
    by (eapply space_width_prefix; [apply trim_right_prefix | exact Hl]).
  unfold trim_right_chars at 1, strip at 1. rewrite strip_fuel_id; [by rewrite reverse_involutive|].
  unfold trim_right_chars. rewrite reverse_involutive. by apply strip_done.
Qed.

(** [strings.Trim(s, cutset)] for a single ASCII character *)
Fixpoint trim_left_char (c : ascii) (l : list ascii) : list ascii :=
  match l with
  | d :: l' => if decide (c = d) then trim_left_char c l' else l
  | [] => []
  end.
Definition trim_char (c : ascii) (s : string) : string :=
  of_chars (reverse (trim_left_char c (reverse (trim_left_char c (chars s))))).

(** ** Case mapping *)

Definition is_upper (c : ascii) : bool := (65 <=? code c)%N && (code c <=? 90)%N.
Definition is_lower (c : ascii) : bool := (97 <=? code c)%N && (code c <=? 122)%N.
Definition lower_char (c : ascii) : ascii :=
  if is_upper c then ascii_of_N (code c + 32) else c.
Definition upper_char (c : ascii) : ascii :=
  if is_lower c then ascii_of_N (code c - 32) else c.

(** [strings.ToLower(s)]: besides A-Z, U+0130 maps to [i] and U+212A (Kelvin) to [k]. *)
Fixpoint lower_chars (l : list ascii) : list ascii :=
  match l with
  | [] => []
  | a :: l1 =>
      match l1 with
      | b :: l2 =>
          if ((code a =? 196) && (code b =? 176))%N then "i"%char :: lower_chars l2 else
          match l2 with
          | c :: l3 =>
              if ((code a =? 226) && (code b =? 132) && (code c =? 170))%N
              then "k"%char :: lower_chars l3
              else lower_char a :: lower_chars l1
          | [] => lower_char a :: lower_chars l1
          end
      | [] => [lower_char a]
      end
  end.
Definition to_lower (s : string) : string := of_chars (lower_chars (chars s)).

(** [strings.ToUpper(s)]: besides a-z, U+0131 maps to [I] and U+017F to [S]. *)
Fixpoint upper_chars (l : list ascii) : list ascii :=
  match l with
  | [] => []
  | a :: l1 =>
      match l1 with
      | b :: l2 =>
          if ((code a =? 196) && (code b =? 177))%N then "I"%char :: upper_chars l2 else
          if ((code a =? 197) && (code b =? 191))%N then "S"%char :: upper_chars l2 else
          upper_char a :: upper_chars l1
      | [] => [upper_char a]
      end
  end.
Definition to_upper (s : string) : string := of_chars (upper_chars (chars s)).

(** ** Replacing, joining, splitting *)

(** [strings.ReplaceAll(s, old, new)] for a non-empty [old]: scan left to right, without overlap. *)
Fixpoint replace_from (old new : string) (skip : nat) (s : string) : string :=
  match s with
  | EmptyString => EmptyString
  | String c s' =>
      match skip with
      | S skip => replace_from old new skip s'
      | 0 =>
          if has_prefix old s then new +:+ replace_from old new (String.length old - 1) s'
          else String c (replace_from old new 0 s')
      end
  end.
Definition replace_all (s old new : string) : string := replace_from old new 0 s.

(** [strings.Join(l, sep)] *)
Fixpoint join (sep : string) (l : list string) : string :=
  match l with
  | [] => ""
  | [x] => x
  | x :: l => x +:+ sep +:+ join sep l
  end.

(** [strings.Split(s, "c")] *)
Fixpoint split_char (c : ascii) (s : string) : list string :=
  match s with
  | EmptyString => [""]
  | String d s =>
      if decide (c = d) then "" :: split_char c s else
      match split_char c s with
      | x :: l => String d x :: l
      | [] => [String d ""]
      end
  end.

Lemma split_char_nonempty c s : split_char c s ≠ [].
Proof. destruct s as [|d s]; simpl; [done|]. by repeat case_match. Qed.

Lemma join_split c s : join (String c "") (split_char c s) = s.
Proof.
  induction s as [|d s IH]; [done|]. simpl.
  pose proof (split_char_nonempty c s) as Hne. case_decide as Hcd; subst.
  - destruct (split_char d s) as [|x l]; [done|].
    change (String d (join (String d "") (x :: l)) = String d s). by rewrite IH.
  - destruct (split_char c s) as [|x l]; [done|]. rewrite <-IH. by destruct l.
Qed.

(** [strconv.Quote] on bytes that need no Unicode escape *)
Definition quote_char (c : ascii) : string :=
  if decide (c = "034"%char) then "\" +:+ String "034"%char "" else
  if decide (c = "\"%char) then "\\" else
  if decide (c = "007"%char) then "\a" else
  if decide (c = "008"%char) then "\b" else
  if decide (c = "010"%char) then "\n" else
  if decide (c = "011"%char) then "\v" else
  if decide (c = "012"%char) then "\f" else
  if decide (c = "009"%char) then "\t" else
  if decide (c = "013"%char) then "\r" else String c "".
Definition quote (s : string) : string :=
  let q := String "034"%char "" in
  q +:+ foldr (λ c acc, quote_char c +:+ acc) "" (chars s) +:+ q.

(** ** White space and length facts used by the components *)

Lemma contains_char_replace_free c s : contains_char c s = false → split_char c s = [s].
Proof.
  induction s as [|d s IH]; simpl; [done|]. intros [Hcd Hs]%orb_false_iff.
  apply bool_decide_eq_false in Hcd. rewrite decide_False by done. by rewrite IH.
Qed.

Lemma trim_space_empty : trim_space "" = "".
Proof. done. Qed.

#[export] Hint Rewrite app_str_nil_r trim_space_idem has_prefix_app drop_str_app trim_prefix_app
  trim_suffix_app take_str_app : cylism_simpl.

(** ** Trimming what needs no trimming *)

(** The visible ASCII characters. *)
Definition visible (c : ascii) : bool := (33 <=? code c)%N && (code c <=? 126)%N.

Lemma visible_not_space1 c : visible c = true → space1 c = false.
Proof. unfold visible, space1. intros [H1%N.leb_le H2%N.leb_le]%andb_prop. rewrite (proj2 (N.leb_gt _ 13)) by lia.
  rewrite andb_false_r, (proj2 (N.eqb_neq _ _)) by lia. done. Qed.
Lemma visible_not_space2 c d : visible c = true → space2 c d = false ∧ space2 d c = false.
Proof.
  unfold visible, space2. intros [H1%N.leb_le H2%N.leb_le]%andb_prop.
  rewrite (proj2 (N.eqb_neq (code c) 194)), (proj2 (N.eqb_neq (code c) 133)), (proj2 (N.eqb_neq (code c) 160)) by lia.
  by rewrite andb_false_r.
Qed.
Lemma visible_not_space3 c d e : visible c = true → space3 c d e = false ∧ space3 e d c = false.
Proof.
  unfold visible, space3. intros [H1%N.leb_le H2%N.leb_le]%andb_prop.
  rewrite (proj2 (N.eqb_neq (code c) 225)), (proj2 (N.eqb_neq (code c) 226)), (proj2 (N.eqb_neq (code c) 227)) by lia.
  rewrite (proj2 (N.eqb_neq (code c) 128)), (proj2 (N.leb_gt 128 (code c))), (proj2 (N.eqb_neq (code c) 168)),
    (proj2 (N.eqb_neq (code c) 169)), (proj2 (N.eqb_neq (code c) 175)), (proj2 (N.eqb_neq (code c) 159)) by lia.
  by rewrite !andb_false_r.
Qed.

Lemma trim_space_visible s : Forall (λ c, visible c = true) (chars s) → trim_space s = s.
Proof.
  intros Hs. unfold trim_space, trim_left_chars, strip.
  assert (Hw : ∀ l, Forall (λ c, visible c = true) l → space_width l = 0 ∧ space_width_rev l = 0).
  { intros l Hl. destruct Hl as [|a l Ha Hl]; [done|]. simpl. rewrite visible_not_space1 by done.
    destruct l as [|b l]; [done|]. destruct (visible_not_space2 a b Ha) as [-> ->].
    destruct l as [|c l]; [done|]. by destruct (visible_not_space3 a b c Ha) as [-> ->]. }
  rewrite strip_fuel_id by by apply Hw. unfold trim_right_chars, strip.
  rewrite strip_fuel_id by (apply Hw, Forall_reverse; done).
  by rewrite reverse_involutive, string_of_list_ascii_of_string.
Qed.

(** Neither end is the character. *)
Definition bare (c : ascii) (l : list ascii) : Prop := head l ≠ Some c ∧ last l ≠ Some c.

Lemma trim_left_char_head c l : head (trim_left_char c l) ≠ Some c.
Proof. induction l as [|d l IH]; simpl; [done|]. case_decide; [done|]. simpl. congruence. Qed.
Lemma trim_left_char_id c l : head l ≠ Some c → trim_left_char c l = l.
Proof. destruct l as [|d l]; simpl; [done|]. intros Hd. rewrite decide_False; congruence. Qed.
Lemma trim_left_char_suffix c l : trim_left_char c l `suffix_of` l.
Proof.
  induction l as [|d l IH]; simpl; [done|]. case_decide; [|done]. by apply suffix_cons_r.
Qed.

Lemma trim_char_bare c s : bare c (chars (trim_char c s)).
Proof.
  unfold trim_char. rewrite list_ascii_of_string_of_list_ascii.
  set (l := trim_left_char c (chars s)). pose proof (trim_left_char_head c (chars s)) as Hl. fold l in Hl.
  split.
  - rewrite head_reverse. destruct (trim_left_char_suffix c (reverse l)) as [k Hk].
    intros Hlast. apply Hl. rewrite <-(reverse_involutive l), Hk, reverse_app, head_app.
    by rewrite head_reverse, Hlast.
  - rewrite last_reverse. apply trim_left_char_head.
Qed.

Lemma trim_char_id c s : bare c (chars s) → trim_char c s = s.
Proof.
  intros [Hh Hl]. unfold trim_char. rewrite (trim_left_char_id c (chars s)) by done.
  rewrite trim_left_char_id by by rewrite head_reverse.
  by rewrite reverse_involutive, string_of_list_ascii_of_string.
Qed.

Lemma contains_any_spec s cs : contains_any s cs = true ↔ ∃ c, c ∈ chars s ∧ c ∈ chars cs.
Proof.
  induction s as [|d s IH]; simpl; [set_solver|].
  rewrite orb_true_iff, IH, contains_char_spec. set_solver.
Qed.

(** ** [strconv.ParseUint(s, 10, 64)] *)

Definition digit_value (c : ascii) : option Z :=
  if (48 <=? code c)%N && (code c <=? 57)%N then Some (Z.of_N (code c) - 48)%Z else None.
Fixpoint parse_digits (acc : Z) (s : string) : option Z :=
  match s with
  | EmptyString => Some acc
  | String c s => match digit_value c with Some d => parse_digits (acc * 10 + d) s | None => None end
  end.
(** [None] stands for a syntax or a range error. *)
Definition parse_uint (s : string) : option Z :=
  match s with
  | EmptyString => None
  | _ => match parse_digits 0 s with Some n => if decide (is_u64 n) then Some n else None | None => None end
  end.

Lemma digit_value_pretty x : (x < 10)%N → digit_value (pretty_N_char x) = Some (Z.of_N x).
Proof. intros Hx. by destruct x as [|[[[[]|[]|]|[[]|[]|]|]|[[[]|[]|]|[[]|[]|]|]|]]. Qed.

Lemma parse_digits_pretty x s : parse_digits 0 (pretty_N_go x s) = parse_digits (Z.of_N x) s.
Proof.
  revert s. induction (N.lt_wf_0 x) as [x _ IH]; intros s. destruct (decide (x = 0%N)) as [->|Hx].
  { by rewrite pretty_N_go_0. }
  rewrite pretty_N_go_step by lia. rewrite IH by (apply N.div_lt; lia). cbn [parse_digits].
  rewrite digit_value_pretty by (by apply N.mod_lt). f_equal.
  rewrite N2Z.inj_div, N2Z.inj_mod. pose proof (Z.div_mod (Z.of_N x) 10). lia.
Qed.

(** Parsing reads back what formatting wrote. *)
Lemma parse_uint_dec n : is_u64 n → parse_uint (dec n) = Some n.
Proof.
  intros Hn. destruct n as [|p|p]; [done| |unfold is_u64 in Hn; lia].
  assert (parse_digits 0 (dec (Zpos p)) = Some (Zpos p)) as Hp.
  { change (dec (Zpos p)) with (pretty_N_go (N.pos p) ""). by rewrite parse_digits_pretty. }
  unfold parse_uint. destruct (dec (Zpos p)) eqn:He; [done|]. by rewrite Hp, decide_True.
Qed.

(** ** Redaction: replacing the occurrences of a text by a marker between brackets *)

Lemma has_prefix_split k x c y :
  has_prefix k (x +:+ String c y) = true → contains_char c k = false → has_prefix k x = true.
Proof.
  revert x. induction k as [|d k IH]; intros [|e x]; simpl; try done.
  - case_decide as Hd; subst; [by rewrite bool_decide_true|done].
  - rewrite orb_false_iff. case_decide; [|done]. intros Hp [_ Hc]. by apply (IH x).
Qed.

(** An occurrence without the character [c] lies on one side of it. *)
Lemma contains_split x c y k :
  contains (x +:+ String c y) k = true → contains_char c k = false → contains x k = true ∨ contains y k = true.
Proof.
  intros H Hc. induction x as [|d x IH].
  - change (contains (String c y) k = true) in H. simpl in H. apply orb_true_iff in H as [H|H]; [left | by right].
    apply (has_prefix_split k "" c y) in H; [|done]. simpl. by rewrite H.
  - change (has_prefix k (String d x +:+ String c y) || contains (x +:+ String c y) k = true) in H.
    simpl. apply orb_true_iff in H as [H|H].
    + left. apply has_prefix_split in H; [|done]. simpl in H. by rewrite H.
    + destruct (IH H) as [->|?]; [left; by rewrite orb_true_r | by right].
Qed.

Lemma contains_tail c s k : contains s k = true → contains (String c s) k = true.
Proof. intros H. simpl. rewrite H. apply orb_true_r. Qed.

Definition marker : string := "[REDACTED]".

(** A credential that neither meets nor is part of the marker. *)
Definition redactable (k : string) : Prop :=
  k ≠ "" ∧ contains_char "[" k = false ∧ contains_char "]" k = false ∧ contains "REDACTED" k = false.

Lemma marker_free k y : redactable k → contains (marker +:+ y) k = true → contains y k = true.
Proof.
  intros (Hne & Ho & Hc & Hr) H. change (marker +:+ y) with ("" +:+ String "[" ("REDACTED" +:+ String "]" y)) in H.
  apply contains_split in H as [H|H]; [by destruct k | |done].
  apply contains_split in H as [H|H]; [congruence | done | done].
Qed.

Lemma replaced_prefix old p s :
  contains_char "[" p = false → has_prefix p (replace_from old marker 0 s) = true → has_prefix p s = true.
Proof.
  revert s. induction p as [|c p IH]; intros s Hp; [done|]. simpl in Hp. apply orb_false_iff in Hp as [Hc Hp].
  destruct s as [|d s]; [done|]. cbn [replace_from]. destruct (has_prefix old (String d s)).
  - intros H. exfalso. unfold marker in H. simpl in H. destruct (decide (c = "["%char)) as [->|]; [|done].
    by rewrite bool_decide_true in Hc.
  - simpl. destruct (decide (c = d)); [by apply IH | done].
Qed.

(** Replacing one text creates no occurrence of another. *)
Lemma replaced_contains old k skip s :
  redactable k → contains (replace_from old marker skip s) k = true → contains s k = true.
Proof.
  intros Hk. revert skip. induction s as [|c s IH]; intros skip; [done|]. destruct skip as [|skip].
  - cbn [replace_from]. destruct (has_prefix old (String c s)).
    + intros H%marker_free; [|done]. by apply contains_tail, (IH (String.length old - 1)).
    + change (contains (String c (replace_from old marker 0 s)) k) with
        (has_prefix k (String c (replace_from old marker 0 s)) || contains (replace_from old marker 0 s) k).
      rewrite orb_true_iff. intros [H|H]; [|by apply contains_tail, (IH 0)].
      destruct k as [|d k]; [done|]. simpl in H |- *. destruct (decide (d = c)); [|done].
      destruct Hk as (_ & [_ Hb]%orb_false_iff & _). by rewrite (replaced_prefix old k s Hb H).
  - intros H. by apply contains_tail, (IH skip).
Qed.

(** No occurrence of the replaced text is left. *)
Lemma replaced_absent old skip s : redactable old → contains (replace_from old marker skip s) old = false.
Proof.
  intros Hk. revert skip. induction s as [|c s IH]; intros skip.
  { destruct Hk as [Hne _]. by destruct old. }
  destruct skip as [|skip]; [|apply IH]. cbn [replace_from]. destruct (has_prefix old (String c s)) eqn:Hp.
  - apply not_true_is_false. intros H%marker_free; [|done]. by rewrite IH in H.
  - change (contains (String c (replace_from old marker 0 s)) old) with
      (has_prefix old (String c (replace_from old marker 0 s)) || contains (replace_from old marker 0 s) old).
    rewrite IH, orb_false_r. apply not_true_is_false. intros H.
    destruct old as [|d old]; [by destruct Hk|]. simpl in H, Hp. destruct (decide (d = c)); [|done].
    destruct Hk as (_ & [_ Hb]%orb_false_iff & _). apply (replaced_prefix _ old s Hb) in H. congruence.
Qed.

Lemma contains_take n s k : contains (take_str n s) k = true → contains s k = true.
Proof.
  rewrite !contains_spec. intros (a & b & H). exists a, (b +:+ drop_str n s).
  rewrite <-(take_drop_str n s) at 1. by rewrite H, <-!app_str_assoc.
Qed.
