(* ===== verification/GoBase64.v ===== *)
(** * [encoding/base64]: the standard encoding

    The padded alphabet of [base64.StdEncoding], with the decoder that reads it back. The decoder
    skips line breaks and, as Go's default one, ignores the spare bits of the last digit. *)
From Stdlib Require Import ZArith Ascii String.
From stdpp Require Import base numbers strings list sets gmap.
From S2P Require Import Prelude GoStrings.

Definition base64_alphabet : list ascii :=
  chars "ABCDEFGHIJKLMNOPQRSTUVWXYZabcdefghijklmnopqrstuvwxyz0123456789+/".
Definition base64_digit (n : N) : ascii := nth (N.to_nat n) base64_alphabet "A"%char.
Fixpoint base64_chars (l : list ascii) : list ascii :=
  match l with
  | [] => []
  | [a] =>
      let x := (code a * 16)%N in
      [base64_digit (x / 64); base64_digit (x mod 64); "="; "="]%char
  | [a; b] =>
      let x := ((code a * 256 + code b) * 4)%N in
      [base64_digit (x / 4096); base64_digit ((x / 64) mod 64); base64_digit (x mod 64); "="]%char
  | a :: b :: c :: l =>
      let x := ((code a * 256 + code b) * 256 + code c)%N in
      base64_digit (x / 262144) :: base64_digit ((x / 4096) mod 64) :: base64_digit ((x / 64) mod 64)
      :: base64_digit (x mod 64) :: base64_chars l
  end.
(** [EncodeToString] *)
Definition base64 (s : string) : string := of_chars (base64_chars (chars s)).

(** The value of a digit. *)
Fixpoint index_of (c : ascii) (i : N) (l : list ascii) : option N :=
  match l with
  | [] => None
  | d :: l => if decide (c = d) then Some i else index_of c (i + 1) l
  end.
Definition base64_value (c : ascii) : option N := index_of c 0 base64_alphabet.

Fixpoint base64_quads (l : list ascii) : option (list ascii) :=
  match l with
  | [] => Some []
  | p :: q :: r :: s :: l =>
      vp ← base64_value p; vq ← base64_value q;
      let first := ascii_of_N (vp * 4 + vq / 16) in
      if decide (r = "="%char) then
        if decide (s = "="%char ∧ l = []) then Some [first] else None
      else
        vr ← base64_value r;
        let second := ascii_of_N ((vq mod 16) * 16 + vr / 4) in
        if decide (s = "="%char) then if decide (l = []) then Some [first; second] else None
        else
          vs ← base64_value s;
          rest ← base64_quads l;
          Some (first :: second :: ascii_of_N ((vr mod 4) * 64 + vs) :: rest)
  | _ => None
  end.
Definition line_break (c : ascii) : bool := bool_decide (c = "010"%char) || bool_decide (c = "013"%char).
(** [DecodeString] *)
Definition base64_decode (s : string) : option string :=
  of_chars <$> base64_quads (List.filter (λ c, negb (line_break c)) (chars s)).

(** ** Reading back *)

Definition digits : list N := N.of_nat <$> seq 0 64.

Lemma digit_in_range n : (n < 64)%N → n ∈ digits.
Proof.
  intros Hn. apply list_elem_of_fmap. exists (N.to_nat n). rewrite N2Nat.id. split; [done|].
  apply elem_of_seq. lia.
Qed.

Lemma digit_table :
  Forall (λ n, base64_value (base64_digit n) = Some n ∧ base64_digit n ≠ "="%char ∧
    line_break (base64_digit n) = false) digits.
Proof. eapply bool_decide_unpack. vm_compute. exact I. Qed.

Lemma base64_value_digit n : (n < 64)%N → base64_value (base64_digit n) = Some n.
Proof. intros Hn%digit_in_range. pose proof digit_table as H. rewrite Forall_forall in H. by apply H. Qed.
Lemma base64_digit_pad n : (n < 64)%N → base64_digit n ≠ "="%char.
Proof. intros Hn%digit_in_range. pose proof digit_table as H. rewrite Forall_forall in H. by apply H. Qed.
Lemma base64_digit_break n : (n < 64)%N → line_break (base64_digit n) = false.
Proof. intros Hn%digit_in_range. pose proof digit_table as H. rewrite Forall_forall in H. by apply H. Qed.

Lemma code_range c : (code c < 256)%N.
Proof. apply N_ascii_bounded. Qed.
Lemma ascii_of_code c n : n = code c → ascii_of_N n = c.
Proof. intros ->. apply ascii_N_embedding. Qed.

#[local] Ltac Zify.zify_post_hook ::= Z.to_euclidean_division_equations.

Lemma base64_quads_chars l : base64_quads (base64_chars l) = Some l.
Proof.
  induction l as [l IH] using (induction_ltof1 _ length). unfold ltof in IH.
  destruct l as [|a [|b [|c l]]]; [done| | |]; cbn [base64_chars base64_quads];
    pose proof (code_range a); try pose proof (code_range b); try pose proof (code_range c);
    rewrite !base64_value_digit by lia; cbn [mbind option_bind].
  - rewrite decide_True by done. rewrite decide_True by done. do 2 f_equal. apply ascii_of_code. lia.
  - rewrite decide_False by (apply base64_digit_pad; lia). rewrite decide_True by done. rewrite decide_True by done.
    do 2 f_equal; [|f_equal]; apply ascii_of_code; lia.
  - rewrite !decide_False by (apply base64_digit_pad; lia). rewrite IH by (simpl; lia). cbn [mbind option_bind].
    do 2 f_equal; [|f_equal; [|f_equal]]; apply ascii_of_code; lia.
Qed.

Lemma base64_chars_break l : List.filter (λ c, negb (line_break c)) (base64_chars l) = base64_chars l.
Proof.
  induction l as [l IH] using (induction_ltof1 _ length). unfold ltof in IH.
  destruct l as [|a [|b [|c l]]]; [done| | |]; cbn [base64_chars List.filter];
    pose proof (code_range a); try pose proof (code_range b); try pose proof (code_range c);
    rewrite !base64_digit_break by lia; cbn; [done..|]. by rewrite IH by (simpl; lia).
Qed.

(** Decoding reads back every encoded string. *)
Lemma base64_round_trip s : base64_decode (base64 s) = Some s.
Proof.
  unfold base64_decode, base64. rewrite list_ascii_of_string_of_list_ascii, base64_chars_break, base64_quads_chars. simpl.
  by rewrite string_of_list_ascii_of_string.
Qed.

(** The text holds no white space, and is empty for the empty message only. *)
Lemma base64_digit_visible n : visible (base64_digit n) = true.
Proof.
  unfold base64_digit. destruct (nth_in_or_default (N.to_nat n) base64_alphabet "A"%char) as [Hin| ->]; [|done].
  assert (forallb visible base64_alphabet = true) as Hall by (vm_compute; reflexivity).
  rewrite forallb_forall in Hall. by apply Hall.
Qed.
Lemma base64_visible s : Forall (λ c, visible c = true) (chars (base64 s)).
Proof.
  unfold base64. rewrite list_ascii_of_string_of_list_ascii. generalize (chars s) as l. clear s.
  induction l as [l IH] using (induction_ltof1 _ length). unfold ltof in IH.
  destruct l as [|a [|b [|c l]]]; cbn [base64_chars]; repeat (constructor; [done || apply base64_digit_visible|]);
    [constructor..|]. apply IH. simpl. lia.
Qed.
Lemma base64_nonempty s : s ≠ "" → base64 s ≠ "".
Proof.
  intros Hs Hb. apply Hs. pose proof (base64_round_trip s) as Hr. rewrite Hb in Hr. by injection Hr as <-.
Qed.

(** ** [base64.RawURLEncoding]

    The same digits with [-] and [_] in place of [+] and [/], and no padding. *)
Definition url_digit (c : ascii) : ascii :=
  if decide (c = "+"%char) then "-"%char else if decide (c = "/"%char) then "_"%char else c.
Definition std_digit (c : ascii) : ascii :=
  if decide (c = "-"%char) then "+"%char else if decide (c = "_"%char) then "/"%char else c.
Fixpoint unpad (l : list ascii) : list ascii :=
  match l with
  | [] => []
  | c :: l => if decide (c = "="%char) then [] else c :: unpad l
  end.
Fixpoint pad (l : list ascii) : list ascii :=
  match l with
  | [p; q] => [p; q; "="; "="]%char
  | [p; q; r] => [p; q; r; "="]%char
  | p :: q :: r :: s :: l => p :: q :: r :: s :: pad l
  | l => l
  end.
Definition base64url (s : string) : string := of_chars (url_digit <$> unpad (base64_chars (chars s))).
Definition standard_only (c : ascii) : bool := bool_decide (c ∈ ["+"; "/"; "="]%char).
Definition base64url_decode (s : string) : option string :=
  let l := List.filter (λ c, negb (line_break c)) (chars s) in
  if existsb standard_only l then None else of_chars <$> base64_quads (pad (std_digit <$> l)).

(** A digit survives the change of alphabet and is never a separator of the texts that carry it. *)
Lemma url_digit_table :
  Forall (λ n, std_digit (url_digit (base64_digit n)) = base64_digit n ∧
    standard_only (url_digit (base64_digit n)) = false ∧ line_break (url_digit (base64_digit n)) = false ∧
    url_digit (base64_digit n) ≠ "."%char) digits.
Proof. eapply bool_decide_unpack. vm_compute. exact I. Qed.

Definition is_digit (c : ascii) : Prop := ∃ n, (n < 64)%N ∧ c = base64_digit n.

Lemma url_digit_facts c : is_digit c →
  std_digit (url_digit c) = c ∧ standard_only (url_digit c) = false ∧ line_break (url_digit c) = false ∧
  url_digit c ≠ "."%char.
Proof.
  intros (n & Hn%digit_in_range & ->). pose proof url_digit_table as H. rewrite Forall_forall in H. by apply H.
Qed.

Lemma base64_unpad l : pad (unpad (base64_chars l)) = base64_chars l ∧ Forall is_digit (unpad (base64_chars l)).
Proof.
  induction l as [l IH] using (induction_ltof1 _ length). unfold ltof in IH.
  assert (∀ n, (n < 64)%N → base64_digit n ≠ "="%char) as Hp by apply base64_digit_pad.
  destruct l as [|a [|b [|c l]]]; [by split| | |]; cbn [base64_chars unpad];
    pose proof (code_range a); try pose proof (code_range b); try pose proof (code_range c);
    rewrite !decide_False by (apply Hp; lia).
  - split; [done|]. repeat constructor; (eexists; split; [|done]; lia).
  - split; [done|]. repeat constructor; (eexists; split; [|done]; lia).
  - destruct (IH l) as [Hl Hd]; [simpl; lia|]. split.
    + cbn [pad]. destruct (unpad (base64_chars l)) as [|p [|q [|r [|s r']]]] eqn:Hu; by rewrite <-Hl.
    + repeat (constructor; [eexists; split; [|done]; lia|]). done.
Qed.

Lemma url_digits_clean l : Forall is_digit l →
  std_digit <$> (url_digit <$> l) = l ∧ existsb standard_only (url_digit <$> l) = false ∧
  List.filter (λ c, negb (line_break c)) (url_digit <$> l) = url_digit <$> l ∧ "."%char ∉ url_digit <$> l.
Proof.
  induction 1 as [|c l Hc Hl (IH1 & IH2 & IH3 & IH4)]; [split_and!; [done..|set_solver]|].
  destruct (url_digit_facts c Hc) as (H1 & H2 & H3 & H4).
  rewrite !fmap_cons. cbn [existsb List.filter]. rewrite H1, IH1, H2, IH2, H3, IH3. split_and!; [done..|set_solver].
Qed.

Lemma base64url_round_trip s : base64url_decode (base64url s) = Some s.
Proof.
  unfold base64url_decode, base64url. destruct (base64_unpad (chars s)) as [Hp Hd].
  destruct (url_digits_clean _ Hd) as (H1 & H2 & H3 & _).
  rewrite list_ascii_of_string_of_list_ascii, H3, H2, H1, Hp, base64_quads_chars. simpl.
  by rewrite string_of_list_ascii_of_string.
Qed.

(** The encoding holds no dot. *)
Lemma base64url_dotless s : contains_char "."%char (base64url s) = false.
Proof.
  apply not_true_is_false. rewrite contains_char_spec. unfold base64url.
  rewrite list_ascii_of_string_of_list_ascii. by apply url_digits_clean, base64_unpad.
Qed.
