(* ===== verification/GoPath.v ===== *)
(** * The package [path]

    [path.Clean], [path.Base], [path.Dir] and [path.IsAbs] of the Go standard library, which
    release validation and rendering apply to mount paths. [clean] works on the slash-separated
    elements: it is the documented meaning of [path.Clean], which the byte loop of the library
    implements. The lemmas say that a cleaned path is a fixed point of [clean] and that an absolute
    path equal to its cleaned form names its elements plainly, with no "." or ".." left. *)
From Stdlib Require Import ZArith Ascii String.
From stdpp Require Import base sorting pretty numbers gmap strings list.
From S2P Require Import Prelude GoStrings.

Definition slash : ascii := "/".

(** [path.IsAbs(p)] *)
Definition is_abs (p : string) : bool := has_prefix "/" p.

(** One element against the stack of the elements kept so far, the last one first. *)
Definition clean_step (rooted : bool) (stack : list string) (elem : string) : list string :=
  if decide (elem = "") then stack else
  if decide (elem = ".") then stack else
  if decide (elem = "..") then
    match stack with
    | top :: rest => if decide (top = "..") then elem :: stack else rest
    | [] => if rooted then [] else [elem]
    end
  else elem :: stack.

Definition clean_elems (rooted : bool) (elems : list string) : list string :=
  reverse (foldl (clean_step rooted) [] elems).

(** [path.Clean(p)] *)
Definition clean (p : string) : string :=
  let rooted := is_abs p in
  let elems := clean_elems rooted (split_char slash p) in
  if rooted then "/" +:+ join "/" elems
  else match elems with [] => "." | _ => join "/" elems end.

(** [path.Dir(p)]: the cleaned text up to the last slash, included *)
Definition dir (p : string) : string := clean (take_str (after_last slash p) p).

(** [path.Base(p)] *)
Definition strip_slashes (p : string) : string :=
  of_chars (reverse (trim_left_char slash (reverse (chars p)))).
Definition base (p : string) : string :=
  if decide (p = "") then "." else
  let q := strip_slashes p in
  let b := drop_str (after_last slash q) q in
  if decide (b = "") then "/" else b.

(** ** Splitting what [join] put together *)

Definition plain (c : ascii) (x : string) : Prop := contains_char c x = false.

Lemma split_char_app c x s : plain c x → split_char c (x +:+ String c s) = x :: split_char c s.
Proof.
  induction x as [|d x IH]; intros Hx.
  - change (split_char c (String c s) = "" :: split_char c s). simpl. by rewrite decide_True.
  - apply orb_false_iff in Hx as [Hd Hx]. apply bool_decide_eq_false in Hd.
    change (split_char c (String d (x +:+ String c s)) = String d x :: split_char c s).
    simpl. by rewrite decide_False, IH by done.
Qed.

Lemma split_join c l :
  l ≠ [] → Forall (plain c) l → split_char c (join (String c "") l) = l.
Proof.
  intros Hne Hl. induction Hl as [|x l Hx Hl IH]; [done|].
  destruct l as [|y l]; [by apply contains_char_replace_free|].
  change (join (String c "") (x :: y :: l)) with (x +:+ String c (join (String c "") (y :: l))).
  rewrite split_char_app by done. by rewrite IH.
Qed.

Lemma split_char_plain c s : Forall (plain c) (split_char c s).
Proof.
  induction s as [|d s IH]; simpl; [by constructor|]. case_decide as Hcd.
  - by constructor.
  - destruct (split_char c s) as [|x l]; inversion IH; subst; constructor; auto.
    all: by unfold plain; simpl; rewrite bool_decide_false.
Qed.

(** ** Normal stacks: what [clean_elems] produces *)

Definition proper (x : string) : Prop := plain slash x ∧ x ≠ "" ∧ x ≠ "." ∧ x ≠ "..".

(** A stack, last element first: proper elements on top of the ".." of a relative path. *)
Inductive normal_stack (rooted : bool) : list string → Prop :=
  | normal_nil : normal_stack rooted []
  | normal_proper x l : proper x → normal_stack rooted l → normal_stack rooted (x :: l)
  | normal_up n : rooted = false → normal_stack rooted (replicate (S n) "..").

Lemma clean_step_normal rooted stack x :
  plain slash x → normal_stack rooted stack → normal_stack rooted (clean_step rooted stack x).
Proof.
  intros Hx Hs. unfold clean_step. repeat case_decide; subst; try done.
  - destruct Hs as [|y l (? & ? & ? & ?)|n ?]; simpl.
    + destruct rooted; [constructor | by apply (normal_up _ 0)].
    + by rewrite decide_False.
    + by apply (normal_up _ (S n)).
  - by constructor; [split_and!|].
Qed.

Lemma clean_fold_normal rooted elems stack :
  Forall (plain slash) elems → normal_stack rooted stack →
  normal_stack rooted (foldl (clean_step rooted) stack elems).
Proof.
  intros He. revert stack. induction He as [|x elems Hx He IH]; intros stack Hs; [done|].
  apply IH. by apply clean_step_normal.
Qed.

Lemma normal_stack_plain rooted l : normal_stack rooted l → Forall (plain slash) l.
Proof.
  induction 1 as [|x l (? & _) _ IH|n _]; [constructor | by constructor |].
  apply Forall_replicate. done.
Qed.

(** Reading a normal stack back, oldest element first, rebuilds it. *)
Lemma clean_fold_id rooted l :
  normal_stack rooted l → foldl (clean_step rooted) [] (reverse l) = l.
Proof.
  induction 1 as [|x l (_ & H1 & H2 & H3) _ IH|n Hr]; [done| |].
  - rewrite reverse_cons, foldl_app, IH. simpl. unfold clean_step.
    by rewrite !decide_False by done.
  - subst. rewrite reverse_replicate. cut (∀ k, foldl (clean_step false) (replicate k "..")
      (replicate (S n) "..") = replicate (S n + k) ".."); [intros H; rewrite <-(Nat.add_0_r (S n)) at 2; exact (H 0)|].
    induction (S n) as [|m IH]; intros k; [done|].
    change (foldl (clean_step false) (clean_step false (replicate k "..") "..")
      (replicate m "..") = replicate (S m + k) "..").
    replace (clean_step false (replicate k "..") "..") with (replicate (S k) "..") by by destruct k.
    rewrite IH. f_equal. lia.
Qed.

Lemma clean_elems_normal rooted elems :
  Forall (plain slash) elems → normal_stack rooted (reverse (clean_elems rooted elems)).
Proof.
  intros He. unfold clean_elems. rewrite reverse_involutive.
  apply clean_fold_normal; [done | constructor].
Qed.

Lemma clean_elems_id rooted l : normal_stack rooted (reverse l) → clean_elems rooted l = l.
Proof.
  intros Hl. unfold clean_elems. rewrite <-(reverse_involutive l) at 1.
  by rewrite clean_fold_id, reverse_involutive.
Qed.

Lemma normal_rooted_proper l : normal_stack true l → Forall proper l.
Proof. induction 1; [constructor | by constructor | done]. Qed.

Lemma clean_skip_empty rooted l : clean_elems rooted ("" :: l) = clean_elems rooted l.
Proof. done. Qed.

(** The text of a list of plain elements starts with a slash only if its first element is empty. *)
Lemma join_not_abs x l : plain slash x → x ≠ "" → is_abs (join "/" (x :: l)) = false.
Proof.
  intros Hx Hne. destruct x as [|c x]; [done|].
  apply orb_false_iff in Hx as [Hc _]. apply bool_decide_eq_false in Hc.
  destruct l; unfold is_abs; simpl; by rewrite decide_False.
Qed.

Lemma normal_head_nonempty rooted l x :
  normal_stack rooted l → x ∈ l → x ≠ "".
Proof.
  induction 1 as [|y l (_ & ? & _) _ IH|n _]; [set_solver| |].
  - intros [->|?]%elem_of_cons; auto.
  - by intros [-> _]%elem_of_replicate.
Qed.

(** [path.Clean] is idempotent. *)
Lemma clean_idem p : clean (clean p) = clean p.
Proof.
  unfold clean at 2 3.
  set (elems := clean_elems (is_abs p) (split_char slash p)).
  assert (Hn : normal_stack (is_abs p) (reverse elems))
    by apply clean_elems_normal, split_char_plain.
  assert (Hp : Forall (plain slash) elems).
  { rewrite <-(reverse_involutive elems). by eapply Forall_reverse, normal_stack_plain. }
  destruct (is_abs p) eqn:Ha.
  - unfold clean. assert (is_abs ("/" +:+ join "/" elems) = true) as -> by done.
    change ("/" +:+ join "/" elems) with (String slash (join (String slash "") elems)).
    assert (split_char slash (String slash (join (String slash "") elems)) =
      "" :: split_char slash (join (String slash "") elems)) as -> by done.
    rewrite clean_skip_empty. destruct elems as [|x l] eqn:He; [done|].
    rewrite split_join by done. by rewrite clean_elems_id.
  - destruct elems as [|x l] eqn:He; [done|].
    unfold clean. rewrite join_not_abs;
      [|by inversion Hp | eapply normal_head_nonempty; [exact Hn | apply elem_of_reverse; left]].
    change (join "/" (x :: l)) with (join (String slash "") (x :: l)).
    rewrite split_join by done. by rewrite clean_elems_id.
Qed.

(** ** Canonical absolute paths *)

Definition canonical_abs (p : string) : bool := is_abs p && bool_decide (clean p = p).

(** A canonical absolute path is "/" followed by proper elements: none is empty, "." or "..". *)
Lemma canonical_abs_elems p :
  canonical_abs p = true → ∃ l, Forall proper l ∧ p = "/" +:+ join "/" l.
Proof.
  unfold canonical_abs. intros [Ha Hc]%andb_prop. apply bool_decide_eq_true in Hc.
  exists (clean_elems true (split_char slash p)). split.
  - rewrite <-(reverse_involutive (clean_elems _ _)). apply Forall_reverse, normal_rooted_proper.
    apply clean_elems_normal, split_char_plain.
  - rewrite <-Hc at 1. unfold clean. by rewrite Ha.
Qed.
