(* ===== verification/GoTime.v ===== *)
(** * Instants as text

    What the code uses of the package [time] beyond arithmetic: the layout [time.RFC3339Nano] in UTC. An
    instant is a count of nanoseconds since the Unix epoch; the date is computed in the proleptic
    Gregorian calendar, whose eras of 400 years have 146097 days. Years have four digits from 0 to 9999;
    the clocks of the program stay within them. *)
From Stdlib Require Import ZArith Ascii String Lia.
From stdpp Require Import base numbers strings list.
From S2P Require Import Prelude GoStrings.

(** The text of [n] with at least [width] digits. *)
Definition padded (width : nat) (n : Z) : string :=
  let s := dec n in of_chars (replicate (width - String.length s) "0"%char ++ chars s).

(** Years that begin in March, from the first day of March of the year 0. *)
Record civil := { cv_Year : Z; cv_Month : Z; cv_Day : Z }.
Definition civil_of_days (days : Z) : civil :=
  let z := (days + 719468)%Z in
  let era := (z / 146097)%Z in
  let day := (z - era * 146097)%Z in
  let year := ((day - day / 1460 + day / 36524 - day / 146096) / 365)%Z in
  let rest := (day - (365 * year + year / 4 - year / 100))%Z in
  let month := ((5 * rest + 2) / 153)%Z in
  {| cv_Year := (year + era * 400 + (if decide (10 ≤ month)%Z then 1 else 0))%Z;
     cv_Month := (if decide (month < 10)%Z then month + 3 else month - 9)%Z;
     cv_Day := (rest - (153 * month + 2) / 5 + 1)%Z |}.

(** The fraction without its trailing zeros. *)
Fixpoint drop_zeros (l : list ascii) : list ascii :=
  match l with
  | c :: l => if decide (c = "0"%char) then drop_zeros l else c :: l
  | [] => []
  end.
Definition fraction (nanoseconds : Z) : string :=
  if decide (nanoseconds = 0%Z) then ""
  else "." +:+ of_chars (rev (drop_zeros (rev (chars (padded 9 nanoseconds))))).

Definition rfc3339_nano (t : Z) : string :=
  let seconds := (t / 1000000000)%Z in
  let date := civil_of_days (seconds / 86400) in
  let of_day := (seconds mod 86400)%Z in
  padded 4 (cv_Year date) +:+ ("-" +:+ (padded 2 (cv_Month date) +:+ ("-" +:+ (padded 2 (cv_Day date) +:+
    ("T" +:+ (padded 2 (of_day / 3600) +:+ (":" +:+ (padded 2 (of_day / 60 mod 60) +:+ (":" +:+
      (padded 2 (of_day mod 60) +:+ (fraction (t mod 1000000000) +:+ "Z"))))))))))).

(** ** Examples *)

Example epoch : rfc3339_nano 0 = "1970-01-01T00:00:00Z".
Proof. reflexivity. Qed.
Example before_epoch : rfc3339_nano (-1) = "1969-12-31T23:59:59.999999999Z".
Proof. reflexivity. Qed.
Example leap_day : rfc3339_nano (951868799 * 1000000000 + 120000000) = "2000-02-29T23:59:59.12Z".
Proof. reflexivity. Qed.
Example after_leap_day : rfc3339_nano (951868800 * 1000000000) = "2000-03-01T00:00:00Z".
Proof. reflexivity. Qed.
Example far : rfc3339_nano (4102444799 * 1000000000) = "2099-12-31T23:59:59Z".
Proof. reflexivity. Qed.
