(* ===== verification/Json.v ===== *)
(** * JSON documents

    The part of [encoding/json] the release code relies on, at the level of documents: a value of
    type [json] is a parsed JSON text. [json.Marshal] of a struct lists its members in field order
    and leaves the [omitempty] ones out; [json.Unmarshal] gives each member to the field whose name
    equals its key up to case folding, ignores unknown members, leaves a field untouched on [null],
    and fails on a value of the wrong type or out of the field's range. A [Codec] packs the two
    directions with the round-trip law; struct codecs are built from the codecs of their fields.
    Strings are taken to be valid UTF-8 (the encoder replaces other bytes). *)
From Stdlib Require Import ZArith Ascii String.
From stdpp Require Import base sorting pretty numbers gmap strings list.
From S2P Require Import Prelude GoStrings.

Inductive json :=
  | JNull
  | JBool (b : bool)
  | JInt (z : Z)
  | JFrac (literal : string)
  | JStr (s : string)
  | JArr (items : list json)
  | JObj (members : list (string * json)).

(** ** Member names: the folding of [encoding/json] *)
Fixpoint fold_chars (l : list ascii) : list ascii :=
  match l with
  | [] => []
  | a :: l1 =>
      match l1 with
      | b :: l2 =>
          if ((code a =? 197) && (code b =? 191))%N then "S"%char :: fold_chars l2 else
          match l2 with
          | c :: l3 =>
              if ((code a =? 226) && (code b =? 132) && (code c =? 170))%N
              then "K"%char :: fold_chars l3
              else upper_char a :: fold_chars l1
          | [] => upper_char a :: fold_chars l1
          end
      | [] => [upper_char a]
      end
  end.
Definition same_key (name key : string) : bool :=
  bool_decide (fold_chars (chars name) = fold_chars (chars key)).

(** ** Codecs *)
Record Codec (A : Type) := {
  zero : A;
  encode : A → json;
  (** decoding into the current value of a variable *)
  decode : A → json → option A;
  valid : A → Prop;
  decode_encode a : valid a → decode zero (encode a) = Some a
}.
Arguments zero {A} _.
Arguments encode {A} _ _.
Arguments decode {A} _ _ _.
Arguments valid {A} _ _.
Arguments decode_encode {A} _ _ _.

Definition string_codec : Codec string.
Proof.
  refine {| zero := ""; encode := JStr; valid _ := True;
    decode cur j := match j with JStr s => Some s | JNull => Some cur | _ => None end |}.
  done.
Defined.

Definition bool_codec : Codec bool.
Proof.
  refine {| zero := false; encode := JBool; valid _ := True;
    decode cur j := match j with JBool b => Some b | JNull => Some cur | _ => None end |}.
  done.
Defined.

Section integers.
Variables (in_range : Z → Prop) (dec_range : ∀ z, Decision (in_range z)).
Definition int_codec : Codec Z.
Proof using dec_range.
  refine {| zero := 0%Z; encode := JInt; valid := in_range;
    decode cur j := match j with
      | JInt z => if decide (in_range z) then Some z else None
      | JNull => Some cur
      | _ => None
      end |}.
  intros z Hz. by rewrite decide_True.
Defined.
End integers.
Definition i32_codec : Codec Z := int_codec is_i32 _.
Definition u64_codec : Codec Z := int_codec is_u64 _.
Definition i64_codec : Codec Z := int_codec is_i64 _.

(** Slices: [null] is the nil slice, and every element is decoded into a zero element. *)
Section slices.
Context {A : Type} (c : Codec A).

Lemma decode_items l :
  Forall (valid c) l → mapM (decode c (zero c)) (encode c <$> l) = Some l.
Proof.
  intros Hl. apply mapM_Some. induction Hl as [|x l Hx Hl IH]; simpl; constructor; [|done].
  by apply decode_encode.
Qed.

Definition list_codec : Codec (list A).
Proof.
  refine {| zero := []; encode l := JArr (encode c <$> l); valid := Forall (valid c);
    decode _ j := match j with
      | JArr items => mapM (decode c (zero c)) items
      | JNull => Some []
      | _ => None
      end |}.
  apply decode_items.
Defined.
End slices.

(** [map[string]string], written with sorted keys; decoding adds to the map in place. *)
Definition map_members (m : gmap string string) : list (string * json) :=
  (λ k, (k, JStr (default "" (m !! k)))) <$> sorted_keys m.

Fixpoint decode_members (cur : gmap string string) (ms : list (string * json)) :
    option (gmap string string) :=
  match ms with
  | [] => Some cur
  | (k, j) :: ms => v ← decode string_codec "" j; decode_members (<[k := v]> cur) ms
  end.

Lemma decode_map_keys (m cur : gmap string string) l :
  NoDup l → (∀ k, k ∈ l → is_Some (m !! k)) →
  ∃ m', decode_members cur ((λ k, (k, JStr (default "" (m !! k)))) <$> l) = Some m' ∧
    ∀ k, m' !! k = if decide (k ∈ l) then m !! k else cur !! k.
Proof.
  intros Hnd. revert cur. induction Hnd as [|k l Hk Hnd IH]; intros cur Hl; simpl.
  { by exists cur. }
  destruct (IH (<[k := default "" (m !! k)]> cur)) as (m' & Hm' & Hlk); [set_solver|].
  exists m'. split; [done|]. intros i. rewrite Hlk. destruct (decide (i = k)) as [->|Hne].
  - destruct (Hl k) as [v Hv]; [left|]. rewrite lookup_insert_eq, Hv.
    do 2 case_decide; set_solver.
  - rewrite lookup_insert_ne by done. do 2 case_decide; set_solver.
Qed.

Definition map_codec : Codec (gmap string string).
Proof.
  refine {| zero := ∅; encode m := JObj (map_members m); valid _ := True;
    decode cur j := match j with
      | JObj ms => decode_members cur ms
      | JNull => Some ∅
      | _ => None
      end |}.
  intros m _. unfold map_members.
  destruct (decode_map_keys m ∅ (sorted_keys m)) as (m' & Hm' & Hlk).
  - apply sorted_keys_NoDup.
  - intros k. apply elem_of_sorted_keys.
  - rewrite Hm'. f_equal. apply map_eq. intros k. rewrite Hlk. case_decide as Hk; [done|].
    rewrite lookup_empty. symmetry. apply eq_None_not_Some. by rewrite <-elem_of_sorted_keys.
Defined.

(** ** Struct members *)

(** A member that is always written, and one with [omitempty]. *)
Definition member {A} (c : Codec A) (name : string) (v : A) : list (string * json) :=
  [(name, encode c v)].
Definition omit_empty {A} (c : Codec A) (empty : bool) (name : string) (v : A) :
    list (string * json) :=
  if empty then [] else member c name v.

(** Decode the members addressed to one field, in order, into its current value. *)
Fixpoint get {A} (c : Codec A) (name : string) (cur : A) (ms : list (string * json)) : option A :=
  match ms with
  | [] => Some cur
  | (k, j) :: ms =>
      if same_key name k then v ← decode c cur j; get c name v ms else get c name cur ms
  end.

Section get.
Context {A : Type} (c : Codec A).

Lemma get_app name cur a b :
  get c name cur (a ++ b) = v ← get c name cur a; get c name v b.
Proof.
  revert cur. induction a as [|[k j] a IH]; intros cur; simpl; [done|].
  case_match; [|apply IH]. destruct (decode c cur j); simpl; [apply IH | done].
Qed.

Lemma get_other {B} (d : Codec B) name k cur v rest :
  same_key name k = false → get c name cur (member d k v ++ rest) = get c name cur rest.
Proof. intros Hk. simpl. by rewrite Hk. Qed.

Lemma get_other_opt {B} (d : Codec B) name k empty cur v rest :
  same_key name k = false → get c name cur (omit_empty d empty k v ++ rest) = get c name cur rest.
Proof. intros Hk. destruct empty; simpl; [done | by rewrite Hk]. Qed.

Lemma get_here name cur v rest :
  cur = zero c → same_key name name = true → valid c v →
  get c name cur (member c name v ++ rest) = get c name v rest.
Proof. intros -> Hk Hv. simpl. by rewrite Hk, decode_encode. Qed.

Lemma get_here_opt name (empty : bool) cur v rest :
  cur = zero c → same_key name name = true → valid c v → (empty = true → v = zero c) →
  get c name cur (omit_empty c empty name v ++ rest) = get c name v rest.
Proof.
  intros -> Hk Hv He. destruct empty; [by rewrite He|]. by apply get_here.
Qed.

Lemma get_nil name cur : get c name cur [] = Some cur.
Proof. done. Qed.
End get.

(** Emptiness tests of [omitempty]. *)
Definition empty_str (s : string) : bool := bool_decide (s = "").
Definition empty_int (z : Z) : bool := bool_decide (z = 0%Z).
Definition empty_list {A} (l : list A) : bool := match l with [] => true | _ => false end.
Definition empty_map (m : gmap string string) : bool := bool_decide (m = ∅).

Lemma empty_str_zero s : empty_str s = true → s = zero string_codec.
Proof. apply bool_decide_eq_true. Qed.
Lemma empty_int_zero R D z : empty_int z = true → z = zero (int_codec R D).
Proof. apply bool_decide_eq_true. Qed.
Lemma empty_bool_zero b : negb b = true → b = zero bool_codec.
Proof. by destruct b. Qed.
Lemma empty_list_zero {A} (c : Codec A) l : empty_list l = true → l = zero (list_codec c).
Proof. by destruct l. Qed.
Lemma empty_map_zero m : empty_map m = true → m = zero map_codec.
Proof. apply bool_decide_eq_true. Qed.

#[export] Hint Resolve empty_str_zero empty_int_zero empty_bool_zero empty_list_zero
  empty_map_zero : cylism.

Lemma valid_strings l : valid (list_codec string_codec) l.
Proof. by apply Forall_true. Qed.
#[export] Hint Resolve valid_strings : cylism.

Lemma bind_field {A B} (m : option A) v (f : A → option B) r :
  m = Some v → f v = r → m ≫= f = r.
Proof. by intros ->. Qed.

(** Reads the fields of a struct back from the members its encoder wrote: every read skips the
    members of the other fields and meets its own (or finds it omitted, hence zero). *)
Ltac read_side := first [reflexivity | eassumption | exact I | solve [eauto with cylism]].
Ltac read_field :=
  repeat first
    [ rewrite get_other by reflexivity
    | rewrite get_other_opt by reflexivity
    | rewrite get_here by read_side
    | rewrite get_here_opt by read_side ];
  apply get_nil.
Ltac read_fields := repeat (eapply bind_field; [solve [read_field] | cbv beta]).
