(* ===== verification/JsonText.v ===== *)
(** * JSON texts

    The text level of [encoding/json]: [json.Marshal] writes a document compactly, escapes the
    characters that are unsafe in HTML or in JavaScript, and replaces invalid UTF-8; [json.Unmarshal]
    reads the grammar of RFC 8259 with white space between tokens. Reading gives back what was
    written for every document whose strings are valid UTF-8. A number without fraction and exponent
    is a [JInt]; [-0], which is never written, reads as the integer 0. The reader takes fuel: every
    call but the one that reads an element consumes a character, so twice the length is enough.
    The library's limit of ten thousand nested levels is left out. *)
From Stdlib Require Import ZArith Ascii String.
From stdpp Require Import base sorting pretty numbers gmap strings list.
From S2P Require Import Prelude GoStrings Json.

(** ** Runes *)

Definition byte_in (lo hi : N) (c : ascii) : bool := (lo <=? code c)%N && (code c <=? hi)%N.
Definition cont (c : ascii) : bool := byte_in 128 191 c.
Definition rune2 (a b : ascii) : bool := byte_in 194 223 a && cont b.
Definition rune3 (a b c : ascii) : bool :=
  (byte_in 224 224 a && byte_in 160 191 b || (byte_in 225 236 a || byte_in 238 239 a) && cont b
   || byte_in 237 237 a && byte_in 128 159 b) && cont c.
Definition rune4 (a b c d : ascii) : bool :=
  (byte_in 240 240 a && byte_in 144 191 b || byte_in 241 243 a && cont b || byte_in 244 244 a && byte_in 128 143 b)
  && cont c && cont d.

(** [utf8.DecodeRune] in a loop: the bytes of a rune, or [None] for a byte that starts none. *)
Fixpoint runes (l : list ascii) : list (option (list ascii)) :=
  match l with
  | [] => []
  | a :: l1 =>
      if (code a <? 128)%N then Some [a] :: runes l1 else
      match l1 with
      | [] => [None]
      | b :: l2 =>
          if rune2 a b then Some [a; b] :: runes l2 else
          match l2 with
          | [] => None :: runes l1
          | c :: l3 =>
              if rune3 a b c then Some [a; b; c] :: runes l3 else
              match l3 with
              | [] => None :: runes l1
              | d :: l4 => if rune4 a b c d then Some [a; b; c; d] :: runes l4 else None :: runes l1
              end
          end
      end
  end.
Definition utf8 (s : string) : bool := forallb (λ r : option _, bool_decide (r ≠ None)) (runes (chars s)).

(** [utf8.AppendRune] *)
Definition byte (n : N) : ascii := ascii_of_N n.
Definition encode_rune (n : N) : list ascii :=
  if (n <? 128)%N then [byte n]
  else if (n <? 2048)%N then [byte (192 + n / 64); byte (128 + n mod 64)]
  else if (n <? 65536)%N then [byte (224 + n / 4096); byte (128 + (n / 64) mod 64); byte (128 + n mod 64)]
  else [byte (240 + n / 262144); byte (128 + (n / 4096) mod 64); byte (128 + (n / 64) mod 64); byte (128 + n mod 64)].
(** U+FFFD *)
Definition replacement : list ascii := encode_rune 65533.

(** ** Writing *)

Definition dquote : ascii := "034"%char.
Definition hex_digit (n : N) : ascii := byte (if (n <? 10)%N then 48 + n else 87 + n).
Definition escape (c : ascii) : list ascii :=
  if decide (c = dquote ∨ c = "\"%char) then ["\"%char; c]
  else if decide (c = "008"%char) then chars "\b"
  else if decide (c = "009"%char) then chars "\t"
  else if decide (c = "010"%char) then chars "\n"
  else if decide (c = "012"%char) then chars "\f"
  else if decide (c = "013"%char) then chars "\r"
  else if (code c <? 32)%N || bool_decide (c ∈ ["<"; ">"; "&"]%char)
    then chars "\u00" ++ [hex_digit (code c / 16); hex_digit (code c mod 16)]
  else [c].
Definition write_rune (r : option (list ascii)) : list ascii :=
  match r with
  | None => chars "\ufffd"
  | Some [c] => escape c
  | Some bytes =>
      if decide (bytes = encode_rune 8232) then chars "\u2028"
      else if decide (bytes = encode_rune 8233) then chars "\u2029"
      else bytes
  end.
Definition write_string (s : string) : list ascii :=
  dquote :: concat (write_rune <$> runes (chars s)) ++ [dquote].

Fixpoint separated (l : list (list ascii)) : list ascii :=
  match l with
  | [] => []
  | [x] => x
  | x :: l => x ++ ","%char :: separated l
  end.

Fixpoint write (j : json) : list ascii :=
  match j with
  | JNull => chars "null"
  | JBool b => chars (if b then "true" else "false")
  | JInt z => chars (dec z)
  | JFrac literal => chars literal
  | JStr s => write_string s
  | JArr items => "["%char :: separated (map write items) ++ ["]"%char]
  | JObj members =>
      "{"%char :: separated (map (λ kv, write_string kv.1 ++ ":"%char :: write kv.2) members) ++ ["}"%char]
  end.
(** [json.Marshal] of a document *)
Definition print (j : json) : string := of_chars (write j).

(** ** Reading *)

Definition blank_char (c : ascii) : bool := bool_decide (code c ∈ [32; 9; 10; 13]%N).
Fixpoint skip (l : list ascii) : list ascii :=
  match l with
  | c :: l' => if blank_char c then skip l' else l
  | [] => []
  end.

Definition hex_value (c : ascii) : option N :=
  if byte_in 48 57 c then Some (code c - 48)%N
  else if byte_in 97 102 c then Some (code c - 87)%N
  else if byte_in 65 70 c then Some (code c - 55)%N else None.
Definition hex4 (a b c d : ascii) : option N :=
  a ← hex_value a; b ← hex_value b; c ← hex_value c; d ← hex_value d;
  Some (((a * 16 + b) * 16 + c) * 16 + d)%N.
Definition simple_escape (e : ascii) : option ascii :=
  if decide (e = dquote ∨ e = "\"%char ∨ e = "/"%char) then Some e
  else if decide (e = "b"%char) then Some "008"%char
  else if decide (e = "t"%char) then Some "009"%char
  else if decide (e = "n"%char) then Some "010"%char
  else if decide (e = "f"%char) then Some "012"%char
  else if decide (e = "r"%char) then Some "013"%char else None.
Definition high_surrogate (r : N) : bool := (55296 <=? r)%N && (r <=? 56319)%N.
Definition low_surrogate (r : N) : bool := (56320 <=? r)%N && (r <=? 57343)%N.
(** A rune written as one escape; a lone surrogate is replaced. *)
Definition escaped_rune (r : N) : list ascii :=
  if high_surrogate r || low_surrogate r then replacement else encode_rune r.
Definition paired_rune (r r2 : N) : list ascii := encode_rune (65536 + (r - 55296) * 1024 + (r2 - 56320)).
Definition push (bytes : list ascii) (x : option (list ascii * list ascii)) : option (list ascii * list ascii) :=
  '(s, rest) ← x; Some (bytes ++ s, rest).

(** The text of a string after its opening quote, and what follows the closing one. *)
Fixpoint unquote (l : list ascii) : option (list ascii * list ascii) :=
  match l with
  | [] => None
  | a :: l1 =>
      if decide (a = dquote) then Some ([], l1)
      else if decide (a = "\"%char) then
        match l1 with
        | [] => None
        | e :: l2 =>
            if decide (e = "u"%char) then
              match l2 with
              | h1 :: h2 :: h3 :: h4 :: l6 =>
                  match hex4 h1 h2 h3 h4 with
                  | None => None
                  | Some r =>
                      match l6 with
                      | b :: u :: g1 :: g2 :: g3 :: g4 :: l12 =>
                          match hex4 g1 g2 g3 g4 with
                          | Some r2 =>
                              if bool_decide (b = "\"%char ∧ u = "u"%char) && high_surrogate r && low_surrogate r2
                              then push (paired_rune r r2) (unquote l12) else push (escaped_rune r) (unquote l6)
                          | None => push (escaped_rune r) (unquote l6)
                          end
                      | _ => push (escaped_rune r) (unquote l6)
                      end
                  end
              | _ => None
              end
            else match simple_escape e with Some x => push [x] (unquote l2) | None => None end
        end
      else if (code a <? 32)%N then None
      else if (code a <? 128)%N then push [a] (unquote l1)
      else
        match l1 with
        | [] => None
        | b :: l2 =>
            if rune2 a b then push [a; b] (unquote l2) else
            match l2 with
            | [] => push replacement (unquote l1)
            | c :: l3 =>
                if rune3 a b c then push [a; b; c] (unquote l3) else
                match l3 with
                | [] => push replacement (unquote l1)
                | d :: l4 => if rune4 a b c d then push [a; b; c; d] (unquote l4) else push replacement (unquote l1)
                end
            end
        end
  end.

Definition digit (c : ascii) : bool := byte_in 48 57 c.
Definition number_char (c : ascii) : bool := digit c || bool_decide (c ∈ ["+"; "-"; "."; "e"; "E"]%char).
Fixpoint span (test : ascii → bool) (l : list ascii) : list ascii * list ascii :=
  match l with
  | c :: l' => if test c then let '(x, rest) := span test l' in (c :: x, rest) else ([], l)
  | [] => ([], [])
  end.
(** One digit or more. *)
Definition some_digits (l : list ascii) : option (list ascii) :=
  match span digit l with ([], _) => None | (_, rest) => Some rest end.
Definition drop_sign (signs : list ascii) (l : list ascii) : list ascii :=
  match l with c :: l' => if bool_decide (c ∈ signs) then l' else l | [] => [] end.
(** What follows the integer part. *)
Definition after_integer (l : list ascii) : option (list ascii) :=
  match drop_sign ["-"%char] l with
  | c :: l => if decide (c = "0"%char) then Some l else some_digits (c :: l)
  | [] => None
  end.
Definition after_fraction (l : list ascii) : option (list ascii) :=
  match l with c :: l' => if decide (c = "."%char) then some_digits l' else Some l | [] => Some [] end.
Definition after_exponent (l : list ascii) : option (list ascii) :=
  match l with
  | c :: l' => if decide (c = "e"%char ∨ c = "E"%char) then some_digits (drop_sign ["+"; "-"]%char l') else Some l
  | [] => Some []
  end.
Definition integer_of (l : list ascii) : option Z :=
  match l with
  | c :: l' => if decide (c = "-"%char) then Z.opp <$> parse_digits 0 (of_chars l') else parse_digits 0 (of_chars l)
  | [] => None
  end.
Definition number (l : list ascii) : option json :=
  match after_integer l with
  | None => None
  | Some [] => JInt <$> integer_of l
  | Some rest =>
      rest ← after_fraction rest; rest ← after_exponent rest;
      if decide (rest = []) then Some (JFrac (of_chars l)) else None
  end.

Definition keyword (word : string) (j : json) (l : list ascii) : option (json * list ascii) :=
  if decide (take (String.length word) l = chars word) then Some (j, drop (String.length word) l) else None.

Fixpoint value (fuel : nat) (l : list ascii) : option (json * list ascii) :=
  match fuel with
  | 0 => None
  | S fuel =>
      match skip l with
      | [] => None
      | c :: r =>
          if decide (c = dquote) then '(s, r) ← unquote r; Some (JStr (of_chars s), r)
          else if decide (c = "["%char) then
            match skip r with
            | [] => None
            | d :: r' =>
                if decide (d = "]"%char) then Some (JArr [], r')
                else '(items, r) ← array_elements fuel r; Some (JArr items, r)
            end
          else if decide (c = "{"%char) then
            match skip r with
            | [] => None
            | d :: r' =>
                if decide (d = "}"%char) then Some (JObj [], r')
                else '(ms, r) ← object_members fuel r; Some (JObj ms, r)
            end
          else if decide (c = "t"%char) then keyword "true" (JBool true) (c :: r)
          else if decide (c = "f"%char) then keyword "false" (JBool false) (c :: r)
          else if decide (c = "n"%char) then keyword "null" JNull (c :: r)
          else let '(n, rest) := span number_char (c :: r) in j ← number n; Some (j, rest)
      end
  end
with array_elements (fuel : nat) (l : list ascii) : option (list json * list ascii) :=
  match fuel with
  | 0 => None
  | S fuel =>
      '(j, r) ← value fuel l;
      match skip r with
      | [] => None
      | d :: r =>
          if decide (d = ","%char) then '(items, r) ← array_elements fuel r; Some (j :: items, r)
          else if decide (d = "]"%char) then Some ([j], r) else None
      end
  end
with object_members (fuel : nat) (l : list ascii) : option (list (string * json) * list ascii) :=
  match fuel with
  | 0 => None
  | S fuel =>
      match skip l with
      | [] => None
      | q :: r =>
          if decide (q = dquote) then
            '(k, r) ← unquote r;
            match skip r with
            | [] => None
            | e :: r =>
                if decide (e = ":"%char) then
                  '(j, r) ← value fuel r;
                  match skip r with
                  | [] => None
                  | d :: r =>
                      if decide (d = ","%char) then '(ms, r) ← object_members fuel r; Some ((of_chars k, j) :: ms, r)
                      else if decide (d = "}"%char) then Some ([(of_chars k, j)], r) else None
                  end
                else None
            end
          else None
      end
  end.

(** [json.Unmarshal] of a text to a document *)
Definition parse (s : string) : option json :=
  match value (S (2 * String.length s)) (chars s) with
  | Some (j, rest) => if decide (skip rest = []) then Some j else None
  | None => None
  end.

(** ** Reading back what was written *)

(** *** Strings *)

Inductive rune_bytes : list ascii → Prop :=
  | rune_bytes1 a : (code a < 128)%N → rune_bytes [a]
  | rune_bytes2 a b : (128 ≤ code a)%N → rune2 a b = true → rune_bytes [a; b]
  | rune_bytes3 a b c : (128 ≤ code a)%N → rune2 a b = false → rune3 a b c = true → rune_bytes [a; b; c]
  | rune_bytes4 a b c d : (128 ≤ code a)%N → rune2 a b = false → rune3 a b c = false → rune4 a b c d = true →
      rune_bytes [a; b; c; d].

Lemma bytes_of_cons bytes (rs : list (option (list ascii))) :
  concat (default [] <$> (Some bytes :: rs)) = bytes ++ concat (default [] <$> rs).
Proof. done. Qed.

Lemma runes_bytes l :
  Forall (λ r, ∃ bytes, r = Some bytes) (runes l) →
  concat (default [] <$> runes l) = l ∧ Forall (λ r, ∃ bytes, r = Some bytes ∧ rune_bytes bytes) (runes l).
Proof.
  induction l as [l IH] using (induction_ltof1 _ length). unfold ltof in IH.
  assert (∀ P (bytes : list ascii) rest, Forall P (Some bytes :: rest) → Forall P rest) as Htl by (intros; by inv H).
  assert (∀ rest, ¬ Forall (λ r, ∃ bytes, r = Some bytes) (@None (list ascii) :: rest)) as Hno
    by (intros rest Hf; inv Hf; by destruct H1).
  destruct l as [|a l1]; [by split|]. cbn [runes]. destruct (N.ltb_spec (code a) 128) as [Ha|Ha].
  { intros Hf%Htl. destruct (IH l1) as [H1 H2]; [simpl; lia|done|]. split; [by rewrite bytes_of_cons, H1|].
    constructor; [|done]. eexists. split; [done|]. by constructor. }
  destruct l1 as [|b l2]; [intros []%Hno|]. destruct (rune2 a b) eqn:H2.
  { intros Hf%Htl. destruct (IH l2) as [H1 H3]; [simpl; lia|done|]. split; [by rewrite bytes_of_cons, H1|].
    constructor; [|done]. eexists. split; [done|]. by constructor. }
  destruct l2 as [|c l3]; [intros []%Hno|]. destruct (rune3 a b c) eqn:H3.
  { intros Hf%Htl. destruct (IH l3) as [H1 H4]; [simpl; lia|done|]. split; [by rewrite bytes_of_cons, H1|].
    constructor; [|done]. eexists. split; [done|]. by constructor. }
  destruct l3 as [|d l4]; [intros []%Hno|]. destruct (rune4 a b c d) eqn:H4; [|intros []%Hno].
  intros Hf%Htl. destruct (IH l4) as [H1 H5]; [simpl; lia|done|]. split; [by rewrite bytes_of_cons, H1|].
  constructor; [|done]. eexists. split; [done|]. by constructor.
Qed.

(** One escape that is no half of a pair. *)
Lemma unquote_escaped h1 h2 h3 h4 r tail :
  hex4 h1 h2 h3 h4 = Some r → high_surrogate r = false →
  unquote ("\"%char :: "u"%char :: h1 :: h2 :: h3 :: h4 :: tail) = push (escaped_rune r) (unquote tail).
Proof.
  intros Hr Hs. cbn [unquote]. rewrite decide_False, !decide_True by done. rewrite Hr.
  repeat (case_match; try done). by rewrite Hs, andb_false_r in *.
Qed.

Definition escape_reads (c : ascii) : Prop :=
  escape c = [c] ∧ c ≠ dquote ∧ c ≠ "\"%char ∧ (32 ≤ code c)%N ∨
  (∃ e, escape c = ["\"%char; e] ∧ e ≠ "u"%char ∧ simple_escape e = Some c) ∨
  (∃ h1 h2 h3 h4, escape c = "\"%char :: "u"%char :: [h1; h2; h3; h4] ∧ hex4 h1 h2 h3 h4 = Some (code c) ∧
    high_surrogate (code c) = false ∧ escaped_rune (code c) = [c]).

Lemma escape_table c : (code c < 128)%N → escape_reads c.
Proof.
  destruct c as [[] [] [] [] [] [] [] []]; try done; intros _;
    solve [ left; split_and!; done
          | right; left; eexists; split_and!; done
          | right; right; do 4 eexists; split_and!; done ].
Qed.

Lemma high_byte a : (128 ≤ code a)%N →
  a ≠ dquote ∧ a ≠ "\"%char ∧ (code a <? 32)%N = false ∧ (code a <? 128)%N = false.
Proof.
  intros Ha. split_and!; [by intros ->|by intros ->|..]; apply N.ltb_ge; lia.
Qed.

Lemma unquote_rune bytes tail :
  rune_bytes bytes → unquote (write_rune (Some bytes) ++ tail) = push bytes (unquote tail).
Proof.
  assert (unquote (chars "\u2028" ++ tail) = push (encode_rune 8232) (unquote tail)) as H8
    by exact (unquote_escaped "2" "0" "2" "8" 8232 tail eq_refl eq_refl).
  assert (unquote (chars "\u2029" ++ tail) = push (encode_rune 8233) (unquote tail)) as H9
    by exact (unquote_escaped "2" "0" "2" "9" 8233 tail eq_refl eq_refl).
  intros Hb. destruct Hb as [a Ha|a b (?&?&H32&H128)%high_byte H2|a b c (?&?&H32&H128)%high_byte H2 H3
    |a b c d (?&?&H32&H128)%high_byte H2 H3 H4].
  - cbn [write_rune]. destruct (escape_table a Ha) as [(-> & H1 & H2 & H3)|[(e & -> & He & Hs)|(h1 & h2 & h3 & h4 & -> & Hh & Hs & Hr)]].
    + cbn [app unquote]. rewrite !decide_False by done. rewrite (proj2 (N.ltb_ge _ 32)), (proj2 (N.ltb_lt _ 128)) by lia. done.
    + cbn [app unquote]. rewrite decide_False, decide_True, decide_False by done. by rewrite Hs.
    + cbn [app]. by rewrite (unquote_escaped _ _ _ _ _ _ Hh Hs), Hr.
  - cbn [write_rune]. do 2 (case_decide as Hx; [by rewrite Hx|clear Hx]).
    cbn [app unquote]. rewrite !decide_False, H32, H128, H2 by done. done.
  - cbn [write_rune]. do 2 (case_decide as Hx; [by rewrite Hx|clear Hx]).
    cbn [app unquote]. rewrite !decide_False, H32, H128, H2, H3 by done. done.
  - cbn [write_rune]. do 2 (case_decide as Hx; [by rewrite Hx|clear Hx]).
    cbn [app unquote]. rewrite !decide_False, H32, H128, H2, H3, H4 by done. done.
Qed.

Lemma unquote_runes rs rest :
  Forall (λ r, ∃ bytes, r = Some bytes ∧ rune_bytes bytes) rs →
  unquote (concat (write_rune <$> rs) ++ dquote :: rest) = Some (concat (default [] <$> rs), rest).
Proof.
  induction 1 as [|r rs (bytes & -> & Hb) Hrs IH]; [done|].
  rewrite bytes_of_cons, fmap_cons. cbn [concat]. rewrite <-app_assoc, unquote_rune by done. by rewrite IH.
Qed.

Lemma unquote_string s rest : utf8 s = true →
  unquote (concat (write_rune <$> runes (chars s)) ++ dquote :: rest) = Some (chars s, rest).
Proof.
  intros Hs. destruct (runes_bytes (chars s)) as [Hc Hf].
  - apply Forall_forall. intros r Hr. unfold utf8 in Hs. rewrite forallb_forall in Hs.
    apply list_elem_of_In in Hr. specialize (Hs r Hr). apply bool_decide_eq_true in Hs. destruct r; [by eexists|done].
  - by rewrite unquote_runes, Hc.
Qed.

(** *** Numbers *)

(** The text after a value does not go on with it. *)
Definition stops (rest : list ascii) : Prop := match rest with c :: _ => number_char c = false | [] => True end.

Lemma span_stops test l rest :
  forallb test l = true → match rest with c :: _ => test c = false | [] => True end → span test (l ++ rest) = (l, rest).
Proof.
  intros Hl Hr. induction l as [|c l IH]; simpl in *.
  - destruct rest as [|c rest]; [done|]. simpl. by rewrite Hr.
  - apply andb_prop in Hl as [-> Hl]. by rewrite IH.
Qed.

Lemma pretty_digits x s : forallb digit (chars s) = true → forallb digit (chars (pretty_N_go x s)) = true.
Proof.
  revert s. induction (N.lt_wf_0 x) as [x _ IH]; intros s Hs. destruct (decide (x = 0%N)) as [->|Hx].
  { by rewrite pretty_N_go_0. }
  rewrite pretty_N_go_step by lia. apply IH; [apply N.div_lt; lia|]. simpl. apply andb_true_intro. split; [|done].
  destruct (x `mod` 10)%N as [|[[[[]|[]|]|[[]|[]|]|]|[[[]|[]|]|[[]|[]|]|]|]] eqn:Hm; try done;
    pose proof (N.mod_lt x 10); lia.
Qed.

Lemma pretty_head x s : x ≠ 0%N → ∃ c l, chars (pretty_N_go x s) = c :: l ∧ digit c = true ∧ c ≠ "0"%char.
Proof.
  revert s. induction (N.lt_wf_0 x) as [x _ IH]; intros s Hx. rewrite pretty_N_go_step by lia.
  destruct (decide (x / 10 = 0)%N) as [H0|H0].
  - rewrite H0, pretty_N_go_0. do 2 eexists. split; [done|].
    assert (x < 10)%N as Hlt by (pose proof (N.div_mod x 10); pose proof (N.mod_lt x 10); lia).
    rewrite N.mod_small by done.
    destruct x as [|[[[[]|[]|]|[[]|[]|]|]|[[[]|[]|]|[[]|[]|]|]|]]; done.
  - apply IH; [apply N.div_lt; lia | done].
Qed.

Lemma digits_are_number l : forallb digit l = true → forallb number_char l = true.
Proof.
  intros Hl. apply forallb_forall. intros c Hc. rewrite forallb_forall in Hl. unfold number_char. by rewrite (Hl c Hc).
Qed.

(** What [strconv] writes for a positive number: digits, the first one not zero. *)
Lemma dec_positive p :
  ∃ c l, chars (dec (Zpos p)) = c :: l ∧ digit c = true ∧ c ≠ "0"%char ∧ forallb digit l = true ∧
    parse_digits 0 (of_chars (c :: l)) = Some (Zpos p).
Proof.
  change (dec (Zpos p)) with (pretty_N_go (N.pos p) "").
  destruct (pretty_head (N.pos p) "") as (c & l & Hcl & Hd & H0); [done|]. exists c, l. split; [done|].
  pose proof (pretty_digits (N.pos p) "" eq_refl) as Hall. rewrite Hcl in Hall. apply andb_prop in Hall as [_ Hl].
  split_and!; [done..|]. rewrite <-Hcl, string_of_list_ascii_of_string, parse_digits_pretty. done.
Qed.

Lemma some_digits_all c l : digit c = true → forallb digit l = true → some_digits (c :: l) = Some [].
Proof.
  intros Hc Hl. unfold some_digits. pose proof (span_stops digit (c :: l) []) as Hs. rewrite app_nil_r in Hs.
  rewrite Hs; [done| |done]. simpl. by rewrite Hc.
Qed.

Lemma digit_sign c : digit c = true → c ≠ "-"%char.
Proof. by intros Hc ->. Qed.

Lemma number_dec z : forallb number_char (chars (dec z)) = true ∧ number (chars (dec z)) = Some (JInt z).
Proof.
  destruct z as [|p|p]; [done| |].
  - destruct (dec_positive p) as (c & l & Hcl & Hc & H0 & Hl & Hp). rewrite Hcl. split.
    { apply digits_are_number. simpl. by rewrite Hc. }
    pose proof (digit_sign c Hc) as Hs. unfold number, after_integer, drop_sign.
    rewrite bool_decide_eq_false_2 by (by intros ?%list_elem_of_singleton).
    rewrite decide_False, some_digits_all by done. unfold integer_of. by rewrite decide_False, Hp by done.
  - destruct (dec_positive p) as (c & l & Hcl & Hc & H0 & Hl & Hp).
    assert (chars (dec (Zneg p)) = "-"%char :: c :: l) as -> by (rewrite <-Hcl; done). split.
    { change (forallb number_char (c :: l) = true). apply digits_are_number. simpl. by rewrite Hc. }
    unfold number, after_integer, drop_sign. rewrite bool_decide_eq_true_2 by left.
    rewrite decide_False, some_digits_all by done. unfold integer_of. by rewrite decide_True, Hp by done.
Qed.

(** *** Documents *)

Fixpoint textual (j : json) : bool :=
  match j with
  | JStr s => utf8 s
  | JFrac lit => forallb number_char (chars lit) &&
      match number (chars lit) with Some (JFrac l) => bool_decide (l = lit) | _ => false end
  | JArr items => forallb textual items
  | JObj members => forallb (λ kv, utf8 kv.1 && textual kv.2) members
  | _ => true
  end.

Lemma json_nested_ind (P : json → Prop) :
  P JNull → (∀ b, P (JBool b)) → (∀ z, P (JInt z)) → (∀ l, P (JFrac l)) → (∀ s, P (JStr s)) →
  (∀ items, Forall P items → P (JArr items)) →
  (∀ members, Forall (λ kv, P kv.2) members → P (JObj members)) → ∀ j, P j.
Proof.
  intros Hn Hb Hi Hf Hs Ha Ho. fix rec 1. intros [|b|z|l|s|items|members]; [done|done|done|done|done| |].
  - apply Ha. induction items as [|j items IH]; constructor; [apply rec | exact IH].
  - apply Ho. induction members as [|[k j] members IH]; constructor; [apply rec | exact IH].
Qed.

(** The calls a document needs. *)
Fixpoint needs (l : list nat) : nat := match l with [] => 0 | n :: l => S (Nat.max n (needs l)) end.
Fixpoint need (j : json) : nat :=
  match j with
  | JArr items => S (needs (map need items))
  | JObj members => S (needs (map (λ kv, need kv.2) members))
  | _ => 1
  end.

Definition reads_value (j : json) : Prop :=
  ∀ fuel rest, need j ≤ fuel → stops rest → value fuel (write j ++ rest) = Some (j, rest).

Lemma value_number fuel l j rest :
  forallb number_char l = true → number l = Some j → stops rest → value (S fuel) (l ++ rest) = Some (j, rest).
Proof.
  intros Hl Hj Hr. destruct l as [|c l]; [done|]. pose proof (span_stops _ _ _ Hl Hr) as Hs.
  assert (number_char c = true) as Hc by by apply andb_prop in Hl as [? _].
  assert (blank_char c = false ∧ c ≠ dquote ∧ c ≠ "["%char ∧ c ≠ "{"%char ∧ c ≠ "t"%char ∧ c ≠ "f"%char ∧ c ≠ "n"%char)
    as (Hb & ?) by (clear -Hc; destruct c as [[] [] [] [] [] [] [] []]; by try done).
  cbn [app value skip]. rewrite Hb. cbv iota. destruct_and!. rewrite !decide_False by done.
  cbn [app] in Hs. rewrite Hs. cbn [mbind option_bind]. by rewrite Hj.
Qed.

Lemma value_string fuel s rest :
  utf8 s = true → value (S fuel) (write_string s ++ rest) = Some (JStr s, rest).
Proof.
  intros Hs. unfold write_string. cbn [app value skip]. change (blank_char dquote) with false. cbv iota. rewrite decide_True by done.
  rewrite <-app_assoc. cbn [app]. rewrite unquote_string by done. cbn.
  by rewrite string_of_list_ascii_of_string.
Qed.

(** No value starts with white space or a closing bracket. *)
Lemma write_head j : textual j = true → ∃ c l, write j = c :: l ∧ blank_char c = false ∧ c ≠ "]"%char.
Proof.
  destruct j as [|[]|z|lit|s|items|members]; intros Hj; try (by do 2 eexists).
  - simpl. destruct z as [|p|p]; [by do 2 eexists| |by do 2 eexists].
    destruct (dec_positive p) as (c & l & -> & Hc & _). do 2 eexists. split; [done|].
    clear -Hc. destruct c as [[] [] [] [] [] [] [] []]; by try done.
  - simpl in *. apply andb_prop in Hj as [Hl Hn]. destruct (chars lit) as [|c l]; [done|]. do 2 eexists.
    split; [done|]. apply andb_prop in Hl as [Hc _]. clear -Hc. destruct c as [[] [] [] [] [] [] [] []]; by try done.
Qed.

Lemma elements_written fuel items rest :
  Forall reads_value items → items ≠ [] → needs (map need items) ≤ fuel →
  array_elements fuel (separated (map write items) ++ "]"%char :: rest) = Some (items, rest).
Proof.
  intros Hi. revert fuel. induction Hi as [|j items Hj Hi IH]; [done|]. intros [|fuel] _ Hn; cbn [map needs] in Hn; [lia|].
  cbn [array_elements]. destruct items as [|j' items].
  - cbn [map separated]. rewrite Hj by (done || lia). done.
  - change (separated (map write (j :: j' :: items)))
      with (write j ++ ","%char :: separated (map write (j' :: items))).
    rewrite <-app_assoc. rewrite Hj by (done || lia). cbn [mbind option_bind app skip].
    change (blank_char ","%char) with false. cbv iota. rewrite decide_True by done.
    rewrite IH by (done || lia). done.
Qed.

Lemma members_written fuel members rest :
  Forall (λ kv : string * json, utf8 kv.1 = true ∧ reads_value kv.2) members → members ≠ [] →
  needs (map (λ kv, need kv.2) members) ≤ fuel →
  object_members fuel (separated (map (λ kv, write_string kv.1 ++ ":"%char :: write kv.2) members) ++ "}"%char :: rest)
    = Some (members, rest).
Proof.
  intros Hi. revert fuel. induction Hi as [|[k j] members [Hk Hj] Hi IH]; [done|].
  intros [|fuel] _ Hn; cbn [map needs snd] in Hn; [lia|]. simpl in Hk, Hj.
  assert (∀ tail, object_members (S fuel) ((write_string k ++ ":"%char :: write j) ++ tail) =
    match value fuel (write j ++ tail) with
    | Some (j, r) =>
        match skip r with
        | [] => None
        | d :: r =>
            if decide (d = ","%char) then '(ms, r) ← object_members fuel r; Some ((k, j) :: ms, r)
            else if decide (d = "}"%char) then Some ([(k, j)], r) else None
        end
    | None => None
    end) as Hstep.
  { intros tail. unfold write_string. cbn [app object_members skip]. change (blank_char dquote) with false. cbv iota. rewrite decide_True by done.
    rewrite <-!app_assoc. cbn [app]. rewrite unquote_string by done. cbn [mbind option_bind].
    change (skip (":"%char :: write j ++ tail)) with (":"%char :: write j ++ tail). cbv iota.
    rewrite decide_True by done. rewrite string_of_list_ascii_of_string.
    by destruct (value fuel (write j ++ tail)) as [[? ?]|]. }
  destruct members as [|kv members].
  - cbn [map separated fst snd]. rewrite Hstep, Hj by (done || lia). done.
  - change (separated (map (λ kv, write_string kv.1 ++ ":"%char :: write kv.2) ((k, j) :: kv :: members)))
      with ((write_string k ++ ":"%char :: write j) ++ ","%char ::
        separated (map (λ kv, write_string kv.1 ++ ":"%char :: write kv.2) (kv :: members))).
    rewrite <-app_assoc, Hstep, Hj by (done || lia). cbn [app skip]. change (blank_char ","%char) with false. cbv iota.
    rewrite decide_True by done. rewrite IH by (done || lia). done.
Qed.

Lemma value_written j : textual j = true → reads_value j.
Proof.
  induction j as [| | | | |items IH|members IH] using json_nested_ind; intros Hj [|fuel] rest Hf Hr; try (simpl in Hf; lia).
  - done.
  - by destruct b.
  - apply value_number; [apply number_dec.. | done].
  - simpl in Hj. apply andb_prop in Hj as [Hl Hn]. apply value_number; [done| |done].
    destruct (number _) as [[]|]; try done. apply bool_decide_eq_true in Hn as ->. done.
  - by apply value_string.
  - cbn [write app value skip]. change (blank_char "["%char) with false. cbv iota.
    rewrite decide_False, decide_True by done. destruct items as [|j items]; [done|].
    assert (Forall reads_value (j :: items)) as Hi.
    { simpl in Hj. rewrite Forall_forall in IH |- *. intros x Hx. apply IH; [done|].
      change (forallb textual (j :: items) = true) in Hj. rewrite forallb_forall in Hj. by apply Hj, list_elem_of_In. }
    assert (textual j = true) as Hj0 by by simpl in Hj; apply andb_prop in Hj as [? _].
    destruct (write_head j Hj0) as (c & l & Hc & Hb & Hcl).
    assert (∃ tail, separated (map write (j :: items)) = c :: tail) as [tail Htail].
    { cbn [map separated]. rewrite Hc. destruct (map write items); by eexists. }
    rewrite <-app_assoc. cbn [app].
    pose proof (elements_written fuel (j :: items) rest Hi) as He. rewrite Htail in *. cbn [app skip]. rewrite Hb. cbv iota.
    rewrite decide_False by done. cbn [app] in He. rewrite He; [done..|]. cbn [need] in Hf. lia.
  - cbn [write app value skip]. change (blank_char "{"%char) with false. cbv iota.
    rewrite !decide_False, decide_True by done. destruct members as [|[k j] members]; [done|].
    assert (Forall (λ kv : string * json, utf8 kv.1 = true ∧ reads_value kv.2) ((k, j) :: members)) as Hi.
    { change (forallb (λ kv, utf8 kv.1 && textual kv.2) ((k, j) :: members) = true) in Hj.
      rewrite Forall_forall in IH |- *. intros x Hx. rewrite forallb_forall in Hj.
      apply list_elem_of_In in Hx as Hx'. apply Hj, andb_prop in Hx' as [? ?]. split; [done | by apply IH]. }
    assert (∃ tail, separated (map (λ kv, write_string kv.1 ++ ":"%char :: write kv.2) ((k, j) :: members)) = dquote :: tail)
      as [tail Htail].
    { cbn [map separated]. destruct (map _ members); by eexists. }
    rewrite <-app_assoc. cbn [app].
    pose proof (members_written fuel ((k, j) :: members) rest Hi) as He. rewrite Htail in *. cbn [app skip].
    change (blank_char dquote) with false. cbv iota. rewrite decide_False by done. cbn [app] in He.
    rewrite He; [done..|]. cbn [need] in Hf. lia.
Qed.

Lemma needs_separated items :
  Forall (λ j, need j < 2 * length (write j)) items →
  needs (map need items) ≤ 2 * length (separated (map write items)).
Proof.
  induction 1 as [|j items Hj Hi IH]; [done|]. destruct items as [|j' items]; [cbn in *; lia|].
  change (separated (map write (j :: j' :: items))) with (write j ++ ","%char :: separated (map write (j' :: items))).
  change (needs (map need (j :: j' :: items))) with (S (Nat.max (need j) (needs (map need (j' :: items))))).
  rewrite length_app. cbn [length]. lia.
Qed.

Lemma needs_members (members : list (string * json)) :
  Forall (λ kv, need kv.2 < 2 * length (write kv.2)) members →
  needs (map (λ kv, need kv.2) members)
    ≤ 2 * length (separated (map (λ kv, write_string kv.1 ++ ":"%char :: write kv.2) members)).
Proof.
  induction 1 as [|[k j] members Hj Hi IH]; [done|].
  destruct members as [|kv members]; cbn [fst snd] in Hj.
  - cbn [map separated needs fst snd]. rewrite length_app. cbn [length]. lia.
  - change (separated (map (λ kv, write_string kv.1 ++ ":"%char :: write kv.2) ((k, j) :: kv :: members)))
      with ((write_string k ++ ":"%char :: write j) ++ ","%char ::
        separated (map (λ kv, write_string kv.1 ++ ":"%char :: write kv.2) (kv :: members))).
    change (needs (map (λ kv : string * json, need kv.2) ((k, j) :: kv :: members)))
      with (S (Nat.max (need j) (needs (map (λ kv : string * json, need kv.2) (kv :: members))))).
    rewrite !length_app. cbn [length]. lia.
Qed.

Lemma need_length j : textual j = true → need j < 2 * length (write j).
Proof.
  induction j as [| | | | |items IH|members IH] using json_nested_ind; intros Hj.
  - simpl. lia.
  - destruct b; simpl; lia.
  - destruct (write_head (JInt z) eq_refl) as (c & l & -> & _). simpl. lia.
  - destruct (write_head _ Hj) as (c & l0 & -> & _). simpl. lia.
  - simpl. lia.
  - cbn [write need length]. rewrite length_app. cbn [length].
    enough (Forall (λ j, need j < 2 * length (write j)) items) as Hf by (pose proof (needs_separated items Hf); lia).
    rewrite Forall_forall in IH |- *. intros x Hx. apply IH; [done|]. simpl in Hj. rewrite forallb_forall in Hj.
    by apply Hj, list_elem_of_In.
  - cbn [write need length]. rewrite length_app. cbn [length].
    enough (Forall (λ kv : string * json, need kv.2 < 2 * length (write kv.2)) members) as Hf
      by (pose proof (needs_members members Hf); lia).
    rewrite Forall_forall in IH |- *. intros x Hx. apply IH; [done|].
    change (forallb (λ kv, utf8 kv.1 && textual kv.2) members = true) in Hj. rewrite forallb_forall in Hj.
    by apply list_elem_of_In in Hx as [_ ?]%Hj%andb_prop.
Qed.

Lemma length_chars s : length (chars s) = String.length s.
Proof. induction s as [|c s IH]; [done|]. simpl. by rewrite IH. Qed.

Lemma parse_print j : textual j = true → parse (print j) = Some j.
Proof.
  intros Hj. unfold parse, print. rewrite list_ascii_of_string_of_list_ascii.
  pose proof (value_written j Hj (S (2 * String.length (of_chars (write j)))) []) as Hv.
  rewrite app_nil_r in Hv. rewrite Hv; [done| |done].
  pose proof (need_length j Hj). pose proof (length_chars (of_chars (write j))) as Hl.
  rewrite list_ascii_of_string_of_list_ascii in Hl. lia.
Qed.

(** Two documents with the same text are equal. *)
Lemma print_inj j j' : textual j = true → textual j' = true → print j = print j' → j = j'.
Proof. intros Hj Hj' Heq. apply (inj Some). by rewrite <-(parse_print j Hj), Heq, (parse_print j' Hj'). Qed.

(** [json.Marshal] and [json.Unmarshal] of a variable of a type with a codec. *)
Definition marshal {A} (c : Codec A) (a : A) : string := print (encode c a).
Definition unmarshal {A} (c : Codec A) (text : string) : option A := j ← parse text; decode c (zero c) j.

Lemma unmarshal_marshal {A} (c : Codec A) a :
  valid c a → textual (encode c a) = true → unmarshal c (marshal c a) = Some a.
Proof.
  intros Ha Ht. unfold unmarshal, marshal. rewrite parse_print by done. by apply decode_encode.
Qed.
