(* ===== verification/Interleaving.v ===== *)
(** * Handlers that run at the same time

    An HTTP handler runs in its own goroutine and meets the others only through the database, the
    cluster and the nodes. A [handler] is the sequence of its atomic steps: a step is a statement, a
    request or a reading of the clock, as in the sequential model, and what follows it depends on its
    result. [interleave] runs a pool of handlers along any schedule, one step of the chosen handler at
    a time; [alone] runs one handler without interruption. Facts about all schedules are proved with
    tokens: a handler holds a list of them, a step trades them against the state ([trades]), and a
    discipline that every trade respects whatever the other handlers hold is an invariant of the pool
    ([interleave_invariant]). *)
From Stdlib Require Import ZArith.
From stdpp Require Import base sorting pretty numbers gmap strings list.
From S2P Require Import Prelude.

Inductive handler (W A : Type) : Type :=
  | Finished (r : result A)
  | Step {B : Type} (m : M W B) (rest : result B → handler W A).
Arguments Finished {W A} _.
Arguments Step {W A B} _ _.

(** The rest of a handler is skipped after an error. *)
Fixpoint handler_bind {W A B} (f : A → handler W B) (p : handler W A) : handler W B :=
  match p with
  | Finished (Ok a) => f a
  | Finished (Err e) => Finished (Err e)
  | Step m rest => Step m (λ r, handler_bind f (rest r))
  end.
#[export] Instance handler_ret W : MRet (handler W) := λ A a, Finished (Ok a).
#[export] Instance handler_mbind W : MBind (handler W) := λ A B, handler_bind.

Section steps.
Context {W : Type}.

(** A step whose error ends the handler, as [h] reports it. *)
Definition step_or {A} (m : M W A) (h : goerr → goerr) : handler W A :=
  Step m (λ r, Finished (map_err h r)).
(** A step whose error is inspected. *)
Definition tried {A} (m : M W A) : handler W (result A) := Step m (λ r, Finished (Ok r)).
(** [_ = m] *)
Definition ignored {A} (m : M W A) : handler W unit := Step m (λ _, Finished (Ok tt)).
(** The errors of a part of a handler, as [f] reports them. *)
Fixpoint reporting {A} (f : goerr → goerr) (p : handler W A) : handler W A :=
  match p with
  | Finished r => Finished (map_err f r)
  | Step m rest => Step m (λ r, reporting f (rest r))
  end.
Definition refuse {A} (e : goerr) : handler W A := Finished (Err e).
Definition refuse_if (c : bool) (e : goerr) : handler W unit := if c then refuse e else mret tt.

(** ** Running *)

Fixpoint alone {A} (p : handler W A) : M W A := λ w,
  match p with
  | Finished r => (r, w)
  | Step m rest => let '(r, w') := m w in alone (rest r) w'
  end.

Definition advance {A} (s : list (handler W A) * W) (i : nat) : list (handler W A) * W :=
  match s.1 !! i with
  | Some (Step m rest) => let '(r, w') := m s.2 in (<[i := rest r]> s.1, w')
  | _ => s
  end.
Definition interleave {A} (schedule : list nat) (pool : list (handler W A)) (w : W) : list (handler W A) * W :=
  foldl advance (pool, w) schedule.

Lemma alone_bind {A B} (p : handler W A) (f : A → handler W B) w :
  alone (p ≫= f) w = (alone p ≫= λ a, alone (f a)) w.
Proof.
  revert w. induction p as [r|C m rest IH]; intros w.
  - by destruct r.
  - cbn [mbind handler_mbind handler_bind alone]. unfold mbind, M_bind. cbn [alone].
    destruct (m w) as [r w']. apply IH.
Qed.

Lemma alone_reporting {A} f (p : handler W A) w : alone (reporting f p) w = wrapping f (alone p) w.
Proof.
  revert w. induction p as [r|C m rest IH]; intros w; unfold wrapping; cbn [reporting alone]; [by destruct r|].
  destruct (m w) as [r w']. rewrite IH. done.
Qed.

(** *** An uninterrupted run, step by step *)

Lemma alone_ignored {A B} (m : M W A) (f : unit → handler W B) w : alone (ignored m ≫= f) w = alone (f tt) (m w).2.
Proof. cbn [ignored mbind handler_mbind handler_bind alone]. by destruct (m w). Qed.
Lemma alone_tried {A B} (m : M W A) (f : result A → handler W B) w : alone (tried m ≫= f) w = alone (f (m w).1) (m w).2.
Proof. cbn [tried mbind handler_mbind handler_bind alone]. by destruct (m w). Qed.
Lemma alone_step {A B} (m : M W A) g (f : A → handler W B) w :
  alone (step_or m g ≫= f) w = match m w with (Ok a, w') => alone (f a) w' | (Err e, w') => (Err (g e), w') end.
Proof. cbn [step_or mbind handler_mbind handler_bind alone]. by destruct (m w) as [[a|e] w']. Qed.
Lemma alone_mret {A B} a (f : A → handler W B) w : alone (mret a ≫= f) w = alone (f a) w.
Proof. done. Qed.
Lemma alone_known {A B} a (f : A → handler W B) w : alone (Finished (Ok a) ≫= f) w = alone (f a) w.
Proof. done. Qed.
Lemma alone_last {A} (m : M W A) g w : alone (step_or m g) w = (map_err g (m w).1, (m w).2).
Proof. cbn [step_or alone]. by destruct (m w). Qed.

(** *** What an uninterrupted run that succeeded did *)

Lemma alone_step_or_Ok {A B} (m : M W A) g (f : A → handler W B) w b w' :
  alone (step_or m g ≫= f) w = (Ok b, w') → ∃ a w1, m w = (Ok a, w1) ∧ alone (f a) w1 = (Ok b, w').
Proof.
  cbn [step_or mbind handler_mbind handler_bind alone]. destruct (m w) as [[a|e] w1]; cbn; [|done].
  intros Hf. by exists a, w1.
Qed.
Lemma alone_tried_Ok {A B} (m : M W A) (f : result A → handler W B) w b w' :
  alone (tried m ≫= f) w = (Ok b, w') → ∃ r w1, m w = (r, w1) ∧ alone (f r) w1 = (Ok b, w').
Proof.
  cbn [tried mbind handler_mbind handler_bind alone]. destruct (m w) as [r w1]. intros Hf. by exists r, w1.
Qed.
Lemma alone_refuse_if_Ok {B} c e (f : unit → handler W B) w b w' :
  alone (refuse_if c e ≫= f) w = (Ok b, w') → c = false ∧ alone (f tt) w = (Ok b, w').
Proof. by destruct c. Qed.
Lemma alone_known_Ok {A B} (r : result A) (f : A → handler W B) w b w' :
  alone (Finished r ≫= f) w = (Ok b, w') → ∃ a, r = Ok a ∧ alone (f a) w = (Ok b, w').
Proof. destruct r as [a|e]; [|done]. intros Hf. by exists a. Qed.
End steps.

(** ** Tokens *)

Section discipline.
Context {W K : Type}.
(** What every step may rely on, and how a step trades the tokens of its handler. *)
Variable sound : W → Prop.
Variable trades : W → list K → W → list K → Prop.

(** A handler that starts with the tokens [ks] keeps to the discipline, whatever the others do between
    its steps, and ends with a result and tokens that satisfy [post]. *)
Fixpoint disciplined {A} (ks : list K) (p : handler W A) (post : result A → list K → Prop) : Prop :=
  match p with
  | Finished r => post r ks
  | Step m rest => ∀ w, sound w → ∃ ks', trades w ks (m w).2 ks' ∧ disciplined ks' (rest (m w).1) post
  end.

Lemma disciplined_bind {A B} ks (p : handler W A) (f : A → handler W B) post final :
  disciplined ks p post →
  (∀ a ks', post (Ok a) ks' → disciplined ks' (f a) final) →
  (∀ e ks', post (Err e) ks' → final (Err e) ks') →
  disciplined ks (p ≫= f) final.
Proof.
  intros Hp Hf He. revert ks Hp. induction p as [r|C m rest IH]; intros ks Hp.
  - destruct r as [a|e]; [by apply Hf | by apply He].
  - intros w Hw. destruct (Hp w Hw) as (ks' & Ht & Hr). exists ks'. split; [done|]. by apply IH.
Qed.

Lemma disciplined_weaken {A} ks (p : handler W A) post final :
  disciplined ks p post → (∀ r ks', post r ks' → final r ks') → disciplined ks p final.
Proof.
  intros Hp Hf. revert ks Hp. induction p as [r|C m rest IH]; intros ks Hp; [by apply Hf|].
  intros w Hw. destruct (Hp w Hw) as (ks' & Ht & Hr). exists ks'. split; [done|]. by apply IH.
Qed.

(** A step that trades nothing, whatever the handler holds. *)
Definition neutral {A} (m : M W A) : Prop := ∀ w ks, sound w → trades w ks (m w).2 ks.

Lemma neutral_step_or {A B} (m : M W A) g (f : A → handler W B) ks post :
  neutral m → (∀ a, disciplined ks (f a) post) → (∀ e, post (Err e) ks) → disciplined ks (step_or m g ≫= f) post.
Proof. intros Hm Hf He w Hw. exists ks. split; [by apply Hm|]. destruct (m w).1; [apply Hf | apply He]. Qed.
Lemma neutral_tried {A B} (m : M W A) (f : result A → handler W B) ks post :
  neutral m → (∀ r, disciplined ks (f r) post) → disciplined ks (tried m ≫= f) post.
Proof. intros Hm Hf w Hw. exists ks. split; [by apply Hm | apply Hf]. Qed.
Lemma neutral_ignored {A B} (m : M W A) (f : unit → handler W B) ks post :
  neutral m → disciplined ks (f tt) post → disciplined ks (ignored m ≫= f) post.
Proof. intros Hm Hf w Hw. exists ks. split; [by apply Hm | exact Hf]. Qed.
Lemma disciplined_refuse_if {B} c e (f : unit → handler W B) ks post :
  (c = false → disciplined ks (f tt) post) → (∀ e, post (Err e) ks) → disciplined ks (refuse_if c e ≫= f) post.
Proof. destruct c; intros Hf He; [apply He | by apply Hf]. Qed.
Lemma disciplined_known {A B} (r : result A) (f : A → handler W B) ks post :
  (∀ a, r = Ok a → disciplined ks (f a) post) → (∀ e, post (Err e) ks) → disciplined ks (Finished r ≫= f) post.
Proof. destruct r; intros Hf He; [by apply Hf | apply He]. Qed.

Lemma disciplined_reporting {A} f (p : handler W A) ks post :
  disciplined ks p (λ r, post (map_err f r)) → disciplined ks (reporting f p) post.
Proof.
  revert ks. induction p as [r|X m rest IH]; intros ks Hp; [done|].
  intros w Hw. destruct (Hp w Hw) as (ks' & ? & ?). exists ks'. split; [done|by apply IH].
Qed.

(** A part of a handler that trades nothing. *)
Definition idle {A} (p : handler W A) : Prop := ∀ ks, disciplined ks p (λ _ ks', ks' = ks).
Lemma idle_known {A} (r : result A) : idle (Finished r).
Proof. done. Qed.
Lemma idle_step {A B} (m : M W A) (rest : result A → handler W B) : neutral m → (∀ r, idle (rest r)) → idle (Step m rest).
Proof. intros Hm Hr ks w Hw. exists ks. split; [by apply Hm|apply Hr]. Qed.
Lemma idle_bind {A B} (p : handler W A) (f : A → handler W B) : idle p → (∀ a, idle (f a)) → idle (p ≫= f).
Proof. intros Hp Hf ks. eapply disciplined_bind; [apply Hp| |]; [intros a ks' ->; apply Hf|by intros e ks' ->]. Qed.
Lemma idle_reporting {A} f (p : handler W A) : idle p → idle (reporting f p).
Proof. intros Hp ks. apply disciplined_reporting. eapply disciplined_weaken; [apply Hp|done]. Qed.
Lemma idle_refuse_if c e : idle (refuse_if c e).
Proof. by destruct c. Qed.
Lemma idle_single {A} (m : M W A) h : neutral m → idle (step_or m h).
Proof. intros Hm. apply idle_step; [done|intros r; apply idle_known]. Qed.
Lemma idle_tried {A} (m : M W A) : neutral m → idle (tried m).
Proof. intros Hm. apply idle_step; [done|intros r; apply idle_known]. Qed.
Lemma idle_ignored {A} (m : M W A) : neutral m → idle (ignored m).
Proof. intros Hm. apply idle_step; [done|intros r; apply idle_known]. Qed.

(** A part that keeps what is held, and whose answer satisfies [P]. *)
Definition gains {A} (ks : list K) (P : A → list K → Prop) (r : result A) (ks' : list K) : Prop :=
  ks ⊆ ks' ∧ ∀ a, r = Ok a → P a ks'.
Lemma gains_error {A} ks ks' (P : A → list K → Prop) e : ks ⊆ ks' → gains ks P (Err e) ks'.
Proof. by split. Qed.
Lemma gains_answer {A} ks ks' (P : A → list K → Prop) a : ks ⊆ ks' → P a ks' → gains ks P (Ok a) ks'.
Proof. intros Hk HP. split; [done|]. by intros ? [= <-]. Qed.
Lemma disciplined_part {A B} ks0 ks (p : handler W A) (f : A → handler W B) P Q :
  ks0 ⊆ ks → disciplined ks p (gains ks P) →
  (∀ a ks', ks ⊆ ks' → P a ks' → disciplined ks' (f a) (gains ks0 Q)) → disciplined ks (p ≫= f) (gains ks0 Q).
Proof.
  intros Hk Hp Hf. eapply disciplined_bind; [exact Hp| |].
  - intros a ks' [Hks HP]. apply Hf; [done|by apply HP].
  - intros e ks' [Hks _]. apply gains_error. by etransitivity.
Qed.
Lemma disciplined_idle {A B} ks (p : handler W A) (f : A → handler W B) post :
  idle p → (∀ a, disciplined ks (f a) post) → (∀ e, post (Err e) ks) → disciplined ks (p ≫= f) post.
Proof. intros Hp Hf He. eapply disciplined_bind; [apply Hp| |]; [intros a ks' ->; apply Hf|by intros e ks' ->]. Qed.
Lemma idle_gains {A} ks (p : handler W A) : idle p → disciplined ks p (gains ks (λ _ _, True)).
Proof. intros Hp. eapply disciplined_weaken; [apply Hp|]. by intros r ks' ->. Qed.
Lemma reporting_gains {A} f (p : handler W A) ks P : disciplined ks p (gains ks P) → disciplined ks (reporting f p) (gains ks P).
Proof.
  intros Hp. apply disciplined_reporting. eapply disciplined_weaken; [exact Hp|].
  intros [a|e] ks' [Hk HP]; [by split|by apply gains_error].
Qed.

(** A pool respects every invariant that its trades respect in any frame. *)
Variable Inv : W → list K → Prop.
Hypothesis Inv_sound : ∀ w held, Inv w held → sound w.
Hypothesis Inv_perm : ∀ w held held', held ≡ₚ held' → Inv w held → Inv w held'.
Hypothesis trades_frame : ∀ w ks w' ks' others, trades w ks w' ks' → Inv w (ks ++ others) → Inv w' (ks' ++ others).

Definition pool_ok {A} (post : result A → list K → Prop) (s : list (handler W A) * W) : Prop :=
  ∃ kss, Forall2 (λ ks p, disciplined ks p post) kss s.1 ∧ Inv s.2 (concat kss).

Lemma advance_ok {A} (post : result A → list K → Prop) s i : pool_ok post s → pool_ok post (advance s i).
Proof.
  destruct s as [pool w]. intros (kss & Hd & HI). unfold advance; simpl in *.
  destruct (pool !! i) as [[r|B m rest]|] eqn:Hi; [by exists kss| |by exists kss].
  destruct (Forall2_lookup_r _ _ _ _ _ Hd Hi) as (ks & Hks & Hp). simpl in Hp.
  destruct (Hp w (Inv_sound _ _ HI)) as (ks' & Ht & Hr). destruct (m w) as [r w'].
  exists (<[i := ks']> kss). split; [by apply Forall2_insert|]. simpl in *.
  pose proof (take_drop_middle kss i ks Hks) as Hsplit.
  assert (∀ x, concat (<[i := x]> kss) ≡ₚ x ++ concat (take i kss ++ drop (S i) kss)) as Hcat.
  { intros x. rewrite insert_take_drop by (by eapply lookup_lt_Some).
    rewrite !concat_app. cbn [concat]. solve_Permutation. }
  eapply Inv_perm; [symmetry; apply Hcat|]. eapply trades_frame; [exact Ht|].
  eapply Inv_perm; [|exact HI]. rewrite <-(Hcat ks). by rewrite list_insert_id.
Qed.

Theorem interleave_invariant {A} (post : result A → list K → Prop) schedule pool w :
  pool_ok post (pool, w) → pool_ok post (interleave schedule pool w).
Proof.
  unfold interleave. generalize (pool, w). induction schedule as [|i schedule IH]; intros s Hs; [done|].
  apply IH. by apply advance_ok.
Qed.

Lemma fresh_pool_ok {A} (post : result A → list K → Prop) pool w :
  Forall (λ p, disciplined [] p post) pool → Inv w [] → pool_ok post (pool, w).
Proof.
  intros Hp HI. exists (replicate (length pool) []). split; simpl.
  - induction Hp; simpl; by constructor.
  - assert (concat (replicate (length pool) ([] : list K)) = []) as ->; [|done].
    induction (length pool); simpl; done.
Qed.
End discipline.

(** Tokens of different handlers are different. *)
Lemma tokens_apart {K X} (f : K → option X) (held : list (list K)) i j l l' k k' x x' :
  NoDup (omap f (concat held)) → held !! i = Some l → held !! j = Some l' → i ≠ j →
  k ∈ l → k' ∈ l' → f k = Some x → f k' = Some x' → x ≠ x'.
Proof.
  assert (∀ (held : list (list K)) i l k x, held !! i = Some l → k ∈ l → f k = Some x → x ∈ omap f (concat held)) as Hin.
  { clear. intros held i l k x Hi Hk Hx. apply list_elem_of_omap. exists k. split; [|done]. apply list_elem_of_In, in_concat. exists l.
    split; apply list_elem_of_In; [by eapply list_elem_of_lookup_2|done]. }
  revert i j. induction held as [|y held IH]; intros i j Hnd Hi Hj Hij Hk Hk' Hx Hx'; [done|].
  cbn [concat] in Hnd. rewrite omap_app, NoDup_app in Hnd. destruct Hnd as (_ & Hdisj & Hnd).
  destruct i as [|i], j as [|j]; simplify_eq/=; [| |by apply (IH i j); auto].
  - intros <-. apply (Hdisj x); [apply list_elem_of_omap; by eexists|]. by eapply Hin.
  - intros <-. apply (Hdisj x); [apply list_elem_of_omap; by eexists|]. by eapply Hin.
Qed.
