(* ===== verification/ReleaseSpec.v ===== *)
(** * Release specifications

    [internal/service/application/release_spec_types.go], [release_spec_normalization.go] and
    [release_spec_security.go]: the record a release is described by, its JSON form (the release
    snapshot and the deployment template), the normalisation of service ports and managed keys, and
    the sanitised copy that may be stored. Record fields keep the Go names behind a prefix per
    struct. A Go map is a [gmap] and a slice a list: the code never tells a nil map or slice from
    an empty one. *)
From Stdlib Require Import ZArith Ascii String.
From stdpp Require Import base sorting pretty numbers gmap strings list.
From S2P Require Import Prelude GoStrings Json.

(** ** Data *)

Record VolumeMountSpec := {
  vm_ClaimName : string;
  vm_MountPath : string;
  vm_ReadOnly : bool
}.

Record FileMountSpec := {
  fm_SourceType : string;
  fm_SourceName : string;
  fm_Key : string;
  fm_MountPath : string;
  fm_Managed : bool
}.

Record ResourceSpec := {
  res_RequestsCPU : string;
  res_RequestsMemory : string;
  res_LimitsCPU : string;
  res_LimitsMemory : string
}.

Record HealthSpec := {
  hs_ReadinessEnabled : bool;
  hs_ReadinessType : string;
  hs_ReadinessPath : string;
  hs_LivenessEnabled : bool;
  hs_LivenessType : string;
  hs_LivenessPath : string
}.

Record ServicePortSpec := {
  port_Name : string;
  port_Port : Z;
  port_TargetPort : Z;
  port_Protocol : string;
  port_NodePort : Z
}.

Record ServiceSpec := {
  svc_Port : Z;
  svc_TargetPort : Z;
  svc_Protocol : string;
  svc_Type : string;
  svc_NodePort : Z;
  svc_ExternalTrafficPolicy : string;
  svc_Ports : list ServicePortSpec
}.

Record EndpointSpec := {
  ep_Exposure : string;
  ep_DomainID : Z;
  ep_Domain : string;
  ep_Path : string;
  ep_TLSEnabled : bool;
  ep_IssuerRef : string;
  ep_IssuerKind : string;
  ep_ManagedCertificateName : string;
  ep_ManagedTLSSecretName : string
}.

Record ReleaseSpec := {
  rs_Image : string;
  rs_Version : string;
  rs_Command : list string;
  rs_Args : list string;
  rs_RegistryID : Z;
  (** runtime only: [json:"-"] *)
  rs_RegistryEndpoint : string;
  rs_RegistryAuthType : string;
  rs_RegistryUsername : string;
  rs_RegistryCredential : string;
  rs_ImageVerificationEndpoint : string;
  rs_ImageVerificationUsername : string;
  rs_ImageVerificationCredential : string;
  rs_ImageVerificationInsecureSkipVerify : bool;
  rs_ContainerPort : Z;
  rs_Replicas : Z;
  rs_Resources : ResourceSpec;
  rs_Health : HealthSpec;
  rs_Config : gmap string string;
  rs_ConfigDisabled : list string;
  rs_ConfigManagedKeys : list string;
  rs_Secrets : gmap string string;
  rs_SecretsDisabled : list string;
  rs_SecretManagedKeys : list string;
  rs_NodeName : string;
  rs_HostNetwork : bool;
  rs_Volumes : list VolumeMountSpec;
  rs_FileMounts : list FileMountSpec;
  rs_Service : ServiceSpec;
  rs_Endpoint : EndpointSpec
}.

Record ValidationIssue := { issue_Field : string; issue_Message : string }.

Record ApplicationContext := {
  ac_ProjectID : Z;
  ac_EnvironmentID : Z;
  ac_ProjectName : string;
  ac_EnvironmentName : string;
  ac_ApplicationName : string;
  ac_Namespace : string;
  ac_ReleaseSequence : Z;
  ac_WorkloadKind : string
}.

#[export] Instance VolumeMountSpec_eq_dec : EqDecision VolumeMountSpec.
Proof. solve_decision. Defined.
#[export] Instance FileMountSpec_eq_dec : EqDecision FileMountSpec.
Proof. solve_decision. Defined.
#[export] Instance ServicePortSpec_eq_dec : EqDecision ServicePortSpec.
Proof. solve_decision. Defined.
#[export] Instance ValidationIssue_eq_dec : EqDecision ValidationIssue.
Proof. solve_decision. Defined.

(** ** Constants *)

Definition ManagedByLabel := "app.kubernetes.io/managed-by".
Definition ManagedByValue := "cylism-manager".
Definition ProjectLabel := "app.kubernetes.io/part-of".
Definition ApplicationNameLabel := "app.kubernetes.io/name".
Definition EnvironmentLabel := "cylism.io/environment".
Definition ReleaseLabel := "cylism.io/release".

Definition ExposureCluster := "cluster".
Definition ExposureTailnet := "tailnet".
Definition ExposurePublic := "public".

Definition WorkloadKindDeployment := "deployment".
Definition WorkloadKindStatefulSet := "statefulset".

Definition ServiceProtocolTCP := "TCP".
Definition ServiceProtocolUDP := "UDP".

Definition ServiceTypeClusterIP := "ClusterIP".
Definition ServiceTypeNodePort := "NodePort".
Definition ServiceTypeLoadBalancer := "LoadBalancer".

Definition FileMountSourceConfigMap := "configmap".
Definition FileMountSourceSecret := "secret".
Definition FileMountSourceApplicationConfig := "application_config".
Definition FileMountSourceApplicationSecret := "application_secret".

(** ** Field updates of the mutable [spec] *)

Definition with_image (image version : string) (s : ReleaseSpec) : ReleaseSpec :=
  let '(Build_ReleaseSpec _ _ c a r e1 e2 e3 e4 v1 v2 v3 v4 p n rs h g gd gm x xd xm nn hn vs fs sv ep) := s in
  Build_ReleaseSpec image version c a r e1 e2 e3 e4 v1 v2 v3 v4 p n rs h g gd gm x xd xm nn hn vs fs sv ep.

Definition with_registry (endpoint authType username credential : string) (s : ReleaseSpec) : ReleaseSpec :=
  let '(Build_ReleaseSpec i v c a r _ _ _ _ v1 v2 v3 v4 p n rs h g gd gm x xd xm nn hn vs fs sv ep) := s in
  Build_ReleaseSpec i v c a r endpoint authType username credential v1 v2 v3 v4 p n rs h g gd gm x xd xm nn hn vs fs sv ep.

Definition with_verification (endpoint username credential : string) (insecure : bool) (s : ReleaseSpec) : ReleaseSpec :=
  let '(Build_ReleaseSpec i v c a r e1 e2 e3 e4 _ _ _ _ p n rs h g gd gm x xd xm nn hn vs fs sv ep) := s in
  Build_ReleaseSpec i v c a r e1 e2 e3 e4 endpoint username credential insecure p n rs h g gd gm x xd xm nn hn vs fs sv ep.

Definition with_secrets (secrets : gmap string string) (s : ReleaseSpec) : ReleaseSpec :=
  let '(Build_ReleaseSpec i v c a r e1 e2 e3 e4 v1 v2 v3 v4 p n rs h g gd gm _ xd xm nn hn vs fs sv ep) := s in
  Build_ReleaseSpec i v c a r e1 e2 e3 e4 v1 v2 v3 v4 p n rs h g gd gm secrets xd xm nn hn vs fs sv ep.

Definition with_managed_keys (config secrets : list string) (s : ReleaseSpec) : ReleaseSpec :=
  let '(Build_ReleaseSpec i v c a r e1 e2 e3 e4 v1 v2 v3 v4 p n rs h g gd _ x xd _ nn hn vs fs sv ep) := s in
  Build_ReleaseSpec i v c a r e1 e2 e3 e4 v1 v2 v3 v4 p n rs h g gd config x xd secrets nn hn vs fs sv ep.

Definition with_endpoint (endpoint : EndpointSpec) (s : ReleaseSpec) : ReleaseSpec :=
  let '(Build_ReleaseSpec i v c a r e1 e2 e3 e4 v1 v2 v3 v4 p n rs h g gd gm x xd xm nn hn vs fs sv _) := s in
  Build_ReleaseSpec i v c a r e1 e2 e3 e4 v1 v2 v3 v4 p n rs h g gd gm x xd xm nn hn vs fs sv endpoint.

(** [EndpointSpec{Exposure: ExposureCluster}] *)
Definition cluster_endpoint : EndpointSpec :=
  {| ep_Exposure := ExposureCluster; ep_DomainID := 0; ep_Domain := ""; ep_Path := "";
     ep_TLSEnabled := false; ep_IssuerRef := ""; ep_IssuerKind := "";
     ep_ManagedCertificateName := ""; ep_ManagedTLSSecretName := "" |}.

(** ** Normalisation *)

Definition normalizeServiceProtocol (protocol : string) : string :=
  let p := to_upper (trim_space protocol) in
  if decide (p = "" ∨ p = ServiceProtocolTCP) then ServiceProtocolTCP
  else if decide (p = ServiceProtocolUDP) then ServiceProtocolUDP
  else "".

Definition normalizeServiceType (serviceType : string) : string :=
  let t := to_lower (trim_space serviceType) in
  if decide (t = "" ∨ t = "clusterip") then ServiceTypeClusterIP
  else if decide (t = "nodeport") then ServiceTypeNodePort
  else if decide (t = "loadbalancer") then ServiceTypeLoadBalancer
  else "".

(** [ServiceSpec.PortSpecs] *)
Definition PortSpecs (spec : ServiceSpec) : list ServicePortSpec :=
  match svc_Ports spec with
  | [] => [{| port_Name := "service"; port_Port := svc_Port spec;
              port_TargetPort := svc_TargetPort spec; port_Protocol := svc_Protocol spec;
              port_NodePort := svc_NodePort spec |}]
  | ports => ports
  end.

(** [ServiceSpec.PrimaryTCPPort] *)
Definition PrimaryTCPPort (spec : ServiceSpec) : option ServicePortSpec :=
  find_first (λ port, bool_decide (normalizeServiceProtocol (port_Protocol port) = ServiceProtocolTCP))
    (PortSpecs spec).

Definition appendUniqueKey (keys : list string) (key : string) : list string :=
  let key := trim_space key in
  if decide (key ∈ keys) then keys else keys ++ [key].

(** The keys the legacy per-file [Managed] flag grants for one source type. *)
Definition legacy_managed_keys (source : string) (mounts : list FileMountSpec) : list string :=
  foldl (λ keys mount,
    if fm_Managed mount && bool_decide (fm_SourceType mount = source) && bool_decide (fm_Key mount ≠ "")
    then appendUniqueKey keys (fm_Key mount) else keys) [] mounts.

Definition NormalizeManagedKeys (spec : ReleaseSpec) : ReleaseSpec :=
  let config := match rs_ConfigManagedKeys spec with
    | [] => legacy_managed_keys FileMountSourceApplicationConfig (rs_FileMounts spec)
    | keys => keys end in
  let secrets := match rs_SecretManagedKeys spec with
    | [] => legacy_managed_keys FileMountSourceApplicationSecret (rs_FileMounts spec)
    | keys => keys end in
  with_managed_keys config secrets spec.

Definition containsKey (keys : list string) (key : string) : bool :=
  existsb (λ candidate, bool_decide (trim_space candidate = key)) keys.

(** [mount.Managed && mount.SourceType == source && mount.Key == key] for some mount *)
Definition legacy_managed (source key : string) (mounts : list FileMountSpec) : bool :=
  existsb (λ mount, fm_Managed mount && bool_decide (fm_SourceType mount = source)
    && bool_decide (fm_Key mount = key)) mounts.

Definition IsConfigKeyManaged (spec : ReleaseSpec) (key : string) : bool :=
  match rs_Config spec !! key with
  | None => false
  | Some _ =>
      match rs_ConfigManagedKeys spec with
      | [] => legacy_managed FileMountSourceApplicationConfig key (rs_FileMounts spec)
      | keys => containsKey keys key
      end
  end.

Definition IsSecretKeyManaged (spec : ReleaseSpec) (key : string) : bool :=
  match rs_Secrets spec !! key with
  | None => false
  | Some _ =>
      match rs_SecretManagedKeys spec with
      | [] => legacy_managed FileMountSourceApplicationSecret key (rs_FileMounts spec)
      | keys => containsKey keys key
      end
  end.

(** ** Secrets and disabled keys *)

(** The keys of the map are kept and every value is blanked; runtime credentials are dropped. *)
Definition SanitizeReleaseSpec (spec : ReleaseSpec) : ReleaseSpec :=
  with_secrets ((λ _, "") <$> rs_Secrets spec)
    (with_verification "" "" "" false (with_registry "" "" "" "" spec)).

Definition enabledStringMap (values : gmap string string) (disabled : list string) :
    gmap string string :=
  let disabledSet : gset string :=
    list_to_set (List.filter (λ key, negb (empty_str key)) (trim_space <$> disabled)) in
  filter (λ kv, kv.1 ∉ disabledSet) values.

Definition hasSecretValues (values : gmap string string) : bool :=
  existsb (λ kv : string * string, bool_decide (kv.2 ≠ "")) (map_to_list values).

(** Later maps win. *)
Definition mergeLabels (maps : list (gmap string string)) : gmap string string :=
  foldl (λ merged labels, labels ∪ merged) ∅ maps.

Definition SortedSecretKeys (values : gmap string string) : list string := sorted_keys values.
(** ** Managed keys *)

Lemma legacy_managed_keys_spec source mounts key :
  key ∈ legacy_managed_keys source mounts ↔
  ∃ f, f ∈ mounts ∧ fm_Managed f = true ∧ fm_SourceType f = source ∧ fm_Key f ≠ "" ∧ trim_space (fm_Key f) = key.
Proof.
  unfold legacy_managed_keys. induction mounts as [|f l IH] using rev_ind; [simpl; set_solver|].
  rewrite foldl_app. cbn [foldl]. setoid_rewrite elem_of_app. setoid_rewrite list_elem_of_singleton.
  set (keys := foldl _ [] l) in *.
  destruct (fm_Managed f) eqn:Hm; cbn [andb]; [|rewrite IH; naive_solver congruence].
  destruct (bool_decide_reflect (fm_SourceType f = source)) as [Hs|Hs]; cbn [andb];
    [|rewrite IH; naive_solver congruence].
  destruct (bool_decide_reflect (fm_Key f ≠ "")) as [Hk|Hk]; [|rewrite IH; naive_solver congruence].
  unfold appendUniqueKey. case_decide as Hin; [|rewrite elem_of_app, list_elem_of_singleton, IH].
  2: { split; [intros [(g & ? & ?)| ->]; [exists g; tauto | exists f; tauto]|].
    intros (g & [?| ->] & ? & ? & ? & <-); [left; exists g; tauto | by right]. }
  rewrite IH. split; [intros (g & ? & ?); exists g; tauto |]. intros (g & [Hg| ->] & ? & ? & ? & <-); [exists g; tauto | by apply IH].
Qed.

Lemma legacy_managed_spec source key mounts :
  legacy_managed source key mounts = true ↔
  ∃ f, f ∈ mounts ∧ fm_Managed f = true ∧ fm_SourceType f = source ∧ fm_Key f = key.
Proof.
  unfold legacy_managed. rewrite existsb_exists. setoid_rewrite <-list_elem_of_In.
  setoid_rewrite andb_true_iff. setoid_rewrite andb_true_iff. setoid_rewrite bool_decide_eq_true. naive_solver.
Qed.

Lemma containsKey_spec keys key : containsKey keys key = true ↔ key ∈ trim_space <$> keys.
Proof.
  unfold containsKey. rewrite existsb_exists, list_elem_of_fmap. setoid_rewrite <-list_elem_of_In.
  setoid_rewrite bool_decide_eq_true. naive_solver.
Qed.

(** What normalisation decides about one source type: the explicit keys when there are any, the
    legacy per-file flags otherwise. *)
Lemma normalized_keys_agree source mounts key :
  (∀ f, f ∈ mounts → fm_Managed f = true → fm_SourceType f = source →
    fm_Key f ≠ "" ∧ trim_space (fm_Key f) = fm_Key f) →
  match legacy_managed_keys source mounts with
  | [] => legacy_managed source key mounts
  | keys => containsKey keys key
  end = legacy_managed source key mounts.
Proof.
  intros Hf. apply eq_true_iff_eq. destruct (legacy_managed_keys source mounts) as [|k ks] eqn:Hl; [done|].
  rewrite <-Hl, containsKey_spec, legacy_managed_spec, list_elem_of_fmap. clear Hl.
  setoid_rewrite legacy_managed_keys_spec. split.
  - intros (k' & -> & f & Hin & Hm & Hs & Hne & <-). exists f. rewrite trim_space_idem.
    destruct (Hf f) as [_ ->]; auto.
  - intros (f & Hin & Hm & Hs & <-). destruct (Hf f) as [Hne Ht]; [done..|].
    exists (fm_Key f). split; [done|]. exists f. auto.
Qed.

Lemma NormalizeManagedKeys_fields spec :
  rs_Config (NormalizeManagedKeys spec) = rs_Config spec ∧
  rs_Secrets (NormalizeManagedKeys spec) = rs_Secrets spec ∧
  rs_FileMounts (NormalizeManagedKeys spec) = rs_FileMounts spec ∧
  rs_ConfigManagedKeys (NormalizeManagedKeys spec) =
    match rs_ConfigManagedKeys spec with
    | [] => legacy_managed_keys FileMountSourceApplicationConfig (rs_FileMounts spec) | keys => keys end ∧
  rs_SecretManagedKeys (NormalizeManagedKeys spec) =
    match rs_SecretManagedKeys spec with
    | [] => legacy_managed_keys FileMountSourceApplicationSecret (rs_FileMounts spec) | keys => keys end.
Proof. by destruct spec. Qed.

(** The legacy managed flags name keys that are fit to be configuration keys. *)
Definition legacy_keys_fit (spec : ReleaseSpec) : Prop :=
  ∀ f, f ∈ rs_FileMounts spec → fm_Managed f = true → fm_Key f ≠ "" ∧ trim_space (fm_Key f) = fm_Key f.

(** ** Properties *)

(** Normalising the managed keys changes no decision: a configuration or secret key is managed
    after [NormalizeManagedKeys] exactly when it was managed before (by the explicit list, or by the
    legacy flag of a file mount), and normalising twice is normalising once. *)
Theorem normalize_keeps_managed spec key (Hfit : legacy_keys_fit spec) :
  IsConfigKeyManaged (NormalizeManagedKeys spec) key = IsConfigKeyManaged spec key ∧
  IsSecretKeyManaged (NormalizeManagedKeys spec) key = IsSecretKeyManaged spec key ∧
  NormalizeManagedKeys (NormalizeManagedKeys spec) = NormalizeManagedKeys spec.
Proof.
  unfold IsConfigKeyManaged, IsSecretKeyManaged.
  destruct (NormalizeManagedKeys_fields spec) as (-> & -> & -> & -> & ->). split_and!.
  - destruct (rs_Config spec !! key); [|done]. destruct (rs_ConfigManagedKeys spec); [|done].
    apply normalized_keys_agree. intros f ???. by apply Hfit.
  - destruct (rs_Secrets spec !! key); [|done]. destruct (rs_SecretManagedKeys spec); [|done].
    apply normalized_keys_agree. intros f ???. by apply Hfit.
  - destruct spec; unfold NormalizeManagedKeys; simpl in *.
    f_equal.
    + destruct rs_ConfigManagedKeys0; [|done].
      by destruct (legacy_managed_keys FileMountSourceApplicationConfig rs_FileMounts0).
    + destruct rs_SecretManagedKeys0; [|done].
      by destruct (legacy_managed_keys FileMountSourceApplicationSecret rs_FileMounts0).
Qed.

(** C38: the sanitised specification keeps the names of the secrets and none of their values, keeps
    no registry or verification credential, and leaves every other field as it was. *)
Theorem sanitize_removes_secrets spec :
  let s := SanitizeReleaseSpec spec in
  hasSecretValues (rs_Secrets s) = false ∧
  SortedSecretKeys (rs_Secrets s) = SortedSecretKeys (rs_Secrets spec) ∧
  (rs_RegistryEndpoint s, rs_RegistryAuthType s, rs_RegistryUsername s, rs_RegistryCredential s)
    = ("", "", "", "") ∧
  (rs_ImageVerificationEndpoint s, rs_ImageVerificationUsername s, rs_ImageVerificationCredential s,
   rs_ImageVerificationInsecureSkipVerify s) = ("", "", "", false) ∧
  (∃ e a u c v vu vc vi, spec =
    with_secrets (rs_Secrets spec) (with_verification v vu vc vi (with_registry e a u c s))) ∧
  SanitizeReleaseSpec s = s.
Proof.
  destruct spec; unfold SanitizeReleaseSpec; simpl. split_and!; try done.
  - apply not_true_iff_false. unfold hasSecretValues. rewrite existsb_exists.
    intros ([k v] & Hin%list_elem_of_In & Hv%bool_decide_eq_true). apply elem_of_map_to_list in Hin.
    rewrite lookup_fmap in Hin. apply fmap_Some in Hin as (? & _ & ?). done.
  - unfold SortedSecretKeys, sorted_keys. by rewrite map_to_list_fmap, <-list_fmap_compose.
  - by repeat eexists.
  - f_equal. rewrite <-map_fmap_compose. by apply map_fmap_ext.
Qed.

(** [PrimaryTCPPort] is the first port of the service, in order, whose protocol normalises to
    TCP, and fails exactly when every port is UDP or unknown; the port list it searches is never
    empty and is the declared list when there is one. *)
Lemma primary_tcp_port_first service :
  (∀ p, PrimaryTCPPort service = Some p ↔
    ∃ before after, PortSpecs service = before ++ p :: after ∧
      normalizeServiceProtocol (port_Protocol p) = ServiceProtocolTCP ∧
      ∀ q, q ∈ before → normalizeServiceProtocol (port_Protocol q) ≠ ServiceProtocolTCP) ∧
  (PrimaryTCPPort service = None ↔
    ∀ p, p ∈ PortSpecs service → normalizeServiceProtocol (port_Protocol p) ≠ ServiceProtocolTCP) ∧
  PortSpecs service ≠ [] ∧
  (svc_Ports service ≠ [] → PortSpecs service = svc_Ports service).
Proof.
  unfold PrimaryTCPPort. split_and!.
  - intros p. rewrite find_first_split. setoid_rewrite bool_decide_eq_true.
    setoid_rewrite bool_decide_eq_false. done.
  - rewrite find_first_None. by setoid_rewrite bool_decide_eq_false.
  - unfold PortSpecs. by destruct (svc_Ports service).
  - unfold PortSpecs. by destruct (svc_Ports service).
Qed.

(** A realistic specification, for the concrete instances of the theorems: a web application with a
    managed configuration file, a secret, one volume and a public endpoint. *)
Definition sample_spec : ReleaseSpec := {|
  rs_Image := "registry.local/shop/web:1.2.0"; rs_Version := "1.2.0";
  rs_Command := []; rs_Args := ["--verbose"]; rs_RegistryID := 1;
  rs_RegistryEndpoint := "registry.local"; rs_RegistryAuthType := "basic";
  rs_RegistryUsername := "robot"; rs_RegistryCredential := "hunter2";
  rs_ImageVerificationEndpoint := ""; rs_ImageVerificationUsername := "";
  rs_ImageVerificationCredential := ""; rs_ImageVerificationInsecureSkipVerify := false;
  rs_ContainerPort := 8080; rs_Replicas := 1;
  rs_Resources := {| res_RequestsCPU := "1"; res_RequestsMemory := "2"; res_LimitsCPU := "3"; res_LimitsMemory := "4" |};
  rs_Health := {| hs_ReadinessEnabled := true; hs_ReadinessType := "http"; hs_ReadinessPath := "/ready";
                  hs_LivenessEnabled := false; hs_LivenessType := "tcp"; hs_LivenessPath := "" |};
  rs_Config := {["app.toml" := "debug=false"]}; rs_ConfigDisabled := []; rs_ConfigManagedKeys := [];
  rs_Secrets := {["PASSWORD" := "s3cret"]}; rs_SecretsDisabled := []; rs_SecretManagedKeys := [];
  rs_NodeName := ""; rs_HostNetwork := false;
  rs_Volumes := [{| vm_ClaimName := "data"; vm_MountPath := "/data"; vm_ReadOnly := false |}];
  rs_FileMounts := [{| fm_SourceType := FileMountSourceApplicationConfig; fm_SourceName := "";
                       fm_Key := "app.toml"; fm_MountPath := "/etc/app/app.toml"; fm_Managed := true |}];
  rs_Service := {| svc_Port := 80; svc_TargetPort := 8080; svc_Protocol := "tcp"; svc_Type := "";
                   svc_NodePort := 0; svc_ExternalTrafficPolicy := ""; svc_Ports := [] |};
  rs_Endpoint := {| ep_Exposure := ExposurePublic; ep_DomainID := 1; ep_Domain := "shop.example.org";
                    ep_Path := "/"; ep_TLSEnabled := true; ep_IssuerRef := "letsencrypt";
                    ep_IssuerKind := "ClusterIssuer"; ep_ManagedCertificateName := "";
                    ep_ManagedTLSSecretName := "" |}
|}.

Lemma normalize_keeps_managed_witness :
  rs_ConfigManagedKeys (NormalizeManagedKeys sample_spec) = ["app.toml"] ∧
  IsConfigKeyManaged (NormalizeManagedKeys sample_spec) "app.toml" = IsConfigKeyManaged sample_spec "app.toml".
Proof.
  split; [reflexivity|]. apply (normalize_keeps_managed sample_spec "app.toml").
  intros f Hf _. apply list_elem_of_singleton in Hf as ->. by split.
Defined.
