(* ===== verification/ReleaseSnapshot.v ===== *)
(** * The JSON form of a release specification

    [json.Marshal] and [json.Unmarshal] of the structs of [release_spec_types.go], field by field
    with their tags: the release snapshot ([Release.DesiredSpec]) and the deployment template
    ([ApplicationDeploymentTemplate.Spec]) are such documents. The fields tagged ["-"] are never
    written, so a decoded specification has none of the runtime credentials. *)
From Stdlib Require Import ZArith Ascii String.
From stdpp Require Import base sorting pretty numbers gmap strings list.
From S2P Require Import Prelude GoStrings Json ReleaseSpec.

(** Reads the fields back one after the other, then rebuilds the record. *)
Ltac struct_round_trip s := read_fields; by destruct s.

(** ** [VolumeMountSpec] *)

Definition zero_VolumeMountSpec : VolumeMountSpec :=
  {| vm_ClaimName := "";
     vm_MountPath := "";
     vm_ReadOnly := false |}.

Definition valid_VolumeMountSpec (s : VolumeMountSpec) : Prop :=
  True.

Definition encode_VolumeMountSpec (s : VolumeMountSpec) : json :=
  JObj (
    member string_codec "claim_name" (vm_ClaimName s) ++
    member string_codec "mount_path" (vm_MountPath s) ++
    member bool_codec "read_only" (vm_ReadOnly s) ++ []).

Definition decode_VolumeMountSpec (s : VolumeMountSpec) (j : json) : option VolumeMountSpec :=
  match j with
  | JNull => Some s
  | JObj ms =>
      vClaimName ← get string_codec "claim_name" (vm_ClaimName s) ms;
      vMountPath ← get string_codec "mount_path" (vm_MountPath s) ms;
      vReadOnly ← get bool_codec "read_only" (vm_ReadOnly s) ms;
      Some {| vm_ClaimName := vClaimName;
         vm_MountPath := vMountPath;
         vm_ReadOnly := vReadOnly |}
  | _ => None
  end.

Lemma decode_encode_VolumeMountSpec s : valid_VolumeMountSpec s → decode_VolumeMountSpec zero_VolumeMountSpec (encode_VolumeMountSpec s) = Some s.
Proof.
  unfold valid_VolumeMountSpec, decode_VolumeMountSpec, encode_VolumeMountSpec. intros. destruct_and?. struct_round_trip s.
Qed.

Definition VolumeMountSpec_codec : Codec VolumeMountSpec :=
  {| zero := zero_VolumeMountSpec; encode := encode_VolumeMountSpec; decode := decode_VolumeMountSpec; valid := valid_VolumeMountSpec;
     decode_encode := decode_encode_VolumeMountSpec |}.

(** ** [FileMountSpec] *)

Definition zero_FileMountSpec : FileMountSpec :=
  {| fm_SourceType := "";
     fm_SourceName := "";
     fm_Key := "";
     fm_MountPath := "";
     fm_Managed := false |}.

Definition valid_FileMountSpec (s : FileMountSpec) : Prop :=
  True.

Definition encode_FileMountSpec (s : FileMountSpec) : json :=
  JObj (
    member string_codec "source_type" (fm_SourceType s) ++
    member string_codec "source_name" (fm_SourceName s) ++
    member string_codec "key" (fm_Key s) ++
    member string_codec "mount_path" (fm_MountPath s) ++
    omit_empty bool_codec (negb (fm_Managed s)) "managed" (fm_Managed s) ++ []).

Definition decode_FileMountSpec (s : FileMountSpec) (j : json) : option FileMountSpec :=
  match j with
  | JNull => Some s
  | JObj ms =>
      vSourceType ← get string_codec "source_type" (fm_SourceType s) ms;
      vSourceName ← get string_codec "source_name" (fm_SourceName s) ms;
      vKey ← get string_codec "key" (fm_Key s) ms;
      vMountPath ← get string_codec "mount_path" (fm_MountPath s) ms;
      vManaged ← get bool_codec "managed" (fm_Managed s) ms;
      Some {| fm_SourceType := vSourceType;
         fm_SourceName := vSourceName;
         fm_Key := vKey;
         fm_MountPath := vMountPath;
         fm_Managed := vManaged |}
  | _ => None
  end.

Lemma decode_encode_FileMountSpec s : valid_FileMountSpec s → decode_FileMountSpec zero_FileMountSpec (encode_FileMountSpec s) = Some s.
Proof.
  unfold valid_FileMountSpec, decode_FileMountSpec, encode_FileMountSpec. intros. destruct_and?. struct_round_trip s.
Qed.

Definition FileMountSpec_codec : Codec FileMountSpec :=
  {| zero := zero_FileMountSpec; encode := encode_FileMountSpec; decode := decode_FileMountSpec; valid := valid_FileMountSpec;
     decode_encode := decode_encode_FileMountSpec |}.

(** ** [ResourceSpec] *)

Definition zero_ResourceSpec : ResourceSpec :=
  {| res_RequestsCPU := "";
     res_RequestsMemory := "";
     res_LimitsCPU := "";
     res_LimitsMemory := "" |}.

Definition valid_ResourceSpec (s : ResourceSpec) : Prop :=
  True.

Definition encode_ResourceSpec (s : ResourceSpec) : json :=
  JObj (
    member string_codec "requests_cpu" (res_RequestsCPU s) ++
    member string_codec "requests_memory" (res_RequestsMemory s) ++
    member string_codec "limits_cpu" (res_LimitsCPU s) ++
    member string_codec "limits_memory" (res_LimitsMemory s) ++ []).

Definition decode_ResourceSpec (s : ResourceSpec) (j : json) : option ResourceSpec :=
  match j with
  | JNull => Some s
  | JObj ms =>
      vRequestsCPU ← get string_codec "requests_cpu" (res_RequestsCPU s) ms;
      vRequestsMemory ← get string_codec "requests_memory" (res_RequestsMemory s) ms;
      vLimitsCPU ← get string_codec "limits_cpu" (res_LimitsCPU s) ms;
      vLimitsMemory ← get string_codec "limits_memory" (res_LimitsMemory s) ms;
      Some {| res_RequestsCPU := vRequestsCPU;
         res_RequestsMemory := vRequestsMemory;
         res_LimitsCPU := vLimitsCPU;
         res_LimitsMemory := vLimitsMemory |}
  | _ => None
  end.

Lemma decode_encode_ResourceSpec s : valid_ResourceSpec s → decode_ResourceSpec zero_ResourceSpec (encode_ResourceSpec s) = Some s.
Proof.
  unfold valid_ResourceSpec, decode_ResourceSpec, encode_ResourceSpec. intros. destruct_and?. struct_round_trip s.
Qed.

Definition ResourceSpec_codec : Codec ResourceSpec :=
  {| zero := zero_ResourceSpec; encode := encode_ResourceSpec; decode := decode_ResourceSpec; valid := valid_ResourceSpec;
     decode_encode := decode_encode_ResourceSpec |}.

(** ** [HealthSpec] *)

Definition zero_HealthSpec : HealthSpec :=
  {| hs_ReadinessEnabled := false;
     hs_ReadinessType := "";
     hs_ReadinessPath := "";
     hs_LivenessEnabled := false;
     hs_LivenessType := "";
     hs_LivenessPath := "" |}.

Definition valid_HealthSpec (s : HealthSpec) : Prop :=
  True.

Definition encode_HealthSpec (s : HealthSpec) : json :=
  JObj (
    member bool_codec "readiness_enabled" (hs_ReadinessEnabled s) ++
    omit_empty string_codec (empty_str (hs_ReadinessType s)) "readiness_type" (hs_ReadinessType s) ++
    omit_empty string_codec (empty_str (hs_ReadinessPath s)) "readiness_path" (hs_ReadinessPath s) ++
    member bool_codec "liveness_enabled" (hs_LivenessEnabled s) ++
    omit_empty string_codec (empty_str (hs_LivenessType s)) "liveness_type" (hs_LivenessType s) ++
    omit_empty string_codec (empty_str (hs_LivenessPath s)) "liveness_path" (hs_LivenessPath s) ++ []).

Definition decode_HealthSpec (s : HealthSpec) (j : json) : option HealthSpec :=
  match j with
  | JNull => Some s
  | JObj ms =>
      vReadinessEnabled ← get bool_codec "readiness_enabled" (hs_ReadinessEnabled s) ms;
      vReadinessType ← get string_codec "readiness_type" (hs_ReadinessType s) ms;
      vReadinessPath ← get string_codec "readiness_path" (hs_ReadinessPath s) ms;
      vLivenessEnabled ← get bool_codec "liveness_enabled" (hs_LivenessEnabled s) ms;
      vLivenessType ← get string_codec "liveness_type" (hs_LivenessType s) ms;
      vLivenessPath ← get string_codec "liveness_path" (hs_LivenessPath s) ms;
      Some {| hs_ReadinessEnabled := vReadinessEnabled;
         hs_ReadinessType := vReadinessType;
         hs_ReadinessPath := vReadinessPath;
         hs_LivenessEnabled := vLivenessEnabled;
         hs_LivenessType := vLivenessType;
         hs_LivenessPath := vLivenessPath |}
  | _ => None
  end.

Lemma decode_encode_HealthSpec s : valid_HealthSpec s → decode_HealthSpec zero_HealthSpec (encode_HealthSpec s) = Some s.
Proof.
  unfold valid_HealthSpec, decode_HealthSpec, encode_HealthSpec. intros. destruct_and?. struct_round_trip s.
Qed.

Definition HealthSpec_codec : Codec HealthSpec :=
  {| zero := zero_HealthSpec; encode := encode_HealthSpec; decode := decode_HealthSpec; valid := valid_HealthSpec;
     decode_encode := decode_encode_HealthSpec |}.

(** ** [ServicePortSpec] *)

Definition zero_ServicePortSpec : ServicePortSpec :=
  {| port_Name := "";
     port_Port := 0;
     port_TargetPort := 0;
     port_Protocol := "";
     port_NodePort := 0 |}.

Definition valid_ServicePortSpec (s : ServicePortSpec) : Prop :=
  is_i32 (port_Port s) ∧ is_i32 (port_TargetPort s) ∧ is_i32 (port_NodePort s).

Definition encode_ServicePortSpec (s : ServicePortSpec) : json :=
  JObj (
    member string_codec "name" (port_Name s) ++
    member i32_codec "port" (port_Port s) ++
    member i32_codec "target_port" (port_TargetPort s) ++
    member string_codec "protocol" (port_Protocol s) ++
    omit_empty i32_codec (empty_int (port_NodePort s)) "node_port" (port_NodePort s) ++ []).

Definition decode_ServicePortSpec (s : ServicePortSpec) (j : json) : option ServicePortSpec :=
  match j with
  | JNull => Some s
  | JObj ms =>
      vName ← get string_codec "name" (port_Name s) ms;
      vPort ← get i32_codec "port" (port_Port s) ms;
      vTargetPort ← get i32_codec "target_port" (port_TargetPort s) ms;
      vProtocol ← get string_codec "protocol" (port_Protocol s) ms;
      vNodePort ← get i32_codec "node_port" (port_NodePort s) ms;
      Some {| port_Name := vName;
         port_Port := vPort;
         port_TargetPort := vTargetPort;
         port_Protocol := vProtocol;
         port_NodePort := vNodePort |}
  | _ => None
  end.

Lemma decode_encode_ServicePortSpec s : valid_ServicePortSpec s → decode_ServicePortSpec zero_ServicePortSpec (encode_ServicePortSpec s) = Some s.
Proof.
  unfold valid_ServicePortSpec, decode_ServicePortSpec, encode_ServicePortSpec. intros. destruct_and?. struct_round_trip s.
Qed.

Definition ServicePortSpec_codec : Codec ServicePortSpec :=
  {| zero := zero_ServicePortSpec; encode := encode_ServicePortSpec; decode := decode_ServicePortSpec; valid := valid_ServicePortSpec;
     decode_encode := decode_encode_ServicePortSpec |}.

(** ** [ServiceSpec] *)

Definition zero_ServiceSpec : ServiceSpec :=
  {| svc_Port := 0;
     svc_TargetPort := 0;
     svc_Protocol := "";
     svc_Type := "";
     svc_NodePort := 0;
     svc_ExternalTrafficPolicy := "";
     svc_Ports := [] |}.

Definition valid_ServiceSpec (s : ServiceSpec) : Prop :=
  is_i32 (svc_Port s) ∧ is_i32 (svc_TargetPort s) ∧ is_i32 (svc_NodePort s) ∧ Forall valid_ServicePortSpec (svc_Ports s).

Definition encode_ServiceSpec (s : ServiceSpec) : json :=
  JObj (
    member i32_codec "port" (svc_Port s) ++
    member i32_codec "target_port" (svc_TargetPort s) ++
    omit_empty string_codec (empty_str (svc_Protocol s)) "protocol" (svc_Protocol s) ++
    omit_empty string_codec (empty_str (svc_Type s)) "type" (svc_Type s) ++
    omit_empty i32_codec (empty_int (svc_NodePort s)) "node_port" (svc_NodePort s) ++
    omit_empty string_codec (empty_str (svc_ExternalTrafficPolicy s)) "external_traffic_policy" (svc_ExternalTrafficPolicy s) ++
    omit_empty (list_codec ServicePortSpec_codec) (empty_list (svc_Ports s)) "ports" (svc_Ports s) ++ []).

Definition decode_ServiceSpec (s : ServiceSpec) (j : json) : option ServiceSpec :=
  match j with
  | JNull => Some s
  | JObj ms =>
      vPort ← get i32_codec "port" (svc_Port s) ms;
      vTargetPort ← get i32_codec "target_port" (svc_TargetPort s) ms;
      vProtocol ← get string_codec "protocol" (svc_Protocol s) ms;
      vType ← get string_codec "type" (svc_Type s) ms;
      vNodePort ← get i32_codec "node_port" (svc_NodePort s) ms;
      vExternalTrafficPolicy ← get string_codec "external_traffic_policy" (svc_ExternalTrafficPolicy s) ms;
      vPorts ← get (list_codec ServicePortSpec_codec) "ports" (svc_Ports s) ms;
      Some {| svc_Port := vPort;
         svc_TargetPort := vTargetPort;
         svc_Protocol := vProtocol;
         svc_Type := vType;
         svc_NodePort := vNodePort;
         svc_ExternalTrafficPolicy := vExternalTrafficPolicy;
         svc_Ports := vPorts |}
  | _ => None
  end.

Lemma decode_encode_ServiceSpec s : valid_ServiceSpec s → decode_ServiceSpec zero_ServiceSpec (encode_ServiceSpec s) = Some s.
Proof.
  unfold valid_ServiceSpec, decode_ServiceSpec, encode_ServiceSpec. intros. destruct_and?. struct_round_trip s.
Qed.

Definition ServiceSpec_codec : Codec ServiceSpec :=
  {| zero := zero_ServiceSpec; encode := encode_ServiceSpec; decode := decode_ServiceSpec; valid := valid_ServiceSpec;
     decode_encode := decode_encode_ServiceSpec |}.

(** ** [EndpointSpec] *)

Definition zero_EndpointSpec : EndpointSpec :=
  {| ep_Exposure := "";
     ep_DomainID := 0;
     ep_Domain := "";
     ep_Path := "";
     ep_TLSEnabled := false;
     ep_IssuerRef := "";
     ep_IssuerKind := "";
     ep_ManagedCertificateName := "";
     ep_ManagedTLSSecretName := "" |}.

Definition valid_EndpointSpec (s : EndpointSpec) : Prop :=
  is_u64 (ep_DomainID s).

Definition encode_EndpointSpec (s : EndpointSpec) : json :=
  JObj (
    member string_codec "exposure" (ep_Exposure s) ++
    omit_empty u64_codec (empty_int (ep_DomainID s)) "domain_id" (ep_DomainID s) ++
    omit_empty string_codec (empty_str (ep_Domain s)) "domain" (ep_Domain s) ++
    omit_empty string_codec (empty_str (ep_Path s)) "path" (ep_Path s) ++
    member bool_codec "tls_enabled" (ep_TLSEnabled s) ++
    omit_empty string_codec (empty_str (ep_IssuerRef s)) "issuer_ref" (ep_IssuerRef s) ++
    omit_empty string_codec (empty_str (ep_IssuerKind s)) "issuer_kind" (ep_IssuerKind s) ++
    omit_empty string_codec (empty_str (ep_ManagedCertificateName s)) "managed_certificate_name" (ep_ManagedCertificateName s) ++
    omit_empty string_codec (empty_str (ep_ManagedTLSSecretName s)) "managed_tls_secret_name" (ep_ManagedTLSSecretName s) ++ []).

Definition decode_EndpointSpec (s : EndpointSpec) (j : json) : option EndpointSpec :=
  match j with
  | JNull => Some s
  | JObj ms =>
      vExposure ← get string_codec "exposure" (ep_Exposure s) ms;
      vDomainID ← get u64_codec "domain_id" (ep_DomainID s) ms;
      vDomain ← get string_codec "domain" (ep_Domain s) ms;
      vPath ← get string_codec "path" (ep_Path s) ms;
      vTLSEnabled ← get bool_codec "tls_enabled" (ep_TLSEnabled s) ms;
      vIssuerRef ← get string_codec "issuer_ref" (ep_IssuerRef s) ms;
      vIssuerKind ← get string_codec "issuer_kind" (ep_IssuerKind s) ms;
      vManagedCertificateName ← get string_codec "managed_certificate_name" (ep_ManagedCertificateName s) ms;
      vManagedTLSSecretName ← get string_codec "managed_tls_secret_name" (ep_ManagedTLSSecretName s) ms;
      Some {| ep_Exposure := vExposure;
         ep_DomainID := vDomainID;
         ep_Domain := vDomain;
         ep_Path := vPath;
         ep_TLSEnabled := vTLSEnabled;
         ep_IssuerRef := vIssuerRef;
         ep_IssuerKind := vIssuerKind;
         ep_ManagedCertificateName := vManagedCertificateName;
         ep_ManagedTLSSecretName := vManagedTLSSecretName |}
  | _ => None
  end.

Lemma decode_encode_EndpointSpec s : valid_EndpointSpec s → decode_EndpointSpec zero_EndpointSpec (encode_EndpointSpec s) = Some s.
Proof.
  unfold valid_EndpointSpec, decode_EndpointSpec, encode_EndpointSpec. intros. destruct_and?. struct_round_trip s.
Qed.

Definition EndpointSpec_codec : Codec EndpointSpec :=
  {| zero := zero_EndpointSpec; encode := encode_EndpointSpec; decode := decode_EndpointSpec; valid := valid_EndpointSpec;
     decode_encode := decode_encode_EndpointSpec |}.

(** ** [ReleaseSpec] *)

Definition zero_ReleaseSpec : ReleaseSpec :=
  {| rs_Image := "";
     rs_Version := "";
     rs_Command := [];
     rs_Args := [];
     rs_RegistryID := 0;
     rs_RegistryEndpoint := "";
     rs_RegistryAuthType := "";
     rs_RegistryUsername := "";
     rs_RegistryCredential := "";
     rs_ImageVerificationEndpoint := "";
     rs_ImageVerificationUsername := "";
     rs_ImageVerificationCredential := "";
     rs_ImageVerificationInsecureSkipVerify := false;
     rs_ContainerPort := 0;
     rs_Replicas := 0;
     rs_Resources := zero_ResourceSpec;
     rs_Health := zero_HealthSpec;
     rs_Config := ∅;
     rs_ConfigDisabled := [];
     rs_ConfigManagedKeys := [];
     rs_Secrets := ∅;
     rs_SecretsDisabled := [];
     rs_SecretManagedKeys := [];
     rs_NodeName := "";
     rs_HostNetwork := false;
     rs_Volumes := [];
     rs_FileMounts := [];
     rs_Service := zero_ServiceSpec;
     rs_Endpoint := zero_EndpointSpec |}.

Definition valid_ReleaseSpec (s : ReleaseSpec) : Prop :=
  is_u64 (rs_RegistryID s) ∧ is_i32 (rs_ContainerPort s) ∧ is_i32 (rs_Replicas s) ∧ valid_ResourceSpec (rs_Resources s) ∧ valid_HealthSpec (rs_Health s) ∧ Forall valid_VolumeMountSpec (rs_Volumes s) ∧ Forall valid_FileMountSpec (rs_FileMounts s) ∧ valid_ServiceSpec (rs_Service s) ∧ valid_EndpointSpec (rs_Endpoint s).

Definition encode_ReleaseSpec (s : ReleaseSpec) : json :=
  JObj (
    member string_codec "image" (rs_Image s) ++
    omit_empty string_codec (empty_str (rs_Version s)) "version" (rs_Version s) ++
    omit_empty (list_codec string_codec) (empty_list (rs_Command s)) "command" (rs_Command s) ++
    omit_empty (list_codec string_codec) (empty_list (rs_Args s)) "args" (rs_Args s) ++
    omit_empty u64_codec (empty_int (rs_RegistryID s)) "registry_id" (rs_RegistryID s) ++
    member i32_codec "container_port" (rs_ContainerPort s) ++
    member i32_codec "replicas" (rs_Replicas s) ++
    member ResourceSpec_codec "resources" (rs_Resources s) ++
    member HealthSpec_codec "health" (rs_Health s) ++
    omit_empty map_codec (empty_map (rs_Config s)) "config" (rs_Config s) ++
    omit_empty (list_codec string_codec) (empty_list (rs_ConfigDisabled s)) "config_disabled" (rs_ConfigDisabled s) ++
    omit_empty (list_codec string_codec) (empty_list (rs_ConfigManagedKeys s)) "config_managed_keys" (rs_ConfigManagedKeys s) ++
    omit_empty map_codec (empty_map (rs_Secrets s)) "secrets" (rs_Secrets s) ++
    omit_empty (list_codec string_codec) (empty_list (rs_SecretsDisabled s)) "secrets_disabled" (rs_SecretsDisabled s) ++
    omit_empty (list_codec string_codec) (empty_list (rs_SecretManagedKeys s)) "secret_managed_keys" (rs_SecretManagedKeys s) ++
    omit_empty string_codec (empty_str (rs_NodeName s)) "node_name" (rs_NodeName s) ++
    omit_empty bool_codec (negb (rs_HostNetwork s)) "host_network" (rs_HostNetwork s) ++
    omit_empty (list_codec VolumeMountSpec_codec) (empty_list (rs_Volumes s)) "volumes" (rs_Volumes s) ++
    omit_empty (list_codec FileMountSpec_codec) (empty_list (rs_FileMounts s)) "file_mounts" (rs_FileMounts s) ++
    member ServiceSpec_codec "service" (rs_Service s) ++
    member EndpointSpec_codec "endpoint" (rs_Endpoint s) ++ []).

Definition decode_ReleaseSpec (s : ReleaseSpec) (j : json) : option ReleaseSpec :=
  match j with
  | JNull => Some s
  | JObj ms =>
      vImage ← get string_codec "image" (rs_Image s) ms;
      vVersion ← get string_codec "version" (rs_Version s) ms;
      vCommand ← get (list_codec string_codec) "command" (rs_Command s) ms;
      vArgs ← get (list_codec string_codec) "args" (rs_Args s) ms;
      vRegistryID ← get u64_codec "registry_id" (rs_RegistryID s) ms;
      vContainerPort ← get i32_codec "container_port" (rs_ContainerPort s) ms;
      vReplicas ← get i32_codec "replicas" (rs_Replicas s) ms;
      vResources ← get ResourceSpec_codec "resources" (rs_Resources s) ms;
      vHealth ← get HealthSpec_codec "health" (rs_Health s) ms;
      vConfig ← get map_codec "config" (rs_Config s) ms;
      vConfigDisabled ← get (list_codec string_codec) "config_disabled" (rs_ConfigDisabled s) ms;
      vConfigManagedKeys ← get (list_codec string_codec) "config_managed_keys" (rs_ConfigManagedKeys s) ms;
      vSecrets ← get map_codec "secrets" (rs_Secrets s) ms;
      vSecretsDisabled ← get (list_codec string_codec) "secrets_disabled" (rs_SecretsDisabled s) ms;
      vSecretManagedKeys ← get (list_codec string_codec) "secret_managed_keys" (rs_SecretManagedKeys s) ms;
      vNodeName ← get string_codec "node_name" (rs_NodeName s) ms;
      vHostNetwork ← get bool_codec "host_network" (rs_HostNetwork s) ms;
      vVolumes ← get (list_codec VolumeMountSpec_codec) "volumes" (rs_Volumes s) ms;
      vFileMounts ← get (list_codec FileMountSpec_codec) "file_mounts" (rs_FileMounts s) ms;
      vService ← get ServiceSpec_codec "service" (rs_Service s) ms;
      vEndpoint ← get EndpointSpec_codec "endpoint" (rs_Endpoint s) ms;
      Some {| rs_Image := vImage;
         rs_Version := vVersion;
         rs_Command := vCommand;
         rs_Args := vArgs;
         rs_RegistryID := vRegistryID;
         rs_RegistryEndpoint := rs_RegistryEndpoint s;
         rs_RegistryAuthType := rs_RegistryAuthType s;
         rs_RegistryUsername := rs_RegistryUsername s;
         rs_RegistryCredential := rs_RegistryCredential s;
         rs_ImageVerificationEndpoint := rs_ImageVerificationEndpoint s;
         rs_ImageVerificationUsername := rs_ImageVerificationUsername s;
         rs_ImageVerificationCredential := rs_ImageVerificationCredential s;
         rs_ImageVerificationInsecureSkipVerify := rs_ImageVerificationInsecureSkipVerify s;
         rs_ContainerPort := vContainerPort;
         rs_Replicas := vReplicas;
         rs_Resources := vResources;
         rs_Health := vHealth;
         rs_Config := vConfig;
         rs_ConfigDisabled := vConfigDisabled;
         rs_ConfigManagedKeys := vConfigManagedKeys;
         rs_Secrets := vSecrets;
         rs_SecretsDisabled := vSecretsDisabled;
         rs_SecretManagedKeys := vSecretManagedKeys;
         rs_NodeName := vNodeName;
         rs_HostNetwork := vHostNetwork;
         rs_Volumes := vVolumes;
         rs_FileMounts := vFileMounts;
         rs_Service := vService;
         rs_Endpoint := vEndpoint |}
  | _ => None
  end.

(** What the JSON form keeps of a specification. *)
Definition persisted (s : ReleaseSpec) : ReleaseSpec :=
  with_verification "" "" "" false (with_registry "" "" "" "" s).

Lemma decode_encode_ReleaseSpec s :
  valid_ReleaseSpec s → decode_ReleaseSpec zero_ReleaseSpec (encode_ReleaseSpec s) = Some (persisted s).
Proof.
  unfold valid_ReleaseSpec, decode_ReleaseSpec, encode_ReleaseSpec. intros. destruct_and?. struct_round_trip s.
Qed.

Lemma valid_SanitizeReleaseSpec s : valid_ReleaseSpec s → valid_ReleaseSpec (SanitizeReleaseSpec s).
Proof. by destruct s. Qed.

(** ** Property *)

(** C39: the release snapshot reads back. For a specification whose integers are in the range of
    their Go types, decoding the stored form of the sanitised specification gives the sanitised
    specification itself; decoding the stored form of the full one loses the runtime credentials
    and nothing else; and giving the secrets back to the snapshot gives that same specification,
    which is what retry and rollback do. *)
Theorem snapshot_roundtrip s (Hs : valid_ReleaseSpec s) :
  decode_ReleaseSpec zero_ReleaseSpec (encode_ReleaseSpec (SanitizeReleaseSpec s)) = Some (SanitizeReleaseSpec s) ∧
  decode_ReleaseSpec zero_ReleaseSpec (encode_ReleaseSpec s) = Some (persisted s) ∧
  with_secrets (rs_Secrets s) <$>
    decode_ReleaseSpec zero_ReleaseSpec (encode_ReleaseSpec (SanitizeReleaseSpec s)) = Some (persisted s).
Proof.
  rewrite !decode_encode_ReleaseSpec by auto using valid_SanitizeReleaseSpec. by destruct s.
Qed.

Lemma snapshot_roundtrip_witness :
  decode_ReleaseSpec zero_ReleaseSpec (encode_ReleaseSpec sample_spec) = Some (persisted sample_spec) ∧
  persisted sample_spec ≠ sample_spec.
Proof.
  split; [|discriminate]. apply (snapshot_roundtrip sample_spec).
  unfold valid_ReleaseSpec, valid_VolumeMountSpec, valid_FileMountSpec. split_and!; try done;
    repeat constructor; unfold is_u64, is_i32; simpl; lia.
Defined.
