(* ===== verification/ReleaseValidation.v ===== *)
(** * Validation of release specifications

    [internal/service/application/release_spec_validation.go]. [ValidateReleaseSpec] walks the
    specification and collects issues; the walks keep their [seen] sets and directory map as loop
    state. [WellFormed] states what a valid specification is without any loop; the theorems say that
    the validator accepts exactly the well-formed specifications and what the accepted ones
    guarantee. The validators and the quantity parser of k8s.io/apimachinery are the interface
    [K8sLibrary]. *)
From Stdlib Require Import ZArith Ascii String.
From stdpp Require Import base sorting pretty numbers gmap strings list.
From S2P Require Import Prelude GoStrings GoPath Json ReleaseSpec.

(** What the code calls of [k8s.io/apimachinery/pkg/util/validation] (a list of complaints, empty
    when the value is fine) and of [resource.ParseQuantity] and [Quantity.Cmp]. *)
Class K8sLibrary := {
  IsDNS1123Label : string → list string;
  IsDNS1123Subdomain : string → list string;
  IsConfigMapKey : string → list string;
  IsValidPortName : string → list string;
  Quantity : Type;
  ParseQuantity : string → option Quantity;
  QuantityCmp : Quantity → Quantity → Z
}.

(** [len(errors) > 0] *)
Definition complains (errors : list string) : bool := negb (empty_list errors).

Definition issue (field message : string) : ValidationIssue :=
  {| issue_Field := field; issue_Message := message |}.
(** [if c { issues = append(issues, ...) }] *)
Definition when (c : bool) (field message : string) : list ValidationIssue :=
  if c then [issue field message] else [].

(** [fmt.Sprintf("%s[%d]", field, index)] *)
Definition indexed (field : string) (index : nat) : string := field +:+ "[" +:+ dec_nat index +:+ "]".

Definition blank (s : string) : bool := bool_decide (trim_space s = "").

Definition healthProbeEnabled (enabled : bool) (probeType path : string) : bool * string :=
  (enabled, if decide (probeType = "") then "http" else probeType).

(** "\x00\r\n" *)
Definition forbidden_in_arguments : string :=
  String "000" (String "013" (String "010" EmptyString)).

Fixpoint containerArguments_from (field : string) (index : nat) (values : list string) :
    list ValidationIssue :=
  match values with
  | [] => []
  | value :: values =>
      (if decide (value = "") then [issue (indexed field index) "启动命令和参数不能包含空项"]
       else when (bool_decide (4096 < Z.of_nat (String.length value))%Z || contains_any value forbidden_in_arguments)
              (indexed field index) "启动命令和参数格式无效")
      ++ containerArguments_from field (S index) values
  end.
Definition validateContainerArguments (field : string) (values : list string) : list ValidationIssue :=
  if decide (64 < length values) then [issue field "启动命令和参数最多各 64 项"]
  else containerArguments_from field 0 values.

Section validation.
Context `{K8sLibrary}.

(** The body of the loop over [managedKeys], [seen] being its state. *)
Fixpoint managedKeys_from (field : string) (values : gmap string string) (disabledSet seen : gset string)
    (index : nat) (keys : list string) : list ValidationIssue :=
  match keys with
  | [] => []
  | rawKey :: keys =>
      let key := trim_space rawKey in
      let itemField := indexed field index in
      if complains (IsConfigMapKey key) then
        issue itemField "受管配置键名无效" :: managedKeys_from field values disabledSet seen (S index) keys
      else if decide (key ∈ seen) then
        issue itemField "受管配置键名不能重复" :: managedKeys_from field values disabledSet seen (S index) keys
      else
        when (bool_decide (values !! key = None)) itemField ("受管配置键 " +:+ quote key +:+ " 不存在")
        ++ when (bool_decide (key ∈ disabledSet)) itemField ("受管配置键 " +:+ quote key +:+ " 已被禁用")
        ++ managedKeys_from field values disabledSet ({[key]} ∪ seen) (S index) keys
  end.

Definition validateManagedKeys (field : string) (managedKeys : list string)
    (values : gmap string string) (disabled : list string) : list ValidationIssue :=
  managedKeys_from field values (list_to_set (trim_space <$> disabled)) ∅ 0 managedKeys.

Fixpoint volumes_from (claimNames mountPaths : gset string) (index : nat)
    (volumes : list VolumeMountSpec) : list ValidationIssue :=
  match volumes with
  | [] => []
  | volume :: volumes =>
      let field := indexed "volumes" index in
      let claimName := trim_space (vm_ClaimName volume) in
      let mountPath := trim_space (vm_MountPath volume) in
      when (complains (IsDNS1123Label claimName)) (field +:+ ".claim_name") "PVC 名称无效"
      ++ when (negb (has_prefix "/" mountPath) || bool_decide (clean mountPath ≠ mountPath))
           (field +:+ ".mount_path") "挂载路径必须是规范的绝对路径"
      ++ when (bool_decide (claimName ∈ claimNames)) (field +:+ ".claim_name") "同一 PVC 不能重复挂载"
      ++ when (bool_decide (mountPath ∈ mountPaths)) (field +:+ ".mount_path") "同一挂载路径不能重复使用"
      ++ volumes_from ({[claimName]} ∪ claimNames) ({[mountPath]} ∪ mountPaths) (S index) volumes
  end.

Definition serviceNodePortField (service : ServiceSpec) (index : nat) : string :=
  match svc_Ports service with
  | [] => "service.node_port"
  | _ => indexed "service.ports" index +:+ ".node_port"
  end.

Definition port_out_of_range (p : Z) : bool := bool_decide (p < 1 ∨ 65535 < p)%Z.

(** The loop of [validateServicePorts]: [names] and [servicePorts] are its state. *)
Fixpoint servicePorts_from (service : ServiceSpec) (names : gset string) (servicePorts : gset Z)
    (index : nat) (ports : list ServicePortSpec) : list ValidationIssue :=
  match ports with
  | [] => []
  | port :: ports =>
      let multi := negb (empty_list (svc_Ports service)) in
      let field := if multi then indexed "service.ports" index else "service" in
      let name := trim_space (port_Name port) in
      let invalidName := multi && complains (IsValidPortName name) in
      let duplicateName := multi && negb (complains (IsValidPortName name)) && bool_decide (name ∈ names) in
      let names' := if multi && negb invalidName && negb duplicateName then {[name]} ∪ names else names in
      when invalidName (field +:+ ".name") "Service 端口名称无效"
      ++ when duplicateName (field +:+ ".name") "Service 端口名称不能重复"
      ++ when (port_out_of_range (port_Port port) || port_out_of_range (port_TargetPort port))
           field "Service 端口必须在 1 到 65535 之间"
      ++ when (bool_decide (port_Port port ∈ servicePorts)) (field +:+ ".port") "Service 端口不能重复"
      ++ when (bool_decide (normalizeServiceProtocol (port_Protocol port) = ""))
           (field +:+ ".protocol") "Service 协议必须为 TCP 或 UDP"
      ++ when (bool_decide (port_NodePort port < 0 ∨ 65535 < port_NodePort port)%Z)
           (serviceNodePortField service index) "NodePort 必须在 1 到 65535 之间，或留空由集群分配"
      ++ servicePorts_from service names' ({[port_Port port]} ∪ servicePorts) (S index) ports
  end.
Definition validateServicePorts (service : ServiceSpec) : list ServicePortSpec * list ValidationIssue :=
  (PortSpecs service, servicePorts_from service ∅ ∅ 0 (PortSpecs service)).

Definition application_source (source : string) : bool :=
  bool_decide (source = FileMountSourceApplicationConfig) ||
  bool_decide (source = FileMountSourceApplicationSecret).
Definition cluster_source (source : string) : bool :=
  bool_decide (source = FileMountSourceConfigMap) || bool_decide (source = FileMountSourceSecret).

(** The checks of one file mount before its path. *)
Definition fileMount_source_issues (field : string) (config secrets : gmap string string)
    (fileMount : FileMountSpec) : list ValidationIssue :=
  let source := fm_SourceType fileMount in
  when (negb (cluster_source source) && negb (application_source source))
    (field +:+ ".source_type") "文件来源必须为当前应用 ConfigMap、当前应用 Secret、ConfigMap 或 Secret"
  ++ when (fm_Managed fileMount && negb (application_source source))
       (field +:+ ".managed") "仅当前应用 ConfigMap 或 Secret 文件可启用完整管理"
  ++ when (negb (application_source source) && complains (IsDNS1123Subdomain (fm_SourceName fileMount)))
       (field +:+ ".source_name") "文件来源名称无效"
  ++ (if complains (IsConfigMapKey (fm_Key fileMount)) then [issue (field +:+ ".key") "文件来源键名无效"]
      else if decide (source = FileMountSourceApplicationConfig) then
        when (bool_decide (config !! fm_Key fileMount = None)) (field +:+ ".key") "当前应用 ConfigMap 不包含该键"
      else if decide (source = FileMountSourceApplicationSecret) then
        when (bool_decide (secrets !! fm_Key fileMount = None)) (field +:+ ".key") "当前应用 Secret 不包含该键"
      else []).

Definition bad_file_path (mountPath : string) : bool :=
  negb (is_abs mountPath) || bool_decide (clean mountPath ≠ mountPath)
  || bool_decide (base mountPath = ".") || bool_decide (base mountPath = "/").

Definition file_source (fileMount : FileMountSpec) : string :=
  fm_SourceType fileMount +:+ ":" +:+ fm_SourceName fileMount.

(** The loop of [validateFileMounts]: [paths] and [directories] are its state. *)
Fixpoint fileMounts_from (config secrets : gmap string string) (paths : gset string)
    (directories : gmap string string) (index : nat) (fileMounts : list FileMountSpec) :
    list ValidationIssue :=
  match fileMounts with
  | [] => []
  | fileMount :: fileMounts =>
      let field := indexed "file_mounts" index in
      let mountPath := trim_space (fm_MountPath fileMount) in
      fileMount_source_issues field config secrets fileMount ++
      if bad_file_path mountPath then
        issue (field +:+ ".mount_path") "文件挂载路径必须是规范的绝对文件路径"
        :: fileMounts_from config secrets paths directories (S index) fileMounts
      else
        let directory := dir mountPath in
        let source := file_source fileMount in
        when (bool_decide (mountPath ∈ paths)) (field +:+ ".mount_path") "同一文件挂载路径不能重复使用"
        ++ when (match directories !! directory with Some existing => bool_decide (existing ≠ source) | None => false end)
             (field +:+ ".mount_path") "同一目录只能投影同一个 ConfigMap 或 Secret"
        ++ fileMounts_from config secrets ({[mountPath]} ∪ paths) (<[directory := source]> directories)
             (S index) fileMounts
  end.
Definition validateFileMounts (fileMounts : list FileMountSpec) (config secrets : gmap string string) :
    list ValidationIssue :=
  fileMounts_from config secrets ∅ ∅ 0 fileMounts.

(** [parseQuantity]: the quantity, or an issue *)
Definition parseQuantity (value : string) : option Quantity :=
  match ParseQuantity value with
  | Some quantity => if blank value then None else Some quantity
  | None => None
  end.
Definition quantity_issue (field value : string) : list ValidationIssue :=
  when (bool_decide (¬ is_Some (parseQuantity value))) field "资源数量格式无效".
Definition exceeds (request limit : option Quantity) : bool :=
  match request, limit with
  | Some r, Some l => bool_decide (0 < QuantityCmp r l)%Z
  | _, _ => false
  end.

Definition resource_issues (r : ResourceSpec) : list ValidationIssue :=
  quantity_issue "resources.requests_cpu" (res_RequestsCPU r)
  ++ quantity_issue "resources.requests_memory" (res_RequestsMemory r)
  ++ quantity_issue "resources.limits_cpu" (res_LimitsCPU r)
  ++ quantity_issue "resources.limits_memory" (res_LimitsMemory r)
  ++ when (exceeds (parseQuantity (res_RequestsCPU r)) (parseQuantity (res_LimitsCPU r)))
       "resources.requests_cpu" "CPU 请求不能大于限制"
  ++ when (exceeds (parseQuantity (res_RequestsMemory r)) (parseQuantity (res_LimitsMemory r)))
       "resources.requests_memory" "内存请求不能大于限制".

Definition probe_path_issue (enabled : bool) (probeType path field message : string) : list ValidationIssue :=
  let '(enabled, probeType) := healthProbeEnabled enabled probeType path in
  when (enabled && bool_decide (probeType = "http") && negb (has_prefix "/" path)) field message.
Definition probe_type_issue (enabled : bool) (probeType path field message : string) : list ValidationIssue :=
  let '(_, probeType) := healthProbeEnabled enabled probeType path in
  when (bool_decide (probeType ≠ "http") && bool_decide (probeType ≠ "tcp")) field message.

Definition health_issues (h : HealthSpec) : list ValidationIssue :=
  probe_path_issue (hs_ReadinessEnabled h) (hs_ReadinessType h) (hs_ReadinessPath h)
    "health.readiness_path" "HTTP 就绪检查路径必须以 / 开头"
  ++ probe_path_issue (hs_LivenessEnabled h) (hs_LivenessType h) (hs_LivenessPath h)
       "health.liveness_path" "HTTP 存活检查路径必须以 / 开头"
  ++ probe_type_issue (hs_ReadinessEnabled h) (hs_ReadinessType h) (hs_ReadinessPath h)
       "health.readiness_type" "就绪检查仅支持 HTTP 或 TCP"
  ++ probe_type_issue (hs_LivenessEnabled h) (hs_LivenessType h) (hs_LivenessPath h)
       "health.liveness_type" "存活检查仅支持 HTTP 或 TCP".

(** A [ClusterIP] service declares no node port: [continue] on the ports without one. *)
Fixpoint clusterIP_ports_from (service : ServiceSpec) (index : nat) (ports : list ServicePortSpec) :
    list ValidationIssue :=
  match ports with
  | [] => []
  | port :: ports =>
      when (bool_decide (port_NodePort port ≠ 0%Z)) (serviceNodePortField service index)
        "ClusterIP Service 不能指定 NodePort"
      ++ clusterIP_ports_from service (S index) ports
  end.

Definition service_type_issues (service : ServiceSpec) (ports : list ServicePortSpec) : list ValidationIssue :=
  let serviceType := normalizeServiceType (svc_Type service) in
  let policy := trim_space (svc_ExternalTrafficPolicy service) in
  when (bool_decide (serviceType = "")) "service.type" "Service 类型必须为 ClusterIP、NodePort 或 LoadBalancer"
  ++ if decide (serviceType = ServiceTypeClusterIP) then
       clusterIP_ports_from service 0 ports
       ++ when (bool_decide (policy ≠ "")) "service.external_traffic_policy" "ClusterIP Service 不能指定外部流量策略"
     else
       when (bool_decide (policy ≠ "") && bool_decide (policy ≠ "Cluster") && bool_decide (policy ≠ "Local"))
         "service.external_traffic_policy" "外部流量策略必须为 Cluster 或 Local".

Definition has_tcp_port (service : ServiceSpec) : bool := bool_decide (is_Some (PrimaryTCPPort service)).

Definition endpoint_issues (service : ServiceSpec) (e : EndpointSpec) : list ValidationIssue :=
  if decide (ep_Exposure e = ExposureCluster ∨ ep_Exposure e = ExposureTailnet) then
    when (ep_TLSEnabled e) "endpoint.tls_enabled" "仅公网入口支持 cert-manager TLS"
  else if decide (ep_Exposure e = ExposurePublic) then
    when (negb (has_tcp_port service)) "endpoint.exposure" "UDP Service 不支持 HTTP Ingress 公网入口"
    ++ when (blank (ep_Domain e)) "endpoint.domain" "公网入口必须提供域名"
    ++ when (ep_TLSEnabled e && blank (ep_IssuerRef e) && blank (ep_ManagedCertificateName e))
         "endpoint.issuer_ref" "启用 TLS 时必须指定 Issuer"
    ++ when (ep_TLSEnabled e && xorb (blank (ep_ManagedCertificateName e)) (blank (ep_ManagedTLSSecretName e)))
         "endpoint" "受管域名证书信息不完整"
    ++ when (ep_TLSEnabled e && bool_decide (ep_IssuerKind e ≠ "") && bool_decide (ep_IssuerKind e ≠ "Issuer")
             && bool_decide (ep_IssuerKind e ≠ "ClusterIssuer"))
         "endpoint.issuer_kind" "Issuer 类型必须为 Issuer 或 ClusterIssuer"
  else [issue "endpoint.exposure" "暴露模式必须为 cluster、tailnet 或 public"].

Definition ValidateReleaseSpec (spec : ReleaseSpec) : list ValidationIssue :=
  let '(servicePorts, serviceIssues) := validateServicePorts (rs_Service spec) in
  when (blank (rs_Image spec)) "image" "镜像不能为空"
  ++ when (port_out_of_range (rs_ContainerPort spec)) "container_port" "容器端口必须在 1 到 65535 之间"
  ++ when (bool_decide (rs_Replicas spec < 1)%Z) "replicas" "副本数至少为 1"
  ++ validateContainerArguments "command" (rs_Command spec)
  ++ validateContainerArguments "args" (rs_Args spec)
  ++ when (negb (blank (rs_NodeName spec)) && complains (IsDNS1123Subdomain (rs_NodeName spec)))
       "node_name" "部署节点名称无效"
  ++ volumes_from ∅ ∅ 0 (rs_Volumes spec)
  ++ when (negb (empty_list (rs_Volumes spec)) && bool_decide (1 < rs_Replicas spec)%Z)
       "volumes" "ReadWriteOnce PVC 仅支持单副本应用"
  ++ validateFileMounts (rs_FileMounts spec) (enabledStringMap (rs_Config spec) (rs_ConfigDisabled spec))
       (enabledStringMap (rs_Secrets spec) (rs_SecretsDisabled spec))
  ++ validateManagedKeys "config_managed_keys" (rs_ConfigManagedKeys spec) (rs_Config spec) (rs_ConfigDisabled spec)
  ++ validateManagedKeys "secret_managed_keys" (rs_SecretManagedKeys spec) (rs_Secrets spec) (rs_SecretsDisabled spec)
  ++ resource_issues (rs_Resources spec)
  ++ health_issues (rs_Health spec)
  ++ serviceIssues
  ++ service_type_issues (rs_Service spec) servicePorts
  ++ when (negb (has_tcp_port (rs_Service spec))
           && (hs_ReadinessEnabled (rs_Health spec) || hs_LivenessEnabled (rs_Health spec)))
       "health" "UDP Service 不支持 HTTP 或 TCP 健康检查"
  ++ endpoint_issues (rs_Service spec) (rs_Endpoint spec).

Definition ValidateApplicationName (name : string) : result unit :=
  if complains (IsDNS1123Label name) then
    Err (EText "应用名称必须为 1-63 位小写字母、数字或连字符，且以字母或数字开头和结尾")
  else Ok tt.

(** ** What a valid specification is *)

Definition in_port_range (p : Z) : Prop := (1 ≤ p ≤ 65535)%Z.

Definition well_formed_argument (value : string) : Prop :=
  value ≠ "" ∧ (Z.of_nat (String.length value) ≤ 4096)%Z ∧ contains_any value forbidden_in_arguments = false.

Definition well_formed_volume (volume : VolumeMountSpec) : Prop :=
  IsDNS1123Label (trim_space (vm_ClaimName volume)) = [] ∧
  canonical_abs (trim_space (vm_MountPath volume)) = true.

(** The source of a file mount exists where the validator can see it. *)
Definition well_formed_source (config secrets : gmap string string) (f : FileMountSpec) : Prop :=
  IsConfigMapKey (fm_Key f) = [] ∧
  ((fm_SourceType f = FileMountSourceApplicationConfig ∧ is_Some (config !! fm_Key f)) ∨
   (fm_SourceType f = FileMountSourceApplicationSecret ∧ is_Some (secrets !! fm_Key f)) ∨
   ((fm_SourceType f = FileMountSourceConfigMap ∨ fm_SourceType f = FileMountSourceSecret) ∧
    fm_Managed f = false ∧ IsDNS1123Subdomain (fm_SourceName f) = [])).

Definition well_formed_file_path (p : string) : Prop :=
  canonical_abs p = true ∧ base p ≠ "." ∧ base p ≠ "/".

Record well_formed_files (config secrets : gmap string string) (files : list FileMountSpec) : Prop := {
  wf_file_sources : Forall (well_formed_source config secrets) files;
  wf_file_paths : Forall (λ f, well_formed_file_path (trim_space (fm_MountPath f))) files;
  wf_file_paths_distinct : NoDup ((λ f, trim_space (fm_MountPath f)) <$> files);
  (** one directory, one source: Kubernetes cannot mount two volumes at the same place *)
  wf_file_directories f g : f ∈ files → g ∈ files →
    dir (trim_space (fm_MountPath f)) = dir (trim_space (fm_MountPath g)) → file_source f = file_source g
}.

Record well_formed_managed (keys : list string) (values : gmap string string) (disabled : list string) : Prop := {
  wf_managed_keys key : key ∈ trim_space <$> keys →
    IsConfigMapKey key = [] ∧ is_Some (values !! key) ∧ key ∉ trim_space <$> disabled;
  wf_managed_distinct : NoDup (trim_space <$> keys)
}.

Definition well_formed_request (request limit : string) : Prop :=
  ∃ r l, parseQuantity request = Some r ∧ parseQuantity limit = Some l ∧ (QuantityCmp r l ≤ 0)%Z.

Definition well_formed_probe (enabled : bool) (probeType path : string) : Prop :=
  (probeType = "tcp" ∨ (probeType = "" ∨ probeType = "http") ∧ (enabled = true → has_prefix "/" path = true)).

Definition well_formed_port (port : ServicePortSpec) : Prop :=
  in_port_range (port_Port port) ∧ in_port_range (port_TargetPort port) ∧
  normalizeServiceProtocol (port_Protocol port) ≠ "" ∧ (0 ≤ port_NodePort port ≤ 65535)%Z.

Record well_formed_service (service : ServiceSpec) : Prop := {
  wf_ports : Forall well_formed_port (PortSpecs service);
  wf_ports_distinct : NoDup (port_Port <$> PortSpecs service);
  wf_port_names : svc_Ports service ≠ [] →
    Forall (λ port, IsValidPortName (trim_space (port_Name port)) = []) (svc_Ports service) ∧
    NoDup ((λ port, trim_space (port_Name port)) <$> svc_Ports service);
  wf_service_type :
    (normalizeServiceType (svc_Type service) = ServiceTypeClusterIP ∧
     Forall (λ port, port_NodePort port = 0%Z) (PortSpecs service) ∧
     trim_space (svc_ExternalTrafficPolicy service) = "") ∨
    ((normalizeServiceType (svc_Type service) = ServiceTypeNodePort ∨
      normalizeServiceType (svc_Type service) = ServiceTypeLoadBalancer) ∧
     trim_space (svc_ExternalTrafficPolicy service) ∈ [""; "Cluster"; "Local"])
}.

Definition well_formed_tls (e : EndpointSpec) : Prop :=
  (blank (ep_IssuerRef e) = false ∨ blank (ep_ManagedCertificateName e) = false) ∧
  (blank (ep_ManagedCertificateName e) = blank (ep_ManagedTLSSecretName e)) ∧
  ep_IssuerKind e ∈ [""; "Issuer"; "ClusterIssuer"].

Definition well_formed_endpoint (service : ServiceSpec) (e : EndpointSpec) : Prop :=
  ((ep_Exposure e = ExposureCluster ∨ ep_Exposure e = ExposureTailnet) ∧ ep_TLSEnabled e = false) ∨
  (ep_Exposure e = ExposurePublic ∧ is_Some (PrimaryTCPPort service) ∧
   blank (ep_Domain e) = false ∧ (ep_TLSEnabled e = true → well_formed_tls e)).

Record WellFormed (spec : ReleaseSpec) : Prop := {
  wf_image : blank (rs_Image spec) = false;
  wf_container_port : in_port_range (rs_ContainerPort spec);
  wf_replicas : (1 ≤ rs_Replicas spec)%Z;
  wf_command : length (rs_Command spec) ≤ 64 ∧ Forall well_formed_argument (rs_Command spec);
  wf_args : length (rs_Args spec) ≤ 64 ∧ Forall well_formed_argument (rs_Args spec);
  wf_node : blank (rs_NodeName spec) = true ∨ IsDNS1123Subdomain (rs_NodeName spec) = [];
  wf_volumes : Forall well_formed_volume (rs_Volumes spec);
  wf_claims_distinct : NoDup ((λ v, trim_space (vm_ClaimName v)) <$> rs_Volumes spec);
  wf_mounts_distinct : NoDup ((λ v, trim_space (vm_MountPath v)) <$> rs_Volumes spec);
  wf_single_replica : rs_Volumes spec ≠ [] → rs_Replicas spec = 1%Z;
  wf_files : well_formed_files (enabledStringMap (rs_Config spec) (rs_ConfigDisabled spec))
    (enabledStringMap (rs_Secrets spec) (rs_SecretsDisabled spec)) (rs_FileMounts spec);
  wf_config_managed : well_formed_managed (rs_ConfigManagedKeys spec) (rs_Config spec) (rs_ConfigDisabled spec);
  wf_secret_managed : well_formed_managed (rs_SecretManagedKeys spec) (rs_Secrets spec) (rs_SecretsDisabled spec);
  wf_cpu : well_formed_request (res_RequestsCPU (rs_Resources spec)) (res_LimitsCPU (rs_Resources spec));
  wf_memory : well_formed_request (res_RequestsMemory (rs_Resources spec)) (res_LimitsMemory (rs_Resources spec));
  wf_readiness : well_formed_probe (hs_ReadinessEnabled (rs_Health spec))
    (hs_ReadinessType (rs_Health spec)) (hs_ReadinessPath (rs_Health spec));
  wf_liveness : well_formed_probe (hs_LivenessEnabled (rs_Health spec))
    (hs_LivenessType (rs_Health spec)) (hs_LivenessPath (rs_Health spec));
  wf_service : well_formed_service (rs_Service spec);
  wf_probes_need_tcp : hs_ReadinessEnabled (rs_Health spec) = true ∨ hs_LivenessEnabled (rs_Health spec) = true →
    is_Some (PrimaryTCPPort (rs_Service spec));
  wf_endpoint : well_formed_endpoint (rs_Service spec) (rs_Endpoint spec)
}.

End validation.

(** ** The walks, decided *)
Section walks.
Context `{K8sLibrary}.

(** The empty walk: no issue, and every condition on the elements holds. *)
Ltac walk_nil :=
  split; [|done]; intros _; split_and?; intros; split_and?;
  first [by apply Forall_nil | by apply NoDup_nil | set_solver].

Lemma when_nil c field message : when c field message = [] ↔ c = false.
Proof. by destruct c. Qed.

Lemma complains_false errors : complains errors = false ↔ errors = [].
Proof. by destruct errors. Qed.

Lemma port_in_range p : port_out_of_range p = false ↔ in_port_range p.
Proof. unfold port_out_of_range, in_port_range. rewrite bool_decide_eq_false. lia. Qed.

Lemma NoDup_seen {A K} `{Countable K} (key : A → K) (seen : gset K) x (l : list A) :
  ((key x ∉ seen) ∧ NoDup (key <$> l) ∧ ∀ y, y ∈ l → key y ∉ {[key x]} ∪ seen) ↔
  (NoDup (key <$> x :: l) ∧ ∀ y, y ∈ x :: l → key y ∉ seen).
Proof.
  rewrite fmap_cons, NoDup_cons, list_elem_of_fmap. set_solver.
Qed.

Lemma containerArguments_nil field i values :
  containerArguments_from field i values = [] ↔ Forall well_formed_argument values.
Proof.
  revert i. induction values as [|v values IH]; intros i; simpl; [by split; [constructor|]|].
  rewrite app_nil, IH, Forall_cons. apply and_iff_compat_r. unfold well_formed_argument.
  case_decide as Hv; [naive_solver|].
  rewrite when_nil, orb_false_iff, bool_decide_eq_false, Z.nlt_ge. naive_solver.
Qed.

Lemma validateContainerArguments_nil field values :
  validateContainerArguments field values = [] ↔
  length values ≤ 64 ∧ Forall well_formed_argument values.
Proof.
  unfold validateContainerArguments. case_decide.
  - split; [done | lia].
  - rewrite containerArguments_nil. naive_solver lia.
Qed.

Lemma managedKeys_nil field values dis seen i keys :
  managedKeys_from field values dis seen i keys = [] ↔
  (∀ key, key ∈ trim_space <$> keys → IsConfigMapKey key = [] ∧ is_Some (values !! key) ∧ key ∉ dis) ∧
  (NoDup (trim_space <$> keys) ∧ ∀ key, key ∈ keys → trim_space key ∉ seen).
Proof.
  revert seen i. induction keys as [|k keys IH]; intros seen i; cbn [managedKeys_from].
  { walk_nil. }
  rewrite <-(NoDup_seen trim_space).
  destruct (complains (IsConfigMapKey (trim_space k))) eqn:Hc.
  { split; [done|]. intros [Hk _]. destruct (Hk (trim_space k)) as [Hn _]; [left|].
    apply complains_false in Hn. congruence. }
  apply complains_false in Hc. case_decide as Hs.
  { split; [done|]. intros (_ & ? & _). done. }
  rewrite !app_nil, !when_nil, IH, !bool_decide_eq_false, not_eq_None_Some, fmap_cons.
  setoid_rewrite elem_of_cons. naive_solver.
Qed.

Lemma validateManagedKeys_nil field keys values disabled :
  validateManagedKeys field keys values disabled = [] ↔ well_formed_managed keys values disabled.
Proof.
  unfold validateManagedKeys. rewrite managedKeys_nil. setoid_rewrite elem_of_list_to_set. split.
  - intros (? & ? & _). by constructor.
  - intros [? ?]. split_and!; [done..|]. set_solver.
Qed.

Lemma volume_path_ok p :
  negb (has_prefix "/" p) || bool_decide (clean p ≠ p) = false ↔ canonical_abs p = true.
Proof.
  unfold canonical_abs, is_abs. destruct (has_prefix "/" p); simpl; [|done].
  destruct (decide (clean p = p)); [rewrite bool_decide_false, bool_decide_true by auto
    | rewrite bool_decide_true, bool_decide_false by auto]; done.
Qed.

Lemma volumes_nil claims mounts i volumes :
  volumes_from claims mounts i volumes = [] ↔
  Forall well_formed_volume volumes ∧
  (NoDup ((λ v, trim_space (vm_ClaimName v)) <$> volumes) ∧
   ∀ v, v ∈ volumes → trim_space (vm_ClaimName v) ∉ claims) ∧
  (NoDup ((λ v, trim_space (vm_MountPath v)) <$> volumes) ∧
   ∀ v, v ∈ volumes → trim_space (vm_MountPath v) ∉ mounts).
Proof.
  revert claims mounts i. induction volumes as [|v volumes IH]; intros claims mounts i; cbn [volumes_from].
  { walk_nil. }
  rewrite !app_nil, !when_nil, IH, complains_false, !bool_decide_eq_false, Forall_cons.
  rewrite <-(NoDup_seen (λ v, trim_space (vm_ClaimName v))).
  rewrite <-(NoDup_seen (λ v, trim_space (vm_MountPath v))).
  rewrite volume_path_ok.
  unfold well_formed_volume. naive_solver.
Qed.

Lemma servicePorts_nil service names nums i ports :
  servicePorts_from service names nums i ports = [] ↔
  Forall well_formed_port ports ∧
  (NoDup (port_Port <$> ports) ∧ ∀ port, port ∈ ports → port_Port port ∉ nums) ∧
  (svc_Ports service ≠ [] →
   Forall (λ port, IsValidPortName (trim_space (port_Name port)) = []) ports ∧
   NoDup ((λ port, trim_space (port_Name port)) <$> ports) ∧
   ∀ port, port ∈ ports → trim_space (port_Name port) ∉ names).
Proof.
  revert names nums i. induction ports as [|p ports IH]; intros names nums i; cbn [servicePorts_from].
  { walk_nil. }
  rewrite !app_nil, !when_nil, IH, orb_false_iff, !port_in_range, !bool_decide_eq_false, !Forall_cons.
  rewrite <-(NoDup_seen port_Port). rewrite <-(NoDup_seen (λ port, trim_space (port_Name port))).
  assert (¬ (port_NodePort p < 0 ∨ 65535 < port_NodePort p)%Z ↔ (0 ≤ port_NodePort p ≤ 65535)%Z)
    as -> by lia.
  unfold well_formed_port at 2.
  destruct (svc_Ports service) as [|q qs] eqn:Hq; cbn [empty_list negb andb].
  { naive_solver. }
  destruct (complains (IsValidPortName (trim_space (port_Name p)))) eqn:Hc; cbn [negb andb].
  { split; [naive_solver|]. intros (_ & _ & Hn). destruct Hn as [[Hv _] _]; [done|].
    apply complains_false in Hv. congruence. }
  apply complains_false in Hc. rewrite bool_decide_eq_false.
  destruct (bool_decide_reflect (trim_space (port_Name p) ∈ names)); cbn [negb]; naive_solver.
Qed.

Lemma bad_file_path_false p : bad_file_path p = false ↔ well_formed_file_path p.
Proof.
  unfold bad_file_path, well_formed_file_path, canonical_abs.
  rewrite !orb_false_iff, !bool_decide_eq_false, andb_true_iff, bool_decide_eq_true, negb_false_iff.
  split.
  - intros [[[? H1%dec_stable] ?] ?]. by split_and!.
  - intros [[??] [??]]. split_and!; [done | | done..]. intros Hc. by apply Hc.
Qed.

Lemma source_issues_nil field config secrets f :
  fileMount_source_issues field config secrets f = [] ↔ well_formed_source config secrets f.
Proof.
  unfold fileMount_source_issues, well_formed_source, cluster_source, application_source.
  rewrite !app_nil, !when_nil.
  destruct (complains (IsConfigMapKey (fm_Key f))) eqn:Hk.
  { split; [naive_solver|]. intros [Hn%complains_false _]. congruence. }
  apply complains_false in Hk. rewrite !andb_false_iff, !negb_false_iff, !orb_true_iff, !bool_decide_eq_true,
    complains_false.
  repeat case_decide; rewrite ?when_nil, ?bool_decide_eq_false, ?not_eq_None_Some;
    unfold FileMountSourceConfigMap, FileMountSourceSecret, FileMountSourceApplicationConfig,
      FileMountSourceApplicationSecret in *; destruct (fm_Managed f); intuition congruence.
Qed.

(** Directories already claimed by earlier mounts, and by the mounts of the list. *)
Lemma fileMounts_nil config secrets paths dirs i files :
  fileMounts_from config secrets paths dirs i files = [] ↔
  Forall (well_formed_source config secrets) files ∧
  Forall (λ f, well_formed_file_path (trim_space (fm_MountPath f))) files ∧
  (NoDup ((λ f, trim_space (fm_MountPath f)) <$> files) ∧
   ∀ f, f ∈ files → trim_space (fm_MountPath f) ∉ paths) ∧
  (∀ f s, f ∈ files → dirs !! dir (trim_space (fm_MountPath f)) = Some s → s = file_source f) ∧
  (∀ f g, f ∈ files → g ∈ files →
    dir (trim_space (fm_MountPath f)) = dir (trim_space (fm_MountPath g)) → file_source f = file_source g).
Proof.
  revert paths dirs i. induction files as [|x files IH]; intros paths dirs i; cbn [fileMounts_from].
  { walk_nil. }
  rewrite app_nil, source_issues_nil, !Forall_cons, <-(NoDup_seen (λ f, trim_space (fm_MountPath f))).
  set (d := dir (trim_space (fm_MountPath x))).
  destruct (bad_file_path (trim_space (fm_MountPath x))) eqn:Hb.
  { split; [naive_solver|]. intros (_ & [Hp _] & _). apply bad_file_path_false in Hp. congruence. }
  apply bad_file_path_false in Hb.
  rewrite !app_nil, !when_nil, IH, bool_decide_eq_false.
  split.
  - intros (Hs & Hn & Hd & Hss & Hps & (Hnd & Hns) & Hds & Hfg). split_and!; try done.
    + intros f s [->|Hf]%elem_of_cons Hl.
      * fold d in Hl. rewrite Hl in Hd. apply bool_decide_eq_false in Hd. by apply dec_stable in Hd.
      * destruct (decide (dir (trim_space (fm_MountPath f)) = d)) as [Hfd|Hfd].
        { rewrite Hfd in Hl. rewrite Hl in Hd. apply bool_decide_eq_false, dec_stable in Hd.
          rewrite Hd. apply (Hds f); [done|]. by rewrite Hfd, lookup_insert_eq. }
        apply (Hds f); [done|]. by rewrite lookup_insert_ne by done.
    + intros f g [->|Hf]%elem_of_cons [->|Hg]%elem_of_cons Hfg'; auto.
      * apply (Hds g); [done|]. by rewrite <-Hfg', lookup_insert_eq.
      * symmetry. apply (Hds f); [done|]. by rewrite Hfg', lookup_insert_eq.
  - intros ((Hs & Hss) & (_ & Hps) & (Hn & Hnd & Hns) & Hds & Hfg). split_and!; try done.
    + destruct (dirs !! d) as [s|] eqn:Hl; [|done]. apply bool_decide_eq_false.
      intros Hne. apply Hne, (Hds x); [left | done].
    + intros f s Hf. destruct (decide (dir (trim_space (fm_MountPath f)) = d)) as [Hfd|Hfd].
      * rewrite Hfd, lookup_insert_eq. intros [= <-]. apply Hfg; [left | by right | done].
      * rewrite lookup_insert_ne by done. apply Hds. by right.
    + intros f g Hf Hg. apply Hfg; by right.
Qed.

Lemma quantity_nil field v : quantity_issue field v = [] ↔ is_Some (parseQuantity v).
Proof.
  unfold quantity_issue. rewrite when_nil, bool_decide_eq_false. split; [apply dec_stable | auto].
Qed.

Lemma request_ok request limit :
  is_Some (parseQuantity request) ∧ is_Some (parseQuantity limit) ∧
  exceeds (parseQuantity request) (parseQuantity limit) = false ↔ well_formed_request request limit.
Proof.
  unfold well_formed_request. split.
  - intros ([r Hr] & [l Hl] & He). exists r, l. rewrite Hr, Hl in He. simpl in He.
    apply bool_decide_eq_false in He. split_and!; [done..|lia].
  - intros (r & l & -> & -> & Hle). split_and!; [done..|]. simpl. apply bool_decide_eq_false. lia.
Qed.

Lemma resource_nil r :
  resource_issues r = [] ↔
  well_formed_request (res_RequestsCPU r) (res_LimitsCPU r) ∧
  well_formed_request (res_RequestsMemory r) (res_LimitsMemory r).
Proof. unfold resource_issues. rewrite !app_nil, !quantity_nil, !when_nil, <-!request_ok. tauto. Qed.

Lemma probe_nil enabled probeType path f1 m1 f2 m2 :
  probe_path_issue enabled probeType path f1 m1 = [] ∧ probe_type_issue enabled probeType path f2 m2 = [] ↔
  well_formed_probe enabled probeType path.
Proof.
  unfold probe_path_issue, probe_type_issue, well_formed_probe. simpl.
  rewrite !when_nil, !andb_false_iff, !bool_decide_eq_false, negb_false_iff.
  destruct (decide (probeType = "")); [subst probeType|];
    [|destruct (decide (probeType = "http")), (decide (probeType = "tcp"))];
    destruct enabled, (has_prefix "/" path); intuition congruence.
Qed.

Lemma health_nil h :
  health_issues h = [] ↔
  well_formed_probe (hs_ReadinessEnabled h) (hs_ReadinessType h) (hs_ReadinessPath h) ∧
  well_formed_probe (hs_LivenessEnabled h) (hs_LivenessType h) (hs_LivenessPath h).
Proof.
  rewrite <-(probe_nil _ _ (hs_ReadinessPath h) "health.readiness_path" "HTTP 就绪检查路径必须以 / 开头"
    "health.readiness_type" "就绪检查仅支持 HTTP 或 TCP").
  rewrite <-(probe_nil _ _ (hs_LivenessPath h) "health.liveness_path" "HTTP 存活检查路径必须以 / 开头"
    "health.liveness_type" "存活检查仅支持 HTTP 或 TCP").
  unfold health_issues. rewrite !app_nil. tauto.
Qed.

Lemma clusterIP_ports_nil service i ports :
  clusterIP_ports_from service i ports = [] ↔ Forall (λ port, port_NodePort port = 0%Z) ports.
Proof.
  revert i. induction ports as [|p ports IH]; intros i; simpl; [by split|].
  rewrite app_nil, when_nil, bool_decide_eq_false, IH, Forall_cons.
  split; intros [? ?]; split; auto. by apply dec_stable.
Qed.

Lemma normalizeServiceType_cases t :
  normalizeServiceType t ∈ [""; ServiceTypeClusterIP; ServiceTypeNodePort; ServiceTypeLoadBalancer].
Proof. unfold normalizeServiceType. repeat case_decide; set_solver. Qed.

Lemma service_type_nil service :
  service_type_issues service (PortSpecs service) = [] ↔
  (normalizeServiceType (svc_Type service) = ServiceTypeClusterIP ∧
   Forall (λ port, port_NodePort port = 0%Z) (PortSpecs service) ∧
   trim_space (svc_ExternalTrafficPolicy service) = "") ∨
  ((normalizeServiceType (svc_Type service) = ServiceTypeNodePort ∨
    normalizeServiceType (svc_Type service) = ServiceTypeLoadBalancer) ∧
   trim_space (svc_ExternalTrafficPolicy service) ∈ [""; "Cluster"; "Local"]).
Proof.
  unfold service_type_issues. pose proof (normalizeServiceType_cases (svc_Type service)) as Hc.
  set (t := normalizeServiceType _) in *. set (p := trim_space _).
  unfold ServiceTypeClusterIP, ServiceTypeNodePort, ServiceTypeLoadBalancer in *.
  rewrite app_nil, when_nil, bool_decide_eq_false. rewrite !elem_of_cons, elem_of_nil in *.
  case_decide as Ht.
  - rewrite app_nil, clusterIP_ports_nil, when_nil, bool_decide_eq_false, Ht.
    destruct (decide (p = "")); intuition congruence.
  - rewrite when_nil, !andb_false_iff, !bool_decide_eq_false.
    destruct (decide (p = "")), (decide (p = "Cluster")), (decide (p = "Local")); intuition congruence.
Qed.

Lemma has_tcp_true service : has_tcp_port service = true ↔ is_Some (PrimaryTCPPort service).
Proof. apply bool_decide_eq_true. Qed.

Lemma tls_ok e :
  (blank (ep_IssuerRef e) && blank (ep_ManagedCertificateName e) = false ∧
   xorb (blank (ep_ManagedCertificateName e)) (blank (ep_ManagedTLSSecretName e)) = false ∧
   bool_decide (ep_IssuerKind e ≠ "") && bool_decide (ep_IssuerKind e ≠ "Issuer")
     && bool_decide (ep_IssuerKind e ≠ "ClusterIssuer") = false) ↔ well_formed_tls e.
Proof.
  unfold well_formed_tls. rewrite !elem_of_cons, elem_of_nil, !andb_false_iff, !bool_decide_eq_false.
  rewrite <-negb_true_iff, <-(negb_true_iff (xorb _ _)).
  destruct (decide (ep_IssuerKind e = "")), (decide (ep_IssuerKind e = "Issuer")),
    (decide (ep_IssuerKind e = "ClusterIssuer")), (blank (ep_IssuerRef e)),
    (blank (ep_ManagedCertificateName e)), (blank (ep_ManagedTLSSecretName e)); simpl;
    intuition congruence.
Qed.

Lemma endpoint_nil service e : endpoint_issues service e = [] ↔ well_formed_endpoint service e.
Proof.
  unfold endpoint_issues, well_formed_endpoint. case_decide as H1.
  { rewrite when_nil. unfold ExposureCluster, ExposureTailnet, ExposurePublic in *.
    intuition congruence. }
  case_decide as H2; [|split; [done | tauto]].
  rewrite !app_nil, !when_nil, negb_false_iff, has_tcp_true.
  destruct (ep_TLSEnabled e); simpl; rewrite <-?tls_ok; intuition congruence.
Qed.

Lemma service_nil service :
  servicePorts_from service ∅ ∅ 0 (PortSpecs service) = [] ∧
  service_type_issues service (PortSpecs service) = [] ↔ well_formed_service service.
Proof.
  rewrite servicePorts_nil, service_type_nil. split.
  - intros ((Hp & [Hd _] & Hn) & Ht). constructor; [done..| |done].
    intros Hne. destruct (Hn Hne) as (? & ? & _). unfold PortSpecs in *. by destruct (svc_Ports service).
  - intros [Hp Hd Hn Ht]. split; [|done]. split_and!; [done..|set_solver|].
    intros Hne. destruct (Hn Hne) as [??]. unfold PortSpecs in *. destruct (svc_Ports service); [done|].
    split_and!; [done..|set_solver].
Qed.

Lemma files_nil config secrets files :
  validateFileMounts files config secrets = [] ↔ well_formed_files config secrets files.
Proof.
  unfold validateFileMounts. rewrite fileMounts_nil. split.
  - intros (? & ? & [? _] & _ & ?). by constructor.
  - intros []. split_and!; [done..|set_solver|intros ? ? _; by rewrite lookup_empty|done].
Qed.

Lemma volumes_ok volumes :
  volumes_from ∅ ∅ 0 volumes = [] ↔
  Forall well_formed_volume volumes ∧
  NoDup ((λ v, trim_space (vm_ClaimName v)) <$> volumes) ∧
  NoDup ((λ v, trim_space (vm_MountPath v)) <$> volumes).
Proof. rewrite volumes_nil. set_solver. Qed.

Lemma single_replica_ok {A} (l : list A) n :
  (1 ≤ n)%Z → negb (empty_list l) && bool_decide (1 < n)%Z = false ↔ (l ≠ [] → n = 1%Z).
Proof.
  intros Hn. rewrite andb_false_iff, negb_false_iff, bool_decide_eq_false.
  destruct l; simpl; naive_solver lia.
Qed.

(** The validator, as one conjunction. *)
Lemma ValidateReleaseSpec_conditions spec :
  ValidateReleaseSpec spec = [] ↔ WellFormed spec.
Proof.
  unfold ValidateReleaseSpec, validateServicePorts.
  rewrite !app_nil, !when_nil, !validateContainerArguments_nil, port_in_range, volumes_ok, files_nil,
    !validateManagedKeys_nil, resource_nil, health_nil, endpoint_nil, bool_decide_eq_false, Z.nlt_ge.
  assert (∀ c d : bool, negb c && d = false ↔ c = true ∨ d = false) as Hcd by (intros [] []; naive_solver).
  rewrite !Hcd, complains_false, has_tcp_true, orb_false_iff.
  split.
  - intros (? & ? & ? & ? & ? & ? & (? & ? & ?) & Hr & ? & ? & ? & [? ?] & [? ?] & Hs & Ht & Hp & ?).
    constructor; try done.
    + apply (single_replica_ok _ _ ltac:(done)), Hcd, Hr.
    + by apply service_nil.
    + intros [Hp'|Hp']; destruct Hp as [|[??]]; congruence.
  - intros [? ? ? [??] [??]]. apply service_nil in wf_service0 as [??]. split_and!; try done.
    + apply Hcd, single_replica_ok; done.
    + destruct (hs_ReadinessEnabled (rs_Health spec)), (hs_LivenessEnabled (rs_Health spec)); auto.
Qed.
End walks.

(** ** Independence of the secret values *)
Section sanitised.
Context `{K8sLibrary}.

Lemma bool_decide_fmap_None {A B} (f : A → B) (m : gmap string A) k :
  bool_decide ((f <$> m) !! k = None) = bool_decide (m !! k = None).
Proof. apply bool_decide_ext. rewrite lookup_fmap. apply fmap_None. Qed.

Lemma enabledStringMap_fmap (f : string → string) values disabled :
  enabledStringMap (f <$> values) disabled = f <$> enabledStringMap values disabled.
Proof.
  unfold enabledStringMap. by rewrite map_filter_fmap.
Qed.

Lemma fileMounts_blank config secrets (f : string → string) paths dirs i files :
  fileMounts_from config (f <$> secrets) paths dirs i files =
  fileMounts_from config secrets paths dirs i files.
Proof.
  revert paths dirs i. induction files as [|x files IH]; intros paths dirs i; cbn [fileMounts_from]; [done|].
  unfold fileMount_source_issues. rewrite bool_decide_fmap_None. by destruct (bad_file_path _); rewrite ?IH.
Qed.

Lemma managedKeys_blank field values (f : string → string) dis seen i keys :
  managedKeys_from field (f <$> values) dis seen i keys = managedKeys_from field values dis seen i keys.
Proof.
  revert seen i. induction keys as [|k keys IH]; intros seen i; cbn [managedKeys_from]; [done|].
  by rewrite bool_decide_fmap_None, !IH.
Qed.

End sanitised.


(** ** Properties *)

(** A library for the concrete instances: names are non-empty strings of lower-case letters, digits,
    hyphens and dots, keys also upper-case letters and underscores, and a quantity is a decimal
    integer. *)
Definition sample_name_char (extra : string) (c : ascii) : bool :=
  ((97 <=? nat_of_ascii c) && (nat_of_ascii c <=? 122)) || ((48 <=? nat_of_ascii c) && (nat_of_ascii c <=? 57))
  || contains_char c extra.
Definition sample_name (extra s : string) : list string :=
  if negb (empty_str s) && forallb (sample_name_char extra) (String.list_ascii_of_string s) then [] else ["invalid"].
Definition sample_quantity (s : string) : option Z :=
  foldl (λ acc c, n ← acc; if (48 <=? nat_of_ascii c) && (nat_of_ascii c <=? 57)
    then Some (10 * n + (Z.of_nat (nat_of_ascii c) - 48))%Z else None)
    (if empty_str s then None else Some 0%Z) (String.list_ascii_of_string s).
Definition sample_library : K8sLibrary := {|
  IsDNS1123Label := sample_name "-";
  IsDNS1123Subdomain := sample_name "-.";
  IsConfigMapKey := sample_name "-._ABCDEFGHIJKLMNOPQRSTUVWXYZ";
  IsValidPortName := sample_name "-";
  Quantity := Z;
  ParseQuantity := sample_quantity;
  QuantityCmp a b := (a - b)%Z
|}.

(** C13: [ValidateReleaseSpec] decides well-formedness. It returns no issue exactly for the
    specifications that satisfy [WellFormed], a predicate without loops: ranges, distinct claims,
    mount paths, ports and port names, file sources that exist, one source per projected directory,
    requests within limits, probes and public endpoints only with a TCP port, complete TLS data. *)
Theorem validation_decides_well_formed `{K8sLibrary} spec :
  ValidateReleaseSpec spec = [] ↔ WellFormed spec.
Proof. apply ValidateReleaseSpec_conditions. Qed.

(** No accepted specification can mount outside the path it names: every volume and file mount
    path of it, trimmed, is "/" followed by elements none of which is empty, "." or "..", and a file
    mount path has at least one. Two files of one directory come from one source. *)
Theorem accepted_mount_paths_canonical `{K8sLibrary} spec (Hok : ValidateReleaseSpec spec = []) :
  (∀ v, v ∈ rs_Volumes spec →
    ∃ elems, Forall proper elems ∧ trim_space (vm_MountPath v) = "/" +:+ join "/" elems) ∧
  (∀ f, f ∈ rs_FileMounts spec →
    ∃ elems, elems ≠ [] ∧ Forall proper elems ∧ trim_space (fm_MountPath f) = "/" +:+ join "/" elems) ∧
  (∀ f g, f ∈ rs_FileMounts spec → g ∈ rs_FileMounts spec →
    dir (trim_space (fm_MountPath f)) = dir (trim_space (fm_MountPath g)) → file_source f = file_source g).
Proof.
  apply ValidateReleaseSpec_conditions in Hok. split_and!.
  - intros v Hv. apply canonical_abs_elems.
    pose proof (wf_volumes _ Hok) as Hvs. rewrite Forall_forall in Hvs. by apply Hvs.
  - intros f Hf. pose proof (wf_file_paths _ _ _ (wf_files _ Hok)) as Hfs. rewrite Forall_forall in Hfs.
    destruct (Hfs f Hf) as (Hc & _ & Hb). destruct (canonical_abs_elems _ Hc) as (elems & Hp & He).
    exists elems. split_and!; [|done..]. intros ->. apply Hb. by rewrite He.
  - apply (wf_file_directories _ _ _ (wf_files _ Hok)).
Qed.

(** validation sees the names of the secrets and never their values nor the credentials: the
    sanitised specification gets the same issues, in the same order. *)
Lemma validation_ignores_secret_values `{K8sLibrary} spec :
  ValidateReleaseSpec (SanitizeReleaseSpec spec) = ValidateReleaseSpec spec.
Proof.
  destruct spec as [i v c a r e1 e2 e3 e4 v1 v2 v3 v4 p n rs h g gd gm x xd xm nn hn vs fs sv ep].
  unfold ValidateReleaseSpec, SanitizeReleaseSpec, validateFileMounts, validateManagedKeys.
  cbn [with_secrets with_verification with_registry
    rs_Image rs_Version rs_Command rs_Args rs_RegistryID rs_RegistryEndpoint
    rs_RegistryAuthType rs_RegistryUsername rs_RegistryCredential rs_ImageVerificationEndpoint rs_ImageVerificationUsername rs_ImageVerificationCredential
    rs_ImageVerificationInsecureSkipVerify rs_ContainerPort rs_Replicas rs_Resources rs_Health rs_Config
    rs_ConfigDisabled rs_ConfigManagedKeys rs_Secrets rs_SecretsDisabled rs_SecretManagedKeys rs_NodeName
    rs_HostNetwork rs_Volumes rs_FileMounts rs_Service rs_Endpoint].
  by rewrite enabledStringMap_fmap, fileMounts_blank, !managedKeys_blank.
Qed.

Lemma accepted_mount_paths_canonical_witness :
  ValidateReleaseSpec (H := sample_library) sample_spec = [] ∧
  ∃ elems, Forall proper elems ∧ trim_space "/data" = "/" +:+ join "/" elems.
Proof.
  assert (Hok : ValidateReleaseSpec (H := sample_library) sample_spec = []) by (vm_compute; reflexivity).
  split; [exact Hok|].
  apply (proj1 (accepted_mount_paths_canonical (H := sample_library) sample_spec Hok)
    {| vm_ClaimName := "data"; vm_MountPath := "/data"; vm_ReadOnly := false |}). left.
Defined.
