(* ===== verification/Models.v ===== *)
(** * Persistent records

    [internal/model/release.go], [internal/model/application.go] the audit
    rows of [internal/model/observability.go] and the registries of [internal/model/registry.go]: the rows the release components read and write, the release
    statuses, and the capability tags of an application with their stored form. A [uint] is a
    non-negative [Z], a pointer an [option], an instant a [Z] of nanoseconds. The columns no
    modelled operation reads ([updated_at], most [created_at]) are left out. *)
From Stdlib Require Import ZArith Ascii String ZifyBool ZifyN Zify.
From stdpp Require Import base sorting pretty numbers gmap strings list.
From S2P Require Import Prelude GoStrings Json.

(** ** Releases *)

Definition ReleaseStatusDraft := "draft".
Definition ReleaseStatusValidating := "validating".
Definition ReleaseStatusApplying := "applying".
Definition ReleaseStatusWaitingReady := "waiting_ready".
Definition ReleaseStatusVerifying := "verifying".
Definition ReleaseStatusSucceeded := "succeeded".
Definition ReleaseStatusFailed := "failed".
Definition ReleaseStatusRollingBack := "rolling_back".
Definition ReleaseStatusRolledBack := "rolled_back".

Definition ReleaseOperationRunning := "running".
Definition ReleaseOperationSuccess := "success".
Definition ReleaseOperationFailed := "failed".

Definition release_statuses : list string :=
  [ReleaseStatusDraft; ReleaseStatusValidating; ReleaseStatusApplying; ReleaseStatusWaitingReady;
   ReleaseStatusVerifying; ReleaseStatusSucceeded; ReleaseStatusFailed; ReleaseStatusRollingBack;
   ReleaseStatusRolledBack].
Definition IsReleaseStatusValid (status : string) : bool := bool_decide (status ∈ release_statuses).

Record Release := {
  rel_ID : Z;
  rel_ApplicationID : Z;
  rel_Sequence : Z;
  rel_Image : string;
  rel_Version : string;
  rel_TemplateID : option Z;
  rel_TemplateRevision : Z;
  rel_ImageRegistryID : option Z;
  rel_PodTrackingEnabled : bool;
  (** the JSON document of the sanitised specification *)
  rel_DesiredSpec : json;
  rel_Status : string;
  rel_SourceReleaseID : option Z;
  rel_CreatedBy : Z;
  rel_StartedAt : option Z;
  rel_CompletedAt : option Z
}.

Record ReleaseOperation := {
  op_ID : Z;
  op_ReleaseID : Z;
  op_Step : string;
  op_Status : string;
  op_Detail : string;
  op_StartedAt : option Z;
  op_CompletedAt : option Z
}.

Record OperationLog := {
  log_ID : Z;
  log_ResourceType : string;
  log_ResourceID : Z;
  log_Step : string;
  log_Status : string;
  log_Detail : string;
  log_CreatedAt : Z
}.

Record ReleaseContainerRuntime := {
  rc_Name : string;
  rc_Image : string;
  rc_Ready : bool;
  rc_RestartCount : Z;
  rc_State : string;
  rc_Reason : string;
  rc_Message : string;
  rc_ExitCode : option Z;
  rc_LastState : string;
  rc_LastReason : string;
  rc_LastExitCode : option Z
}.

Record ReleasePodRuntime := {
  rp_Name : string;
  rp_NodeName : string;
  rp_Phase : string;
  rp_Ready : bool;
  rp_Restarts : Z;
  rp_CreatedAt : Z;
  rp_Containers : list ReleaseContainerRuntime;
  rp_Diagnostic : string
}.

Record ReleaseRuntime := {
  rr_Tracking : string;
  rr_Pods : list ReleasePodRuntime;
  rr_Diagnostic : string
}.

Definition set_rel_id (id : Z) (r : Release) : Release :=
  let '(Build_Release _ a s i v t tr g p d st src c sa ca) := r in
  Build_Release id a s i v t tr g p d st src c sa ca.
Definition set_rel_status (status : string) (r : Release) : Release :=
  let '(Build_Release id a s i v t tr g p d _ src c sa ca) := r in
  Build_Release id a s i v t tr g p d status src c sa ca.
Definition set_rel_started (at_ : option Z) (r : Release) : Release :=
  let '(Build_Release id a s i v t tr g p d st src c _ ca) := r in
  Build_Release id a s i v t tr g p d st src c at_ ca.
Definition set_rel_completed (at_ : option Z) (r : Release) : Release :=
  let '(Build_Release id a s i v t tr g p d st src c sa _) := r in
  Build_Release id a s i v t tr g p d st src c sa at_.
Definition set_rel_template (template : option Z) (revision : Z) (r : Release) : Release :=
  let '(Build_Release id a s i v _ _ g p d st src c sa ca) := r in
  Build_Release id a s i v template revision g p d st src c sa ca.
Definition set_rel_source (source : option Z) (r : Release) : Release :=
  let '(Build_Release id a s i v t tr g p d st _ c sa ca) := r in
  Build_Release id a s i v t tr g p d st source c sa ca.

Definition set_op_id (id : Z) (o : ReleaseOperation) : ReleaseOperation :=
  let '(Build_ReleaseOperation _ r s st d sa ca) := o in Build_ReleaseOperation id r s st d sa ca.
Definition set_log_id (id : Z) (l : OperationLog) : OperationLog :=
  let '(Build_OperationLog _ t r s st d c) := l in Build_OperationLog id t r s st d c.

(** ** Applications *)

Record Project := {
  pr_ID : Z;
  pr_Name : string;
  pr_Description : string;
  pr_DefaultImageRegistryID : option Z;
  pr_OwnerID : Z
}.

Record Environment := {
  env_ID : Z;
  env_ProjectID : Z;
  env_Name : string;
  env_Namespace : string
}.

Record ApplicationEndpoint := {
  ae_ID : Z;
  ae_ApplicationID : Z;
  ae_DomainID : Z;
  ae_Exposure : string;
  ae_Domain : string;
  ae_Path : string;
  ae_ServicePort : Z;
  ae_Protocol : string;
  ae_TLSEnabled : bool;
  ae_IngressEnabled : bool;
  ae_IngressMode : string;
  ae_TLSSecretName : string;
  ae_IssuerRef : string;
  ae_AccessMode : string
}.

(** The row with its preloaded project, environment and endpoints. *)
Record Application := {
  app_ID : Z;
  app_ProjectID : Z;
  app_EnvironmentID : Z;
  app_Name : string;
  app_WorkloadKind : string;
  (** [None] is a blank column *)
  app_CapabilitiesData : option json;
  app_Capabilities : list string;
  app_DefaultDeploymentTemplateID : option Z;
  app_CreatedBy : Z;
  app_Project : Project;
  app_Environment : Environment;
  app_Endpoints : list ApplicationEndpoint
}.

Record ApplicationDeploymentTemplate := {
  tpl_ID : Z;
  tpl_ApplicationID : Z;
  tpl_Name : string;
  tpl_Description : string;
  tpl_Enabled : bool;
  tpl_Spec : json;
  tpl_EncryptedSecrets : string;
  tpl_Revision : Z;
  tpl_UpdatedBy : Z
}.

Record ApplicationManagedFile := {
  mf_ID : Z;
  mf_ApplicationID : Z;
  mf_ResourceKind : string;
  mf_ResourceName : string;
  mf_Key : string;
  mf_MountPath : string;
  mf_Format : string;
  mf_Version : Z;
  mf_Enabled : bool;
  mf_CreatedBy : Z
}.

(** ** Registries and nodes *)

(** A registry with the projects it is authorised for. *)
Record ImageRegistry := {
  ireg_ID : Z;
  ireg_Name : string;
  ireg_Endpoint : string;
  ireg_VerificationImage : string;
  ireg_AuthType : string;
  ireg_Username : string;
  ireg_Credential : string;
  ireg_Enabled : bool;
  ireg_LastVerifiedAt : option Z;
  ireg_LastVerifyStatus : string;
  ireg_LastVerifyError : string;
  ireg_CreatedBy : Z;
  ireg_ManagedRegistryID : option Z;
  ireg_Projects : list Z
}.

Record Server := {
  sv_ID : Z;
  sv_Name : string;
  sv_Host : string;
  sv_ClusterRole : string;
  sv_K8sNodeName : string;
  sv_SSHAuthType : string;
  sv_SSHKey : string;
  sv_CreatedAt : Z
}.

(** The last deployment of a mirror on a node, with its preloaded server. *)
Record NodeRegistryMirrorNode := {
  mn_ID : Z;
  mn_MirrorID : Z;
  mn_ServerID : Z;
  mn_Status : string;
  mn_Detail : string;
  mn_AppliedAt : option Z;
  mn_Server : Server
}.

(** A mirror with its preloaded node statuses; [Endpoints] is a JSON text, [None] when it is none. *)
Record NodeRegistryMirror := {
  nm_ID : Z;
  nm_Name : string;
  nm_Registry : string;
  nm_Endpoints : option json;
  nm_VerificationImage : string;
  nm_LastVerifiedAt : option Z;
  nm_LastVerifyStatus : string;
  nm_LastVerifyError : string;
  nm_LastAppliedAt : option Z;
  nm_LastApplyStatus : string;
  nm_LastApplyError : string;
  nm_Username : string;
  nm_Credential : string;
  nm_InsecureSkipVerify : bool;
  nm_Enabled : bool;
  nm_CreatedBy : Z;
  nm_ManagedRegistryID : option Z;
  nm_CreatedAt : Z;
  nm_NodeStatuses : list NodeRegistryMirrorNode
}.

(** ** Capability tags *)

Definition maxApplicationCapabilities : nat := 16.

(** [^[a-z0-9](?:[a-z0-9-]{0,62}[a-z0-9])?$] *)
Definition alnum (c : ascii) : bool := is_lower c || ((48 <=? code c) && (code c <=? 57))%N.
Definition alnum_or_hyphen (c : ascii) : bool := alnum c || bool_decide (c = "-"%char).
Definition applicationCapabilityPattern (s : string) : bool :=
  let l := chars s in
  forallb alnum_or_hyphen l && bool_decide (1 ≤ length l ≤ 64) &&
  match head l, last l with Some a, Some b => alnum a && alnum b | _, _ => false end.

Fixpoint normalize_capabilities (unique : gset string) (values : list string) : result (gset string) :=
  match values with
  | [] => Ok unique
  | value :: values =>
      let capability := to_lower (trim_space value) in
      if applicationCapabilityPattern capability then normalize_capabilities ({[capability]} ∪ unique) values
      else Err (EText ("能力标签 " +:+ quote value +:+ " 无效，只能使用小写字母、数字和连字符，长度不超过 64"))
  end.
Definition NormalizeApplicationCapabilities (values : list string) : result (list string) :=
  if decide (maxApplicationCapabilities < length values) then
    Err (EText ("能力标签最多 " +:+ dec_nat maxApplicationCapabilities +:+ " 项"))
  else unique ← normalize_capabilities ∅ values; Ok (sort_strings (elements unique)).

Definition set_app_capabilities (data : option json) (tags : list string) (a : Application) : Application :=
  let '(Build_Application id p e n w _ _ d c pr en eps) := a in
  Build_Application id p e n w data tags d c pr en eps.

Definition SetCapabilities (a : Application) (values : list string) : result Application :=
  normalized ← NormalizeApplicationCapabilities values;
  Ok (set_app_capabilities (Some (encode (list_codec string_codec) normalized)) normalized a).

Definition LoadCapabilities (a : Application) : Application :=
  let a := set_app_capabilities (app_CapabilitiesData a) [] a in
  match app_CapabilitiesData a with
  | None => a
  | Some data =>
      match decode (list_codec string_codec) [] data with
      | None => a
      | Some values =>
          match NormalizeApplicationCapabilities values with
          | Ok normalized => set_app_capabilities (app_CapabilitiesData a) normalized a
          | Err _ => a
          end
      end
  end.

(** ** Tags are fixed points of trimming and lower-casing *)

Definition tag_char (c : ascii) : Prop := (45 ≤ code c ≤ 122)%N ∧ is_upper c = false.

Lemma alnum_or_hyphen_tag c : alnum_or_hyphen c = true → tag_char c.
Proof.
  unfold alnum_or_hyphen, alnum, tag_char, is_lower, is_upper.
  destruct (bool_decide_reflect (c = "-"%char)) as [->|_]; [done|]. rewrite orb_false_r. intros H. lia.
Qed.

Lemma space1_tag c : tag_char c → space1 c = false.
Proof. unfold tag_char, space1. simpl. lia. Qed.
Lemma space2_tag a b : tag_char a → space2 a b = false.
Proof. unfold tag_char, space2. lia. Qed.
Lemma space3_tag a b c : tag_char a → space3 a b c = false.
Proof. unfold tag_char, space3. lia. Qed.

Lemma space_width_tag l : Forall tag_char l → space_width l = 0.
Proof.
  destruct l as [|a [|b [|c l]]]; simpl; rewrite ?Forall_cons; intros; destruct_and?; [done|..];
    rewrite ?space1_tag, ?space2_tag, ?space3_tag by done; done.
Qed.
Lemma space_width_rev_tag l : Forall tag_char l → space_width_rev l = 0.
Proof.
  destruct l as [|a [|b [|c l]]]; simpl; rewrite ?Forall_cons; intros; destruct_and?; [done|..];
    rewrite ?space1_tag, ?space2_tag, ?space3_tag by done; done.
Qed.

Lemma trim_space_tag s : Forall tag_char (chars s) → trim_space s = s.
Proof.
  intros Hs. unfold trim_space, trim_right_chars, trim_left_chars, strip.
  rewrite (strip_fuel_id space_width) by by apply space_width_tag.
  rewrite (strip_fuel_id space_width_rev) by by apply space_width_rev_tag, Forall_reverse.
  by rewrite reverse_involutive, string_of_list_ascii_of_string.
Qed.

Lemma lower_chars_tag l : Forall tag_char l → lower_chars l = l.
Proof.
  induction 1 as [|a l [Ha Hu] Hl IH]; [done|].
  assert (lower_chars (a :: l) = lower_char a :: lower_chars l) as ->.
  { assert ((code a =? 196) = false ∧ (code a =? 226) = false)%N as [H1 H2] by lia.
    destruct l as [|b [|c l]]; simpl; rewrite ?H1, ?H2; simpl; try done. }
  rewrite IH. unfold lower_char. by rewrite Hu.
Qed.

Lemma pattern_tag s : applicationCapabilityPattern s = true → to_lower (trim_space s) = s.
Proof.
  unfold applicationCapabilityPattern. intros [[Hf _]%andb_prop _]%andb_prop.
  assert (Hs : Forall tag_char (chars s)).
  { apply Forall_forall. intros c Hc%list_elem_of_In. rewrite forallb_forall in Hf.
    by apply alnum_or_hyphen_tag, Hf. }
  rewrite trim_space_tag by done. unfold to_lower. rewrite lower_chars_tag by done.
  apply string_of_list_ascii_of_string.
Qed.

Lemma normalize_capabilities_Ok unique values u :
  normalize_capabilities unique values = Ok u ↔
  Forall (λ v, applicationCapabilityPattern (to_lower (trim_space v)) = true) values ∧
  u = list_to_set ((λ v, to_lower (trim_space v)) <$> values) ∪ unique.
Proof.
  revert unique. induction values as [|v values IH]; intros unique; simpl.
  - split; [intros [= <-] | intros [_ ->]; f_equal]; [split; [constructor|]|]; set_solver.
  - destruct (applicationCapabilityPattern _) eqn:Hp.
    + rewrite IH, Forall_cons.
      assert (∀ X : gset string, X ∪ ({[to_lower (trim_space v)]} ∪ unique) =
        {[to_lower (trim_space v)]} ∪ X ∪ unique) as -> by set_solver. naive_solver.
    + split; [done|]. rewrite Forall_cons. intros [[? _] _]. congruence.
Qed.

Lemma list_to_set_elements_sorted (u : gset string) :
  list_to_set (sort_strings (elements u)) = u.
Proof. apply set_eq. intros x. by rewrite elem_of_list_to_set, elem_of_sort_strings, elem_of_elements. Qed.

Lemma list_to_set_size (l : list string) : size (list_to_set l : gset string) ≤ length l.
Proof.
  induction l as [|x l IH]; [done|]. rewrite list_to_set_cons, length_cons.
  rewrite size_union_alt, size_singleton.
  pose proof (subseteq_size (list_to_set l ∖ {[x]} : gset string) (list_to_set l) ltac:(set_solver)). lia.
Qed.

(** Normalised tags: sorted, distinct, well formed, at most sixteen, and normal already. *)
Lemma NormalizeApplicationCapabilities_Ok values tags :
  NormalizeApplicationCapabilities values = Ok tags →
  StronglySorted String.le tags ∧ NoDup tags ∧ length tags ≤ maxApplicationCapabilities ∧
  Forall (λ t, applicationCapabilityPattern t = true) tags ∧
  (∀ t, t ∈ tags ↔ ∃ v, v ∈ values ∧ to_lower (trim_space v) = t) ∧
  NormalizeApplicationCapabilities tags = Ok tags.
Proof.
  unfold NormalizeApplicationCapabilities at 1. case_decide as Hlen; [done|]. simpl.
  destruct (normalize_capabilities ∅ values) as [u|] eqn:Hu; simpl; [|done]. intros [= <-].
  apply normalize_capabilities_Ok in Hu as [Hp ->]. rewrite (right_id_L ∅ (∪)).
  set (u := list_to_set _ : gset string).
  assert (Hin : ∀ t, t ∈ sort_strings (elements u) ↔ ∃ v, v ∈ values ∧ to_lower (trim_space v) = t).
  { intros t. rewrite elem_of_sort_strings, elem_of_elements. unfold u.
    rewrite elem_of_list_to_set, list_elem_of_fmap. naive_solver. }
  assert (Hpat : Forall (λ t, applicationCapabilityPattern t = true) (sort_strings (elements u))).
  { apply Forall_forall. intros t (v & Hv & <-)%Hin. rewrite Forall_forall in Hp. by apply Hp. }
  assert (Hsize : length (sort_strings (elements u)) ≤ maxApplicationCapabilities).
  { rewrite (Permutation_length (sort_strings_Permutation _)).
    change (size u ≤ maxApplicationCapabilities). etrans; [apply list_to_set_size|].
    rewrite length_fmap. lia. }
  split_and!; try done.
  - apply sort_strings_sorted.
  - rewrite sort_strings_Permutation. apply NoDup_elements.
  - unfold NormalizeApplicationCapabilities. rewrite decide_False by lia. simpl.
    rewrite (proj2 (normalize_capabilities_Ok _ _ u)); [done|]. split.
    + eapply Forall_impl; [exact Hpat|]. simpl. intros t Ht. by rewrite pattern_tag.
    + rewrite (right_id_L ∅ (∪)). rewrite (Forall_fmap_ext_1 _ id).
      * by rewrite list_fmap_id, list_to_set_elements_sorted.
      * eapply Forall_impl; [exact Hpat|]. simpl. intros t Ht. by apply pattern_tag.
Qed.

(** ** Property *)

(** Capability tags survive storage. When [SetCapabilities] accepts a list, the tags are sorted,
    distinct, at most sixteen, well formed, exactly the trimmed lower-case values given, and loading
    the stored column gives them back whatever the in-memory list was. *)
Theorem capabilities_roundtrip a values a' stale (Hset : SetCapabilities a values = Ok a') :
  StronglySorted String.le (app_Capabilities a') ∧ NoDup (app_Capabilities a') ∧
  length (app_Capabilities a') ≤ maxApplicationCapabilities ∧
  Forall (λ t, applicationCapabilityPattern t = true) (app_Capabilities a') ∧
  (∀ t, t ∈ app_Capabilities a' ↔ ∃ v, v ∈ values ∧ to_lower (trim_space v) = t) ∧
  LoadCapabilities (set_app_capabilities (app_CapabilitiesData a') stale a') = a'.
Proof.
  unfold SetCapabilities in Hset.
  destruct (NormalizeApplicationCapabilities values) as [tags|] eqn:Hn; simplify_eq/=.
  apply NormalizeApplicationCapabilities_Ok in Hn as (? & ? & ? & ? & ? & Hn).
  destruct a as [id p e n w d0 c0 d c pr en eps]. split_and!; try done.
  unfold LoadCapabilities. cbn [set_app_capabilities app_CapabilitiesData].
  pose proof (decode_encode (list_codec string_codec) tags (valid_strings tags)) as Hd.
  change (zero (list_codec string_codec)) with (@nil string) in Hd. simplify_eq/=. rewrite Hd. by rewrite Hn.
Qed.

Definition sample_application : Application := {|
  app_ID := 7; app_ProjectID := 1; app_EnvironmentID := 2; app_Name := "web"; app_WorkloadKind := "deployment";
  app_CapabilitiesData := None; app_Capabilities := []; app_DefaultDeploymentTemplateID := None;
  app_CreatedBy := 1;
  app_Project := {| pr_ID := 1; pr_Name := "shop"; pr_Description := ""; pr_DefaultImageRegistryID := None; pr_OwnerID := 1 |};
  app_Environment := {| env_ID := 2; env_ProjectID := 1; env_Name := "prod"; env_Namespace := "shop-prod" |};
  app_Endpoints := []
|}.

Lemma capabilities_roundtrip_witness :
  ∃ a', SetCapabilities sample_application [" Web "; "db-2"; "web"] = Ok a' ∧
    app_Capabilities a' = ["db-2"; "web"] ∧
    LoadCapabilities (set_app_capabilities (app_CapabilitiesData a') ["stale"] a') = a'.
Proof.
  eexists. split; [vm_compute; reflexivity|]. split; [reflexivity|].
  refine (proj2 (proj2 (proj2 (proj2 (proj2
    (capabilities_roundtrip sample_application [" Web "; "db-2"; "web"] _ ["stale"] _)))))).
  vm_compute. reflexivity.
Defined.
