(* ===== verification/PlatformModels.v ===== *)
(** * Persistent records of the platform itself

    [internal/model/agent.go], [internal/model/runtime.go], [internal/model/auth.go], the sessions of
    [internal/model/application.go], the alerts and audit records of [internal/model/observability.go]
    and the proxies of [internal/model/registry.go]: the rows that the authentication, the delegation
    and the agent operations read and write. As in [Models], an instant is a [Z] of nanoseconds and the
    columns no modelled operation reads are left out. *)
From Stdlib Require Import ZArith Ascii String.
From stdpp Require Import base sorting pretty numbers gmap strings list.
From S2P Require Import Prelude GoStrings Json.

(** [time.Time{}]: the first of January of year 1, before the Unix epoch. *)
Definition second : Z := 1000000000.
Definition time_zero : Z := -62135596800 * second.
(** [t.Unix()] *)
Definition unix (t : Z) : Z := t / second.

(** ** Capabilities of agents *)

Definition AgentCapabilityClusterRead := "cluster.read".
Definition AgentCapabilityWorkloadRead := "workload.read".
Definition AgentCapabilityWorkloadLogs := "workload.logs".
Definition AgentCapabilityEventsRead := "events.read".
Definition AgentCapabilityStorageRead := "storage.read".
Definition AgentCapabilityDeploymentScale := "deployment.scale".
Definition AgentCapabilityRegistryRead := "registry.read".
Definition AgentCapabilityRegistryVerify := "registry.verify".
Definition AgentCapabilityRegistryPullCheck := "registry.pull_check".
Definition AgentCapabilityDNSRead := "dns.read".
Definition AgentCapabilityRegistryProxyDiagnose := "registry.proxy_diagnose".
Definition AgentCapabilityAlertRead := "alert.read".
Definition AgentCapabilityMonitoringRead := "monitoring.read".
Definition AgentCapabilityMaintenanceInspect := "maintenance.inspect".
Definition AgentCapabilityMaintenanceCleanup := "maintenance.cleanup".

Definition AgentCapabilities : gset string :=
  list_to_set [AgentCapabilityClusterRead; AgentCapabilityWorkloadRead; AgentCapabilityWorkloadLogs;
    AgentCapabilityEventsRead; AgentCapabilityStorageRead; AgentCapabilityDeploymentScale;
    AgentCapabilityRegistryRead; AgentCapabilityRegistryVerify; AgentCapabilityRegistryPullCheck;
    AgentCapabilityDNSRead; AgentCapabilityRegistryProxyDiagnose; AgentCapabilityAlertRead;
    AgentCapabilityMonitoringRead; AgentCapabilityMaintenanceInspect; AgentCapabilityMaintenanceCleanup].
Definition ValidAgentCapability (capability : string) : bool := bool_decide (capability ∈ AgentCapabilities).

Record AgentCapabilityGrant := {
  gr_ID : Z;
  gr_RuntimeID : Z;
  gr_Capability : string;
  gr_Namespace : string;
  gr_Enabled : bool
}.

(** ** Operations of agents *)

Definition AgentOperationPendingApproval := "pending_approval".
Definition AgentOperationApproved := "approved".
Definition AgentOperationRejected := "rejected".
Definition AgentOperationSucceeded := "succeeded".
Definition AgentOperationFailed := "failed".
Definition AgentOperationStale := "stale".
Definition AgentOperationExpired := "expired".

Record AgentOperation := {
  ao_ID : Z;
  ao_OperationID : string;
  ao_RuntimeID : Z;
  ao_Capability : string;
  ao_RequestID : string;
  ao_ChatSessionID : string;
  (** a JSON document; [None] is the empty text *)
  ao_Parameters : option json;
  ao_ParametersHash : string;
  ao_ResourceVersion : string;
  ao_Status : string;
  ao_Summary : string;
  ao_ErrorSummary : string;
  ao_ApprovedBy : option Z;
  ao_ApprovedAt : option Z;
  ao_ExpiresAt : Z;
  ao_CompletedAt : option Z;
  ao_CreatedAt : Z
}.

Definition AgentOperationTerminal (status : string) : bool :=
  bool_decide (status ∈ [AgentOperationRejected; AgentOperationSucceeded; AgentOperationFailed;
    AgentOperationStale; AgentOperationExpired]).

(** ** Runtimes *)

Definition RuntimeDeploymentManaged := "managed".
Definition RuntimeDeploymentExternal := "external".

Record RuntimeInstance := {
  rt_ID : Z;
  rt_Name : string;
  rt_RuntimeType : string;
  rt_DeploymentMode : string;
  rt_Namespace : string;
  rt_ModelName : string;
  rt_EncryptedRuntimeAPIKey : string;
  rt_Status : string;
  rt_HealthStatus : string;
  rt_HealthDetail : string;
  rt_LastHealthAt : option Z;
  rt_AgentToolEnabled : bool;
  rt_CreatedBy : Z
}.

(** ** Alerts *)

Definition AlertEventFiring := "firing".
Definition AlertEventAnalyzing := "analyzing".
Definition AlertEventAwaitingApproval := "awaiting_approval".
Definition AlertEventRemediating := "remediating".
Definition AlertEventResolved := "resolved".
Definition AlertEventFailed := "failed".
Definition AlertAutomationReportOnly := "report_only".
Definition AlertAutomationApproval := "diagnose_and_request_approval".

Record AlertEvent := {
  al_ID : Z;
  al_Fingerprint : string;
  al_AlertName : string;
  al_Severity : string;
  al_NodeName : string;
  al_MountPoint : string;
  al_Labels : string;
  al_Annotations : string;
  al_Status : string;
  al_RuntimeID : option Z;
  al_SessionID : string;
  al_Report : string;
  al_DiagnosticSummary : string;
  al_OperationID : string;
  al_LastError : string;
  al_StartsAt : Z;
  al_EndsAt : option Z;
  al_LastDispatchedAt : option Z
}.

Record AlertAutomationPolicy := {
  pol_ID : Z;
  pol_RuntimeID : Z;
  pol_Enabled : bool;
  pol_AlertName : string;
  pol_MinimumSeverity : string;
  pol_Mode : string;
  pol_CooldownMinutes : Z
}.

(** ** Migrations of volume claims: [pvc.go] *)

Definition PVCMigrationStatusPending := "pending".
Definition PVCMigrationStatusPreflight := "preflight".
Definition PVCMigrationStatusProvisioningTarget := "provisioning_target".
Definition PVCMigrationStatusStoppingSource := "stopping_source".
Definition PVCMigrationStatusCopying := "copying".
Definition PVCMigrationStatusCutover := "cutover".
Definition PVCMigrationStatusWaitingReady := "waiting_ready".
Definition PVCMigrationStatusSucceeded := "succeeded".
Definition PVCMigrationStatusFailed := "failed".
Definition PVCMigrationStatusRolledBack := "rolled_back".
Definition PVCMigrationStatusCleanupPending := "cleanup_pending".
Definition PVCMigrationStatusCleaned := "cleaned".
(** [mig_SourceTemplateSpec]: the specifications of the templates, by template; [None] when it was never written *)
Record PersistentVolumeMigration := {
  mig_ID : Z;
  mig_EnvironmentID : Z;
  mig_ApplicationID : Z;
  mig_SourcePVCName : string;
  mig_TargetPVCName : string;
  mig_SourceNodeName : string;
  mig_TargetNodeName : string;
  mig_SourceDeployment : string;
  mig_SourceReplicas : Z;
  mig_Status : string;
  mig_Detail : string;
  mig_BytesCopied : Z;
  mig_SourceTemplateSpec : option (gmap Z json);
  mig_CompletedAt : option Z
}.
Definition pvc_migration_terminal : list string :=
  [PVCMigrationStatusSucceeded; PVCMigrationStatusFailed; PVCMigrationStatusRolledBack; PVCMigrationStatusCleaned].
Definition IsPVCMigrationTerminal (status : string) : bool := bool_decide (status ∈ pvc_migration_terminal).

(** ** The audit timeline *)

Record AuditLog := {
  au_ID : Z;
  au_Action : string;
  au_ResourceType : string;
  au_ResourceID : Z;
  au_TargetName : string;
  au_UserID : Z;
  au_ActorType : string;
  au_ActorName : string;
  au_Source : string;
  au_Outcome : string;
  au_Summary : string;
  au_RequestID : string;
  au_OperationID : string;
  au_Detail : json;
  au_CreatedAt : Z
}.

Definition AuditActorUser := "user".
Definition AuditActorAgent := "agent".
Definition AuditActorSystem := "system".
Definition AuditSourceAPI := "api".
Definition AuditSourceAgent := "agent".
Definition AuditSourceDelegation := "delegation".
Definition AuditOutcomeSucceeded := "succeeded".
Definition AuditOutcomeFailed := "failed".
Definition AuditOutcomeDenied := "denied".
Definition AuditOutcomeAccepted := "accepted".

Definition AuditTargetFallback (resourceType : string) (resourceID : Z) : string :=
  if decide (resourceID = 0%Z) then resourceType else resourceType +:+ (" #" +:+ dec resourceID).
Definition AuditSummaryFallback (action resourceType : string) (resourceID : Z) : string :=
  "执行 " +:+ (action +:+ ("：" +:+ AuditTargetFallback resourceType resourceID)).

(** ** Registry proxies *)

Record RegistryProxy := {
  px_ID : Z;
  px_Registry : string;
  px_NodeName : string;
  px_EndpointHost : string;
  px_NodePort : Z;
  px_Status : string;
  px_LastError : string;
  px_LastDiagnosticStatus : string;
  px_LastDiagnosticError : string;
  px_LastDiagnosticAt : option Z;
  px_CreatedAt : Z
}.

(** ** Users and their credentials *)

Record User := {
  us_ID : Z;
  us_Username : string;
  us_PasswordHash : string
}.

Record TemporaryLoginToken := {
  lt_ID : Z;
  lt_TokenHash : string;
  lt_CreatedBy : Z;
  lt_Label : string;
  lt_ExpiresAt : Z;
  lt_RevokedAt : option Z;
  lt_LastUsedAt : option Z;
  lt_CreatedAt : Z
}.

Record IntegrationSession := {
  is_ID : Z;
  is_HandoffCodeHash : string;
  is_SessionTokenHash : option string;
  is_UserID : Z;
  is_ProjectID : Z;
  is_ApplicationID : Z;
  is_EnvironmentID : Z;
  is_Capability : string;
  is_ActionsData : string;
  is_HandoffExpiresAt : Z;
  is_HandoffUsedAt : option Z;
  is_ExpiresAt : Z;
  is_RevokedAt : option Z
}.

(** ** Domains: [model/network.go] *)

Record ManagedDomain := {
  md_ID : Z;
  md_Hostname : string;
  md_EnvironmentID : Z;
  md_Namespace : string;
  md_CertificateName : string;
  md_TLSSecretName : string;
  md_IssuerRef : string;
  md_IssuerKind : string;
  md_CertificateOwnership : string;
  md_Description : string;
  md_Enabled : bool
}.

(** ** Configuration and the releases of the platform itself: [model/platform.go] *)

Record SystemConfig := { cfg_ID : Z; cfg_Key : string; cfg_Value : string }.
Record PlatformRelease := {
  plr_ID : Z;
  plr_Source : string;
  plr_Image : string;
  plr_PreviousImage : string;
  plr_Status : string;
  plr_Detail : string;
  plr_CommitSHA : string;
  plr_RunID : string;
  plr_StartedAt : option Z;
  plr_CompletedAt : option Z;
  plr_CreatedAt : Z
}.
Record PlatformWebhookNonce := { wn_ID : Z; wn_Nonce : string; wn_ExpiresAt : Z }.
