(* ===== verification/Security.v ===== *)
(** * Sealed columns

    [internal/security/crypto.go], [internal/security/sanitize.go] and
    [internal/service/registry/registry_credentials.go]: secrets and credentials are stored as the
    base64 text of an AES-256-GCM sealed message behind its nonce. The cipher is the library's; the
    nonce, random in the code, is an argument. *)
From Stdlib Require Import ZArith Ascii String.
From stdpp Require Import base numbers strings list.
From S2P Require Import Prelude GoStrings GoBase64.

(** [crypto/aes] and [crypto/cipher]: the keys [aes.NewCipher] accepts, the size of a nonce, and
    [Seal] and [Open] without additional data. *)
Class AesGcm := {
  valid_key : string → bool;
  nonce_size : nat;
  seal : string → string → string → string;
  open_sealed : string → string → string → option string
}.

Section crypto.
Context `{AesGcm}.

(** [aes.NewCipher(key)] followed by [cipher.NewGCM] *)
Definition new_cipher (key : string) : result unit :=
  if valid_key key then Ok tt else Err (EWrap "create cipher: " (EText "crypto/aes: invalid key size") "").

Definition Encrypt (key nonce plaintext : string) : result string :=
  _ ← new_cipher key;
  Ok (base64 (nonce +:+ seal key nonce plaintext)).

Definition Decrypt (key encoded : string) : result string :=
  match base64_decode encoded with
  | None => Err (EWrap "decode: " (EText "illegal base64 data") "")
  | Some ciphertext =>
      _ ← new_cipher key;
      if String.length ciphertext <? nonce_size then Err (EText "ciphertext too short")
      else
        match open_sealed key (take_str nonce_size ciphertext) (drop_str nonce_size ciphertext) with
        | Some plaintext => Ok plaintext
        | None => Err (EWrap "decrypt: " (EText "cipher: message authentication failed") "")
        end
  end.

Definition EncryptCredential (key nonce credential : string) : result string := Encrypt key nonce credential.
Definition DecryptCredential (key encrypted : string) : result string := Decrypt key encrypted.
Definition CredentialConfigured (encrypted : string) : bool := bool_decide (encrypted ≠ "").
End crypto.

(** [len(value)] counts bytes. *)
Definition Truncate (value : string) (limit : Z) : string :=
  let limit := Z.max 0 limit in
  if bool_decide (Z.of_nat (String.length value) ≤ limit)%Z then value
  else take_str (Z.to_nat limit) value +:+ "...".

(** *** The expressions of [Redact]

    Both are deterministic: a keyword, white space, a separator, white space and the longest run of
    characters that end no value. [(?i)] folds the long s and the Kelvin sign. *)
Definition regex_space (c : ascii) : bool := bool_decide (code c ∈ [9; 10; 12; 13; 32]%N).
Definition value_char (c : ascii) : bool := negb (regex_space c || bool_decide (c ∈ [","; ";"]%char)).
Fixpoint match_word (word l : list ascii) : option (list ascii) :=
  match word with
  | [] => Some l
  | w :: word =>
      match l with
      | [] => None
      | c :: l1 =>
          if decide (lower_char c = w) then match_word word l1
          else if decide (w = "s"%char ∧ take 2 l = ["197"; "191"]%char) then match_word word (drop 2 l)
          else if decide (w = "k"%char ∧ take 3 l = ["226"; "132"; "170"]%char) then match_word word (drop 3 l)
          else None
      end
  end.
Fixpoint match_one (words : list string) (l : list ascii) : option (list ascii) :=
  match words with
  | [] => None
  | w :: words => match match_word (chars w) l with Some rest => Some rest | None => match_one words l end
  end.
Fixpoint skip_while (test : ascii → bool) (l : list ascii) : list ascii :=
  match l with
  | c :: l' => if test c then skip_while test l' else l
  | [] => []
  end.
(** One character of a class or more. *)
Definition skip_some (test : ascii → bool) (l : list ascii) : option (list ascii) :=
  match l with c :: l => if test c then Some (skip_while test l) else None | [] => None end.
Definition expect (separators : list ascii) (l : list ascii) : option (list ascii) :=
  match l with c :: l => if bool_decide (c ∈ separators) then Some l else None | [] => None end.

Definition sensitive_words : list string :=
  ["password"; "passwd"; "token"; "secret"; "credential"; "authorization"].
(** What is left after the match, and after the group that is kept. *)
Definition match_sensitive (l : list ascii) : option (list ascii * list ascii) :=
  kept ← match_one sensitive_words l;
  rest ← expect [":"; "="]%char (skip_while regex_space kept);
  rest ← skip_some value_char (skip_while regex_space rest);
  Some (kept, rest).
Definition match_authorization (l : list ascii) : option (list ascii * list ascii) :=
  rest ← match_one ["authorization"] l;
  rest ← expect [":"]%char (skip_while regex_space rest);
  rest ← match_one ["bearer"; "basic"] (skip_while regex_space rest);
  kept ← skip_some regex_space rest;
  rest ← skip_some value_char kept;
  Some (kept, rest).

(** [ReplaceAllString]: the leftmost matches that do not overlap, each replaced by its group and a
    text. The length is enough fuel: every round consumes a character. *)
Fixpoint replace_matches (fuel : nat) (find_match : list ascii → option (list ascii * list ascii)) (text : list ascii)
    (l : list ascii) : list ascii :=
  match fuel, l with
  | S fuel, c :: l' =>
      match find_match l with
      | Some (kept, rest) =>
          take (length l - length kept) l ++ text ++ replace_matches fuel find_match text rest
      | None => c :: replace_matches fuel find_match text l'
      end
  | _, _ => l
  end.
Definition ReplaceAll (find_match : list ascii → option (list ascii * list ascii)) (text : string) (s : string) : string :=
  of_chars (replace_matches (String.length s) find_match (chars text) (chars s)).
Definition Redact (value : string) : string :=
  ReplaceAll match_sensitive "=[REDACTED]" (ReplaceAll match_authorization "[REDACTED]" value).

Definition token_char (c : ascii) : bool :=
  is_lower c || is_upper c || ((48 <=? code c)%N && (code c <=? 57)%N)
  || bool_decide (c = "-"%char) || bool_decide (c = ":"%char).
Definition TokenDisplay (value : string) (edge : Z) : string :=
  let value := of_chars (List.filter token_char (chars value)) in
  if bool_decide (edge < 1)%Z || bool_decide (Z.of_nat (String.length value) ≤ edge * 2)%Z then value
  else take_str (Z.to_nat edge) value +:+ ("..." +:+ drop_str (String.length value - Z.to_nat edge) value).

(** ** Properties *)

(** What [Decrypt] accepts: the base64 text of a nonce and a message the cipher opens. *)
Lemma Decrypt_Ok `{AesGcm} key encoded plaintext :
  Decrypt key encoded = Ok plaintext ↔
  valid_key key = true ∧ ∃ nonce sealed, base64_decode encoded = Some (nonce +:+ sealed) ∧
    String.length nonce = nonce_size ∧ open_sealed key nonce sealed = Some plaintext.
Proof.
  unfold Decrypt, new_cipher. split.
  - destruct (base64_decode encoded) as [c|]; [|done]. destruct (valid_key key); [|done]. simpl.
    destruct (String.length c <? nonce_size) eqn:Hl; [done|]. apply Nat.ltb_ge in Hl.
    destruct (open_sealed _ _ _) as [p|] eqn:Ho; [|done]. intros [= <-]. split; [done|].
    exists (take_str nonce_size c), (drop_str nonce_size c). rewrite take_drop_str. split_and!; try done.
    pose proof (f_equal String.length (take_drop_str nonce_size c)) as Hlen. rewrite length_str_app in Hlen.
    pose proof (length_take_str nonce_size c). lia.
  - intros (Hk & nonce & sealed & -> & Hn & Ho). rewrite Hk. simpl.
    rewrite (proj2 (Nat.ltb_ge _ _)) by (rewrite length_str_app; lia).
    by rewrite <-Hn, take_str_app, drop_str_app, Ho.
Qed.

(** what is sealed is read back. If the cipher opens what it sealed, [Decrypt] gives back the
    plaintext of [Encrypt], whatever nonce of the right size was drawn; whatever text it is given,
    [Decrypt] succeeds only on the base64 text of a nonce followed by a message the cipher opens with
    that key, with the text the cipher gives; and it never succeeds with a key the cipher refuses. *)
Lemma decrypt_encrypt `{AesGcm} key nonce plaintext encoded
    (Hopen : ∀ k n p, open_sealed k n (seal k n p) = Some p)
    (Hnonce : String.length nonce = nonce_size)
    (Hencrypt : Encrypt key nonce plaintext = Ok encoded) :
  Decrypt key encoded = Ok plaintext ∧
  (∀ key' text p, Decrypt key' text = Ok p → valid_key key' = true ∧
    ∃ n s, base64_decode text = Some (n +:+ s) ∧ String.length n = nonce_size ∧ open_sealed key' n s = Some p).
Proof.
  split; [|by intros key' text p ?%Decrypt_Ok].
  unfold Encrypt, new_cipher in Hencrypt. destruct (valid_key key) eqn:Hkey; [|done]. injection Hencrypt as <-.
  apply Decrypt_Ok. split; [done|]. exists nonce, (seal key nonce plaintext). by rewrite base64_round_trip.
Qed.

(** A cipher for a concrete run: the key and the nonce stand in front of the text. *)
Definition toy_cipher : AesGcm := {|
  valid_key key := String.length key =? 4;
  nonce_size := 2;
  seal key nonce plaintext := key +:+ ("|" +:+ (nonce +:+ ("|" +:+ plaintext)));
  open_sealed key nonce sealed :=
    let prefix := key +:+ ("|" +:+ (nonce +:+ "|")) in
    if has_prefix prefix sealed then Some (drop_str (String.length prefix) sealed) else None
|}.

Lemma decrypt_encrypt_witness :
  Decrypt (H := toy_cipher) "abcd" (from_ok "" (Encrypt (H := toy_cipher) "abcd" "01" "hunter2")) = Ok "hunter2".
Proof.
  apply (decrypt_encrypt (H := toy_cipher) "abcd" "01" "hunter2" (from_ok "" (Encrypt (H := toy_cipher) "abcd" "01" "hunter2"))).
  - intros k n p. simpl.
    assert (k +:+ ("|" +:+ (n +:+ ("|" +:+ p))) = (k +:+ ("|" +:+ (n +:+ "|"))) +:+ p) as ->
      by by rewrite !app_str_assoc.
    by rewrite has_prefix_app, drop_str_app.
  - reflexivity.
  - apply from_ok_spec. reflexivity.
Defined.
