(* ===== verification/NodeMaintenance.v ===== *)
(** * Maintenance of the nodes

    [internal/service/maintenance]: the fixed cleanup recipes, the commands they run, what of their
    output is kept, and the report of a disk inspection. The size of the journal is left out of the report:
    the code computes it in floating point. *)
From Stdlib Require Import ZArith Ascii String Lia.
From stdpp Require Import base sorting pretty numbers gmap strings list.
From S2P Require Import Prelude GoStrings GoPath Json JsonText Security.

(** ** Output of commands: [sanitize.go] *)

(** [string(runes[:limit])]: a byte that starts no rune is replaced. *)
Definition rune_text (r : option (list ascii)) : list ascii := default replacement r.
Definition truncate (value : string) (limit : Z) : string :=
  if bool_decide (limit ≤ 0)%Z then "" else
  let runes := runes (chars value) in
  if bool_decide (Z.of_nat (length runes) ≤ limit)%Z then value
  else of_chars (concat (rune_text <$> take (Z.to_nat limit) runes)).

(** [api[_-]?key] *)
Definition match_api_key (l : list ascii) : option (list ascii) :=
  rest ← match_word (chars "api") l;
  match_word (chars "key") (match expect ["_"; "-"]%char rest with Some rest => rest | None => rest end).
Definition match_sensitiveText (l : list ascii) : option (list ascii * list ascii) :=
  rest ← match match_one ["token"; "password"; "secret"] l with Some rest => Some rest | None => match_api_key l end;
  rest ← expect ["="; ":"]%char (skip_while regex_space rest);
  let kept := skip_while regex_space rest in
  rest ← skip_some value_char kept;
  Some (kept, rest).
Definition redact (value : string) : string :=
  ReplaceAll match_authorization "[REDACTED]" (ReplaceAll match_sensitiveText "[REDACTED]" value).
Definition cleanOutput (value : string) (limit : Z) : string := truncate (trim_space (redact value)) limit.

(** ** Recipes: [types.go] and [cleanup_service.go] *)

Definition ValidCleanupRecipe (recipe : string) : bool :=
  bool_decide (recipe = "journal-vacuum") || bool_decide (recipe = "container-image-prune")
  || bool_decide (recipe = "docker-image-prune").
Definition CleanupSummary (node recipe : string) : string :=
  if decide (recipe = "journal-vacuum") then "vacuum system journal older than 7 days on node " +:+ node
  else if decide (recipe = "docker-image-prune") then "prune unused Docker images on node " +:+ node
  else "prune unused container images on node " +:+ node.
Definition CleanupCompletionSummary (recipe output : string) : string :=
  let prefix :=
    if decide (recipe = "journal-vacuum") then "系统日志清理完成"
    else if decide (recipe = "container-image-prune") then "未使用容器镜像清理完成"
    else if decide (recipe = "docker-image-prune") then "未使用 Docker 镜像清理完成"
    else "固定清理配方执行完成" in
  if decide (trim_space output = "") then prefix else truncate (prefix +:+ (": " +:+ output)) 512.

Definition containerImagePruneCommand : string :=
  "set -eu; if [ -x /usr/local/bin/crictl ]; then sudo -n /usr/local/bin/crictl images; sudo -n /usr/local/bin/crictl rmi --prune; sudo -n /usr/local/bin/crictl images; elif [ -x /var/lib/rancher/k3s/bin/crictl ]; then sudo -n /var/lib/rancher/k3s/bin/crictl images; sudo -n /var/lib/rancher/k3s/bin/crictl rmi --prune; sudo -n /var/lib/rancher/k3s/bin/crictl images; elif [ -x /usr/local/bin/k3s ]; then sudo -n /usr/local/bin/k3s crictl images; sudo -n /usr/local/bin/k3s crictl rmi --prune; sudo -n /usr/local/bin/k3s crictl images; else exit 127; fi".
Definition dockerImagePruneCommand : string :=
  "set -eu; if [ -x /usr/bin/docker ]; then sudo -n /usr/bin/docker system df; sudo -n /usr/bin/docker image prune -af; sudo -n /usr/bin/docker system df; elif [ -x /usr/local/bin/docker ]; then sudo -n /usr/local/bin/docker system df; sudo -n /usr/local/bin/docker image prune -af; sudo -n /usr/local/bin/docker system df; else exit 127; fi".
Definition cleanupCommand (recipe : string) : string :=
  if decide (recipe = "journal-vacuum") then
    "sudo -n journalctl --disk-usage; sudo -n journalctl --vacuum-time=7d; sudo -n journalctl --disk-usage"
  else if decide (recipe = "container-image-prune") then containerImagePruneCommand
  else if decide (recipe = "docker-image-prune") then dockerImagePruneCommand
  else "".

(** ** Inspections: [disk_inspection_service.go] *)

Record FilesystemUsage := {
  fu_MountPoint : string; fu_SizeBytes : Z; fu_UsedBytes : Z; fu_AvailableBytes : Z; fu_UsedPercent : Z
}.
Record UsageEntry := { ue_Path : string; ue_Bytes : Z }.
Record DirectoryUsage := { du_Path : string; du_Entries : list UsageEntry }.
Record Inspection := {
  in_Filesystems : list FilesystemUsage;
  in_JournalSummary : string;
  in_Directories : list DirectoryUsage
}.

Definition inspectionPaths : list string :=
  ["/var/log"; "/var/lib/rancher/k3s"; "/var/lib/kubelet"; "/var/lib/containerd"; "/var/lib/docker"].
Definition InspectionPathAllowed (value : string) : bool :=
  existsb (λ allowed, bool_decide (value = allowed) && bool_decide (clean value = value)) inspectionPaths.

(** [strings.Fields]: the length is enough fuel. *)
Fixpoint fields_fuel (fuel : nat) (word : list ascii) (l : list ascii) : list string :=
  let finished (rest : list string) := match word with [] => rest | _ => of_chars (rev word) :: rest end in
  match fuel, l with
  | S fuel, c :: l' =>
      match space_width l with
      | 0 => fields_fuel fuel (c :: word) l'
      | w => finished (fields_fuel fuel [] (drop w l))
      end
  | _, _ => finished []
  end.
Definition fields (s : string) : list string := fields_fuel (String.length s) [] (chars s).

(** [strconv.ParseInt(s, 10, 64)] *)
Definition parse_int (s : string) : option Z :=
  let '(sign, digits) := match s with
    | String c rest => if decide (c = "-"%char) then (-1, rest)%Z else if decide (c = "+"%char) then (1, rest)%Z else (1, s)%Z
    | EmptyString => (1, s)%Z
    end in
  if decide (digits = "") then None else
  n ← parse_digits 0 digits;
  if decide (is_i64 (sign * n)) then Some (sign * n)%Z else None.

Definition parseFilesystemUsage (line : string) : option FilesystemUsage :=
  match fields line with
  | [mount; size; used; available; percent] =>
      size ← parse_int size; used ← parse_int used; available ← parse_int available;
      percent ← parse_int (trim_suffix percent "%");
      if bool_decide (size < 0)%Z || bool_decide (used < 0)%Z || bool_decide (available < 0)%Z || bool_decide (percent < 0)%Z
         || bool_decide (100 < percent)%Z || negb (has_prefix "/" mount) then None
      else Some {| fu_MountPoint := mount; fu_SizeBytes := size; fu_UsedBytes := used; fu_AvailableBytes := available;
                   fu_UsedPercent := percent |}
  | _ => None
  end.
Definition parseUsageEntry (line base : string) : option UsageEntry :=
  match fields line with
  | first :: _ :: _ =>
      bytes ← parse_int first;
      let entry := trim_space (trim_prefix line first) in
      if bool_decide (bytes < 0)%Z || bool_decide (entry = "")
         || (bool_decide (entry ≠ base) && negb (has_prefix (base +:+ "/") entry)) then None
      else Some {| ue_Path := entry; ue_Bytes := bytes |}
  | _ => None
  end.

(** The variables of the loop. [ps_dirs] is what the map points to, [ps_Directories] the copies in the result. *)
Record inspecting := {
  ps_mode : string;
  ps_dirs : gmap string DirectoryUsage;
  ps_Filesystems : list FilesystemUsage;
  ps_JournalSummary : string;
  ps_Directories : list DirectoryUsage
}.
(** The first copy of a directory is replaced. *)
Fixpoint sync_directory (d : DirectoryUsage) (l : list DirectoryUsage) : list DirectoryUsage :=
  match l with
  | [] => []
  | x :: l => if decide (du_Path x = du_Path d) then d :: l else x :: sync_directory d l
  end.
Definition set_mode (mode : string) (s : inspecting) : inspecting :=
  {| ps_mode := mode; ps_dirs := ps_dirs s; ps_Filesystems := ps_Filesystems s; ps_JournalSummary := ps_JournalSummary s;
     ps_Directories := ps_Directories s |}.
Definition open_directory (name : string) (s : inspecting) : inspecting :=
  let d := {| du_Path := name; du_Entries := [] |} in
  {| ps_mode := "directory:" +:+ name; ps_dirs := <[name := d]> (ps_dirs s); ps_Filesystems := ps_Filesystems s;
     ps_JournalSummary := ps_JournalSummary s; ps_Directories := ps_Directories s ++ [d] |}.
Definition add_filesystem (v : FilesystemUsage) (s : inspecting) : inspecting :=
  {| ps_mode := ps_mode s; ps_dirs := ps_dirs s; ps_Filesystems := ps_Filesystems s ++ [v];
     ps_JournalSummary := ps_JournalSummary s; ps_Directories := ps_Directories s |}.
Definition set_journal (summary : string) (s : inspecting) : inspecting :=
  {| ps_mode := ps_mode s; ps_dirs := ps_dirs s; ps_Filesystems := ps_Filesystems s; ps_JournalSummary := summary;
     ps_Directories := ps_Directories s |}.
Definition add_entry (d : DirectoryUsage) (e : UsageEntry) (s : inspecting) : inspecting :=
  let d := {| du_Path := du_Path d; du_Entries := du_Entries d ++ [e] |} in
  {| ps_mode := ps_mode s; ps_dirs := <[du_Path d := d]> (ps_dirs s); ps_Filesystems := ps_Filesystems s;
     ps_JournalSummary := ps_JournalSummary s; ps_Directories := sync_directory d (ps_Directories s) |}.

Definition inspect_line (s : inspecting) (raw : string) : inspecting :=
  let line := trim_space raw in
  if decide (line = "__CYLISM_FILESYSTEMS__") then set_mode "filesystems" s
  else if decide (line = "__CYLISM_JOURNAL__") then set_mode "journal" s
  else if has_prefix "__CYLISM_DIR__:" line then
    let name := trim_prefix line "__CYLISM_DIR__:" in
    if negb (InspectionPathAllowed name) then set_mode "" s else open_directory name s
  else if decide (line = "") then s
  else if decide (ps_mode s = "filesystems") then
    match parseFilesystemUsage line with Some v => add_filesystem v s | None => s end
  else if decide (ps_mode s = "journal") then
    if decide (ps_JournalSummary s = "") then set_journal (cleanOutput line 256) s else s
  else if has_prefix "directory:" (ps_mode s) then
    let name := trim_prefix (ps_mode s) "directory:" in
    match ps_dirs s !! name with
    | None => s
    | Some d =>
        if bool_decide (20 ≤ length (du_Entries d)) then s else
        match parseUsageEntry line name with
        | Some e => if decide (ue_Path e ≠ name) then add_entry d e s else s
        | None => s
        end
    end
  else s.
Definition ParseInspection (output : string) : result Inspection :=
  let s := foldl inspect_line
    {| ps_mode := ""; ps_dirs := ∅; ps_Filesystems := []; ps_JournalSummary := ""; ps_Directories := [] |}
    (split_char "010" output) in
  if empty_list (ps_Filesystems s) then Err (EText "filesystem section missing")
  else Ok {| in_Filesystems := ps_Filesystems s; in_JournalSummary := ps_JournalSummary s; in_Directories := ps_Directories s |}.

(** ** Properties *)

Lemma runes_short l :
  Forall (λ r, length (rune_text r) ≤ 4) (runes l) ∧ length l ≤ 4 * length (runes l).
Proof.
  remember (length l) as n eqn:Hn. revert l Hn. induction (lt_wf n) as [n _ IH]. intros l ->.
  assert (∀ r l', length l' < length l → runes l = r :: runes l' → length (rune_text r) ≤ 4 → length l ≤ 4 + length l' →
    Forall (λ r, length (rune_text r) ≤ 4) (runes l) ∧ length l ≤ 4 * length (runes l)) as Hstep.
  { intros r l' Hlt -> Hr Hl. destruct (IH _ Hlt l' eq_refl) as [H1 H2]. split; [by constructor | simpl; lia]. }
  assert (length (rune_text None) ≤ 4) as Hnone by (vm_compute; lia).
  destruct l as [|a l1]; [by split; [constructor|]|]. cbn [runes] in Hstep |- *.
  destruct (code a <? 128)%N; [apply (Hstep (Some [a]) l1); simpl; done || lia|].
  destruct l1 as [|b l2]; [apply (Hstep None []); simpl; done || lia|].
  destruct (rune2 a b); [apply (Hstep (Some [a; b]) l2); simpl; done || lia|].
  destruct l2 as [|c l3]; [apply (Hstep None [b]); simpl; done || lia|].
  destruct (rune3 a b c); [apply (Hstep (Some [a; b; c]) l3); simpl; done || lia|].
  destruct l3 as [|d l4]; [apply (Hstep None [b; c]); simpl; done || lia|].
  destruct (rune4 a b c d); [apply (Hstep (Some [a; b; c; d]) l4); simpl; done || lia|].
  apply (Hstep None (b :: c :: d :: l4)); simpl; done || lia.
Qed.

Lemma length_of_chars l : String.length (of_chars l) = length l.
Proof. by rewrite <-length_chars, list_ascii_of_string_of_list_ascii. Qed.

Lemma truncate_bounded value limit : (Z.of_nat (String.length (truncate value limit)) ≤ 4 * Z.max 0 limit)%Z.
Proof.
  unfold truncate. case_bool_decide as H0; [simpl; lia|]. destruct (runes_short (chars value)) as [Hr Hl].
  case_bool_decide as Hlen; [rewrite length_chars in Hl; cbv zeta in Hlen; lia|].
  rewrite length_of_chars. assert (∀ rs, Forall (λ r, length (rune_text r) ≤ 4) rs → length (concat (rune_text <$> rs)) ≤ 4 * length rs) as Hcat.
  { clear. induction 1; [simpl; lia|]. rewrite fmap_cons. cbn [concat length]. rewrite length_app. lia. }
  specialize (Hcat (take (Z.to_nat limit) (runes (chars value))) (Forall_take _ _ _ Hr)). rewrite length_take in Hcat. lia.
Qed.

Lemma summary_bounded line : String.length (cleanOutput line 256) ≤ 1024.
Proof. pose proof (truncate_bounded (trim_space (redact line)) 256). unfold cleanOutput. lia. Qed.

Definition filesystem_ok (f : FilesystemUsage) : Prop :=
  has_prefix "/" (fu_MountPoint f) = true ∧
  Forall (λ z, 0 ≤ z < 2 ^ 63)%Z [fu_SizeBytes f; fu_UsedBytes f; fu_AvailableBytes f] ∧ (0 ≤ fu_UsedPercent f ≤ 100)%Z.
Definition entry_ok (directory : string) (e : UsageEntry) : Prop :=
  (∃ rest, ue_Path e = directory +:+ ("/" +:+ rest)) ∧ (0 ≤ ue_Bytes e < 2 ^ 63)%Z.
Definition directory_ok (d : DirectoryUsage) : Prop :=
  du_Path d ∈ inspectionPaths ∧ length (du_Entries d) ≤ 20 ∧ Forall (entry_ok (du_Path d)) (du_Entries d).
Record inspecting_ok (s : inspecting) : Prop := {
  iok_filesystems : Forall filesystem_ok (ps_Filesystems s);
  iok_summary : String.length (ps_JournalSummary s) ≤ 1024;
  iok_directories : Forall directory_ok (ps_Directories s);
  iok_dirs : map_Forall (λ name d, du_Path d = name ∧ directory_ok d) (ps_dirs s)
}.

Lemma parse_int_range s n : parse_int s = Some n → is_i64 n.
Proof.
  unfold parse_int. destruct s as [|c s]; [done|].
  repeat case_decide; simpl; try done; rewrite ?bind_Some; intros (m & _ & Hm); case_decide; congruence.
Qed.

Lemma parseFilesystemUsage_ok line v : parseFilesystemUsage line = Some v → filesystem_ok v.
Proof.
  unfold parseFilesystemUsage. destruct (fields line) as [|? [|? [|? [|? [|? []]]]]]; try done.
  intros (size & Hs%parse_int_range & (used & Hu%parse_int_range & (available & Ha%parse_int_range &
    (percent & Hp%parse_int_range & Hv)%bind_Some)%bind_Some)%bind_Some)%bind_Some.
  destruct (_ || _) eqn:Hb; [done|]. injection Hv as <-. rewrite !orb_false_iff, !bool_decide_eq_false, negb_false_iff in Hb.
  unfold is_i64 in *. destruct_and! Hb. split_and!; simpl; [done| |lia..]. repeat constructor; lia.
Qed.

Lemma parseUsageEntry_ok line base e : parseUsageEntry line base = Some e → ue_Path e ≠ base → entry_ok base e.
Proof.
  unfold parseUsageEntry. destruct (fields line) as [|first [|second ws]]; [done..|].
  intros (bytes & Hb%parse_int_range & He)%bind_Some Hne. destruct (_ || _) eqn:Ho; [done|].
  injection He as <-. simpl in *. rewrite !orb_false_iff, !bool_decide_eq_false, andb_false_iff, bool_decide_eq_false, negb_false_iff in Ho.
  destruct Ho as [[Hpos _] [?|[r Hr]%has_prefix_spec]]; [done|]. unfold is_i64 in Hb. split; [|simpl; lia].
  exists r. simpl. by rewrite Hr, app_str_assoc.
Qed.

Lemma sync_directory_ok d l : directory_ok d → Forall directory_ok l → Forall directory_ok (sync_directory d l).
Proof. intros Hd. induction 1 as [|x l Hx Hl IH]; simpl; [constructor|]. case_decide; by constructor. Qed.

Lemma inspect_line_ok s raw : inspecting_ok s → inspecting_ok (inspect_line s raw).
Proof.
  intros [Hf Hj Hd Hm]. unfold inspect_line. set (line := trim_space raw).
  do 2 (case_decide; [by constructor|]).
  destruct (has_prefix _ line) eqn:Hdir.
  { destruct (InspectionPathAllowed _) eqn:Ha; simpl; [|by constructor].
    unfold InspectionPathAllowed in Ha. apply existsb_exists in Ha as (p & Hp%list_elem_of_In & [->%bool_decide_eq_true _]%andb_true_iff).
    assert (directory_ok {| du_Path := p; du_Entries := [] |}) by (split_and!; simpl; [done|lia|constructor]).
    constructor; simpl; [assumption..| |]; [apply Forall_app; split; [assumption|apply Forall_singleton; assumption] | apply map_Forall_insert_2; [split; [reflexivity|assumption]|assumption]]. }
  case_decide; [by constructor|]. case_decide.
  { destruct (parseFilesystemUsage line) eqn:Hp; [|by constructor]. apply parseFilesystemUsage_ok in Hp.
    constructor; simpl; [apply Forall_app; split; [assumption|apply Forall_singleton; assumption]|assumption..]. }
  case_decide.
  { case_decide; [|by constructor]. constructor; try assumption. apply summary_bounded. }
  destruct (has_prefix "directory:" (ps_mode s)); [|by constructor]. destruct (ps_dirs s !! _) as [d|] eqn:Hl; [|by constructor].
  case_bool_decide; [by constructor|]. destruct (parseUsageEntry line _) as [e|] eqn:He; [|by constructor].
  case_decide as Hne; [|by constructor].
  destruct (Hm _ _ Hl) as [Hname (Hp & Hlen & Hes)]. rewrite <-Hname in He, Hne. apply parseUsageEntry_ok in He; [|assumption].
  assert (directory_ok {| du_Path := du_Path d; du_Entries := du_Entries d ++ [e] |}).
  { split_and!; simpl; [assumption|rewrite length_app; simpl; lia|]. apply Forall_app; split; [assumption|apply Forall_singleton; assumption]. }
  constructor; simpl; [assumption..| |]; [apply sync_directory_ok; assumption | apply map_Forall_insert_2; [split; [reflexivity|assumption]|assumption]].
Qed.

(** The report of an inspection is bounded whatever the node printed. It is an error without a
    filesystem; otherwise every filesystem is mounted on an absolute path, its sizes are non-negative 64-bit
    numbers and its percentage is between 0 and 100; every directory is one of the five that are inspected, with at
    most twenty entries, each strictly below the directory, of a size that is a non-negative 64-bit number;
    and the line kept of the journal is at most 1024 bytes long. *)
Theorem inspection_bounded output :
  match ParseInspection output with
  | Err e => e = EText "filesystem section missing"
  | Ok r => in_Filesystems r ≠ [] ∧ Forall filesystem_ok (in_Filesystems r) ∧ Forall directory_ok (in_Directories r) ∧
      String.length (in_JournalSummary r) ≤ 1024
  end.
Proof.
  unfold ParseInspection. set (s0 := {| ps_mode := "" |}).
  assert (inspecting_ok s0) as H0 by (constructor; simpl; [constructor|lia|constructor|apply map_Forall_empty]).
  assert (∀ lines s, inspecting_ok s → inspecting_ok (foldl inspect_line s lines)) as Hall.
  { induction lines as [|l lines IH]; intros s Hs; [done|]. by apply IH, inspect_line_ok. }
  destruct (Hall (split_char "010" output) s0 H0) as [Hf Hj Hd _].
  destruct (empty_list _) eqn:He; [done|]. simpl. split_and!; try done. by intros Hnil; rewrite Hnil in He.
Qed.
