(* ===== verification/RegistryNodes.v ===== *)
(** * Registries as the nodes see them

    [internal/service/registry/node_agent_service.go] and [NormalizeRegistryHost] of [proxy_service.go]: which
    configuration serves a registry, and the commands that run on a node. [net/url]'s parser is a
    parameter. A back quote in the text of a command stands for the double quote. *)
From Stdlib Require Import ZArith Ascii String Lia.
From stdpp Require Import base sorting pretty numbers gmap strings list.
From S2P Require Import Prelude GoStrings GoBase64 Json JsonText Models PlatformModels.

(** Scheme and host of [url.Parse]. *)
Class URLParser := { url_Parse : string → option (string * string) }.

Definition NormalizeRegistryHost (value : string) : string :=
  let value := to_lower (trim_space value) in
  if bool_decide (value = "index.docker.io") || bool_decide (value = "registry-1.docker.io") then "docker.io" else value.

Definition ImageRegistry_of (image : string) : string :=
  match split_char "/" (trim_space image) with
  | host :: _ :: _ =>
      if negb (contains host ".") && negb (contains host ":") && bool_decide (host ≠ "localhost") then "docker.io"
      else NormalizeRegistryHost host
  | _ => "docker.io"
  end.

Record RegistryConfig := {
  rc_Registry : string;
  rc_Endpoints : list string;
  rc_VerificationImage : string;
  rc_Mirror : option NodeRegistryMirror;
  rc_Proxy : option RegistryProxy
}.
Record EndpointResult := { er_Endpoint : string; er_DNS : string; er_HTTP : string }.

Section endpoints.
Context `{URLParser}.

Definition SafeEndpoint (raw : string) : string :=
  match url_Parse (trim_space raw) with
  | Some (scheme, host) =>
      if (bool_decide (scheme ≠ "http") && bool_decide (scheme ≠ "https")) || bool_decide (host = "") then ""
      else scheme +:+ ("://" +:+ host)
  | None => ""
  end.
Definition SafeEndpoints (raw : option json) : list string :=
  match raw ≫= decode (list_codec string_codec) [] with
  | Some values => List.filter (λ s, bool_decide (s ≠ "")) (SafeEndpoint <$> values)
  | None => []
  end.

Definition mirror_config (registry : string) (mirror : NodeRegistryMirror) : option RegistryConfig :=
  if nm_Enabled mirror && bool_decide (NormalizeRegistryHost (nm_Registry mirror) = registry) then
    match SafeEndpoints (nm_Endpoints mirror) with
    | [] => None
    | endpoints =>
        Some {| rc_Registry := registry; rc_Endpoints := endpoints; rc_VerificationImage := trim_space (nm_VerificationImage mirror);
                rc_Mirror := Some mirror; rc_Proxy := None |}
    end
  else None.
Definition proxy_config (registry : string) (proxy : RegistryProxy) : option RegistryConfig :=
  if bool_decide (NormalizeRegistryHost (px_Registry proxy) = registry) && bool_decide (px_EndpointHost proxy ≠ "")
     && bool_decide (0 < px_NodePort proxy)%Z
  then Some {| rc_Registry := registry;
               rc_Endpoints := [SafeEndpoint ("http://" +:+ (px_EndpointHost proxy +:+ (":" +:+ dec (px_NodePort proxy))))];
               rc_VerificationImage := ""; rc_Mirror := None; rc_Proxy := Some proxy |}
  else None.
(** The first mirror that is enabled and usable, else the first proxy. *)
Definition ResolveRegistry (registry : string) (mirrors : list NodeRegistryMirror) (proxies : list RegistryProxy) :
    option RegistryConfig :=
  let registry := NormalizeRegistryHost registry in
  match head (omap (mirror_config registry) mirrors) with
  | Some config => Some config
  | None => head (omap (proxy_config registry) proxies)
  end.

Definition VerificationOutputDetail (output : string) : string :=
  let output := trim_space output in
  if decide (output = "") then "no remote output" else take_str 512 output.
Definition endpoint_result (line : string) : option EndpointResult :=
  match split_char "|" line with
  | [endpoint; dns; http] =>
      if decide (SafeEndpoint endpoint = "") then None
      else Some {| er_Endpoint := SafeEndpoint endpoint; er_DNS := trim_space dns; er_HTTP := trim_space http |}
  | _ => None
  end.
(** [sort.Slice] is not stable: results of one endpoint may come in any order, and [by_endpoint]
    is a choice. *)
Definition by_endpoint (a b : EndpointResult) : Prop := String.le (er_Endpoint a) (er_Endpoint b).
#[export] Instance by_endpoint_dec a b : Decision (by_endpoint a b).
Proof. unfold by_endpoint. apply _. Defined.
Definition ParseEndpointResults (output : string) (expected : Z) : result (list EndpointResult) :=
  let results := merge_sort by_endpoint (omap endpoint_result (split_char "010" (trim_space output))) in
  if bool_decide (0 < expected)%Z && empty_list results
  then Err (EText ("node verification returned no endpoint results: " +:+ VerificationOutputDetail output))
  else Ok results.
End endpoints.

(** ** Commands *)

Definition with_quotes (s : string) : string := replace_all s "`" (String dquote "").
Definition pull_prefix : string := "image=$(printf %s ".
Definition pull_suffix : string :=
  with_quotes " | base64 -d); if [ -x /usr/local/bin/crictl ]; then sudo -n /usr/local/bin/crictl pull `$image`; elif [ -x /var/lib/rancher/k3s/bin/crictl ]; then sudo -n /var/lib/rancher/k3s/bin/crictl pull `$image`; elif [ -x /usr/local/bin/k3s ]; then sudo -n /usr/local/bin/k3s crictl pull `$image`; else echo '未找到 crictl 或 k3s 命令' >&2; exit 127; fi".
Definition PullCommand (image : string) : string := pull_prefix +:+ (base64 image +:+ pull_suffix).
(** [json.Marshal(endpoints)] cannot fail. *)
Definition verification_prefix : string := "CYLISM_ENDPOINTS_B64=".
Definition verification_suffix : string :=
  with_quotes " sh -c 'printf %s `$CYLISM_ENDPOINTS_B64` | base64 -d | tr -d `[]\` ` | tr `,` `\n` | while IFS= read -r endpoint || [ -n `$endpoint` ]; do host=$(printf %s `$endpoint` | sed -E `s#https?://([^/:]+).*#\1#`); dns=failed; getent ahosts `$host` >/dev/null 2>&1 && dns=ok; http=$(curl -ksS -o /dev/null -w `%{http_code}` --connect-timeout 5 --max-time 10 `$endpoint/v2/` 2>/dev/null || true); [ -n `$http` ] || http=failed; printf `%s|%s|%s\n` `$endpoint` `$dns` `$http`; done'".
Definition VerificationCommand (endpoints : list string) : string :=
  verification_prefix +:+ (base64 (marshal (list_codec string_codec) endpoints) +:+ verification_suffix).

(** ** Properties *)

(** A character that the shell takes as it is. *)
Definition inert (c : ascii) : bool :=
  is_lower c || is_upper c || ((48 <=? code c)%N && (code c <=? 57)%N) || bool_decide (c ∈ ["+"; "/"; "="]%char).

Lemma inert_table : Forall (λ n, inert (base64_digit n) = true) digits.
Proof. eapply bool_decide_unpack. vm_compute. exact I. Qed.
Lemma inert_digit n : (n < 64)%N → inert (base64_digit n) = true.
Proof. intros Hn%digit_in_range. pose proof inert_table as H. rewrite Forall_forall in H. by apply H. Qed.

#[local] Ltac Zify.zify_post_hook ::= Z.to_euclidean_division_equations.
Lemma base64_inert s : forallb inert (chars (base64 s)) = true.
Proof.
  unfold base64. rewrite list_ascii_of_string_of_list_ascii.
  induction (chars s) as [l IH] using (induction_ltof1 _ length). unfold ltof in IH.
  destruct l as [|a [|b [|c l]]]; [done| | |]; cbn [base64_chars forallb];
    pose proof (code_range a); try pose proof (code_range b); try pose proof (code_range c);
    rewrite !inert_digit by lia; cbn [andb]; [done..|]. by rewrite IH by (simpl; lia).
Qed.

(** What a registry is called never reaches the shell of a node as code. The command that pulls
    an image is a fixed prefix, one word and a fixed suffix, whatever the image is; the word has only letters,
    digits, [+], [/] and [=], and its base64 decoding is the image. The command that verifies endpoints is
    built the same way from their JSON text, whose parsing gives the endpoints back when they are text. *)
Theorem commands_carry_data image endpoints :
  (∃ word, PullCommand image = pull_prefix +:+ (word +:+ pull_suffix) ∧ forallb inert (chars word) = true ∧
     base64_decode word = Some image) ∧
  ∃ word, VerificationCommand endpoints = verification_prefix +:+ (word +:+ verification_suffix) ∧
     forallb inert (chars word) = true ∧
     (forallb utf8 endpoints = true →
        (base64_decode word ≫= unmarshal (list_codec string_codec)) = Some endpoints).
Proof.
  split.
  - exists (base64 image). split_and!; [reflexivity|apply base64_inert|apply base64_round_trip].
  - exists (base64 (marshal (list_codec string_codec) endpoints)). split_and!; [reflexivity|apply base64_inert|].
    intros Hu. rewrite base64_round_trip. cbn [mbind option_bind]. apply unmarshal_marshal; [apply valid_strings|].
    simpl. rewrite forallb_forall in *. intros j (s & <- & Hs)%in_map_iff. by apply Hu.
Qed.
