(* ===== verification/ReleaseRendering.v ===== *)
(** * Rendering of Kubernetes resources

    [internal/service/application/release_spec_rendering.go]: from a validated specification and
    the context of its application to the objects that are applied. The Kubernetes API types keep
    the fields the code sets. The theorems: rendering is total on what validation accepts, every
    volume mount of the container has its volume and the file mounts are grouped without loss, the
    selectors of the workload and of the service match the pods, ports are distinct, and no secret
    value or credential reaches the stored specification. *)
From Stdlib Require Import ZArith Ascii String.
From stdpp Require Import base sorting pretty numbers gmap strings list.
From S2P Require Import Prelude GoStrings GoBase64 GoPath Json ReleaseSpec Models ReleaseValidation.

(** ** The API types *)

Record ObjectMeta := {
  om_Name : string;
  om_Namespace : string;
  om_Labels : gmap string string;
  om_Annotations : gmap string string
}.

Record ConfigMap := { cm_Meta : ObjectMeta; cm_Data : gmap string string }.
(** [sec_Data] holds documents: only the Docker configuration is written through it *)
Record Secret := {
  sec_Meta : ObjectMeta;
  sec_Type : string;
  sec_StringData : gmap string string;
  sec_Data : gmap string json
}.

Record KeyToPath := { kp_Key : string; kp_Path : string }.
Inductive VolumeSource :=
  | PersistentVolumeClaimSource (claimName : string) (readOnly : bool)
  | SecretSource (secretName : string) (items : list KeyToPath)
  | ConfigMapSource (name : string) (items : list KeyToPath).
Record Volume := { vol_Name : string; vol_Source : VolumeSource }.
Record VolumeMount := { mnt_Name : string; mnt_MountPath : string; mnt_ReadOnly : bool }.
Record ContainerPort := { cp_ContainerPort : Z; cp_Protocol : string }.
Inductive ProbeHandler := HTTPGet (path : string) (port : Z) | TCPSocket (port : Z).
Record Probe := { pb_Handler : ProbeHandler; pb_InitialDelaySeconds : Z; pb_PeriodSeconds : Z }.
Inductive EnvFromSource := ConfigMapRef (name : string) | SecretRef (name : string).

Section resources.
Context `{K8sLibrary}.

Record ResourceList := { rl_CPU : Quantity; rl_Memory : Quantity }.
Record Container := {
  ct_Name : string;
  ct_Image : string;
  ct_Command : list string;
  ct_Args : list string;
  ct_Ports : list ContainerPort;
  ct_Requests : ResourceList;
  ct_Limits : ResourceList;
  ct_ReadinessProbe : option Probe;
  ct_LivenessProbe : option Probe;
  ct_EnvFrom : list EnvFromSource;
  ct_VolumeMounts : list VolumeMount
}.
Record PodSpec := {
  ps_Containers : list Container;
  ps_Volumes : list Volume;
  ps_HostNetwork : bool;
  ps_DNSPolicy : string;
  ps_NodeSelector : gmap string string;
  ps_ImagePullSecrets : list string
}.
Record PodTemplateSpec := { pt_Labels : gmap string string; pt_Spec : PodSpec }.
Record Deployment := {
  dep_Meta : ObjectMeta;
  dep_Replicas : Z;
  dep_MatchLabels : gmap string string;
  dep_Template : PodTemplateSpec;
  dep_Strategy : string
}.
Record StatefulSet := {
  sts_Meta : ObjectMeta;
  sts_ServiceName : string;
  sts_Replicas : Z;
  sts_MatchLabels : gmap string string;
  sts_Template : PodTemplateSpec
}.
End resources.

Record ServicePort := {
  sp_Name : string;
  sp_Protocol : string;
  sp_Port : Z;
  sp_TargetPort : Z;
  sp_NodePort : Z
}.
Record Service := {
  srv_Meta : ObjectMeta;
  srv_Type : string;
  srv_Selector : gmap string string;
  srv_Ports : list ServicePort;
  srv_ExternalTrafficPolicy : string
}.
(** A rule of one host with its only path. *)
Record IngressRule := {
  ir_Host : string;
  ir_Path : string;
  ir_PathType : string;
  ir_ServiceName : string;
  ir_ServicePort : Z
}.
Record IngressTLS := { it_Hosts : list string; it_SecretName : string }.
Record Ingress := { ing_Meta : ObjectMeta; ing_Rules : list IngressRule; ing_TLS : list IngressTLS }.
(** The unstructured cert-manager object. *)
Record Certificate := {
  cert_Meta : ObjectMeta;
  cert_SecretName : string;
  cert_DNSNames : list string;
  cert_IssuerName : string;
  cert_IssuerKind : string
}.

Record RenderedResources `{K8sLibrary} := {
  rd_ConfigMap : option ConfigMap;
  rd_Secret : option Secret;
  rd_ImagePullSecret : option Secret;
  rd_Deployment : option Deployment;
  rd_StatefulSet : option StatefulSet;
  rd_Service : Service;
  rd_Certificate : option Certificate;
  rd_Ingress : option Ingress;
  rd_SanitizedSpec : ReleaseSpec
}.

(** ** Labels and metadata *)

Definition managedLabels (context : ApplicationContext) : gmap string string :=
  <[ManagedByLabel := ManagedByValue]>
  (<[ProjectLabel := "project-" +:+ dec (ac_ProjectID context)]>
  (<[ApplicationNameLabel := ac_ApplicationName context]>
   {[EnvironmentLabel := "environment-" +:+ dec (ac_EnvironmentID context)]})).

Definition workloadSelector (applicationName : string) : gmap string string :=
  {[ApplicationNameLabel := applicationName]}.

Definition object_meta (name : string) (context : ApplicationContext) : ObjectMeta :=
  {| om_Name := name; om_Namespace := ac_Namespace context;
     om_Labels := managedLabels context; om_Annotations := ∅ |}.

(** ** Ports and probes *)

Definition container_port_key (servicePort : ServicePortSpec) : string :=
  dec (port_TargetPort servicePort) +:+ "/" +:+ normalizeServiceProtocol (port_Protocol servicePort).
Definition renderContainerPorts (servicePorts : list ServicePortSpec) : list ContainerPort :=
  (λ p, {| cp_ContainerPort := port_TargetPort p; cp_Protocol := normalizeServiceProtocol (port_Protocol p) |})
    <$> dedup_by container_port_key servicePorts.

Definition renderServicePorts (servicePorts : list ServicePortSpec) : list ServicePort :=
  (λ p, {| sp_Name := port_Name p; sp_Protocol := normalizeServiceProtocol (port_Protocol p);
           sp_Port := port_Port p; sp_TargetPort := port_TargetPort p; sp_NodePort := port_NodePort p |})
    <$> servicePorts.

Definition httpProbe (path : string) (port : Z) : Probe :=
  {| pb_Handler := HTTPGet path port; pb_InitialDelaySeconds := 5; pb_PeriodSeconds := 10 |}.
Definition healthProbe (probeType path : string) (port : Z) : Probe :=
  if decide (probeType = "tcp") then
    {| pb_Handler := TCPSocket port; pb_InitialDelaySeconds := 5; pb_PeriodSeconds := 10 |}
  else httpProbe path port.

Definition container_probe (enabled : bool) (probeType path : string) (port : Z) : option Probe :=
  let '(enabled, probeType) := healthProbeEnabled enabled probeType path in
  if enabled then Some (healthProbe probeType path port) else None.

(** ** File mounts *)

Record fileMountGroup := {
  fg_sourceType : string;
  fg_sourceName : string;
  fg_mountDir : string;
  fg_items : list KeyToPath
}.

Definition file_group_key (f : FileMountSpec) : string :=
  fm_SourceType f +:+ String "000" (fm_SourceName f +:+ String "000" (dir (fm_MountPath f))).
Definition file_item (f : FileMountSpec) : KeyToPath :=
  {| kp_Key := fm_Key f; kp_Path := base (fm_MountPath f) |}.
Definition new_group (f : FileMountSpec) : fileMountGroup :=
  {| fg_sourceType := fm_SourceType f; fg_sourceName := fm_SourceName f;
     fg_mountDir := dir (fm_MountPath f); fg_items := [file_item f] |}.
Definition add_to_group (f : FileMountSpec) (g : fileMountGroup) : fileMountGroup :=
  {| fg_sourceType := fg_sourceType g; fg_sourceName := fg_sourceName g;
     fg_mountDir := fg_mountDir g; fg_items := fg_items g ++ [file_item f] |}.

Definition file_volume_name (index : nat) : string := "file-" +:+ dec_nat index.
Definition group_volume (index : nat) (g : fileMountGroup) : Volume :=
  {| vol_Name := file_volume_name index;
     vol_Source :=
       if decide (fg_sourceType g = FileMountSourceSecret ∨ fg_sourceType g = FileMountSourceApplicationSecret)
       then SecretSource (fg_sourceName g) (fg_items g)
       else ConfigMapSource (fg_sourceName g) (fg_items g) |}.
Definition group_mount (index : nat) (g : fileMountGroup) : VolumeMount :=
  {| mnt_Name := file_volume_name index; mnt_MountPath := fg_mountDir g; mnt_ReadOnly := true |}.

Definition file_mount_groups (fileMounts : list FileMountSpec) : list fileMountGroup :=
  (group_fold file_group_key new_group add_to_group fileMounts).1.
Definition renderFileMounts (fileMounts : list FileMountSpec) : list Volume * list VolumeMount :=
  let groups := file_mount_groups fileMounts in
  (imap group_volume groups, imap group_mount groups).

Definition resolve_source (applicationConfigName : string) (f : FileMountSpec) : FileMountSpec :=
  if decide (fm_SourceType f = FileMountSourceApplicationConfig) then
    {| fm_SourceType := FileMountSourceConfigMap; fm_SourceName := applicationConfigName;
       fm_Key := fm_Key f; fm_MountPath := fm_MountPath f; fm_Managed := fm_Managed f |}
  else if decide (fm_SourceType f = FileMountSourceApplicationSecret) then
    {| fm_SourceType := FileMountSourceSecret;
       fm_SourceName := trim_suffix applicationConfigName "-config" +:+ "-secret";
       fm_Key := fm_Key f; fm_MountPath := fm_MountPath f; fm_Managed := fm_Managed f |}
  else f.
Definition resolveFileMountSources (fileMounts : list FileMountSpec) (applicationConfigName : string) :
    list FileMountSpec := resolve_source applicationConfigName <$> fileMounts.

Definition pvc_volume_name (index : nat) : string := "pvc-" +:+ dec_nat index.
Definition pvc_volume (index : nat) (v : VolumeMountSpec) : Volume :=
  {| vol_Name := pvc_volume_name index;
     vol_Source := PersistentVolumeClaimSource (vm_ClaimName v) (vm_ReadOnly v) |}.
Definition pvc_mount (index : nat) (v : VolumeMountSpec) : VolumeMount :=
  {| mnt_Name := pvc_volume_name index; mnt_MountPath := vm_MountPath v; mnt_ReadOnly := vm_ReadOnly v |}.

(** ** Ingress *)

Definition ingress_rule (context : ApplicationContext) (servicePort : Z) (e : ApplicationEndpoint) : IngressRule :=
  {| ir_Host := ae_Domain e;
     ir_Path := if decide (ae_Path e = "") then "/" else ae_Path e;
     ir_PathType := "Prefix";
     ir_ServiceName := ac_ApplicationName context;
     ir_ServicePort := if decide (ae_ServicePort e ≤ 0)%Z then servicePort else ae_ServicePort e |}.

Definition tls_name (context : ApplicationContext) (e : ApplicationEndpoint) : string :=
  if decide (ae_TLSSecretName e = "") then ac_ApplicationName context +:+ "-tls" else ae_TLSSecretName e.
Definition new_tls (context : ApplicationContext) (e : ApplicationEndpoint) : IngressTLS :=
  {| it_Hosts := [ae_Domain e]; it_SecretName := tls_name context e |}.
Definition add_host (e : ApplicationEndpoint) (t : IngressTLS) : IngressTLS :=
  {| it_Hosts := it_Hosts t ++ [ae_Domain e]; it_SecretName := it_SecretName t |}.

(** The loop over the endpoints: the rules so far, the TLS entries and their index by secret. *)
Definition ingress_step (context : ApplicationContext) (servicePort : Z)
    (st : list IngressRule * (list IngressTLS * gmap string nat)) (e : ApplicationEndpoint) :
    list IngressRule * (list IngressTLS * gmap string nat) :=
  let '(rules, tls) := st in
  if blank (ae_Domain e) then st
  else
    let rules := rules ++ [ingress_rule context servicePort e] in
    if ae_TLSEnabled e then (rules, group_step (tls_name context) (new_tls context) add_host tls e)
    else (rules, tls).

Definition applicationEndpointsIngress (context : ApplicationContext) (endpoints : list ApplicationEndpoint)
    (servicePort : Z) : Ingress :=
  let '(rules, (tls, _)) := foldl (ingress_step context servicePort) ([], ([], ∅)) endpoints in
  {| ing_Meta := object_meta (ac_ApplicationName context) context; ing_Rules := rules; ing_TLS := tls |}.

(** An endpoint with the given fields and the zero values elsewhere. *)
Definition endpoint_row (exposure domain path : string) (tls : bool) (tlsSecret : string) : ApplicationEndpoint :=
  {| ae_ID := 0; ae_ApplicationID := 0; ae_DomainID := 0; ae_Exposure := exposure; ae_Domain := domain;
     ae_Path := path; ae_ServicePort := 0; ae_Protocol := ""; ae_TLSEnabled := tls; ae_IngressEnabled := false;
     ae_IngressMode := ""; ae_TLSSecretName := tlsSecret; ae_IssuerRef := ""; ae_AccessMode := "" |}.

Definition endpointIngress (context : ApplicationContext) (endpoint : EndpointSpec) (servicePort : Z) : Ingress :=
  applicationEndpointsIngress context
    [endpoint_row "" (ep_Domain endpoint) (ep_Path endpoint) (ep_TLSEnabled endpoint)
       (ep_ManagedTLSSecretName endpoint)] servicePort.

(** ** Pull secrets *)

Definition docker_config (spec : ReleaseSpec) : json :=
  JObj [("auths", JObj [(rs_RegistryEndpoint spec, JObj [
    ("auth", JStr (base64 (rs_RegistryUsername spec +:+ ":" +:+ rs_RegistryCredential spec)));
    ("password", JStr (rs_RegistryCredential spec));
    ("username", JStr (rs_RegistryUsername spec))])])].

Definition imagePullSecret (context : ApplicationContext) (labels : gmap string string) (spec : ReleaseSpec) :
    result Secret :=
  if blank (rs_RegistryEndpoint spec) || blank (rs_RegistryUsername spec) || blank (rs_RegistryCredential spec)
  then Err (EText "镜像仓库凭据不完整")
  else Ok {| sec_Meta := {| om_Name := "cylism-regcred-" +:+ dec (rs_RegistryID spec);
                            om_Namespace := ac_Namespace context; om_Labels := labels; om_Annotations := ∅ |};
             sec_Type := "kubernetes.io/dockerconfigjson";
             sec_StringData := ∅;
             sec_Data := {[".dockerconfigjson" := docker_config spec]} |}.

Definition certificateResource (context : ApplicationContext) (domain secretName issuerRef issuerKind : string)
    (labels : gmap string string) : Certificate :=
  {| cert_Meta := {| om_Name := ac_ApplicationName context +:+ "-tls"; om_Namespace := ac_Namespace context;
                     om_Labels := labels; om_Annotations := ∅ |};
     cert_SecretName := secretName;
     cert_DNSNames := [domain];
     cert_IssuerName := issuerRef;
     cert_IssuerKind := if decide (issuerKind = "") then "ClusterIssuer" else issuerKind |}.

(** ** [RenderResources] *)

Section rendering.
Context `{K8sLibrary}.

(** [resource.MustParse]: a panic is the error tagged "panic". *)
Definition MustParse (value : string) : result Quantity :=
  match ParseQuantity value with
  | Some quantity => Ok quantity
  | None => Err (ESent "panic" ("cannot parse '" +:+ value +:+ "'"))
  end.

Definition render_container (context : ApplicationContext) (spec : ReleaseSpec)
    (configMap : bool) (secrets : gmap string string) : result Container :=
  let r := rs_Resources spec in
  let h := rs_Health spec in
  let name := ac_ApplicationName context in
  requestsCPU ← MustParse (res_RequestsCPU r);
  requestsMemory ← MustParse (res_RequestsMemory r);
  limitsCPU ← MustParse (res_LimitsCPU r);
  limitsMemory ← MustParse (res_LimitsMemory r);
  Ok {| ct_Name := name;
        ct_Image := rs_Image spec;
        ct_Command := rs_Command spec;
        ct_Args := rs_Args spec;
        ct_Ports := renderContainerPorts (PortSpecs (rs_Service spec));
        ct_Requests := {| rl_CPU := requestsCPU; rl_Memory := requestsMemory |};
        ct_Limits := {| rl_CPU := limitsCPU; rl_Memory := limitsMemory |};
        ct_ReadinessProbe := container_probe (hs_ReadinessEnabled h) (hs_ReadinessType h)
          (hs_ReadinessPath h) (rs_ContainerPort spec);
        ct_LivenessProbe := container_probe (hs_LivenessEnabled h) (hs_LivenessType h)
          (hs_LivenessPath h) (rs_ContainerPort spec);
        ct_EnvFrom :=
          (if configMap then [ConfigMapRef (name +:+ "-config")] else [])
          ++ (if decide (secrets = ∅) then [] else [SecretRef (name +:+ "-secret")]);
        ct_VolumeMounts :=
          imap pvc_mount (rs_Volumes spec)
          ++ (renderFileMounts (resolveFileMountSources (rs_FileMounts spec) (name +:+ "-config"))).2 |}.

Definition pod_labels (context : ApplicationContext) : gmap string string :=
  <[ReleaseLabel := dec (ac_ReleaseSequence context)]>
    (mergeLabels [managedLabels context; workloadSelector (ac_ApplicationName context)]).

Definition render_pod (context : ApplicationContext) (spec : ReleaseSpec) (container : Container)
    (pullSecret : option Secret) : PodTemplateSpec :=
  {| pt_Labels := pod_labels context;
     pt_Spec := {|
       ps_Containers := [container];
       ps_Volumes := imap pvc_volume (rs_Volumes spec)
         ++ (renderFileMounts (resolveFileMountSources (rs_FileMounts spec)
              (ac_ApplicationName context +:+ "-config"))).1;
       ps_HostNetwork := rs_HostNetwork spec;
       ps_DNSPolicy := if rs_HostNetwork spec then "ClusterFirstWithHostNet" else "";
       ps_NodeSelector :=
         if decide (rs_NodeName spec = "") then ∅ else {["kubernetes.io/hostname" := rs_NodeName spec]};
       ps_ImagePullSecrets :=
         match pullSecret with Some s => [om_Name (sec_Meta s)] | None => [] end |} |}.

Definition render_service (context : ApplicationContext) (spec : ReleaseSpec) : Service :=
  {| srv_Meta := object_meta (ac_ApplicationName context) context;
     srv_Type := normalizeServiceType (svc_Type (rs_Service spec));
     srv_Selector := workloadSelector (ac_ApplicationName context);
     srv_Ports := renderServicePorts (PortSpecs (rs_Service spec));
     srv_ExternalTrafficPolicy := svc_ExternalTrafficPolicy (rs_Service spec) |}.

(** The port of the zero [ServicePortSpec] when there is no TCP port. *)
Definition primary_port (service : ServiceSpec) : Z :=
  match PrimaryTCPPort service with Some p => port_Port p | None => 0%Z end.

Definition context_complete (context : ApplicationContext) : bool :=
  negb (empty_str (ac_ApplicationName context) || empty_str (ac_Namespace context)
        || empty_str (ac_ProjectName context) || empty_str (ac_EnvironmentName context)).

Definition first_message (issues : list ValidationIssue) : string :=
  match issues with i :: _ => issue_Message i | [] => "" end.

(** A private registry: the deployment needs a pull secret. *)
Definition private_registry (spec : ReleaseSpec) : bool :=
  negb (empty_int (rs_RegistryID spec)) && negb (empty_str (rs_RegistryAuthType spec))
  && bool_decide (rs_RegistryAuthType spec ≠ "anonymous").
Definition pull_secret (context : ApplicationContext) (spec : ReleaseSpec) : result (option Secret) :=
  if private_registry spec then
    s ← imagePullSecret context (managedLabels context) spec; Ok (Some s)
  else Ok None.

Definition workload_kind (context : ApplicationContext) : string :=
  if decide (ac_WorkloadKind context = "") then WorkloadKindDeployment else ac_WorkloadKind context.

Definition enabled_config (spec : ReleaseSpec) : gmap string string :=
  enabledStringMap (rs_Config spec) (rs_ConfigDisabled spec).
Definition enabled_secrets (spec : ReleaseSpec) : gmap string string :=
  enabledStringMap (rs_Secrets spec) (rs_SecretsDisabled spec).

(** The objects of one release, from the container and the pull secret. *)
Definition assemble (context : ApplicationContext) (spec : ReleaseSpec)
    (pullSecret : option Secret) (container : Container) : RenderedResources :=
  let labels := managedLabels context in
  let name := ac_ApplicationName context in
  let config := enabled_config spec in
  let secrets := enabled_secrets spec in
  let template := render_pod context spec container pullSecret in
  let meta := {| om_Name := name; om_Namespace := ac_Namespace context; om_Labels := labels;
                 om_Annotations := {[ReleaseLabel := dec (ac_ReleaseSequence context)]} |} in
  let stateful := bool_decide (workload_kind context = WorkloadKindStatefulSet) in
  {| rd_ConfigMap := if decide (config = ∅) then None
       else Some {| cm_Meta := object_meta (name +:+ "-config") context; cm_Data := config |};
     rd_Secret := if hasSecretValues secrets
       then Some {| sec_Meta := object_meta (name +:+ "-secret") context; sec_Type := "Opaque";
                    sec_StringData := secrets; sec_Data := ∅ |}
       else None;
     rd_ImagePullSecret := pullSecret;
     rd_Deployment := if stateful then None else Some
       {| dep_Meta := meta; dep_Replicas := rs_Replicas spec; dep_MatchLabels := workloadSelector name;
          dep_Template := template;
          dep_Strategy := if rs_HostNetwork spec || negb (empty_list (rs_Volumes spec)) then "Recreate" else "" |};
     rd_StatefulSet := if stateful then Some
       {| sts_Meta := meta; sts_ServiceName := name; sts_Replicas := rs_Replicas spec;
          sts_MatchLabels := workloadSelector name; sts_Template := template |} else None;
     rd_Service := render_service context spec;
     rd_Certificate := None;
     rd_Ingress := if decide (ep_Exposure (rs_Endpoint spec) = ExposurePublic)
       then Some (endpointIngress context (rs_Endpoint spec) (primary_port (rs_Service spec))) else None;
     rd_SanitizedSpec := SanitizeReleaseSpec spec |}.

Definition RenderResources (context : ApplicationContext) (spec : ReleaseSpec) : result RenderedResources :=
  let issues := ValidateReleaseSpec spec in
  if negb (empty_list issues) then Err (EText ("发布定义无效: " +:+ first_message issues)) else
  if negb (context_complete context) then Err (EText "应用上下文不完整") else
  _ ← ValidateApplicationName (ac_ApplicationName context);
  if decide (workload_kind context ≠ WorkloadKindDeployment ∧ workload_kind context ≠ WorkloadKindStatefulSet)
  then Err (EText "工作负载类型必须为 deployment 或 statefulset") else
  pullSecret ← pull_secret context spec;
  container ← render_container context spec (bool_decide (enabled_config spec ≠ ∅)) (enabled_secrets spec);
  Ok (assemble context spec pullSecret container).
End rendering.

(** ** Lemmas *)

Section rendered.
Context `{K8sLibrary}.

Definition workload_kind_ok (kind : string) : Prop :=
  kind = "" ∨ kind = WorkloadKindDeployment ∨ kind = WorkloadKindStatefulSet.
Definition credentials_complete (spec : ReleaseSpec) : Prop :=
  blank (rs_RegistryEndpoint spec) = false ∧ blank (rs_RegistryUsername spec) = false ∧
  blank (rs_RegistryCredential spec) = false.

Definition rendered_template (r : RenderedResources) : option PodTemplateSpec :=
  match rd_Deployment r, rd_StatefulSet r with
  | Some d, None => Some (dep_Template d)
  | None, Some s => Some (sts_Template s)
  | _, _ => None
  end.
Definition rendered_selector (r : RenderedResources) : option (gmap string string) :=
  match rd_Deployment r, rd_StatefulSet r with
  | Some d, None => Some (dep_MatchLabels d)
  | None, Some s => Some (sts_MatchLabels s)
  | _, _ => None
  end.

Lemma well_formed_parses request limit :
  well_formed_request request limit → is_Some (ParseQuantity request) ∧ is_Some (ParseQuantity limit).
Proof.
  unfold well_formed_request, parseQuantity. intros (r & l & Hr & Hl & _).
  destruct (ParseQuantity request), (ParseQuantity limit); simplify_eq. eauto.
Qed.

Lemma MustParse_total q : is_Some (ParseQuantity q) → ∃ v, MustParse q = Ok v.
Proof. intros [v Hv]. exists v. unfold MustParse. by rewrite Hv. Qed.

Lemma render_container_total context spec b secrets :
  WellFormed spec → ∃ c, render_container context spec b secrets = Ok c.
Proof.
  intros Hwf. destruct (well_formed_parses _ _ (wf_cpu _ Hwf)) as [H1 H2].
  destruct (well_formed_parses _ _ (wf_memory _ Hwf)) as [H3 H4].
  apply MustParse_total in H1 as [? H1], H2 as [? H2], H3 as [? H3], H4 as [? H4].
  unfold render_container. rewrite H1, H3, H2, H4. by eexists.
Qed.

Lemma workload_kind_valid context :
  ¬ (workload_kind context ≠ WorkloadKindDeployment ∧ workload_kind context ≠ WorkloadKindStatefulSet) ↔
  workload_kind_ok (ac_WorkloadKind context).
Proof.
  unfold workload_kind, workload_kind_ok. case_decide as Hk; [naive_solver|].
  destruct (decide (ac_WorkloadKind context = WorkloadKindDeployment)),
    (decide (ac_WorkloadKind context = WorkloadKindStatefulSet)); tauto.
Qed.

Lemma imagePullSecret_total context labels spec :
  credentials_complete spec → is_ok (imagePullSecret context labels spec) = true.
Proof. unfold imagePullSecret. by intros (-> & -> & ->). Qed.

Lemma imagePullSecret_inv context labels spec s :
  imagePullSecret context labels spec = Ok s → credentials_complete spec.
Proof.
  unfold imagePullSecret, credentials_complete. destruct (_ || _ || _) eqn:Hb; [done|].
  intros _. by apply orb_false_iff in Hb as [[??]%orb_false_iff ?].
Qed.

(** What a successful rendering went through. *)
Lemma RenderResources_inv context spec r :
  RenderResources context spec = Ok r →
  WellFormed spec ∧ context_complete context = true ∧
  IsDNS1123Label (ac_ApplicationName context) = [] ∧
  workload_kind_ok (ac_WorkloadKind context) ∧
  ∃ pull c, pull_secret context spec = Ok pull ∧
    render_container context spec (bool_decide (enabled_config spec ≠ ∅)) (enabled_secrets spec) = Ok c ∧
    r = assemble context spec pull c.
Proof.
  unfold RenderResources. rewrite <-ValidateReleaseSpec_conditions.
  destruct (ValidateReleaseSpec spec) as [|i is_]; cbn [empty_list negb]; [|done].
  destruct (context_complete context); cbn [negb]; [|done].
  unfold ValidateApplicationName. destruct (complains _) eqn:Hn; [done|]. apply complains_false in Hn.
  cbn [mbind result_bind]. case_decide as Hk; [done|]. apply workload_kind_valid in Hk.
  destruct (pull_secret _ _) as [pull|]; [|done].
  destruct (render_container _ _ _ _) as [c|] eqn:Hc; [|done]. cbn [mbind result_bind]. intros [= <-].
  split_and!; try done. by exists pull, c.
Qed.

Lemma RenderResources_total context spec :
  WellFormed spec → context_complete context = true → IsDNS1123Label (ac_ApplicationName context) = [] →
  workload_kind_ok (ac_WorkloadKind context) →
  (private_registry spec = true → credentials_complete spec) →
  is_ok (RenderResources context spec) = true.
Proof.
  intros Hwf Hctx Hname Hk Hcred. unfold RenderResources, ValidateApplicationName.
  rewrite (proj2 (ValidateReleaseSpec_conditions spec)), Hctx, (proj2 (complains_false _)) by done.
  cbn [empty_list negb mbind result_bind]. rewrite decide_False by by apply workload_kind_valid.
  destruct (render_container_total context spec (bool_decide (enabled_config spec ≠ ∅)) (enabled_secrets spec) Hwf)
    as [c Hc].
  unfold pull_secret. destruct (private_registry spec) eqn:Hp; cbn [mbind result_bind]; [|by rewrite Hc].
  pose proof (imagePullSecret_total context (managedLabels context) spec (Hcred eq_refl)) as Hs.
  destruct (imagePullSecret _ _ _) as [s|]; [|done]. cbn [mbind result_bind]. by rewrite Hc.
Qed.

Lemma pull_secret_inv context spec pull :
  pull_secret context spec = Ok pull →
  (private_registry spec = true → credentials_complete spec) ∧
  match pull with
  | Some s => private_registry spec = true ∧ imagePullSecret context (managedLabels context) spec = Ok s
  | None => private_registry spec = false
  end.
Proof.
  unfold pull_secret. destruct (private_registry spec); [|by intros [= <-]].
  destruct (imagePullSecret _ _ _) as [s|] eqn:Hs; [|done]. intros [= <-].
  split; [intros _; by eapply imagePullSecret_inv | done].
Qed.
End rendered.

(** ** Names of volumes *)

Lemma imap_const_snd {A B} (f : nat → B) (l : list A) : imap (λ i _, f i) l = f <$> seq 0 (length l).
Proof.
  apply list_eq. intros i. rewrite list_lookup_imap, list_lookup_fmap.
  destruct (decide (i < length l)) as [Hi|Hi].
  - destruct (lookup_lt_is_Some_2 l i Hi) as [x ->]. simpl. rewrite lookup_seq_lt by done. done.
  - rewrite lookup_ge_None_2 by lia. rewrite lookup_seq_ge by lia. done.
Qed.

Lemma fmap_imap_eq {A B C} (f : B → C) (g : nat → A → B) (l : list A) : f <$> imap g l = imap (λ i x, f (g i x)) l.
Proof. apply fmap_imap. Qed.

Lemma str_app_inj (p a b : string) : p +:+ a = p +:+ b → a = b.
Proof. induction p; simpl; [done|]. intros [=]. auto. Qed.

#[export] Instance file_volume_name_inj : Inj (=) (=) file_volume_name.
Proof. intros i j Hij%str_app_inj. by apply (inj dec_nat). Qed.
#[export] Instance pvc_volume_name_inj : Inj (=) (=) pvc_volume_name.
Proof. intros i j Hij%str_app_inj. by apply (inj dec_nat). Qed.

Definition volume_names (claims files : nat) : list string :=
  (pvc_volume_name <$> seq 0 claims) ++ (file_volume_name <$> seq 0 files).

Lemma volume_names_NoDup n m : NoDup (volume_names n m).
Proof.
  unfold volume_names. apply NoDup_app. split_and!; try apply NoDup_fmap_2, NoDup_seq; try apply _.
  intros x (i & -> & _)%list_elem_of_fmap (j & Hj & _)%list_elem_of_fmap.
  discriminate.
Qed.

(** ** Groups of file mounts *)

Definition reference_group (fs : list FileMountSpec) (f : FileMountSpec) : fileMountGroup :=
  {| fg_sourceType := fm_SourceType f; fg_sourceName := fm_SourceName f;
     fg_mountDir := dir (fm_MountPath f);
     fg_items := file_item <$> filter (λ g, file_group_key g = file_group_key f) fs |}.

Lemma add_all g fs :
  foldl (λ g y, add_to_group y g) g fs =
  {| fg_sourceType := fg_sourceType g; fg_sourceName := fg_sourceName g; fg_mountDir := fg_mountDir g;
     fg_items := fg_items g ++ (file_item <$> fs) |}.
Proof.
  revert g. induction fs as [|f fs IH]; intros g; simpl; [by rewrite app_nil_r; destruct g|].
  rewrite IH. simpl. by rewrite <-app_assoc.
Qed.

Lemma file_mount_groups_reference fs :
  file_mount_groups fs = reference_group fs <$> dedup_by file_group_key fs.
Proof.
  unfold file_mount_groups. rewrite (proj1 (group_fold_spec _ _ _ _)).
  apply list_fmap_ext. intros i f Hf%list_elem_of_lookup_2. unfold open_group. rewrite add_all.
  unfold reference_group. f_equal. apply same_key_as_tail in Hf. unfold same_key_as in *.
  by rewrite Hf at 2.
Qed.

Lemma renderFileMounts_names fs :
  vol_Name <$> (renderFileMounts fs).1 = file_volume_name <$> seq 0 (length (file_mount_groups fs)) ∧
  mnt_Name <$> (renderFileMounts fs).2 = file_volume_name <$> seq 0 (length (file_mount_groups fs)).
Proof. by split; simpl; rewrite fmap_imap_eq; apply (imap_const_snd file_volume_name). Qed.

Lemma renderFileMounts_dirs fs :
  mnt_MountPath <$> (renderFileMounts fs).2 = (λ f, dir (fm_MountPath f)) <$> dedup_by file_group_key fs.
Proof.
  unfold renderFileMounts. simpl. rewrite fmap_imap_eq, file_mount_groups_reference.
  apply list_eq. intros i. rewrite list_lookup_imap, !list_lookup_fmap.
  by destruct (dedup_by file_group_key fs !! i).
Qed.

(** ** Ports *)

Lemma key_protocol_inj (a b : Z) p q :
  p ∈ [ServiceProtocolTCP; ServiceProtocolUDP] → q ∈ [ServiceProtocolTCP; ServiceProtocolUDP] →
  dec a +:+ "/" +:+ p = dec b +:+ "/" +:+ q → a = b ∧ p = q.
Proof.
  intros Hp Hq Heq. apply (f_equal chars) in Heq. rewrite !chars_app in Heq.
  assert (Hlen : length (chars "/" ++ chars p) = length (chars "/" ++ chars q)).
  { rewrite !elem_of_cons, elem_of_nil in *. by destruct Hp as [->|[->|?]], Hq as [->|[->|?]]. }
  apply app_inj_2 in Heq as [Ha Hr]; [|done]. apply app_inj_1 in Hr as [_ Hr]; [|done].
  split; [by apply (inj pretty), chars_inj | by apply chars_inj].
Qed.

(** ** Ingress *)

Definition has_rule (e : ApplicationEndpoint) : Prop := blank (ae_Domain e) = false.
#[export] Instance has_rule_dec e : Decision (has_rule e).
Proof. unfold has_rule. apply _. Defined.
Definition has_tls (e : ApplicationEndpoint) : Prop := has_rule e ∧ ae_TLSEnabled e = true.
#[export] Instance has_tls_dec e : Decision (has_tls e).
Proof. unfold has_tls. apply _. Defined.

Lemma ingress_fold context port endpoints :
  foldl (ingress_step context port) ([], ([], ∅)) endpoints =
  (ingress_rule context port <$> filter has_rule endpoints,
   group_fold (tls_name context) (new_tls context) add_host (filter has_tls endpoints)).
Proof.
  induction endpoints as [|e es IH] using rev_ind; [done|].
  rewrite foldl_app, IH, !filter_app, fmap_app. unfold group_fold at 2. cbn [foldl]. unfold ingress_step.
  destruct (blank (ae_Domain e)) eqn:Hb.
  - rewrite !filter_cons_False, !filter_nil, !app_nil_r; [done|unfold has_tls, has_rule; naive_solver congruence..].
  - rewrite (filter_cons_True has_rule) by done. destruct (ae_TLSEnabled e) eqn:Ht.
    + rewrite (filter_cons_True has_tls) by done. rewrite !filter_nil. by rewrite foldl_app.
    + rewrite (filter_cons_False has_tls) by (unfold has_tls; naive_solver congruence).
      by rewrite !filter_nil, app_nil_r.
Qed.

Lemma tls_group context l e :
  e ∈ dedup_by (tls_name context) l →
  open_group (tls_name context) (new_tls context) add_host l e =
  {| it_Hosts := ae_Domain <$> filter (λ x, tls_name context x = tls_name context e) l;
     it_SecretName := tls_name context e |}.
Proof.
  intros He%same_key_as_tail. unfold open_group, same_key_as in *. rewrite He at 2.
  generalize (tail (filter (λ y, tls_name context y = tls_name context e) l)) as es. clear He.
  intros es. rewrite fmap_cons. unfold new_tls.
  change (ae_Domain e :: (ae_Domain <$> es)) with ([ae_Domain e] ++ (ae_Domain <$> es)).
  generalize [ae_Domain e] as hosts. induction es as [|x es IH]; intros hosts; simpl; [by rewrite app_nil_r|].
  unfold add_host at 2. simpl. rewrite IH. by rewrite <-app_assoc.
Qed.

Lemma ingress_tls context port endpoints :
  ing_TLS (applicationEndpointsIngress context endpoints port) =
  (λ e, {| it_Hosts := ae_Domain <$> filter (λ x, tls_name context x = tls_name context e) (filter has_tls endpoints);
           it_SecretName := tls_name context e |})
    <$> dedup_by (tls_name context) (filter has_tls endpoints).
Proof.
  unfold applicationEndpointsIngress. rewrite ingress_fold.
  pose proof (proj1 (group_fold_spec (tls_name context) (new_tls context) add_host (filter has_tls endpoints))) as Hg.
  destruct (group_fold _ _ _ _) as [tls index]. simpl in *. rewrite Hg.
  apply list_fmap_ext. intros i e He%list_elem_of_lookup_2. by apply tls_group.
Qed.

Lemma ingress_rules context port endpoints :
  ing_Rules (applicationEndpointsIngress context endpoints port) =
  ingress_rule context port <$> filter has_rule endpoints.
Proof. unfold applicationEndpointsIngress. rewrite ingress_fold. by destruct (group_fold _ _ _ _). Qed.

Lemma pvc_names vs :
  vol_Name <$> imap pvc_volume vs = pvc_volume_name <$> seq 0 (length vs) ∧
  mnt_Name <$> imap pvc_mount vs = pvc_volume_name <$> seq 0 (length vs).
Proof. by split; rewrite fmap_imap_eq; apply (imap_const_snd pvc_volume_name). Qed.

(** ** Properties *)

Section properties.
Context `{K8sLibrary}.

(** C21: rendering succeeds exactly when it can. [RenderResources] returns the objects if and only if
    the specification validates, the context names its application, namespace, project and
    environment, the name is a DNS label, the workload kind is known and a private registry comes
    with complete credentials; and no call ever panics, although the quantities are read with
    [resource.MustParse]. *)
Theorem rendering_total context spec :
  (is_ok (RenderResources context spec) = true ↔
    ValidateReleaseSpec spec = [] ∧ context_complete context = true ∧
    IsDNS1123Label (ac_ApplicationName context) = [] ∧ workload_kind_ok (ac_WorkloadKind context) ∧
    (private_registry spec = true → credentials_complete spec)) ∧
  (∀ e, RenderResources context spec = Err e → err_is "panic" e = false).
Proof.
  split.
  - split.
    + destruct (RenderResources context spec) as [r|] eqn:Hr; [intros _|done].
      apply RenderResources_inv in Hr as (Hwf & ? & ? & ? & pull & c & [Hp _]%pull_secret_inv & _).
      apply ValidateReleaseSpec_conditions in Hwf. by split_and!.
    + intros (?%ValidateReleaseSpec_conditions & ? & ? & ? & ?). by apply RenderResources_total.
  - intros e. unfold RenderResources, ValidateApplicationName.
    destruct (ValidateReleaseSpec spec) eqn:Hv; cbn [empty_list negb]; [|by intros [= <-]].
    apply ValidateReleaseSpec_conditions in Hv.
    destruct (context_complete context); cbn [negb]; [|by intros [= <-]].
    destruct (complains _); [by intros [= <-]|]. cbn [mbind result_bind].
    case_decide; [by intros [= <-]|]. unfold pull_secret, imagePullSecret.
    destruct (render_container_total context spec (bool_decide (enabled_config spec ≠ ∅)) (enabled_secrets spec) Hv)
      as [c ->].
    destruct (private_registry spec); [|done]. by destruct (_ || _ || _); [intros [= <-]|].
Qed.

Lemma assemble_template context spec pull c :
  rendered_template (assemble context spec pull c) = Some (render_pod context spec c pull) ∧
  rendered_selector (assemble context spec pull c) = Some (workloadSelector (ac_ApplicationName context)).
Proof.
  unfold rendered_template, rendered_selector, assemble. cbn [rd_Deployment rd_StatefulSet].
  by destruct (bool_decide (workload_kind context = WorkloadKindStatefulSet)).
Qed.

Lemma rendered_volumes context spec r :
  RenderResources context spec = Ok r →
  ∃ c pull, rendered_template r = Some (render_pod context spec c pull) ∧
    ct_VolumeMounts c = imap pvc_mount (rs_Volumes spec)
      ++ (renderFileMounts (resolveFileMountSources (rs_FileMounts spec) (ac_ApplicationName context +:+ "-config"))).2 ∧
    ct_Ports c = renderContainerPorts (PortSpecs (rs_Service spec)).
Proof.
  intros (_ & _ & _ & _ & pull & c & _ & Hc & ->)%RenderResources_inv. exists c, pull. split_and!.
  - apply assemble_template.
  - unfold render_container, mbind, result_bind in Hc. by inv_match Hc.
  - unfold render_container, mbind, result_bind in Hc. by inv_match Hc.
Qed.

(** The volumes and the volume mounts of a rendered pod correspond one to one: they carry the
    same names in the same order and no name is used twice. *)
Theorem rendered_mounts_resolve context spec r (Hr : RenderResources context spec = Ok r) :
  ∃ t c, rendered_template r = Some t ∧ ps_Containers (pt_Spec t) = [c] ∧
    mnt_Name <$> ct_VolumeMounts c = vol_Name <$> ps_Volumes (pt_Spec t) ∧
    NoDup (vol_Name <$> ps_Volumes (pt_Spec t)).
Proof.
  apply rendered_volumes in Hr as (c & pull & Ht & Hm & _). eexists _, c. split; [exact Ht|].
  cbn [render_pod pt_Spec ps_Containers ps_Volumes]. split; [done|]. rewrite Hm, !fmap_app.
  destruct (renderFileMounts_names (resolveFileMountSources (rs_FileMounts spec)
    (ac_ApplicationName context +:+ "-config"))) as [-> ->].
  destruct (pvc_names (rs_Volumes spec)) as [-> ->].
  split; [done | apply volume_names_NoDup].
Qed.

(** C37: the file mounts are grouped without loss. The groups are those of the distinct (source type,
    source name, directory) triples in order of first use, and the items of a group are the key and
    file name of exactly the mounts of its triple, in their order; volumes and mounts are one per
    group. *)
Theorem file_mounts_grouped fs :
  file_mount_groups fs =
    (λ f, {| fg_sourceType := fm_SourceType f; fg_sourceName := fm_SourceName f;
             fg_mountDir := dir (fm_MountPath f);
             fg_items := (λ g, {| kp_Key := fm_Key g; kp_Path := base (fm_MountPath g) |})
               <$> filter (λ g, file_group_key g = file_group_key f) fs |})
    <$> dedup_by file_group_key fs ∧
  NoDup (file_group_key <$> dedup_by file_group_key fs) ∧
  (∀ f, f ∈ fs → ∃ f', f' ∈ dedup_by file_group_key fs ∧ file_group_key f' = file_group_key f) ∧
  length (renderFileMounts fs).1 = length (file_mount_groups fs) ∧
  length (renderFileMounts fs).2 = length (file_mount_groups fs).
Proof.
  split_and!.
  - apply file_mount_groups_reference.
  - apply dedup_by_NoDup.
  - apply dedup_by_covers.
  - unfold renderFileMounts. simpl. apply length_imap.
  - unfold renderFileMounts. simpl. apply length_imap.
Qed.

Lemma file_source_inj f g config secrets :
  well_formed_source config secrets f → well_formed_source config secrets g →
  file_source f = file_source g → fm_SourceType f = fm_SourceType g ∧ fm_SourceName f = fm_SourceName g.
Proof.
  unfold file_source. intros Hf Hg Heq.
  assert (∀ h, well_formed_source config secrets h → fm_SourceType h ∈
    [FileMountSourceApplicationConfig; FileMountSourceApplicationSecret; FileMountSourceConfigMap;
     FileMountSourceSecret]) as Htypes.
  { intros h (_ & [[-> _]|[[-> _]|[[-> | ->] _]]]); set_solver. }
  apply Htypes in Hf, Hg. rewrite !elem_of_cons, elem_of_nil in Hf, Hg.
  destruct Hf as [Hf|[Hf|[Hf|[Hf|[]]]]], Hg as [Hg|[Hg|[Hg|[Hg|[]]]]]; rewrite Hf, Hg in Heq |- *;
    cbn in Heq; try discriminate; split; try done; by simplify_eq.
Qed.

(** No two volume mounts for files share a directory: for an accepted specification whose mount
    paths carry no surrounding white space, the directories at which the file groups are mounted are
    pairwise distinct. *)
Theorem file_mount_directories_distinct context spec r
    (Hr : RenderResources context spec = Ok r)
    (Htrim : ∀ f, f ∈ rs_FileMounts spec → trim_space (fm_MountPath f) = fm_MountPath f) :
  NoDup (mnt_MountPath <$> (renderFileMounts
    (resolveFileMountSources (rs_FileMounts spec) (ac_ApplicationName context +:+ "-config"))).2).
Proof.
  apply RenderResources_inv in Hr as (Hwf & _). pose proof (wf_files _ Hwf) as [Hs _ _ Hdirs].
  rewrite renderFileMounts_dirs. apply NoDup_fmap_2_strong; [|by eapply NoDup_fmap_1, dedup_by_NoDup].
  intros x y Hx Hy Hd. eapply dedup_by_key_inj; [exact Hx | exact Hy|].
  apply dedup_by_subset in Hx, Hy. unfold resolveFileMountSources in Hx, Hy.
  apply list_elem_of_fmap in Hx as (f & -> & Hf), Hy as (g & -> & Hg).
  rewrite Forall_forall in Hs.
  assert (∀ h, fm_MountPath (resolve_source (ac_ApplicationName context +:+ "-config") h) = fm_MountPath h) as Hpath.
  { intros h. unfold resolve_source. by repeat case_decide. }
  rewrite !Hpath in Hd.
  destruct (file_source_inj f g _ _ (Hs f Hf) (Hs g Hg)) as [Ht Hn].
  { apply Hdirs; [done..|]. by rewrite !Htrim. }
  unfold file_group_key. rewrite !Hpath, Hd. unfold resolve_source. rewrite Ht.
  repeat case_decide; simpl; by rewrite ?Hn, ?Ht.
Qed.

(** What is rendered is found again and owned. Exactly one workload is rendered; its selector,
    which is also the selector of the service, is included in the labels of its pods, which name the
    release; and every object carries the labels of the application, the managed-by label among
    them, and its namespace. *)
Theorem rendered_ownership context spec r (Hr : RenderResources context spec = Ok r) :
  let selector := workloadSelector (ac_ApplicationName context) in
  (∃ t, rendered_template r = Some t ∧ rendered_selector r = Some selector ∧
    srv_Selector (rd_Service r) = selector ∧ selector ⊆ pt_Labels t ∧
    pt_Labels t !! ReleaseLabel = Some (dec (ac_ReleaseSequence context))) ∧
  (∀ meta, meta ∈ option_list (cm_Meta <$> rd_ConfigMap r) ++ option_list (sec_Meta <$> rd_Secret r)
      ++ option_list (sec_Meta <$> rd_ImagePullSecret r) ++ option_list (dep_Meta <$> rd_Deployment r)
      ++ option_list (sts_Meta <$> rd_StatefulSet r) ++ [srv_Meta (rd_Service r)]
      ++ option_list (ing_Meta <$> rd_Ingress r) →
    om_Namespace meta = ac_Namespace context ∧ om_Labels meta = managedLabels context ∧
    om_Labels meta !! ManagedByLabel = Some ManagedByValue).
Proof.
  apply RenderResources_inv in Hr as (_ & _ & _ & _ & pull & c & Hp & _ & ->). simpl. split.
  - destruct (assemble_template context spec pull c) as [Ht Hs]. eexists. split_and!; [exact Ht|exact Hs|done|..].
    + unfold render_pod, pod_labels, mergeLabels. simpl. unfold workloadSelector. apply map_singleton_subseteq_l.
      rewrite lookup_insert_ne by done. apply lookup_union_Some_l, lookup_singleton_eq.
    + unfold render_pod, pod_labels. simpl. apply lookup_insert_eq.
  - assert (managedLabels context !! ManagedByLabel = Some ManagedByValue) as Hm by apply lookup_insert_eq.
    apply pull_secret_inv in Hp as [_ Hp].
    assert (∀ m, m ∈ option_list (sec_Meta <$> pull) →
      om_Namespace m = ac_Namespace context ∧ om_Labels m = managedLabels context) as Hpull.
    { destruct pull as [s|]; [|by intros ? ?%not_elem_of_nil]. destruct Hp as [_ Hs].
      unfold imagePullSecret in Hs. destruct (_ || _ || _); simplify_eq/=.
      by intros m ->%list_elem_of_singleton. }
    intros meta. unfold endpointIngress, applicationEndpointsIngress. rewrite ingress_fold.
    rewrite !elem_of_app, elem_of_cons. intros Hmeta. cut (om_Namespace meta = ac_Namespace context ∧ om_Labels meta = managedLabels context).
    { intros [-> ->]. done. }
    destruct Hmeta as [Hx|[Hx|[Hx|[Hx|[Hx|[Hx|Hx]]]]]]; try (by apply Hpull); clear Hpull Hp Hm;
      repeat case_match; simpl in Hx;
      first [by apply not_elem_of_nil in Hx | apply list_elem_of_singleton in Hx as ->; done | by subst].
Qed.

Lemma protocol_known spec p :
  WellFormed spec → p ∈ PortSpecs (rs_Service spec) →
  normalizeServiceProtocol (port_Protocol p) ∈ [ServiceProtocolTCP; ServiceProtocolUDP].
Proof.
  intros Hwf Hp. pose proof (wf_ports _ (wf_service _ Hwf)) as Hports. rewrite Forall_forall in Hports.
  destruct (Hports p Hp) as (_ & _ & Hne & _). revert Hne. unfold normalizeServiceProtocol.
  repeat case_decide; set_solver.
Qed.

(** Ports. The container ports are pairwise distinct as (port, protocol), they are exactly the
    targets of the service ports, the service exposes the declared ports in order under distinct
    numbers between 1 and 65535, and every protocol is TCP or UDP. *)
Theorem rendered_ports context spec r (Hr : RenderResources context spec = Ok r) :
  ∃ c t, rendered_template r = Some t ∧ ps_Containers (pt_Spec t) = [c] ∧
    NoDup ((λ p, (cp_ContainerPort p, cp_Protocol p)) <$> ct_Ports c) ∧
    (∀ port protocol, (∃ p, p ∈ ct_Ports c ∧ cp_ContainerPort p = port ∧ cp_Protocol p = protocol) ↔
      ∃ p, p ∈ srv_Ports (rd_Service r) ∧ sp_TargetPort p = port ∧ sp_Protocol p = protocol) ∧
    sp_Port <$> srv_Ports (rd_Service r) = port_Port <$> PortSpecs (rs_Service spec) ∧
    NoDup (sp_Port <$> srv_Ports (rd_Service r)) ∧
    Forall (λ p, in_port_range (sp_Port p) ∧ in_port_range (sp_TargetPort p) ∧
      sp_Protocol p ∈ [ServiceProtocolTCP; ServiceProtocolUDP]) (srv_Ports (rd_Service r)).
Proof.
  destruct (rendered_volumes _ _ _ Hr) as (c & pull & Ht & _ & Hports).
  apply RenderResources_inv in Hr as (Hwf & _ & _ & _ & pull0 & c0 & _ & _ & ->).
  exists c. eexists. split; [exact Ht|]. split; [done|]. rewrite Hports. unfold renderContainerPorts.
  cbn [assemble rd_Service render_service srv_Ports]. unfold renderServicePorts.
  set (ports := PortSpecs (rs_Service spec)) in *.
  assert (Hnum : sp_Port <$> ((λ p, {| sp_Name := port_Name p; sp_Protocol := normalizeServiceProtocol (port_Protocol p);
    sp_Port := port_Port p; sp_TargetPort := port_TargetPort p; sp_NodePort := port_NodePort p |}) <$> ports)
    = port_Port <$> ports) by (by rewrite <-list_fmap_compose).
  split_and!.
  - rewrite <-list_fmap_compose. apply NoDup_fmap_2_strong; [|by eapply NoDup_fmap_1, dedup_by_NoDup].
    intros x y Hx Hy [= Ha Hb]. eapply dedup_by_key_inj; [exact Hx | exact Hy|].
    unfold container_port_key. by rewrite Ha, Hb.
  - intros port protocol. setoid_rewrite list_elem_of_fmap. split.
    + intros (p & (s & -> & Hs) & <- & <-). apply dedup_by_subset in Hs. eexists. split; [by exists s | done].
    + intros (p & (s & -> & Hs) & <- & <-). destruct (dedup_by_covers container_port_key _ _ Hs) as (s' & Hs' & Hk).
      apply key_protocol_inj in Hk as [Ha Hb];
        [|apply (protocol_known spec); [done | by eapply dedup_by_subset]|by apply (protocol_known spec)].
      eexists. split; [by exists s' | simpl; by rewrite Ha, Hb].
  - done.
  - rewrite Hnum. apply (wf_ports_distinct _ (wf_service _ Hwf)).
  - apply Forall_fmap, Forall_forall. intros p Hp. simpl.
    pose proof (wf_ports _ (wf_service _ Hwf)) as Hall. rewrite Forall_forall in Hall.
    destruct (Hall p Hp) as (? & ? & _). split_and!; [done..|]. by apply (protocol_known spec).
Qed.

(** The ingress of an application routes and secures its endpoints. There is one rule per
    endpoint with a domain, in order, to the application's service, with "/" for an empty path and
    the service port when the endpoint names none; the TLS entries have distinct secrets; an entry
    lists exactly the domains of the TLS endpoints of its secret; and each TLS endpoint with a
    domain has the entry of its own secret, "<application>-tls" by default. *)
Theorem ingress_routes_endpoints context endpoints port :
  let ingress := applicationEndpointsIngress context endpoints port in
  ing_Rules ingress = ingress_rule context port <$> filter has_rule endpoints ∧
  NoDup (it_SecretName <$> ing_TLS ingress) ∧
  (∀ t, t ∈ ing_TLS ingress → it_Hosts t ≠ [] ∧ ∀ host, host ∈ it_Hosts t ↔
    ∃ e, e ∈ endpoints ∧ has_tls e ∧ tls_name context e = it_SecretName t ∧ ae_Domain e = host) ∧
  (∀ e, e ∈ endpoints → has_tls e → ∃ t, t ∈ ing_TLS ingress ∧ it_SecretName t = tls_name context e) ∧
  (∀ t host, t ∈ ing_TLS ingress → host ∈ it_Hosts t → ∃ r, r ∈ ing_Rules ingress ∧ ir_Host r = host).
Proof.
  intros ingress. unfold ingress. rewrite ingress_rules, ingress_tls.
  assert (Hhosts : ∀ t, t ∈ ing_TLS ingress → it_Hosts t ≠ [] ∧ ∀ host, host ∈ it_Hosts t ↔
    ∃ e, e ∈ endpoints ∧ has_tls e ∧ tls_name context e = it_SecretName t ∧ ae_Domain e = host).
  { unfold ingress. rewrite ingress_tls. intros t (e & -> & He%dedup_by_subset)%list_elem_of_fmap. simpl. split.
    - intros Hnil%fmap_nil_inv. assert (e ∈ filter (λ x, tls_name context x = tls_name context e)
        (filter has_tls endpoints)) as Hin by by apply list_elem_of_filter.
      rewrite Hnil in Hin. by apply not_elem_of_nil in Hin.
    - intros host. rewrite list_elem_of_fmap. setoid_rewrite list_elem_of_filter.
      setoid_rewrite list_elem_of_filter. naive_solver. }
  unfold ingress in Hhosts. rewrite ingress_tls in Hhosts. split_and!.
  - done.
  - rewrite <-list_fmap_compose. apply (dedup_by_NoDup (tls_name context)).
  - exact Hhosts.
  - intros e He Ht. destruct (dedup_by_covers (tls_name context) (filter has_tls endpoints) e) as (e' & He' & Hk).
    { by apply list_elem_of_filter. }
    eexists. split; [by apply list_elem_of_fmap; exists e'|]. simpl. done.
  - intros t host Ht Hh. apply (proj2 (Hhosts t Ht)) in Hh as (e & He & [Hr _] & _ & Hd).
    exists (ingress_rule context port e). split; [|done].
    apply list_elem_of_fmap_2. by apply list_elem_of_filter.
Qed.

Lemma enabledStringMap_lookup values disabled k v :
  enabledStringMap values disabled !! k = Some v ↔
  values !! k = Some v ∧ (k = "" ∨ k ∉ trim_space <$> disabled).
Proof.
  unfold enabledStringMap. rewrite map_lookup_filter_Some. simpl.
  rewrite elem_of_list_to_set, !list_elem_of_In, List.filter_In, negb_true_iff.
  rewrite <-list_elem_of_In. assert (empty_str k = false ↔ k ≠ "") as -> by (by destruct k).
  destruct (decide (k = "")); tauto.
Qed.

Lemma hasSecretValues_spec m : hasSecretValues m = true ↔ ∃ k v, m !! k = Some v ∧ v ≠ "".
Proof.
  unfold hasSecretValues. rewrite existsb_exists. setoid_rewrite <-list_elem_of_In. split.
  - intros ([k v] & Hkv%elem_of_map_to_list & Hv%bool_decide_eq_true). by exists k, v.
  - intros (k & v & Hkv & Hv). exists (k, v). split; [by apply elem_of_map_to_list|]. by apply bool_decide_eq_true.
Qed.

(** What reaches the cluster of the configuration and of the secrets. The ConfigMap and the
    Secret hold exactly the enabled entries, an entry named (trimmed) by the disabled list is in
    neither; the ConfigMap exists when there is an entry, the Secret when there is a non-empty value
    (so a snapshot, whose values are blank, never overwrites the Secret in the cluster), and the
    container reads its environment from exactly the ConfigMap rendered and, when a secret is
    enabled, from the Secret. The snapshot does not depend on the values of the secrets. *)
Theorem rendered_projection context spec r (Hr : RenderResources context spec = Ok r) :
  (∀ m, rd_ConfigMap r = Some m → ∀ k v, cm_Data m !! k = Some v ↔
    rs_Config spec !! k = Some v ∧ (k = "" ∨ k ∉ trim_space <$> rs_ConfigDisabled spec)) ∧
  (∀ s, rd_Secret r = Some s → ∀ k v, sec_StringData s !! k = Some v ↔
    rs_Secrets spec !! k = Some v ∧ (k = "" ∨ k ∉ trim_space <$> rs_SecretsDisabled spec)) ∧
  (is_Some (rd_Secret r) ↔ ∃ k v, enabled_secrets spec !! k = Some v ∧ v ≠ "") ∧
  (∃ c t, rendered_template r = Some t ∧ ps_Containers (pt_Spec t) = [c] ∧
    ct_EnvFrom c = option_list ((λ m, ConfigMapRef (om_Name (cm_Meta m))) <$> rd_ConfigMap r)
      ++ (if decide (enabled_secrets spec = ∅) then [] else [SecretRef (ac_ApplicationName context +:+ "-secret")])) ∧
  (∀ f, rd_SanitizedSpec r = SanitizeReleaseSpec (with_secrets (f <$> rs_Secrets spec) spec)).
Proof.
  apply RenderResources_inv in Hr as (_ & _ & _ & _ & pull & c & _ & Hc & ->). split_and!.
  - intros m. simpl. case_decide; [done|]. intros [= <-] k v. apply enabledStringMap_lookup.
  - intros s. simpl. case_match; [|done]. intros [= <-] k v. apply enabledStringMap_lookup.
  - simpl. rewrite <-hasSecretValues_spec. destruct (hasSecretValues _); split; try done; by intros [].
  - exists c. eexists. split; [apply assemble_template|]. split; [done|].
    unfold render_container, mbind, result_bind in Hc. inv_match Hc. simpl. f_equal.
    by destruct (decide (enabled_config spec = ∅)); case_bool_decide.
  - intros f. simpl. clear Hc. destruct spec; unfold SanitizeReleaseSpec; simpl. f_equal.
    rewrite <-map_fmap_compose. by apply map_fmap_ext.
Qed.
End properties.

(** ** Concrete instances *)

Definition sample_context : ApplicationContext := {|
  ac_ProjectID := 1; ac_EnvironmentID := 2; ac_ProjectName := "shop"; ac_EnvironmentName := "prod";
  ac_ApplicationName := "web"; ac_Namespace := "shop-prod"; ac_ReleaseSequence := 3; ac_WorkloadKind := "" |}.

Definition sample_container : @Container sample_library :=
  let zero := {| rl_CPU := (0%Z : @Quantity sample_library); rl_Memory := (0%Z : @Quantity sample_library) |} in
  {| ct_Name := ""; ct_Image := ""; ct_Command := []; ct_Args := []; ct_Ports := [];
     ct_Requests := zero; ct_Limits := zero; ct_ReadinessProbe := None; ct_LivenessProbe := None;
     ct_EnvFrom := []; ct_VolumeMounts := [] |}.
Definition sample_rendered : @RenderedResources sample_library :=
  from_ok (assemble (H := sample_library) sample_context sample_spec None sample_container)
    (RenderResources (H := sample_library) sample_context sample_spec).

Lemma sample_renders : RenderResources (H := sample_library) sample_context sample_spec = Ok sample_rendered.
Proof. apply from_ok_spec. vm_compute. reflexivity. Qed.

Lemma rendered_mounts_resolve_witness :
  ∃ t c, rendered_template sample_rendered = Some t ∧ ps_Containers (pt_Spec t) = [c] ∧
    mnt_Name <$> ct_VolumeMounts c = vol_Name <$> ps_Volumes (pt_Spec t) ∧
    NoDup (vol_Name <$> ps_Volumes (pt_Spec t)).
Proof. exact (rendered_mounts_resolve sample_context sample_spec sample_rendered sample_renders). Defined.

Lemma file_mount_directories_distinct_witness :
  NoDup (mnt_MountPath <$> (renderFileMounts (resolveFileMountSources (rs_FileMounts sample_spec) "web-config")).2).
Proof.
  apply (file_mount_directories_distinct sample_context sample_spec sample_rendered sample_renders).
  intros f Hf. apply list_elem_of_singleton in Hf as ->. reflexivity.
Defined.

Lemma rendered_ownership_witness :
  om_Labels (srv_Meta (rd_Service sample_rendered)) !! ManagedByLabel = Some ManagedByValue.
Proof.
  apply (rendered_ownership sample_context sample_spec sample_rendered sample_renders).
  rewrite !elem_of_app. do 5 right. left. left.
Defined.

Lemma rendered_ports_witness :
  ∃ c t, rendered_template sample_rendered = Some t ∧ ps_Containers (pt_Spec t) = [c] ∧
    NoDup ((λ p, (cp_ContainerPort p, cp_Protocol p)) <$> ct_Ports c).
Proof.
  destruct (rendered_ports sample_context sample_spec sample_rendered sample_renders)
    as (c & t & Ht & Hc & Hn & _). exact (ex_intro _ c (ex_intro _ t (conj Ht (conj Hc Hn)))).
Defined.

Lemma rendered_projection_witness :
  (sec_StringData <$> rd_Secret sample_rendered) ≫= (λ data, data !! "PASSWORD") = Some "s3cret".
Proof.
  destruct (rd_Secret sample_rendered) as [s|] eqn:Hs; [|by vm_compute in Hs].
  apply (proj1 (proj2 (rendered_projection sample_context sample_spec sample_rendered
    sample_renders)) s Hs "PASSWORD" "s3cret"). split; [reflexivity | right; apply not_elem_of_nil].
Defined.
