(* ===== verification/Cluster.v ===== *)
(** * The Kubernetes API as the manager sees it

    The API server, its clients and the image registries are not part of the repository: a request is
    an element of [request], its typed answer is [answer], and [APIServer] decides every outcome from
    the whole history and from the context of the call, so that other writers, failures and
    cancellation at any point are covered. The state of the cluster is the log of what was exchanged,
    the time, and the cache of [internal/k8s/ingress.go]. Time is in nanoseconds; a ticker keeps at most one
    pending tick, and [select] between a tick and a context that are both ready is a free choice, as in Go.
    [poll] is the [for { ...; select { case <-ctx.Done(): ... case <-ticker.C: } }] loop; it is shown
    to terminate when the context has a deadline. [justified] is the discipline the manager's writes
    follow, proved for its operations in the files KubernetesApplier and ClusterPVC. *)
From Stdlib Require Import ZArith Ascii String.
From stdpp Require Import base sorting pretty numbers gmap strings list.
From S2P Require Import Prelude GoStrings Json ReleaseSpec Models ReleaseValidation ReleaseRendering.

(** ** Live objects: the fields the code reads, and what it carries along untouched *)

Record LiveMeta := {
  lm_Name : string;
  lm_Namespace : string;
  lm_Labels : gmap string string;
  lm_Annotations : gmap string string;
  lm_ResourceVersion : string;
  lm_Generation : Z;
  lm_CreationTimestamp : Z
}.

(** A node: the types and states of its conditions. *)
Record LiveNode := { nd_Name : string; nd_Conditions : list (string * string) }.
(** A pod that only mounts a claim on a node. *)
Record HolderPod := {
  hp_Name : string; hp_Namespace : string; hp_Labels : gmap string string; hp_NodeName : string; hp_Image : string; hp_ClaimName : string
}.
Record LiveNamespace := { ln_Meta : LiveMeta; ln_Phase : string }.
Record LiveServiceAccount := { sa_Meta : LiveMeta; sa_UID : string }.
(** The status of a token review: who the token belongs to, and for which audiences. *)
Record TokenReviewStatus := { tr_Authenticated : bool; tr_Audiences : list string; tr_Username : string; tr_UID : string }.
Record LiveConfigMap := { lc_Meta : LiveMeta; lc_Data : gmap string string; lc_BinaryData : gmap string string }.
Record LiveSecret := { ls_Meta : LiveMeta; ls_Data : gmap string string }.
(** A container of the template, by name and image. *)
Record LiveContainer := { lct_Name : string; lct_Image : string }.
Record LiveCondition := { lcd_Type : string; lcd_Status : string; lcd_Message : string }.
(** [ld_Annotations], [ld_NodeSelector]: those of the template; [ld_Claims]: its volumes, each with the claim it mounts
    if it mounts one; [ld_Selector]: the selector as text; [ld_Rest]: the parts of the specification the manager
    does not look at *)
Record LiveDeployment := {
  ld_Meta : LiveMeta;
  ld_Replicas : option Z;
  ld_Containers : list LiveContainer;
  ld_Annotations : gmap string string;
  ld_Selector : string;
  ld_NodeSelector : gmap string string;
  ld_Claims : list (option string);
  ld_Rest : json;
  ld_ObservedGeneration : Z;
  ld_UpdatedReplicas : Z;
  ld_ReadyReplicas : Z;
  ld_AvailableReplicas : Z;
  ld_UnavailableReplicas : Z;
  ld_Conditions : list LiveCondition
}.
Definition ld_Images (d : LiveDeployment) : list string := lct_Image <$> ld_Containers d.
Record LiveStatefulSet := {
  lt_Meta : LiveMeta;
  lt_Replicas : option Z;
  lt_Rest : json;
  lt_ObservedGeneration : Z;
  lt_ReadyReplicas : Z;
  lt_CurrentReplicas : Z;
  lt_AvailableReplicas : Z
}.
(** [lp_TargetPort] is the text of the IntOrString *)
Record LivePort := { lp_Name : string; lp_Port : Z; lp_TargetPort : string; lp_Protocol : string; lp_NodePort : Z }.
Record LoadBalancerIngress := { lb_IP : string; lb_Hostname : string }.
Record LiveService := {
  lsv_Meta : LiveMeta;
  lsv_ClusterIP : string;
  lsv_Type : string;
  lsv_Ports : list LivePort;
  lsv_LoadBalancer : list LoadBalancerIngress
}.

Record WaitingState := { wt_Reason : string; wt_Message : string }.
Record TerminatedState := { tm_Reason : string; tm_Message : string; tm_ExitCode : Z }.
Record ContainerStatus := {
  cs_Name : string;
  cs_Image : string;
  cs_Ready : bool;
  cs_RestartCount : Z;
  cs_Waiting : option WaitingState;
  cs_Terminated : option TerminatedState;
  cs_Running : bool;
  cs_LastTerminated : option TerminatedState
}.
Record PodCondition := { pc_Type : string; pc_Status : string; pc_Message : string }.
Record Pod := {
  pod_Meta : LiveMeta;
  pod_NodeName : string;
  pod_Phase : string;
  pod_Message : string;
  pod_Conditions : list PodCondition;
  pod_ContainerStatuses : list ContainerStatus
}.
Record Event := {
  ev_Type : string;
  ev_InvolvedKind : string;
  ev_InvolvedName : string;
  ev_Reason : string;
  ev_Message : string
}.

Record SelectorRequirement := { sr_Key : string; sr_Operator : string; sr_Values : list string }.
(** [pv_NodeAffinity]: the required terms, each with its expressions *)
Record PersistentVolume := {
  pv_Name : string;
  pv_ReclaimPolicy : string;
  pv_NodeAffinity : option (list (list SelectorRequirement));
  pv_HostPath : option string;
  pv_Local : option string
}.
Record StorageClass := {
  sc_Name : string;
  sc_Provisioner : string;
  sc_Annotations : gmap string string;
  sc_VolumeBindingMode : option string;
  sc_ReclaimPolicy : option string
}.
(** [pvc_Capacity]: the text of the capacity, empty when it is zero; [pvc_Requested]: of the request *)
Record PersistentVolumeClaim := {
  pvc_Meta : LiveMeta;
  pvc_Phase : string;
  pvc_StorageClassName : option string;
  pvc_VolumeName : string;
  pvc_Capacity : string;
  pvc_Requested : string;
  pvc_AccessModes : list string
}.
(** The claim a creation asks for. *)
Record ClaimRequest := {
  cl_Name : string;
  cl_Namespace : string;
  cl_Labels : gmap string string;
  cl_AccessModes : list string;
  cl_Storage : string;
  cl_StorageClassName : option string
}.

(** [name.Reference]: the registry, the repository and a tag or a digest. *)
Inductive Identifier := TagRef (tag : string) | DigestRef (digest : string).
Record ImageReference := {
  ref_Registry : string; ref_Repository : string; ref_Insecure : bool; ref_Identifier : Identifier
}.
(** The credentials of a lookup. *)
Inductive ImageAuth :=
  | Anonymous
  | BasicAuth (username password : string)
  | RegistryToken (token : string).

Create HintDb careful.

Section requests.
Context `{K8sLibrary}.

(** ** Requests and their answers *)

Inductive request :=
  | GetNamespace (name : string)
  | CreateNamespace (name : string) (labels : gmap string string)
  | UpdateNamespace (n : LiveNamespace)
  | GetServiceAccount (ns name : string)
  | ReviewToken (token audience : string)
  | GetNode (name : string)
  | GetSecret (ns name : string)
  | CreateSecret (s : Secret)
  | UpdateSecret (s : Secret) (resourceVersion : string)
  | GetConfigMap (ns name : string)
  | CreateConfigMap (c : ConfigMap)
  | UpdateConfigMap (c : ConfigMap) (resourceVersion : string)
  | GetDeployment (ns name : string)
  | CreateDeployment (d : Deployment)
  | ReplaceDeployment (d : Deployment) (resourceVersion : string)
  | UpdateDeployment (d : LiveDeployment)
  | GetStatefulSet (ns name : string)
  | CreateStatefulSet (s : StatefulSet)
  | ReplaceStatefulSet (s : StatefulSet) (resourceVersion : string)
  | UpdateStatefulSet (s : LiveStatefulSet)
  | GetService (ns name : string)
  | CreateService (s : Service)
  | UpdateService (s : Service) (resourceVersion clusterIP : string)
  | GetIngress (ns name : string)
  | CreateIngress (i : Ingress)
  | UpdateIngress (i : Ingress) (resourceVersion : string)
  | DeleteIngress (ns name : string)
  | GetCertificate (ns name : string)
  | CreateCertificate (c : Certificate)
  | UpdateCertificate (c : Certificate) (resourceVersion : string)
  | GetPod (ns name : string)
  | CreatePod (p : HolderPod)
  | DeletePod (ns name : string)
  | ListPods (ns selector : string)
  | ListEvents (ns : string)
  | ListServices (ns : string)
  | ListDeployments (ns : string)
  | ListStatefulSets (ns : string)
  | GetCRD (name : string)
  | GetPVC (ns name : string)
  | ListPVCs (ns selector : string)
  | CreatePVC (c : ClaimRequest)
  | DeletePVC (ns name : string)
  | GetStorageClass (name : string)
  | ListStorageClasses
  | GetPersistentVolume (name : string)
  | ListPersistentVolumes
  | HeadImage (reference : ImageReference) (auth : ImageAuth) (skipVerify : bool).

(** A certificate answers its metadata and the conditions of its status, as type and status. *)
Definition answer (q : request) : Type :=
  match q with
  | GetNamespace _ | CreateNamespace _ _ | UpdateNamespace _ => LiveNamespace
  | GetServiceAccount _ _ => LiveServiceAccount
  | ReviewToken _ _ => TokenReviewStatus
  | GetSecret _ _ => LiveSecret
  | GetConfigMap _ _ => LiveConfigMap
  | GetDeployment _ _ => LiveDeployment
  | GetStatefulSet _ _ => LiveStatefulSet
  | GetService _ _ => LiveService
  | GetIngress _ _ => LiveMeta
  | GetCertificate _ _ => LiveMeta * list (string * string)
  | GetNode _ => LiveNode
  | GetPod _ _ => Pod
  | ListPods _ _ => list Pod
  | ListEvents _ => list Event
  | ListServices _ => list LiveService
  | ListDeployments _ => list LiveDeployment
  | ListStatefulSets _ => list LiveStatefulSet
  | GetPVC _ _ | CreatePVC _ => PersistentVolumeClaim
  | ListPVCs _ _ => list PersistentVolumeClaim
  | GetStorageClass _ => StorageClass
  | ListStorageClasses => list StorageClass
  | GetPersistentVolume _ => PersistentVolume
  | ListPersistentVolumes => list PersistentVolume
  | _ => unit
  end%type.

Record exchange := Exchange { ex_request : request; ex_answer : result (answer ex_request) }.

(** ** The state of the cluster *)

Record IngressControllerStatus := {
  ics_Type : string; ics_CRD : bool; ics_Namespace : string; ics_Running : bool; ics_Version : string
}.

Record Cluster := {
  c_log : list exchange;
  c_time : Z;
  (** [ingressControllerCache] and its expiry *)
  c_cache : option (IngressControllerStatus * Z)
}.

(** When the context of a call is done: [None] for a context without deadline or cancellation. *)
Definition Context := option Z.
Definition done (ctx : Context) (t : Z) : bool :=
  match ctx with Some d => bool_decide (d ≤ t)%Z | None => false end.
(** [context.WithTimeout(ctx, timeout)] at time [t] *)
Definition with_timeout (ctx : Context) (timeout t : Z) : Context :=
  Some (match ctx with Some d => Z.min d (t + timeout) | None => t + timeout end)%Z.

Class APIServer := {
  respond : Cluster → Context → ∀ q : request, result (answer q);
  latency : Cluster → request → nat;
  (** the case [select] takes when a tick and the end of the context are both ready *)
  tick_first : Cluster → bool
}.

(** The clients refuse to send a request once its context is done. *)
Definition expired_context_fails `{APIServer} : Prop :=
  ∀ s ctx q, done ctx (c_time s) = true → ∃ e, respond s ctx q = Err e.

Definition with_time (t : Z) (s : Cluster) : Cluster :=
  {| c_log := c_log s; c_time := t; c_cache := c_cache s |}.
Definition with_cache (cache : option (IngressControllerStatus * Z)) (s : Cluster) : Cluster :=
  {| c_log := c_log s; c_time := c_time s; c_cache := cache |}.

Context `{APIServer}.

Definition exchanged (ctx : Context) (q : request) (s : Cluster) : Cluster :=
  {| c_log := c_log s ++ [Exchange q (respond s ctx q)];
     c_time := c_time s + Z.of_nat (latency s q);
     c_cache := c_cache s |}.
Definition call (ctx : Context) (q : request) : M Cluster (answer q) := λ s,
  (respond s ctx q, exchanged ctx q s).

(** [apierrors.IsNotFound(err)] *)
Definition is_not_found (e : goerr) : bool := err_is "k8s.NotFound" e.
Definition not_found : goerr := ESent "k8s.NotFound" "not found".

(** ** Waiting *)

Definition second : Z := 1000000000.

(** The next tick of a ticker of one second started at [start] whose last tick was received at [last]. *)
Definition next_tick (start last : Z) : Z := start + second * ((last - start) `div` second + 1).

(** [select { case <-ctx.Done(): None; case <-ticker.C: Some now }] *)
Definition select_tick (ctx : Context) (start last : Z) : M Cluster (option Z) := λ s,
  let tick := next_tick start last in
  let t := Z.max (c_time s) (match ctx with Some d => Z.min d tick | None => tick end) in
  let s' := with_time t s in
  (Ok (if done ctx t && (bool_decide (t < tick)%Z || negb (tick_first s)) then None else Some t), s').

(** The loop: [body] goes on with a new loop state or ends with a value, [expired] is what follows the
    end of the context. [None] when the fuel runs out. *)
Fixpoint poll {S A} (fuel : nat) (ctx : Context) (start last : Z) (body : S → M Cluster (S + A))
    (expired : S → M Cluster A) (s : S) : M Cluster (option A) :=
  match fuel with
  | O => mret None
  | S fuel =>
      r ← body s;
      match r with
      | inr a => mret (Some a)
      | inl s =>
          tick ← select_tick ctx start last;
          match tick with
          | None => a ← expired s; mret (Some a)
          | Some now => poll fuel ctx start now body expired s
          end
      end
  end.

(** The iterations a deadline [timeout] away leaves room for. *)
Definition poll_fuel (timeout : Z) : nat := Z.to_nat (timeout `div` second) + 2.
End requests.

#[global] Arguments exchange {_}.
#[global] Arguments Cluster {_}.
#[global] Arguments APIServer {_}.

(** ** Termination of the loop *)

Section polling.
Context `{K8sLibrary} `{!APIServer}.

Lemma second_pos : (0 < second)%Z.
Proof. done. Qed.

(** The number of the tick period a time falls into. *)
Definition period (start t : Z) : Z := (t - start) `div` second.

Lemma period_mono start t t' : (t ≤ t')%Z → (period start t ≤ period start t')%Z.
Proof. intros. apply Z.div_le_mono; [done | lia]. Qed.

Lemma next_tick_period start last t : (next_tick start last ≤ t)%Z → (period start last + 1 ≤ period start t)%Z.
Proof.
  intros Ht. apply Z.div_le_lower_bound; [done|]. unfold next_tick in Ht. unfold period. lia.
Qed.

(** Receiving a tick: time has passed, and the tick was due. *)
Lemma select_tick_Some ctx start last (c c' : Cluster) now :
  select_tick ctx start last c = (Ok (Some now), c') →
  c' = with_time now c ∧ (c_time c ≤ now)%Z ∧ (next_tick start last ≤ now)%Z.
Proof.
  unfold select_tick. destruct ctx as [d|]; simpl.
  - destruct (bool_decide (d ≤ Z.max (c_time c) (Z.min d (next_tick start last)))%Z &&
      (bool_decide (Z.max (c_time c) (Z.min d (next_tick start last)) < next_tick start last)%Z || negb (tick_first c)))
      eqn:Hb; intros [= <- <-]. split; [done|].
    apply andb_false_iff in Hb. rewrite orb_false_iff, !bool_decide_eq_false in Hb. lia.
  - intros [= <- <-]. split; [done | lia].
Qed.

(** The context ends the loop only once it is done. *)
Lemma select_tick_None ctx start last (c c' : Cluster) :
  select_tick ctx start last c = (Ok None, c') → done ctx (c_time c') = true ∧ c_log c' = c_log c.
Proof.
  unfold select_tick. set (t := Z.max _ _).
  destruct (done ctx t && _) eqn:Hb; [|done].
  intros [= <-]. apply andb_true_iff in Hb as [Hb _]. done.
Qed.

(** The loop rule: an invariant of the state at the start of every iteration. *)
Lemma poll_triple {S A} ctx start (body : S → M Cluster (S + A)) (expired : S → M Cluster A)
    (I J : S → Cluster → Prop) (Q : result A → Cluster → Prop) :
  (∀ s, triple (I s) (body s) (λ r c, match r with
     Ok (inl s') => J s' c | Ok (inr a) => Q (Ok a) c | Err e => Q (Err e) c end)) →
  (∀ s c t, J s c → (c_time c ≤ t)%Z → I s (with_time t c)) →
  (∀ s, triple (λ c, ∃ c0 t, J s c0 ∧ c = with_time t c0 ∧ done ctx t = true) (expired s) Q) →
  ∀ fuel last s, triple (I s) (poll fuel ctx start last body expired s)
    (λ r c, match r with Ok (Some a) => Q (Ok a) c | Ok None => True | Err e => Q (Err e) c end).
Proof.
  intros Hbody Htick Hexp fuel. induction fuel as [|fuel IH]; intros last s; [done|]. cbn [poll].
  eapply triple_bind; [apply Hbody| |done]. intros [s'|a]; [|by intros c Hc].
  eapply triple_bind with (R := λ r c, ∃ c0 t, J s' c0 ∧ c = with_time t c0 ∧
    match r with Ok (Some now) => (c_time c0 ≤ t)%Z | Ok None => done ctx t = true | Err _ => False end).
  - intros c Hc. exists c. destruct (select_tick ctx start last c) as [[[now|]|] c'] eqn:Hsel; simpl.
    + apply select_tick_Some in Hsel as (-> & Hle & _). by exists now.
    + pose proof (select_tick_None _ _ _ _ _ Hsel) as [Hd _]. injection Hsel as _ <-. by eexists.
    + by unfold select_tick in Hsel.
  - intros [now|].
    + intros c (c0 & t & HJ & -> & Hle). by apply IH, Htick.
    + eapply triple_bind; [|by intros a; apply triple_ret|done].
      intros c (c0 & t & HJ & -> & Hd). apply Hexp. by exists c0, t.
  - by intros e c (c0 & t & _ & _ & []).
Qed.

Section deadline.
Context {S A : Type} (d start : Z) (body : S → M Cluster (S + A)) (expired : S → M Cluster A).
Context (Hmono : ∀ s c, (c_time c ≤ c_time (body s c).2)%Z)
  (Hdone : ∀ s c, (d ≤ c_time c)%Z → ∃ e, (body s c).1 = Err e).

Lemma poll_terminates_from fuel last s c :
  (last ≤ c_time c)%Z →
  (1 ≤ fuel ∧ (d ≤ c_time c ∨ period start d + 2 ≤ period start last + Z.of_nat fuel)%Z) →
  (poll fuel (Some d) start last body expired s c).1 ≠ Ok None.
Proof using Hdone Hmono.
  revert last s c. induction fuel as [|fuel IH]; intros last s c Hlast [Hf Hk]; [lia|].
  cbn [poll]. unfold mbind at 1, M_bind at 1. specialize (Hmono s c). specialize (Hdone s c).
  destruct (body s c) as [[[s'|a]|e] c1]; simpl in *; [|by intros [=]..].
  destruct (decide (d ≤ c_time c)%Z) as [Hd|Hd]; [by destruct (Hdone Hd)|].
  destruct Hk as [Hk|Hk]; [lia|].
  unfold mbind at 1, M_bind at 1.
  destruct (select_tick (Some d) start last c1) as [[tick|] c2] eqn:Hsel; [|by intros [=]].
  destruct tick as [now|].
  - apply select_tick_Some in Hsel as (-> & Hle & Ht). apply IH; [done|].
    pose proof (next_tick_period _ _ _ Ht). pose proof (period_mono start last d ltac:(lia)).
    split; [lia|]. right. simpl. lia.
  - unfold mbind, M_bind. destruct (expired s' c2) as [[]]; by intros [=].
Qed.
(** A deadline [timeout] ahead ends the loop within [poll_fuel timeout] iterations. *)
Lemma poll_terminates timeout s c :
  c_time c = start → (d ≤ start + timeout)%Z →
  (poll (poll_fuel timeout) (Some d) start start body expired s c).1 ≠ Ok None.
Proof using Hdone Hmono.
  intros Hc Hd. apply poll_terminates_from; [lia|]. unfold poll_fuel. split; [lia|]. right.
  assert (period start start = 0%Z) as -> by (unfold period; by rewrite Z.sub_diag).
  assert (period start d ≤ timeout `div` second)%Z by (apply Z.div_le_mono; [done | lia]). lia.
Qed.
End deadline.
End polling.

(** [Clientset != nil], and what [dynamicClient()] returns. *)
Record Client := { kc_Clientset : bool; kc_Dynamic : result unit }.

(** ** Writes that respect the ownership of objects *)

Inductive kind := KSecret | KConfigMap | KDeployment | KStatefulSet | KService | KIngress | KCertificate | KPVC | KNamespace | KPod.
(** An update replaces the revision it names, a deletion whatever is there. *)
Inductive write_action := WCreate | WUpdate (resourceVersion : string) | WDelete.
Record write := { w_Action : write_action; w_Kind : kind; w_Namespace : string; w_Name : string }.
Record observation := { o_Kind : kind; o_Namespace : string; o_Name : string; o_Result : result LiveMeta }.

Definition write_of (a : write_action) (k : kind) (m : ObjectMeta) : option write :=
  Some {| w_Action := a; w_Kind := k; w_Namespace := om_Namespace m; w_Name := om_Name m |}.
Definition write_back (k : kind) (m : LiveMeta) : option write :=
  Some {| w_Action := WUpdate (lm_ResourceVersion m); w_Kind := k; w_Namespace := lm_Namespace m; w_Name := lm_Name m |}.

Section discipline.
Context `{K8sLibrary}.

(** The write a request is. *)
Definition written (q : request) : option write :=
  match q with
  | CreateNamespace n _ => Some {| w_Action := WCreate; w_Kind := KNamespace; w_Namespace := ""; w_Name := n |}
  | UpdateNamespace n => write_back KNamespace (ln_Meta n)
  | CreateSecret s => write_of WCreate KSecret (sec_Meta s)
  | UpdateSecret s v => write_of (WUpdate v) KSecret (sec_Meta s)
  | CreateConfigMap c => write_of WCreate KConfigMap (cm_Meta c)
  | UpdateConfigMap c v => write_of (WUpdate v) KConfigMap (cm_Meta c)
  | CreateDeployment d => write_of WCreate KDeployment (dep_Meta d)
  | ReplaceDeployment d v => write_of (WUpdate v) KDeployment (dep_Meta d)
  | UpdateDeployment d => write_back KDeployment (ld_Meta d)
  | CreateStatefulSet s => write_of WCreate KStatefulSet (sts_Meta s)
  | ReplaceStatefulSet s v => write_of (WUpdate v) KStatefulSet (sts_Meta s)
  | UpdateStatefulSet s => write_back KStatefulSet (lt_Meta s)
  | CreateService s => write_of WCreate KService (srv_Meta s)
  | UpdateService s v _ => write_of (WUpdate v) KService (srv_Meta s)
  | CreateIngress i => write_of WCreate KIngress (ing_Meta i)
  | UpdateIngress i v => write_of (WUpdate v) KIngress (ing_Meta i)
  | DeleteIngress ns n => Some {| w_Action := WDelete; w_Kind := KIngress; w_Namespace := ns; w_Name := n |}
  | CreateCertificate c => write_of WCreate KCertificate (cert_Meta c)
  | UpdateCertificate c v => write_of (WUpdate v) KCertificate (cert_Meta c)
  | CreatePVC c => Some {| w_Action := WCreate; w_Kind := KPVC; w_Namespace := cl_Namespace c; w_Name := cl_Name c |}
  | DeletePVC ns n => Some {| w_Action := WDelete; w_Kind := KPVC; w_Namespace := ns; w_Name := n |}
  | CreatePod p => Some {| w_Action := WCreate; w_Kind := KPod; w_Namespace := hp_Namespace p; w_Name := hp_Name p |}
  | DeletePod ns n => Some {| w_Action := WDelete; w_Kind := KPod; w_Namespace := ns; w_Name := n |}
  | _ => None
  end.

(** The object a read asked for, and what is known of it. *)
Definition observed (x : exchange) : option observation :=
  match x with
  | Exchange q r =>
      let seen (k : kind) (ns n : string) (m : result LiveMeta) :=
        Some {| o_Kind := k; o_Namespace := ns; o_Name := n; o_Result := m |} in
      match q as q return result (answer q) → option observation with
      | GetNamespace n => λ r, seen KNamespace "" n (ln_Meta <$> r)
      | GetSecret ns n => λ r, seen KSecret ns n (ls_Meta <$> r)
      | GetConfigMap ns n => λ r, seen KConfigMap ns n (lc_Meta <$> r)
      | GetDeployment ns n => λ r, seen KDeployment ns n (ld_Meta <$> r)
      | GetStatefulSet ns n => λ r, seen KStatefulSet ns n (lt_Meta <$> r)
      | GetService ns n => λ r, seen KService ns n (lsv_Meta <$> r)
      | GetIngress ns n => λ r, seen KIngress ns n r
      | GetCertificate ns n => λ r, seen KCertificate ns n (fst <$> r)
      | GetPVC ns n => λ r, seen KPVC ns n (pvc_Meta <$> r)
      | _ => λ _, None
      end r
  end.

(** [labels[ManagedByLabel] == ManagedByValue] *)
Definition managed (labels : gmap string string) : bool :=
  bool_decide (default "" (labels !! ManagedByLabel) = ManagedByValue).

(** What a read says that allows a write: the object does not exist, before a creation; it carries
    the label of the manager, before an update of that same revision or a deletion. *)
Definition licenses (g : exchange) (q : request) : Prop :=
  match observed g, written q with
  | Some o, Some w => o_Kind o = w_Kind w ∧
      match w_Action w with
      | WCreate => (o_Namespace o, o_Name o) = (w_Namespace w, w_Name w) ∧
          ∃ e, o_Result o = Err e ∧ is_not_found e = true
      | WUpdate v => ∃ m, o_Result o = Ok m ∧ managed (lm_Labels m) = true ∧ lm_ResourceVersion m = v ∧
          ((o_Namespace o, o_Name o) = (w_Namespace w, w_Name w) ∨
           (lm_Namespace m, lm_Name m) = (w_Namespace w, w_Name w))
      | WDelete => (o_Namespace o, o_Name o) = (w_Namespace w, w_Name w) ∧
          ∃ m, o_Result o = Ok m ∧ managed (lm_Labels m) = true
      end
  | _, _ => False
  end.

(** Every write comes right after the read that licenses it. *)
Inductive justified : list exchange → Prop :=
  | justified_nil : justified []
  | justified_read x l : written (ex_request x) = None → justified l → justified (x :: l)
  | justified_write g x l : written (ex_request g) = None → licenses g (ex_request x) → justified l →
      justified (g :: x :: l).

Lemma justified_app l l' : justified l → justified l' → justified (l ++ l').
Proof. induction 1; simpl; eauto using justified. Qed.

(** A write of a justified log has its license. *)
Lemma justified_licensed l pre x post :
  justified l → l = pre ++ x :: post → is_Some (written (ex_request x)) →
  ∃ pre' g, pre = pre' ++ [g] ∧ licenses g (ex_request x).
Proof.
  intros Hl. revert pre. induction Hl as [|y l Hy Hl IH|g y l Hg Hlic Hl IH]; intros pre Heq Hx.
  - by destruct pre.
  - destruct pre as [|z pre]; simplify_eq/=; [rewrite Hy in Hx; by destruct Hx|].
    destruct (IH pre eq_refl Hx) as (pre' & g & -> & Hg). by exists (z :: pre'), g.
  - destruct pre as [|z [|z' pre]]; simplify_eq/=.
    + rewrite Hg in Hx. by destruct Hx.
    + by exists [], z.
    + destruct (IH pre eq_refl Hx) as (pre' & g & -> & Hlic'). by exists (z :: z' :: pre'), g.
Qed.

(** The exchanges of a computation are a justified extension of the log, and time does not go back. *)
Definition careful {A} (m : M Cluster A) : Prop := ∀ c, ∃ evs,
  c_log (m c).2 = c_log c ++ evs ∧ justified evs ∧ (c_time c ≤ c_time (m c).2)%Z.

Lemma careful_silent {A} (m : M Cluster A) :
  (∀ c, c_log (m c).2 = c_log c ∧ (c_time c ≤ c_time (m c).2)%Z) → careful m.
Proof. intros Hm c. destruct (Hm c) as [Hl Ht]. exists []. rewrite app_nil_r. by eauto using justified. Qed.

Lemma careful_ret {A} (a : A) : careful (mret a).
Proof. by apply careful_silent. Qed.
Lemma careful_throw {A} e : careful (A := A) (throw e).
Proof. by apply careful_silent. Qed.
Lemma careful_lift {A} (r : result A) : careful (lift r).
Proof. by apply careful_silent. Qed.
Lemma careful_gets {A} (f : Cluster → A) : careful (gets f).
Proof. by apply careful_silent. Qed.
Lemma careful_guard_not b e : careful (guard_not b e).
Proof. destruct b; [apply careful_throw | apply careful_ret]. Qed.

Lemma careful_bind {A B} (m : M Cluster A) (f : A → M Cluster B) :
  careful m → (∀ a, careful (f a)) → careful (m ≫= f).
Proof.
  intros Hm Hf c. unfold mbind, M_bind. destruct (Hm c) as (e1 & Hl1 & Hj1 & Ht1).
  destruct (m c) as [[a|e] c1]; simpl in *; [|by exists e1].
  destruct (Hf a c1) as (e2 & Hl2 & Hj2 & Ht2). exists (e1 ++ e2).
  rewrite Hl2, Hl1, app_assoc. split_and!; [done | by apply justified_app | lia].
Qed.

Lemma careful_attempt {A} (m : M Cluster A) : careful m → careful (attempt m).
Proof. intros Hm c. destruct (Hm c) as (evs & ?). exists evs. unfold attempt. by destruct (m c). Qed.
Lemma careful_wrapping {A} f (m : M Cluster A) : careful m → careful (wrapping f m).
Proof. intros Hm c. destruct (Hm c) as (evs & ?). exists evs. unfold wrapping. by destruct (m c). Qed.

Lemma careful_catching {A} (m : M Cluster A) h : careful m → (∀ e, careful (h e)) → careful (catching m h).
Proof.
  intros Hm Hh c. unfold catching. destruct (Hm c) as (e1 & Hl1 & Hj1 & Ht1).
  destruct (m c) as [[a|e] c1]; simpl in *; [by exists e1|].
  destruct (Hh e c1) as (e2 & Hl2 & Hj2 & Ht2). exists (e1 ++ e2).
  rewrite Hl2, Hl1, app_assoc. split_and!; [done | by apply justified_app | lia].
Qed.

Lemma careful_for_each {A} (f : A → M Cluster unit) l : (∀ x, careful (f x)) → careful (for_each f l).
Proof.
  intros Hf. induction l as [|x l IH]; [apply careful_ret|]. apply careful_bind; [apply Hf | intros _; apply IH].
Qed.

Context `{!APIServer}.

Lemma call_bind {A} ctx q (f : answer q → M Cluster A) c :
  (call ctx q ≫= f) c = match respond c ctx q with
    | Ok a => f a (exchanged ctx q c) | Err e => (Err e, exchanged ctx q c) end.
Proof. done. Qed.
Lemma wrapped_call_bind {A} w ctx q (f : answer q → M Cluster A) c :
  (wrapping w (call ctx q) ≫= f) c = match respond c ctx q with
    | Ok a => f a (exchanged ctx q c) | Err e => (Err (w e), exchanged ctx q c) end.
Proof. unfold mbind, M_bind, wrapping. simpl. by destruct (respond c ctx q). Qed.
Lemma attempted_call_bind {A} ctx q (f : result (answer q) → M Cluster A) c :
  (attempt (call ctx q) ≫= f) c = f (respond c ctx q) (exchanged ctx q c).
Proof. done. Qed.

Lemma careful_call ctx q : written q = None → careful (call ctx q).
Proof.
  intros Hq c. exists [Exchange q (respond c ctx q)]. simpl. split_and!; [done| |lia].
  apply justified_read; [done | constructor].
Qed.

(** A computation that follows the exchange [g]. *)
Definition careful_after {A} (g : exchange) (m : M Cluster A) : Prop := ∀ c, ∃ evs,
  c_log (m c).2 = c_log c ++ evs ∧ justified (g :: evs) ∧ (c_time c ≤ c_time (m c).2)%Z.

Lemma careful_after_careful {A} g (m : M Cluster A) : written (ex_request g) = None → careful m → careful_after g m.
Proof. intros Hg Hm c. destruct (Hm c) as (evs & ? & ? & ?). exists evs. eauto using justified. Qed.

Lemma careful_after_call g ctx q : written (ex_request g) = None → licenses g q → careful_after g (call ctx q).
Proof.
  intros Hg Hl c. exists [Exchange q (respond c ctx q)]. simpl. split_and!; [done| |lia].
  apply justified_write; [done..|constructor].
Qed.

Lemma careful_after_wrapping {A} g w (m : M Cluster A) : careful_after g m → careful_after g (wrapping w m).
Proof. intros Hm c. destruct (Hm c) as (evs & ?). exists evs. unfold wrapping. by destruct (m c). Qed.

Lemma careful_after_bind {A B} g (m : M Cluster A) (f : A → M Cluster B) :
  careful_after g m → (∀ a, careful (f a)) → careful_after g (m ≫= f).
Proof.
  intros Hm Hf c. unfold mbind, M_bind. destruct (Hm c) as (e1 & Hl1 & Hj1 & Ht1).
  destruct (m c) as [[a|e] c1]; simpl in *; [|by exists e1].
  destruct (Hf a c1) as (e2 & Hl2 & Hj2 & Ht2). exists (e1 ++ e2).
  rewrite Hl2, Hl1, app_assoc. split_and!; [done | exact (justified_app _ _ Hj1 Hj2) | lia].
Qed.

Lemma careful_after_guard {A} g b e (m : M Cluster A) :
  written (ex_request g) = None → (b = false → careful_after g m) → careful_after g (guard_not b e ;; m).
Proof.
  intros Hg Hm. destruct b; [|exact (Hm eq_refl)].
  by apply careful_after_careful; [|apply careful_throw].
Qed.

(** The read and the write of a checked operation: [w] wraps the errors of the read. *)
Lemma careful_read_wrapped {A} w ctx q (f : answer q → M Cluster A) :
  written q = None → (∀ a, careful_after (Exchange q (Ok a)) (f a)) → careful (wrapping w (call ctx q) ≫= f).
Proof.
  intros Hq Hf c. rewrite wrapped_call_bind. destruct (respond c ctx q) as [x|e] eqn:Hr.
  - destruct (Hf x (exchanged ctx q c)) as (evs & Hl & Hj & Ht).
    exists (Exchange q (Ok x) :: evs). rewrite Hl. simpl in Ht. split_and!; [|done|lia].
    simpl. by rewrite Hr, <-app_assoc.
  - exists [Exchange q (Err e)]. simpl. rewrite Hr. split_and!; [done|by repeat constructor|lia].
Qed.

Lemma careful_read {A} ctx q (f : result (answer q) → M Cluster A) :
  (∀ r, careful_after (Exchange q r) (f r)) → careful (attempt (call ctx q) ≫= f).
Proof.
  intros Hf c. rewrite attempted_call_bind.
  destruct (Hf (respond c ctx q) (exchanged ctx q c)) as (evs & Hl & Hj & Ht).
  exists (Exchange q (respond c ctx q) :: evs). rewrite Hl. simpl in Ht. split_and!; [|done|lia].
  simpl. by rewrite <-app_assoc.
Qed.

Lemma careful_select ctx start last : careful (select_tick ctx start last).
Proof. apply careful_silent. intros c. split; [done | apply Z.le_max_l]. Qed.

Lemma careful_poll {S A} fuel ctx start last (body : S → M Cluster (S + A)) expired s :
  (∀ s, careful (body s)) → (∀ s, careful (expired s)) → careful (poll fuel ctx start last body expired s).
Proof.
  intros Hb He. revert last s. induction fuel as [|fuel IH]; intros last s; [apply careful_ret|]. cbn [poll].
  apply careful_bind; [done|]. intros [s'|a]; [|apply careful_ret].
  apply careful_bind; [apply careful_select|]. intros [now|]; [apply IH|].
  apply careful_bind; [done | intros; apply careful_ret].
Qed.
End discipline.

#[export] Hint Resolve careful_ret careful_throw careful_lift careful_gets careful_guard_not careful_bind careful_attempt
  careful_wrapping careful_catching careful_for_each careful_poll careful_select : careful.
#[export] Hint Extern 1 (careful (call _ _)) => apply careful_call; reflexivity : careful.
