(* ===== verification/ClusterResources.v ===== *)
(** * Volume claims, custom resources and the ingress controller

    The reads of [internal/k8s/pvc.go], [client.go] and [ingress.go] the release path depends on, with the
    creation and deletion of the claims of an environment. A claim belongs to an environment by its
    label; the theorems say that the label written by a creation is read back exactly, and that the
    operations on claims touch only claims of their environment (or of none) that no
    infrastructure component owns. *)
From Stdlib Require Import ZArith Ascii String.
From stdpp Require Import base sorting pretty numbers gmap strings list.
From S2P Require Import Prelude GoStrings Json ReleaseSpec Models ReleaseValidation ReleaseRendering Cluster.

Definition InfrastructureLabel := "cylism.io/infrastructure".
Definition InfrastructureAlertmanager := "alertmanager".
Definition InfrastructureVictoriaMetrics := "victoria-metrics".
Definition InfrastructureLoki := "loki".
Definition InfrastructureRuntime := "agent-runtime".
Definition InfrastructureOCIRegistry := "oci-registry".
Definition managedOCIRegistryNamespace := "cylism-system".
Definition managedOCIRegistryPVCName := "cylism-oci-registry-data".

Record PersistentVolumeClaimRequest := { pq_Name : string; pq_Storage : string; pq_StorageClassName : string }.

Record PersistentVolumeClaimInfo := {
  pi_Name : string; pi_Namespace : string; pi_Managed : bool; pi_EnvironmentID : Z;
  pi_OwnerType : string; pi_Owner : string; pi_OwnerName : string; pi_ReadOnly : bool;
  pi_Phase : string; pi_Storage : string; pi_StorageClassName : string; pi_VolumeName : string;
  pi_AccessModes : list string; pi_BoundNode : string; pi_LocalPath : string; pi_IsLocal : bool;
  pi_ReclaimPolicy : string; pi_WaitForFirstConsumer : bool; pi_CreationTimestamp : Z
}.
Record StorageClassInfo := {
  si_Name : string; si_Provisioner : string; si_IsDefault : bool; si_VolumeBindingMode : string; si_ReclaimPolicy : string
}.

(** ** Claims and their owners *)

Definition label_of (labels : gmap string string) (key : string) : string := default "" (labels !! key).
Definition claim_labels (c : PersistentVolumeClaim) : gmap string string := lm_Labels (pvc_Meta c).
Definition claim_name (c : PersistentVolumeClaim) : string := lm_Name (pvc_Meta c).
Definition claim_namespace (c : PersistentVolumeClaim) : string := lm_Namespace (pvc_Meta c).

Definition EnvironmentLabelValue (environmentID : Z) : string := "environment-" +:+ dec environmentID.

(** Whether the claim is the manager's, and the environment its label names, 0 for none. *)
Definition managedPVCEnvironmentID (claim : PersistentVolumeClaim) : bool * Z :=
  if negb (managed (claim_labels claim)) then (false, 0%Z)
  else
    let text := label_of (claim_labels claim) EnvironmentLabel in
    let value := trim_prefix text "environment-" in
    if decide (value = "" ∨ value = text) then (true, 0%Z)
    else match parse_uint value with Some environmentID => (true, environmentID) | None => (true, 0%Z) end.

Definition isManagedPVC (claim : PersistentVolumeClaim) (environmentID : Z) : bool :=
  let '(managed, claimEnvironmentID) := managedPVCEnvironmentID claim in
  managed && (bool_decide (claimEnvironmentID = environmentID) || bool_decide (claimEnvironmentID = 0%Z)).

Definition infrastructurePVCOwner (claim : PersistentVolumeClaim) : string :=
  if negb (managed (claim_labels claim)) then ""
  else if decide (claim_namespace claim = managedOCIRegistryNamespace ∧ claim_name claim = managedOCIRegistryPVCName)
  then InfrastructureOCIRegistry
  else
    let owner := label_of (claim_labels claim) InfrastructureLabel in
    if decide (owner ∈ [InfrastructureAlertmanager; InfrastructureVictoriaMetrics; InfrastructureLoki; InfrastructureRuntime])
    then owner else "".

Definition infrastructurePVCOwnerName (owner : string) : string :=
  if decide (owner = InfrastructureAlertmanager) then "Alertmanager"
  else if decide (owner = InfrastructureVictoriaMetrics) then "VictoriaMetrics"
  else if decide (owner = InfrastructureLoki) then "Loki 日志存储"
  else if decide (owner = InfrastructureRuntime) then "Agent Runtime"
  else if decide (owner = InfrastructureOCIRegistry) then "OCI 制品库"
  else owner.

(** ** What is known of a claim *)

Definition pinned_host (r : SelectorRequirement) : option string :=
  match sr_Values r with
  | [value] => if decide (sr_Key r = "kubernetes.io/hostname" ∧ sr_Operator r = "In") then Some value else None
  | _ => None
  end.
Definition persistentVolumeNodeName (volume : PersistentVolume) : string :=
  match pv_NodeAffinity volume with
  | None => ""
  | Some terms => default "" (head (omap pinned_host (concat terms)))
  end.

(** A path that is set and not blank. *)
Definition volume_path (p : option string) : option string :=
  match p with Some path => if decide (trim_space path = "") then None else Some path | None => None end.
Definition persistentVolumeLocalPath (volume : PersistentVolume) : string * bool :=
  match volume_path (pv_HostPath volume), volume_path (pv_Local volume) with
  | Some path, _ => (path, true)
  | None, Some path => (path, true)
  | None, None => ("", false)
  end.

Definition pvcInfoFromResources (claim : PersistentVolumeClaim) (storageClass : option StorageClass)
    (volume : option PersistentVolume) : PersistentVolumeClaimInfo :=
  let '(isManaged, environmentID) := managedPVCEnvironmentID claim in
  let owner := infrastructurePVCOwner claim in
  let owned := negb (bool_decide (owner = "")) in
  {| pi_Name := claim_name claim; pi_Namespace := claim_namespace claim;
     pi_Managed := isManaged; pi_EnvironmentID := environmentID;
     pi_OwnerType := if owned then "infrastructure" else if isManaged then "application" else "external";
     pi_Owner := if owned then owner else "";
     pi_OwnerName := if owned then infrastructurePVCOwnerName owner else "";
     pi_ReadOnly := owned;
     pi_Phase := pvc_Phase claim;
     pi_Storage := if decide (pvc_Capacity claim = "") then pvc_Requested claim else pvc_Capacity claim;
     pi_StorageClassName := default "" (pvc_StorageClassName claim);
     pi_VolumeName := pvc_VolumeName claim;
     pi_AccessModes := pvc_AccessModes claim;
     pi_BoundNode := from_option persistentVolumeNodeName "" volume;
     pi_LocalPath := from_option (λ v, (persistentVolumeLocalPath v).1) "" volume;
     pi_IsLocal := from_option (λ v, (persistentVolumeLocalPath v).2) false volume;
     pi_ReclaimPolicy := from_option pv_ReclaimPolicy "" volume;
     pi_WaitForFirstConsumer :=
       match storageClass ≫= sc_VolumeBindingMode with
       | Some mode => bool_decide (mode = "WaitForFirstConsumer")
       | None => false
       end;
     pi_CreationTimestamp := lm_CreationTimestamp (pvc_Meta claim) |}.

(** ** Operations of the client *)

Definition storage_uninitialized : goerr := EText "Kubernetes 存储客户端未初始化".

(** The objects of a list by name; the last one of a name stays. *)
Definition named {A} (name : A → string) (l : list A) : gmap string A := foldl (λ m a, <[name a := a]> m) ∅ l.

Definition by_info_name (a b : PersistentVolumeClaimInfo) : Prop := String.le (pi_Name a) (pi_Name b).
#[export] Instance by_info_name_dec a b : Decision (by_info_name a b).
Proof. unfold by_info_name. apply _. Defined.
(** By namespace, then by name. *)
Definition by_info_place (a b : PersistentVolumeClaimInfo) : Prop :=
  if decide (pi_Namespace a = pi_Namespace b) then String.le (pi_Name a) (pi_Name b)
  else String.le (pi_Namespace a) (pi_Namespace b).
#[export] Instance by_info_place_dec a b : Decision (by_info_place a b).
Proof. unfold by_info_place. case_decide; apply _. Defined.
(** The default classes first, then by name. *)
Definition by_class (a b : StorageClassInfo) : Prop :=
  if decide (si_IsDefault a = si_IsDefault b) then String.le (si_Name a) (si_Name b) else si_IsDefault a = true.
#[export] Instance by_class_dec a b : Decision (by_class a b).
Proof. unfold by_class. case_decide; apply _. Defined.

Definition default_class (annotations : gmap string string) : bool :=
  bool_decide (label_of annotations "storageclass.kubernetes.io/is-default-class" = "true")
  || bool_decide (label_of annotations "storageclass.beta.kubernetes.io/is-default-class" = "true").
Definition storage_class_info (c : StorageClass) : StorageClassInfo :=
  {| si_Name := sc_Name c; si_Provisioner := sc_Provisioner c; si_IsDefault := default_class (sc_Annotations c);
     si_VolumeBindingMode := default "" (sc_VolumeBindingMode c); si_ReclaimPolicy := default "" (sc_ReclaimPolicy c) |}.

Section client.
Context `{K8sLibrary} `{!APIServer}.
#[local] Abbreviation M := (M Cluster).

(** *** Volume claims *)

(** A missing class or volume is treated as an object without content. *)
Definition pvcInfo (ctx : Context) (claim : PersistentVolumeClaim) : M PersistentVolumeClaimInfo :=
  let name := default "" (pvc_StorageClassName claim) in
  storageClass ← (if decide (name = "") then mret None else
    r ← attempt (call ctx (GetStorageClass name));
    match r with
    | Ok current => mret (Some current)
    | Err e => if is_not_found e then mret None
               else throw (EWrap ("get storageclass " +:+ (name +:+ ": ")) e "")
    end);
  volume ← (if decide (pvc_VolumeName claim = "") then mret None else
    r ← attempt (call ctx (GetPersistentVolume (pvc_VolumeName claim)));
    match r with
    | Ok current => mret (Some current)
    | Err e => if is_not_found e then mret None
               else throw (EWrap ("get persistentvolume " +:+ (pvc_VolumeName claim +:+ ": ")) e "")
    end);
  mret (pvcInfoFromResources claim storageClass volume).

Definition pvcInfos (ctx : Context) (claims : list PersistentVolumeClaim) : M (list PersistentVolumeClaimInfo) :=
  if empty_list claims then mret [] else
  storageClasses ← wrapping (λ e, EWrap "list storageclasses: " e "") (call ctx ListStorageClasses);
  let classesByName := named sc_Name storageClasses in
  volumes ← wrapping (λ e, EWrap "list persistentvolumes: " e "") (call ctx ListPersistentVolumes);
  let volumesByName := named pv_Name volumes in
  mret ((λ claim : PersistentVolumeClaim, pvcInfoFromResources claim (classesByName !! default "" (pvc_StorageClassName claim))
    (volumesByName !! pvc_VolumeName claim)) <$> claims).

Definition ListManagedPVCsContext (client : Client) (ctx : Context) (namespace : string) (environmentID : Z) :
    M (list PersistentVolumeClaimInfo) :=
  guard_not (negb (kc_Clientset client)) storage_uninitialized ;;
  claims ← wrapping (λ e, EWrap "list persistentvolumeclaims: " e "")
    (call ctx (ListPVCs namespace (ManagedByLabel +:+ ("=" +:+ ManagedByValue))));
  infos ← pvcInfos ctx (List.filter (λ claim, isManagedPVC claim environmentID) claims);
  mret (merge_sort by_info_name infos).

Definition ListPVCsContext (client : Client) (ctx : Context) (namespace : string) : M (list PersistentVolumeClaimInfo) :=
  guard_not (negb (kc_Clientset client)) storage_uninitialized ;;
  claims ← wrapping (λ e, EWrap "list persistentvolumeclaims: " e "") (call ctx (ListPVCs namespace ""));
  infos ← pvcInfos ctx claims;
  mret (merge_sort by_info_place infos).

Definition get_claim (ctx : Context) (namespace name : string) : M PersistentVolumeClaim :=
  wrapping (λ e, EWrap ("get persistentvolumeclaim " +:+ (namespace +:+ ("/" +:+ (name +:+ ": ")))) e "")
    (call ctx (GetPVC namespace name)).

(** The two checks before the claim of an environment is used or deleted; [verb] is what is refused. *)
Definition owned_claim (name verb : string) (environmentID : Z) (claim : PersistentVolumeClaim) : M unit :=
  guard_not (negb (isManagedPVC claim environmentID)) (EText ("PVC " +:+ (quote name +:+ " 不属于当前环境或未由平台管理"))) ;;
  let owner := infrastructurePVCOwner claim in
  guard_not (negb (bool_decide (owner = "")))
    (EText ("PVC " +:+ (quote name +:+ (" 由基础设施组件 " +:+ (infrastructurePVCOwnerName owner +:+
      (" 管理，不能通过通用存储接口" +:+ verb)))))).

Definition GetManagedPVCContext (client : Client) (ctx : Context) (namespace name : string) (environmentID : Z) :
    M PersistentVolumeClaimInfo :=
  guard_not (negb (kc_Clientset client)) storage_uninitialized ;;
  claim ← get_claim ctx namespace name;
  owned_claim name "修改" environmentID claim ;;
  pvcInfo ctx claim.

Definition GetPVCInfoContext (client : Client) (ctx : Context) (namespace name : string) : M PersistentVolumeClaimInfo :=
  guard_not (negb (kc_Clientset client)) storage_uninitialized ;;
  claim ← get_claim ctx namespace name;
  pvcInfo ctx claim.

(** The labels and the body of the claim that is created. *)
Definition claim_request (namespace : string) (environmentID : Z) (request : PersistentVolumeClaimRequest) : ClaimRequest :=
  let labels := {[ManagedByLabel := ManagedByValue]} in
  {| cl_Name := trim_space (pq_Name request); cl_Namespace := namespace;
     cl_Labels := if decide (environmentID = 0%Z) then labels
                  else <[EnvironmentLabel := EnvironmentLabelValue environmentID]> labels;
     cl_AccessModes := ["ReadWriteOnce"];
     cl_Storage := trim_space (pq_Storage request);
     cl_StorageClassName :=
       let storageClassName := trim_space (pq_StorageClassName request) in
       if decide (storageClassName = "") then None else Some storageClassName |}.

(** [quantity.Sign() > 0], by comparison with the quantity "0" *)
Definition positive_quantity (text : string) : bool :=
  match ParseQuantity text, ParseQuantity "0" with
  | Some q, Some zero => bool_decide (0 < QuantityCmp q zero)%Z
  | _, _ => false
  end.

Definition CreateManagedPVCContext (ctx : Context) (namespace : string) (environmentID : Z)
    (request : PersistentVolumeClaimRequest) : M PersistentVolumeClaim :=
  let name := trim_space (pq_Name request) in
  guard_not (empty_str name || complains (IsDNS1123Label name)) (EText "PVC 名称必须是合法的 Kubernetes 名称") ;;
  guard_not (negb (positive_quantity (trim_space (pq_Storage request)))) (EText "存储容量格式无效") ;;
  wrapping (λ e, EWrap "create persistentvolumeclaim: " e "") (call ctx (CreatePVC (claim_request namespace environmentID request))).

Definition DeleteManagedPVCContext (ctx : Context) (namespace name : string) (environmentID : Z) : M unit :=
  claim ← get_claim ctx namespace name;
  owned_claim name "删除" environmentID claim ;;
  wrapping (λ e, EWrap "delete persistentvolumeclaim: " e "") (call ctx (DeletePVC namespace name)).

Definition ListStorageClassesContext (ctx : Context) : M (list StorageClassInfo) :=
  classes ← wrapping (λ e, EWrap "list storageclasses: " e "") (call ctx ListStorageClasses);
  mret (merge_sort by_class (storage_class_info <$> classes)).

(** *** Custom resources and the ingress controller *)

Definition CheckCRDContext (client : Client) (ctx : Context) (name : string) : M bool :=
  lift (kc_Dynamic client) ;;
  r ← attempt (call ctx (GetCRD name));
  match r with
  | Ok _ => mret true
  | Err e => if is_not_found e then mret false else throw e
  end.

(** The version of the first image that mentions traefik: what follows its last colon, unless that
    comes before the last slash. *)
Definition traefik_version (images : list string) : string :=
  match find_first (λ image, contains image "traefik") images with
  | Some image => if after_last "/" image <? after_last ":" image then drop_str (after_last ":" image) image else ""
  | None => ""
  end.
Definition ingressControllerStatusFromDeployment (deployment : LiveDeployment) (crd : bool) : IngressControllerStatus :=
  {| ics_Type := "Traefik"; ics_CRD := crd; ics_Namespace := lm_Namespace (ld_Meta deployment);
     ics_Running := bool_decide (0 < ld_ReadyReplicas deployment)%Z;
     ics_Version := traefik_version (ld_Images deployment) |}.

Definition deployment_named (parts : list string) (d : LiveDeployment) : bool :=
  existsb (contains (lm_Name (ld_Meta d))) parts.

Definition detectIngressControllerContext (client : Client) (ctx : Context) : M IngressControllerStatus :=
  crd ← attempt (CheckCRDContext client ctx "ingressroutes.traefik.io");
  let traefikCRD := from_ok false crd in
  traefik ← attempt (call ctx (GetDeployment "kube-system" "traefik"));
  match traefik with
  | Ok deployment => mret (ingressControllerStatusFromDeployment deployment traefikCRD)
  | Err e =>
      if negb (is_not_found e) then throw (EWrap "get kube-system/traefik deployment: " e "") else
      deployments ← wrapping (λ e, EWrap "list deployments: " e "") (call ctx (ListDeployments ""));
      match find_first (deployment_named ["traefik"]) deployments with
      | Some d => mret (ingressControllerStatusFromDeployment d traefikCRD)
      | None =>
          match find_first (deployment_named ["nginx-ingress"; "ingress-nginx"]) deployments with
          | Some d => mret {| ics_Type := "NGINX Ingress"; ics_CRD := traefikCRD;
              ics_Namespace := lm_Namespace (ld_Meta d);
              ics_Running := bool_decide (0 < ld_ReadyReplicas d)%Z; ics_Version := "" |}
          | None => mret {| ics_Type := "Unknown"; ics_CRD := traefikCRD; ics_Namespace := ""; ics_Running := false; ics_Version := "" |}
          end
      end
  end.

Definition cachedIngressControllerStatus (cache : option (IngressControllerStatus * Z)) (now : Z) :
    option IngressControllerStatus :=
  match cache with
  | Some (status, expiresAt) => if decide (now < expiresAt)%Z then Some status else None
  | None => None
  end.
Definition ingressControllerCacheTTL : Z := 60 * second.

(** Under [ingressControllerMu], so that no other call comes in between. *)
Definition DetectIngressControllerContext (client : Client) (ctx : Context) : M IngressControllerStatus :=
  cache ← gets c_cache;
  now ← gets c_time;
  match cachedIngressControllerStatus cache now with
  | Some status => mret status
  | None =>
      status ← detectIngressControllerContext client ctx;
      now ← gets c_time;
      modify (with_cache (Some (status, now + ingressControllerCacheTTL)%Z)) ;;
      mret status
  end.
End client.

(** ** Lemmas *)

(** The environment a label was written for is read back. *)
Lemma environment_label_read claim env :
  managed (claim_labels claim) = true → is_u64 env →
  label_of (claim_labels claim) EnvironmentLabel = EnvironmentLabelValue env →
  managedPVCEnvironmentID claim = (true, env).
Proof.
  intros Hm Henv Hl. unfold managedPVCEnvironmentID. rewrite Hm, Hl. unfold EnvironmentLabelValue. cbn [negb].
  rewrite trim_prefix_app, parse_uint_dec by done. rewrite decide_False; [done|]. intros [He|He].
  - pose proof (parse_uint_dec env Henv) as Hp. by rewrite He in Hp.
  - apply (f_equal String.length) in He. rewrite length_str_app in He. simpl in He. lia.
Qed.

Section claims.
Context `{K8sLibrary} `{!APIServer}.

(** What the owner check lets through. *)
Definition claim_of (env : Z) (claim : PersistentVolumeClaim) : Prop :=
  managed (claim_labels claim) = true ∧ infrastructurePVCOwner claim = "" ∧
  ∀ env', is_u64 env' → label_of (claim_labels claim) EnvironmentLabel = EnvironmentLabelValue env' → env' = env ∨ env' = 0%Z.

Lemma owned_claim_Ok name verb env claim (c c' : Cluster) u :
  owned_claim name verb env claim c = (Ok u, c') → c' = c ∧ claim_of env claim.
Proof.
  unfold owned_claim. intros (? & c1 & [Hm ->]%guard_not_Ok & [Ho ->]%guard_not_Ok)%bind_Ok. split; [done|].
  apply negb_false_iff in Hm. apply negb_false_iff, bool_decide_eq_true in Ho.
  unfold isManagedPVC in Hm. destruct (managedPVCEnvironmentID claim) as [m i] eqn:He.
  apply andb_true_iff in Hm as [-> Hm].
  assert (managed (claim_labels claim) = true) as Hman.
  { unfold managedPVCEnvironmentID in He. by destruct (managed _). }
  split_and!; [done..|]. intros env' Henv Hl. rewrite (environment_label_read claim env') in He by done. simplify_eq.
  apply orb_true_iff in Hm. rewrite !bool_decide_eq_true in Hm. tauto.
Qed.

Lemma owned_claim_log name verb env claim (c : Cluster) : (owned_claim name verb env claim c).2 = c.
Proof. unfold owned_claim, guard_not. destruct (negb (isManagedPVC claim env)); [done|]. simpl. by destruct (negb _). Qed.

(** C23: Deleting a claim on behalf of an environment reads the claim and sends the deletion only when the
    manager owns it, no infrastructure component does, and its label names that environment or none;
    otherwise the caller gets an error and nothing was written. Conversely the label written by
    [CreateManagedPVCContext] names exactly the environment it was created for. *)
Theorem claims_stay_in_their_environment ctx ns name env (c : Cluster) :
  (let '(r, c') := DeleteManagedPVCContext ctx ns name env c in
   (∃ answer, c_log c' = c_log c ++ [Exchange (GetPVC ns name) answer] ∧ is_ok r = false) ∨
   (∃ claim answer, c_log c' = c_log c ++ [Exchange (GetPVC ns name) (Ok claim); Exchange (DeletePVC ns name) answer] ∧
     claim_of env claim ∧ is_ok r = is_ok answer)) ∧
  (∀ request claim, is_u64 env → claim_labels claim = cl_Labels (claim_request ns env request) →
    managedPVCEnvironmentID claim = (true, env)).
Proof.
  split.
  - unfold DeleteManagedPVCContext, get_claim. rewrite (wrapped_call_bind _ ctx (GetPVC ns name)).
    destruct (respond c ctx (GetPVC ns name)) as [claim|e] eqn:Hr; [|left; eexists; by simpl].
    set (c1 := exchanged ctx _ c).
    assert (c_log c1 = c_log c ++ [Exchange (GetPVC ns name) (Ok claim)]) as Hc1 by (simpl; by rewrite Hr).
    unfold mbind, M_bind. pose proof (owned_claim_log name "删除" env claim c1) as Hlog.
    destruct (owned_claim name "删除" env claim c1) as [[u|e] c2] eqn:Ho; simpl in Hlog; subst c2.
    + right. apply owned_claim_Ok in Ho as [_ Hc]. exists claim, (respond c1 ctx (DeletePVC ns name)).
      unfold wrapping. cbn [call fst snd exchanged c_log]. rewrite Hc1, <-app_assoc. split_and!; [done..|].
      by destruct (respond c1 _ _).
    + left. exists (Ok claim). by rewrite Hc1.
  - intros request claim Henv Hl. destruct (decide (env = 0%Z)) as [->|Hne].
    + unfold managedPVCEnvironmentID. rewrite Hl. done.
    + apply environment_label_read; [|done|]; rewrite Hl; unfold claim_request; cbn [cl_Labels]; rewrite decide_False by done.
      * done.
      * unfold label_of. by rewrite lookup_insert_eq.
Qed.
End claims.
