(* ===== verification/KubernetesApplier.v ===== *)
(** * The Kubernetes applier

    [internal/service/application/kubernetes_applier.go] and its adapters in [internal/k8s/application.go]:
    the implementation of the interfaces the release components use. Every function takes the context
    of its call. The adapters are [option Client]: [None] is the nil interface, whose use without a
    guard is a panic. The theorems: every write of the applier comes right after the read that
    licenses it, so objects of others are never overwritten; objects are applied in order and
    nothing after a failure; waiting terminates, and succeeds only on an observation of readiness; a
    failed migration of the workload puts the old one back; diagnostics are bounded and redacted. *)
From Stdlib Require Import ZArith Ascii String.
From stdpp Require Import base sorting pretty numbers gmap strings list.
From S2P Require Import Prelude GoStrings Json ReleaseSpec ReleaseSnapshot Models ReleaseValidation ReleaseRendering Cluster ClusterResources.

(** The parsers of [go-containerregistry/pkg/name] and [net/url]. *)
Record URL := { url_Scheme : string; url_Host : string; url_Path : string }.
Class ImageNames := {
  ParseImage : string → result ImageReference;
  (** registry and repository of [name.NewRepository(text, options)], with [name.Insecure] or not *)
  NewRepository : string → bool → result (string * string);
  ParseRequestURI : string → result URL
}.

Definition minute : Z := 60 * second.

Record KubernetesApplier := {
  ka_resources : option Client;
  ka_preflight : option Client;
  ka_workloads : option Client;
  ka_endpoints : option Client;
  ka_diagnostics : option Client;
  ka_ReadinessTimeout : Z
}.

Definition NewKubernetesApplier (client : Client) : KubernetesApplier :=
  {| ka_resources := Some client; ka_preflight := Some client; ka_workloads := Some client;
     ka_endpoints := Some client; ka_diagnostics := Some client; ka_ReadinessTimeout := 2 * minute |}.

Definition uninitialized : goerr := EText "Kubernetes 客户端未初始化".
Definition nil_pointer : goerr := ESent "panic" "invalid memory address or nil pointer dereference".
Definition unmanaged : goerr := EText "同名资源不受 Cylism Manager 管理".

(** ** Diagnostics *)

Definition redact_one (detail credential : string) : string :=
  let credential := trim_space credential in
  if decide (credential = "") then detail else replace_all detail credential "[REDACTED]".

Definition redactReleaseDiagnostic (detail : string) (spec : ReleaseSpec) : string :=
  let detail := foldl redact_one (trim_space detail) [rs_RegistryCredential spec; rs_ImageVerificationCredential spec] in
  if decide (1000 < String.length detail) then take_str 1000 detail else detail.

Definition terminalContainerWaitingReason (reason : string) : bool :=
  bool_decide (reason ∈ ["ErrImagePull"; "ImagePullBackOff"; "InvalidImageName"; "CreateContainerConfigError";
                         "CreateContainerError"; "RunContainerError"]).

(** [if message != "" { diagnostic += ": " + message }] *)
Definition with_message (diagnostic message : string) : string :=
  if decide (message = "") then diagnostic else diagnostic +:+ (": " +:+ message).
Definition container_text (podName containerName : string) : string :=
  "Pod " +:+ (podName +:+ (" 的容器 " +:+ containerName)).
Definition waiting_text (podName containerName : string) (w : WaitingState) : string :=
  with_message (container_text podName containerName +:+ (": " +:+ wt_Reason w)) (wt_Message w).
Definition event_text (e : Event) : string :=
  "Pod " +:+ (ev_InvolvedName e +:+ (": " +:+ (ev_Reason e +:+ (": " +:+ ev_Message e)))).
Definition pod_name (p : Pod) : string := lm_Name (pod_Meta p).
Definition unscheduled (c : PodCondition) : bool :=
  bool_decide (pc_Type c = "PodScheduled" ∧ pc_Status c = "False" ∧ pc_Message c ≠ "").
Definition scheduling_text (podName : string) (c : PodCondition) : string :=
  "Pod " +:+ (podName +:+ (" 调度失败: " +:+ pc_Message c)).

(** The walk over the pods: the last diagnostic so far, or a terminal one that ends the walk. *)
Fixpoint containers_diagnostic (spec : ReleaseSpec) (podName last : string) (statuses : list ContainerStatus) :
    string + string :=
  match statuses with
  | [] => inl last
  | status :: statuses =>
      match cs_Waiting status with
      | Some waiting =>
          if decide (wt_Reason waiting = "") then containers_diagnostic spec podName last statuses
          else
            let diagnostic := redactReleaseDiagnostic (waiting_text podName (cs_Name status) waiting) spec in
            if terminalContainerWaitingReason (wt_Reason waiting) then inr diagnostic
            else containers_diagnostic spec podName diagnostic statuses
      | None => containers_diagnostic spec podName last statuses
      end
  end.
Definition condition_diagnostic (spec : ReleaseSpec) (podName last : string) (c : PodCondition) : string :=
  if unscheduled c then redactReleaseDiagnostic (scheduling_text podName c) spec else last.
Definition pod_diagnostic (spec : ReleaseSpec) (last : string) (pod : Pod) : string + string :=
  if decide (pod_Phase pod = "Failed") then
    inr (redactReleaseDiagnostic ("Pod " +:+ (pod_name pod +:+ (" 已失败: " +:+ pod_Message pod))) spec)
  else
    match containers_diagnostic spec (pod_name pod) last (pod_ContainerStatuses pod) with
    | inr terminal => inr terminal
    | inl last => inl (foldl (condition_diagnostic spec (pod_name pod)) last (pod_Conditions pod))
    end.
Fixpoint pods_diagnostic (spec : ReleaseSpec) (last : string) (pods : list Pod) : string + string :=
  match pods with
  | [] => inl last
  | pod :: pods =>
      match pod_diagnostic spec last pod with
      | inr terminal => inr terminal
      | inl last => pods_diagnostic spec last pods
      end
  end.
Definition pod_warning (names : list string) (e : Event) : bool :=
  bool_decide (ev_Type e = "Warning" ∧ ev_InvolvedKind e = "Pod" ∧ ev_InvolvedName e ∈ names ∧ ev_Message e ≠ "").
Definition event_diagnostic (spec : ReleaseSpec) (names : list string) (last : string) (e : Event) : string :=
  if pod_warning names e then redactReleaseDiagnostic (event_text e) spec else last.

(** ** Live runtime of a release *)

(** Addition of two [int32]. *)
Definition add32 (a b : Z) : Z := (a + b + 2 ^ 31) `mod` 2 ^ 32 - 2 ^ 31.

(** State, reason, message, exit code and diagnostic from the current state of the container. *)
Definition current_state (podName : string) (s : ContainerStatus) :
    string * string * string * option Z * string :=
  match cs_Waiting s, cs_Terminated s with
  | Some w, _ => ("waiting", wt_Reason w, wt_Message w, None, waiting_text podName (cs_Name s) w)
  | None, Some t => ("terminated", tm_Reason t, tm_Message t, Some (tm_ExitCode t),
      container_text podName (cs_Name s) +:+ (" 已退出: " +:+ (tm_Reason t +:+ (" (退出码 " +:+ (dec (tm_ExitCode t) +:+ ")")))))
  | None, None => (if cs_Running s then "running" else "", "", "", None, "")
  end.

(** The diagnostic after the last termination state was looked at. *)
Definition last_exit_diagnostic (podName : string) (s : ContainerStatus) (diagnostic : string) : string :=
  match cs_LastTerminated s with
  | None => diagnostic
  | Some t =>
      if decide (0 < cs_RestartCount s ∧ tm_ExitCode t = 0)%Z then
        let lastExit := container_text podName (cs_Name s) +:+
          (" 曾正常退出 (退出码 0)，但已重启 " +:+ (dec (cs_RestartCount s) +:+ " 次")) in
        if decide (diagnostic = "") then lastExit else diagnostic +:+ ("；" +:+ lastExit)
      else if decide (diagnostic = "" ∧ 0 < cs_RestartCount s)%Z then
        container_text podName (cs_Name s) +:+ (" 上次退出: " +:+ (tm_Reason t +:+ (" (退出码 " +:+
          (dec (tm_ExitCode t) +:+ ("，已重启 " +:+ (dec (cs_RestartCount s) +:+ " 次"))))))
      else diagnostic
  end.

Definition releaseContainerRuntime (podName : string) (status : ContainerStatus) : ReleaseContainerRuntime * string :=
  let '(state, reason, message, exitCode, diagnostic) := current_state podName status in
  let diagnostic := last_exit_diagnostic podName status diagnostic in
  let diagnostic :=
    if bool_decide (diagnostic = "") && negb (cs_Ready status)
    then container_text podName (cs_Name status) +:+ " 尚未就绪" else diagnostic in
  ({| rc_Name := cs_Name status; rc_Image := cs_Image status; rc_Ready := cs_Ready status;
      rc_RestartCount := cs_RestartCount status; rc_State := state; rc_Reason := reason; rc_Message := message;
      rc_ExitCode := exitCode;
      rc_LastState := match cs_LastTerminated status with Some _ => "terminated" | None => "" end;
      rc_LastReason := match cs_LastTerminated status with Some t => tm_Reason t | None => "" end;
      rc_LastExitCode := tm_ExitCode <$> cs_LastTerminated status |}, diagnostic).

(** Trimmed, without the empty ones and the repetitions. *)
Definition distinct_diagnostics (diagnostics : list string) : list string :=
  dedup_by id (List.filter (λ d, negb (bool_decide (d = ""))) (trim_space <$> diagnostics)).
Definition releaseRuntimeDiagnostic (diagnostics : list string) : string :=
  redactReleaseDiagnostic (join "；" (distinct_diagnostics diagnostics)) zero_ReleaseSpec.

Definition nonempty_texts (l : list string) : list string := List.filter (λ d, negb (bool_decide (d = ""))) l.

Definition releasePodRuntime (pod : Pod) : ReleasePodRuntime * string :=
  let containers := releaseContainerRuntime (pod_name pod) <$> pod_ContainerStatuses pod in
  let diagnostics :=
    (if decide (pod_Phase pod = "Failed")
     then ["Pod " +:+ (pod_name pod +:+ (" 已失败: " +:+ trim_space (pod_Message pod)))] else [])
    ++ (scheduling_text (pod_name pod) <$> List.filter unscheduled (pod_Conditions pod))
    ++ nonempty_texts (snd <$> containers) in
  let diagnostic := releaseRuntimeDiagnostic diagnostics in
  ({| rp_Name := pod_name pod; rp_NodeName := pod_NodeName pod; rp_Phase := pod_Phase pod;
      rp_Ready := negb (empty_list containers) && bool_decide (pod_Phase pod = "Running")
        && forallb rc_Ready (fst <$> containers);
      rp_Restarts := foldl (λ n s, add32 n (cs_RestartCount s)) 0%Z (pod_ContainerStatuses pod);
      rp_CreatedAt := lm_CreationTimestamp (pod_Meta pod); rp_Containers := fst <$> containers;
      rp_Diagnostic := diagnostic |}, diagnostic).

(** [sort.Slice(pods, by name)]; the names of the pods of a namespace are distinct *)
Definition by_pod_name (a b : ReleasePodRuntime) : Prop := String.le (rp_Name a) (rp_Name b).
#[export] Instance by_pod_name_dec a b : Decision (by_pod_name a b).
Proof. unfold by_pod_name. apply _. Defined.
Definition sort_pods (pods : list ReleasePodRuntime) : list ReleasePodRuntime := merge_sort by_pod_name pods.

(** ** The adapters *)

Section adapters.
Context `{K8sLibrary} `{!APIServer}.
#[local] Abbreviation M := (M Cluster).

(** A call through an interface that may be nil. *)
Definition through {A} (adapter : option Client) (f : Client → M A) : M A :=
  match adapter with Some client => f client | None => throw nil_pointer end.

Definition ready (client : Client) : M unit := guard_not (negb (kc_Clientset client)) uninitialized.
Definition ensureApplicationManaged (labels : gmap string string) : M unit :=
  guard_not (negb (managed labels)) unmanaged.

(** The common shape of the seven operations: get, then create or check the owner and update. *)
Definition apply_desired {L} (get : M L) (meta : L → LiveMeta) (create : M unit) (update : L → M unit) : M unit :=
  existing ← attempt get;
  match existing with
  | Err e => if is_not_found e then create else throw e
  | Ok live => ensureApplicationManaged (lm_Labels (meta live)) ;; update live
  end.

Definition ApplyConfigMap (client : Client) (ctx : Context) (desired : ConfigMap) : M unit :=
  ready client ;;
  apply_desired (call ctx (GetConfigMap (om_Namespace (cm_Meta desired)) (om_Name (cm_Meta desired)))) lc_Meta
    (call ctx (CreateConfigMap desired))
    (λ existing, call ctx (UpdateConfigMap desired (lm_ResourceVersion (lc_Meta existing)))).
Definition ApplySecret (client : Client) (ctx : Context) (desired : Secret) : M unit :=
  ready client ;;
  apply_desired (call ctx (GetSecret (om_Namespace (sec_Meta desired)) (om_Name (sec_Meta desired)))) ls_Meta
    (call ctx (CreateSecret desired))
    (λ existing, call ctx (UpdateSecret desired (lm_ResourceVersion (ls_Meta existing)))).
Definition ApplyDeployment (client : Client) (ctx : Context) (desired : Deployment) : M unit :=
  ready client ;;
  apply_desired (call ctx (GetDeployment (om_Namespace (dep_Meta desired)) (om_Name (dep_Meta desired)))) ld_Meta
    (call ctx (CreateDeployment desired))
    (λ existing, call ctx (ReplaceDeployment desired (lm_ResourceVersion (ld_Meta existing)))).
Definition ApplyStatefulSet (client : Client) (ctx : Context) (desired : StatefulSet) : M unit :=
  ready client ;;
  apply_desired (call ctx (GetStatefulSet (om_Namespace (sts_Meta desired)) (om_Name (sts_Meta desired)))) lt_Meta
    (call ctx (CreateStatefulSet desired))
    (λ existing, call ctx (ReplaceStatefulSet desired (lm_ResourceVersion (lt_Meta existing)))).
Definition ApplyService (client : Client) (ctx : Context) (desired : Service) : M unit :=
  ready client ;;
  apply_desired (call ctx (GetService (om_Namespace (srv_Meta desired)) (om_Name (srv_Meta desired)))) lsv_Meta
    (call ctx (CreateService desired))
    (λ existing, call ctx (UpdateService desired (lm_ResourceVersion (lsv_Meta existing)) (lsv_ClusterIP existing))).
Definition ApplyIngress (client : Client) (ctx : Context) (desired : Ingress) : M unit :=
  ready client ;;
  apply_desired (call ctx (GetIngress (om_Namespace (ing_Meta desired)) (om_Name (ing_Meta desired)))) (λ m : LiveMeta, m)
    (call ctx (CreateIngress desired))
    (λ existing : LiveMeta, call ctx (UpdateIngress desired (lm_ResourceVersion existing))).
Definition ApplyCertificate (client : Client) (ctx : Context) (desired : Certificate) : M unit :=
  ready client ;;
  lift (kc_Dynamic client) ;;
  apply_desired (call ctx (GetCertificate (om_Namespace (cert_Meta desired)) (om_Name (cert_Meta desired)))) fst
    (call ctx (CreateCertificate desired))
    (λ existing, call ctx (UpdateCertificate desired (lm_ResourceVersion (fst existing)))).

Definition CertificateReady (client : Client) (ctx : Context) (namespace name : string) : M bool :=
  lift (kc_Dynamic client) ;;
  certificate ← call ctx (GetCertificate namespace name);
  mret (existsb (λ c : string * string, bool_decide (c = ("Ready", "True"))) (snd certificate)).
End adapters.

(** ** The applier *)

Section applier.
Context `{K8sLibrary} `{!APIServer} `{ImageNames}.
#[local] Abbreviation M := (M Cluster).
Context (a : KubernetesApplier).

(** *** Images *)

Definition imageVerificationReference (spec : ReleaseSpec) : result ImageReference :=
  source ← ParseImage (trim_space (rs_Image spec));
  if decide (trim_space (rs_ImageVerificationEndpoint spec) = "") then Ok source else
  match ParseRequestURI (rs_ImageVerificationEndpoint spec) with
  | Err _ => Err (EText "镜像代理地址无效")
  | Ok target =>
      if bool_decide (url_Host target = "")
        || (bool_decide (url_Scheme target ≠ "https") && bool_decide (url_Scheme target ≠ "http"))
        || (bool_decide (url_Path target ≠ "") && bool_decide (url_Path target ≠ "/"))
      then Err (EText "镜像代理地址无效") else
      let insecure := bool_decide (url_Scheme target = "http") in
      repository ← NewRepository (url_Host target +:+ ("/" +:+ ref_Repository source)) insecure;
      Ok {| ref_Registry := fst repository; ref_Repository := snd repository; ref_Insecure := insecure;
            ref_Identifier := ref_Identifier source |}
  end.

Definition verification_auth (spec : ReleaseSpec) : ImageAuth :=
  if decide (rs_ImageVerificationEndpoint spec ≠ "") then
    if decide (rs_ImageVerificationUsername spec ≠ "")
    then BasicAuth (rs_ImageVerificationUsername spec) (rs_ImageVerificationCredential spec) else Anonymous
  else
    let authType := trim_space (rs_RegistryAuthType spec) in
    if decide (authType = "" ∨ authType = "anonymous") then Anonymous
    else if decide (authType = "token") then RegistryToken (rs_RegistryCredential spec)
    else BasicAuth (rs_RegistryUsername spec) (rs_RegistryCredential spec).
Definition verification_insecure (spec : ReleaseSpec) : bool :=
  bool_decide (rs_ImageVerificationEndpoint spec ≠ "") && rs_ImageVerificationInsecureSkipVerify spec.

Definition Applier_VerifyImage (ctx : Context) (spec : ReleaseSpec) : M unit :=
  ref ← lift (map_err (λ e, EWrap "镜像地址无效: " e "") (imageVerificationReference spec));
  now ← gets c_time;
  let verifyCtx := with_timeout ctx (15 * second) now in
  head ← attempt (call verifyCtx (HeadImage ref (verification_auth spec) (verification_insecure spec)));
  match head with
  | Ok _ => mret tt
  | Err e => throw (EText ("镜像版本 " +:+ (quote (rs_Image spec) +:+
      (" 不存在或不可访问: " +:+ redactReleaseDiagnostic (err_text e) spec))))
  end.

(** *** Preflight *)

Definition mounted_keys (values : gmap string string) (key missing : string) : M unit :=
  guard_not (bool_decide (values !! key = None)) (EText (missing +:+ (" 不包含键 " +:+ quote key))).

(** The object behind a file mount holds its key. *)
Definition validate_file_mount (ctx : Context) (application : ApplicationContext) (spec : ReleaseSpec)
    (fileMount : FileMountSpec) : M unit :=
  let key := fm_Key fileMount in
  let name := fm_SourceName fileMount in
  if decide (fm_SourceType fileMount = FileMountSourceApplicationConfig) then
    mounted_keys (enabled_config spec) key "当前应用 ConfigMap"
  else if decide (fm_SourceType fileMount = FileMountSourceApplicationSecret) then
    mounted_keys (enabled_secrets spec) key "当前应用 Secret"
  else if decide (fm_SourceType fileMount = FileMountSourceSecret) then
    through (ka_preflight a) (λ _,
    r ← attempt (call ctx (GetSecret (ac_Namespace application) name));
    match r with
    | Err e => if is_not_found e then throw (EText ("文件挂载 Secret " +:+ (quote name +:+ " 不存在")))
               else throw (EWrap ("读取文件挂载 Secret " +:+ (quote name +:+ ": ")) e "")
    | Ok secret => mounted_keys (ls_Data secret) key ("文件挂载 Secret " +:+ quote name)
    end)
  else if decide (fm_SourceType fileMount = FileMountSourceConfigMap) then
    through (ka_preflight a) (λ _,
    r ← attempt (call ctx (GetConfigMap (ac_Namespace application) name));
    match r with
    | Err e => if is_not_found e then throw (EText ("文件挂载 ConfigMap " +:+ (quote name +:+ " 不存在")))
               else throw (EWrap ("读取文件挂载 ConfigMap " +:+ (quote name +:+ ": ")) e "")
    | Ok configMap => mounted_keys (lc_Data configMap ∪ lc_BinaryData configMap) key ("文件挂载 ConfigMap " +:+ quote name)
    end)
  else throw (EText ("不支持的文件挂载来源类型 " +:+ quote (fm_SourceType fileMount))).
Definition ValidateFileMountSources (ctx : Context) (application : ApplicationContext) (spec : ReleaseSpec) : M unit :=
  for_each (validate_file_mount ctx application spec) (rs_FileMounts spec).

(** The claim is bound where the application runs, or waits for it there. *)
Definition claim_usable (spec : ReleaseSpec) (volume : VolumeMountSpec) (claim : PersistentVolumeClaimInfo) : result unit :=
  let name := quote (vm_ClaimName volume) in
  if decide (pi_Phase claim = "Bound") then
    if decide (pi_BoundNode claim ≠ "" ∧ pi_BoundNode claim ≠ rs_NodeName spec)
    then Err (EText ("PVC " +:+ (name +:+ (" 已绑定节点 " +:+ (quote (pi_BoundNode claim) +:+ "，部署节点必须保持一致")))))
    else Ok tt
  else if decide (pi_Phase claim = "Pending") then
    if negb (pi_WaitForFirstConsumer claim) || bool_decide (rs_NodeName spec = "")
    then Err (EText ("PVC " +:+ (name +:+ " 尚未就绪；本地卷首次挂载前请选择部署节点"))) else Ok tt
  else Err (EText ("PVC " +:+ (name +:+ (" 当前状态为 " +:+ (pi_Phase claim +:+ "，不能挂载"))))).

Definition ValidatePersistentVolumeClaims (ctx : Context) (application : ApplicationContext) (spec : ReleaseSpec) : M unit :=
  if empty_list (rs_Volumes spec) then mret tt else
  guard_not (bool_decide (rs_Replicas spec ≠ 1%Z)) (EText "ReadWriteOnce PVC 仅支持单副本应用") ;;
  (if decide (rs_NodeName spec = "") then mret tt else
    through (ka_preflight a) (λ _, wrapping (λ e, EWrap ("检查部署节点 " +:+ (quote (rs_NodeName spec) +:+ ": ")) e "")
      (call ctx (GetNode (rs_NodeName spec)) ;; mret tt))) ;;
  for_each (λ volume,
    claim ← through (ka_preflight a) (λ client, GetManagedPVCContext client ctx (ac_Namespace application)
      (vm_ClaimName volume) (ac_EnvironmentID application));
    lift (claim_usable spec volume claim)) (rs_Volumes spec).

Definition Applier_Preflight (ctx : Context) (application : ApplicationContext) (spec : ReleaseSpec) : M unit :=
  match ka_preflight a, ka_resources a with
  | Some client, Some _ =>
      r ← attempt (call ctx (GetNamespace (ac_Namespace application)));
      phase ← (match r with
        | Ok namespace => mret (ln_Phase namespace)
        | Err e => if is_not_found e
            then throw (EText ("环境命名空间 " +:+ (quote (ac_Namespace application) +:+ " 不存在，请在环境页面创建或同步命名空间")))
            else throw (EWrap "检查环境命名空间: " e "")
        end);
      guard_not (bool_decide (phase ≠ "Active")) (EText ("环境命名空间 " +:+ (quote (ac_Namespace application) +:+ " 未就绪"))) ;;
      ValidatePersistentVolumeClaims ctx application spec ;;
      ValidateFileMountSources ctx application spec ;;
      if decide (ep_Exposure (rs_Endpoint spec) ≠ ExposurePublic) then mret tt else
      status ← attempt (DetectIngressControllerContext client ctx);
      guard_not (match status with Ok s => negb (ics_Running s) | Err _ => true end) (EText "Ingress Controller 未就绪") ;;
      if ep_TLSEnabled (rs_Endpoint spec) then
        ok ← attempt (CheckCRDContext client ctx "certificates.cert-manager.io");
        guard_not (negb (from_ok false ok)) (EText "cert-manager Certificate CRD 不可用")
      else mret tt
  | _, _ => throw uninitialized
  end.

(** *** Applying *)

(** [if o != nil { if err := f(o); err != nil { return err } }] *)
Definition when_set {A} (f : A → M unit) (o : option A) : M unit :=
  match o with Some x => f x | None => mret tt end.

Definition Applier_Apply (ctx : Context) (resources : RenderedResources) : M unit :=
  match ka_resources a with
  | None => throw (EText "Kubernetes 资源应用器未初始化")
  | Some client =>
      when_set (ApplySecret client ctx) (rd_ImagePullSecret resources) ;;
      when_set (ApplyConfigMap client ctx) (rd_ConfigMap resources) ;;
      when_set (ApplySecret client ctx) (rd_Secret resources) ;;
      when_set (ApplyDeployment client ctx) (rd_Deployment resources) ;;
      when_set (ApplyStatefulSet client ctx) (rd_StatefulSet resources) ;;
      ApplyService client ctx (rd_Service resources) ;;
      when_set (ApplyCertificate client ctx) (rd_Certificate resources) ;;
      when_set (ApplyIngress client ctx) (rd_Ingress resources)
  end.

(** *** Endpoints *)

Definition ensureManaged (labels : gmap string string) : M unit := guard_not (negb (managed labels)) unmanaged.

Definition RemoveEndpoint (ctx : Context) (application : ApplicationContext) : M unit :=
  match ka_endpoints a with
  | None => throw uninitialized
  | Some _ =>
      r ← attempt (call ctx (GetIngress (ac_Namespace application) (ac_ApplicationName application)));
      match r with
      | Err e => if is_not_found e then mret tt else throw e
      | Ok ingress =>
          ensureManaged (lm_Labels (ingress : LiveMeta)) ;;
          call ctx (DeleteIngress (ac_Namespace application) (ac_ApplicationName application))
      end
  end.

Definition public_endpoint (endpoint : ApplicationEndpoint) : bool :=
  bool_decide (ae_IngressMode endpoint ≠ "metadata")
  && (bool_decide (ae_Exposure endpoint = "") || bool_decide (ae_Exposure endpoint = ExposurePublic)).

Definition Applier_SyncApplicationEndpoints (ctx : Context) (application : ApplicationContext)
    (endpoints : list ApplicationEndpoint) (servicePort : Z) : M unit :=
  match ka_endpoints a, ka_resources a with
  | Some _, Some client =>
      let publicEndpoints := List.filter public_endpoint endpoints in
      if empty_list publicEndpoints then RemoveEndpoint ctx application
      else ApplyIngress client ctx (applicationEndpointsIngress application publicEndpoints servicePort)
  | _, _ => throw uninitialized
  end.

Definition SyncEndpoint (ctx : Context) (application : ApplicationContext) (endpoint : EndpointSpec) (servicePort : Z) : M unit :=
  Applier_SyncApplicationEndpoints ctx application
    [endpoint_row (ep_Exposure endpoint) (ep_Domain endpoint) (ep_Path endpoint) (ep_TLSEnabled endpoint)
       (ep_ManagedTLSSecretName endpoint)] servicePort.

(** *** Readiness *)

Definition deployment_ready (replicas : Z) (d : LiveDeployment) : bool :=
  bool_decide (lm_Generation (ld_Meta d) ≤ ld_ObservedGeneration d)%Z && bool_decide (replicas ≤ ld_UpdatedReplicas d)%Z
  && bool_decide (replicas ≤ ld_AvailableReplicas d)%Z && bool_decide (ld_UnavailableReplicas d = 0%Z).
Definition stateful_set_ready (replicas : Z) (s : LiveStatefulSet) : bool :=
  bool_decide (lm_Generation (lt_Meta s) ≤ lt_ObservedGeneration s)%Z && bool_decide (replicas ≤ lt_ReadyReplicas s)%Z
  && bool_decide (replicas ≤ lt_CurrentReplicas s)%Z.

Definition workloadReady (ctx : Context) (application : ApplicationContext) (replicas : Z) : M bool :=
  let ns := ac_Namespace application in
  let name := ac_ApplicationName application in
  through (ka_workloads a) (λ _,
    if decide (ac_WorkloadKind application = WorkloadKindStatefulSet) then
      statefulSet ← wrapping (λ e, EWrap "读取 StatefulSet 就绪状态: " e "") (call ctx (GetStatefulSet ns name));
      mret (stateful_set_ready replicas statefulSet)
    else
      deployment ← wrapping (λ e, EWrap "读取 Deployment 就绪状态: " e "") (call ctx (GetDeployment ns name));
      mret (deployment_ready replicas deployment)).

Definition name_selector (name : string) : string := ApplicationNameLabel +:+ ("=" +:+ name).
Definition release_selector (application : ApplicationContext) : string :=
  name_selector (ac_ApplicationName application) +:+ ("," +:+ (ReleaseLabel +:+ ("=" +:+ dec (ac_ReleaseSequence application)))).

(** The diagnostic, and whether it is terminal. *)
Definition deploymentFailureDiagnostic (ctx : Context) (application : ApplicationContext) (spec : ReleaseSpec) :
    M (string * bool) :=
  let selector := if decide (0 < ac_ReleaseSequence application)%Z then release_selector application
                  else name_selector (ac_ApplicationName application) in
  through (ka_diagnostics a) (λ _,
    pods ← attempt (call ctx (ListPods (ac_Namespace application) selector));
    match pods with
    | Err _ => mret ("", false)
    | Ok pods =>
        match pods_diagnostic spec "" pods with
        | inr terminal => mret (terminal, true)
        | inl lastDiagnostic =>
            events ← attempt (call ctx (ListEvents (ac_Namespace application)));
            match events with
            | Err _ => mret (lastDiagnostic, false)
            | Ok events => mret (foldl (event_diagnostic spec (pod_name <$> pods)) lastDiagnostic events, false)
            end
        end
    end).

Definition certificate_name (application : ApplicationContext) (endpoint : EndpointSpec) : string :=
  if decide (ep_ManagedCertificateName endpoint = "") then ac_ApplicationName application +:+ "-tls"
  else ep_ManagedCertificateName endpoint.
Definition certificateReady (ctx : Context) (application : ApplicationContext) (endpoint : EndpointSpec) : M bool :=
  match ka_diagnostics a with
  | None => throw uninitialized
  | Some client =>
      wrapping (λ e, EWrap "读取 Certificate 状态: " e "")
        (CertificateReady client ctx (ac_Namespace application) (certificate_name application endpoint))
  end.

(** One iteration: the last diagnostic is the state of the loop. *)
Definition wait_body (ctx : Context) (application : ApplicationContext) (spec : ReleaseSpec) (lastDiagnostic : string) :
    M (string + unit) :=
  ready ← workloadReady ctx application (rs_Replicas spec);
  found ← deploymentFailureDiagnostic ctx application spec;
  let '(diagnostic, terminal) := found in
  guard_not (bool_decide (diagnostic ≠ "") && terminal) (EText ("工作负载启动失败: " +:+ diagnostic)) ;;
  let lastDiagnostic := if decide (diagnostic = "") then lastDiagnostic else diagnostic in
  if negb ready then mret (inl lastDiagnostic)
  else if negb (ep_TLSEnabled (rs_Endpoint spec)) then mret (inr tt)
  else
    ready ← certificateReady ctx application (rs_Endpoint spec);
    mret (if ready : bool then inr tt else inl lastDiagnostic).

Definition wait_expired (lastDiagnostic : string) : M unit :=
  throw (EText (if decide (lastDiagnostic = "") then "等待工作负载就绪超时"
                else "等待工作负载就绪超时: " +:+ lastDiagnostic)).

(** The value of a loop that had fuel enough. *)
Definition out_of_fuel : goerr := ESent "fuel" "".
Definition finished_loop {A} (m : M (option A)) : M A :=
  r ← m; match r with Some x => mret x | None => throw out_of_fuel end.

Definition readiness_timeout : Z := if decide (ka_ReadinessTimeout a ≤ 0)%Z then 2 * minute else ka_ReadinessTimeout a.
Definition wait_loop (ctx : Context) (application : ApplicationContext) (spec : ReleaseSpec) (now : Z) : M (option unit) :=
  let deadline := with_timeout ctx readiness_timeout now in
  poll (poll_fuel readiness_timeout) deadline now now (wait_body deadline application spec) wait_expired "".
Definition Applier_WaitReady (ctx : Context) (application : ApplicationContext) (spec : ReleaseSpec) : M unit :=
  now ← gets c_time;
  finished_loop (wait_loop ctx application spec now).

(** *** Migration between workload kinds *)

Definition set_deployment_replicas (replicas : Z) (d : LiveDeployment) : LiveDeployment :=
  {| ld_Meta := ld_Meta d; ld_Replicas := Some replicas; ld_Containers := ld_Containers d;
     ld_Annotations := ld_Annotations d; ld_Selector := ld_Selector d; ld_NodeSelector := ld_NodeSelector d; ld_Claims := ld_Claims d; ld_Rest := ld_Rest d;
     ld_ObservedGeneration := ld_ObservedGeneration d; ld_UpdatedReplicas := ld_UpdatedReplicas d;
     ld_ReadyReplicas := ld_ReadyReplicas d; ld_AvailableReplicas := ld_AvailableReplicas d;
     ld_UnavailableReplicas := ld_UnavailableReplicas d; ld_Conditions := ld_Conditions d |}.
Definition set_stateful_set_replicas (replicas : Z) (s : LiveStatefulSet) : LiveStatefulSet :=
  {| lt_Meta := lt_Meta s; lt_Replicas := Some replicas; lt_Rest := lt_Rest s;
     lt_ObservedGeneration := lt_ObservedGeneration s; lt_ReadyReplicas := lt_ReadyReplicas s;
     lt_CurrentReplicas := lt_CurrentReplicas s; lt_AvailableReplicas := lt_AvailableReplicas s |}.

(** The previous number of replicas. *)
Definition scaleManagedWorkload (ctx : Context) (namespace name kind : string) (replicas : Z) : M Z :=
  through (ka_workloads a) (λ _,
    if decide (kind = WorkloadKindStatefulSet) then
      statefulSet ← wrapping (λ e, EWrap "读取 StatefulSet: " e "") (call ctx (GetStatefulSet namespace name));
      ensureManaged (lm_Labels (lt_Meta statefulSet)) ;;
      wrapping (λ e, EWrap "缩容 StatefulSet: " e "")
        (call ctx (UpdateStatefulSet (set_stateful_set_replicas replicas statefulSet))) ;;
      mret (default 1%Z (lt_Replicas statefulSet))
    else
      deployment ← wrapping (λ e, EWrap "读取 Deployment: " e "") (call ctx (GetDeployment namespace name));
      ensureManaged (lm_Labels (ld_Meta deployment)) ;;
      wrapping (λ e, EWrap "缩容 Deployment: " e "")
        (call ctx (UpdateDeployment (set_deployment_replicas replicas deployment))) ;;
      mret (default 1%Z (ld_Replicas deployment))).

Definition restoreManagedWorkload (ctx : Context) (namespace name kind : string) (replicas : Z) : M unit :=
  _ ← scaleManagedWorkload ctx namespace name kind replicas; mret tt.

Definition stopManagedWorkloadIfExists (ctx : Context) (namespace name kind : string) : M unit :=
  through (ka_workloads a) (λ _,
    if decide (kind = WorkloadKindStatefulSet) then
      r ← attempt (call ctx (GetStatefulSet namespace name));
      match r with
      | Err e => if is_not_found e then mret tt else throw e
      | Ok statefulSet =>
          ensureManaged (lm_Labels (lt_Meta statefulSet)) ;;
          call ctx (UpdateStatefulSet (set_stateful_set_replicas 0 statefulSet))
      end
    else
      r ← attempt (call ctx (GetDeployment namespace name));
      match r with
      | Err e => if is_not_found e then mret tt else throw e
      | Ok deployment =>
          ensureManaged (lm_Labels (ld_Meta deployment)) ;;
          call ctx (UpdateDeployment (set_deployment_replicas 0 deployment))
      end).

Definition stopped_body (ctx : Context) (namespace name : string) (_ : unit) : M (unit + unit) :=
  through (ka_diagnostics a) (λ _,
    pods ← wrapping (λ e, EWrap "检查旧 Pod: " e "") (call ctx (ListPods namespace (name_selector name)));
    mret (if empty_list pods then inr tt else inl tt)).
Definition stopped_loop (ctx : Context) (namespace name : string) (now : Z) : M (option unit) :=
  let deadline := with_timeout ctx (2 * minute) now in
  poll (poll_fuel (2 * minute)) deadline now now (stopped_body deadline namespace name)
    (λ _, throw (EText "等待旧 Pod 停止超时")) tt.
Definition waitForWorkloadPodsStopped (ctx : Context) (namespace name : string) : M unit :=
  now ← gets c_time;
  finished_loop (stopped_loop ctx namespace name now).

Definition with_workload_kind (kind : string) (application : ApplicationContext) : ApplicationContext :=
  {| ac_ProjectID := ac_ProjectID application; ac_EnvironmentID := ac_EnvironmentID application;
     ac_ProjectName := ac_ProjectName application; ac_EnvironmentName := ac_EnvironmentName application;
     ac_ApplicationName := ac_ApplicationName application; ac_Namespace := ac_Namespace application;
     ac_ReleaseSequence := ac_ReleaseSequence application; ac_WorkloadKind := kind |}.

(** The closure [restore]: stop the new workload if it was applied, scale the old one back up. *)
Definition restore {A} (ctx : Context) (application : ApplicationContext) (currentKind targetKind : string) (replicas : Z)
    (targetApplied : bool) (cause : goerr) : M A :=
  let ns := ac_Namespace application in
  let name := ac_ApplicationName application in
  (if targetApplied : bool then
    wrapping (λ e, EWrap "" cause ("；停止新工作负载失败: " +:+ err_text e))
      (stopManagedWorkloadIfExists ctx ns name targetKind)
   else mret tt) ;;
  wrapping (λ e, EWrap "" cause ("；恢复原工作负载失败: " +:+ err_text e))
    (restoreManagedWorkload ctx ns name currentKind replicas) ;;
  throw cause.

(** What follows the scaling down, every failure going through [restore]. *)
Definition migrate_target (ctx : Context) (application : ApplicationContext) (spec : ReleaseSpec) (currentKind targetKind : string)
    (replicas : Z) : M unit :=
  let back {A} (applied : bool) (cause : goerr) : M A := restore ctx application currentKind targetKind replicas applied cause in
  let target := with_workload_kind targetKind application in
  catching (waitForWorkloadPodsStopped ctx (ac_Namespace application) (ac_ApplicationName application)) (back false) ;;
  resources ← catching (lift (RenderResources target spec)) (back false);
  catching (Applier_Apply ctx resources) (λ e, back false (EWrap "创建新工作负载: " e "")) ;;
  catching (Applier_WaitReady ctx target spec) (λ e, back true (EWrap "新工作负载未就绪: " e "")).

Definition current_kind (application : ApplicationContext) : string :=
  if decide (ac_WorkloadKind application = "") then WorkloadKindDeployment else ac_WorkloadKind application.

Definition MigrateWorkloadKind (ctx : Context) (application : ApplicationContext) (spec : ReleaseSpec) (targetKind : string) : M unit :=
  match ka_workloads a with
  | None => throw uninitialized
  | Some _ =>
      let currentKind := current_kind application in
      if decide (currentKind = targetKind) then mret tt else
      guard_not (bool_decide (targetKind ≠ WorkloadKindDeployment) && bool_decide (targetKind ≠ WorkloadKindStatefulSet))
        (EText "工作负载类型必须为 deployment 或 statefulset") ;;
      replicas ← scaleManagedWorkload ctx (ac_Namespace application) (ac_ApplicationName application) currentKind 0;
      migrate_target ctx application spec currentKind targetKind replicas
  end.

(** *** Live state *)

Definition InspectReleasePods (ctx : Context) (application : ApplicationContext) : M ReleaseRuntime :=
  match ka_diagnostics a with
  | None => throw uninitialized
  | Some _ =>
      pods ← wrapping (λ e, EWrap "读取关联 Pod: " e "")
        (call ctx (ListPods (ac_Namespace application) (release_selector application)));
      let found := releasePodRuntime <$> pods in
      let statuses := fst <$> found in
      let pendingPodNames := rp_Name <$> List.filter (λ s, negb (rp_Ready s)) statuses in
      events ← (if empty_list pendingPodNames then mret []
                else r ← attempt (call ctx (ListEvents (ac_Namespace application))); mret (from_ok [] r));
      mret {| rr_Tracking := "exact"; rr_Pods := sort_pods statuses;
              rr_Diagnostic := releaseRuntimeDiagnostic
                (nonempty_texts (snd <$> found) ++ (event_text <$> List.filter (pod_warning pendingPodNames) events)) |}
  end.
End applier.

(** ** Every write is licensed *)

#[export] Hint Extern 1 (careful (if ?b then _ else _)) => destruct b : careful.
#[export] Hint Extern 1 (careful (match ?o with _ => _ end)) => destruct o : careful.

Section ownership.
Context `{K8sLibrary} `{!APIServer} `{ImageNames}.
Context (a : KubernetesApplier).

Lemma careful_through {A} o (f : Client → M Cluster A) : (∀ client, careful (f client)) → careful (through o f).
Proof. destruct o; simpl; auto with careful. Qed.
Lemma careful_ready client : careful (ready client).
Proof. apply careful_guard_not. Qed.
Lemma careful_ensure labels : careful (ensureManaged labels).
Proof. apply careful_guard_not. Qed.

Lemma careful_apply_desired ctx q (meta : answer q → LiveMeta) create update :
  written q = None →
  (∀ e, is_not_found e = true → careful_after (Exchange q (Err e)) create) →
  (∀ l, managed (lm_Labels (meta l)) = true → careful_after (Exchange q (Ok l)) (update l)) →
  careful (apply_desired (call ctx q) meta create update).
Proof.
  intros Hq Hc Hu. apply careful_read. intros [l|e].
  - apply careful_after_guard; [done|]. intros Hm%negb_false_iff. by apply Hu.
  - destruct (is_not_found e) eqn:He; [by apply Hc | by apply careful_after_careful, careful_throw].
Qed.

(** Closes the license of a write by the read right before it. *)
Ltac licensed := intros; apply careful_after_call; [done|]; split; [done|]; simpl; eauto 10.

Lemma careful_ApplyConfigMap client ctx o : careful (ApplyConfigMap client ctx o).
Proof.
  apply careful_bind; [apply careful_ready|]. intros _.
  apply (careful_apply_desired _ (GetConfigMap _ _)); [done|licensed|licensed].
Qed.
Lemma careful_ApplySecret client ctx o : careful (ApplySecret client ctx o).
Proof.
  apply careful_bind; [apply careful_ready|]. intros _.
  apply (careful_apply_desired _ (GetSecret _ _)); [done|licensed|licensed].
Qed.
Lemma careful_ApplyDeployment client ctx o : careful (ApplyDeployment client ctx o).
Proof.
  apply careful_bind; [apply careful_ready|]. intros _.
  apply (careful_apply_desired _ (GetDeployment _ _)); [done|licensed|licensed].
Qed.
Lemma careful_ApplyStatefulSet client ctx o : careful (ApplyStatefulSet client ctx o).
Proof.
  apply careful_bind; [apply careful_ready|]. intros _.
  apply (careful_apply_desired _ (GetStatefulSet _ _)); [done|licensed|licensed].
Qed.
Lemma careful_ApplyService client ctx o : careful (ApplyService client ctx o).
Proof.
  apply careful_bind; [apply careful_ready|]. intros _.
  apply (careful_apply_desired _ (GetService _ _)); [done|licensed|licensed].
Qed.
Lemma careful_ApplyIngress client ctx o : careful (ApplyIngress client ctx o).
Proof.
  apply careful_bind; [apply careful_ready|]. intros _.
  apply (careful_apply_desired _ (GetIngress _ _)); [done|licensed|licensed].
Qed.
Lemma careful_ApplyCertificate client ctx o : careful (ApplyCertificate client ctx o).
Proof.
  apply careful_bind; [apply careful_ready|]. intros _. apply careful_bind; [apply careful_lift|]. intros _.
  apply (careful_apply_desired _ (GetCertificate _ _)); [done|licensed|licensed].
Qed.

#[local] Hint Resolve careful_through careful_ready careful_ensure careful_ApplyConfigMap careful_ApplySecret
  careful_ApplyDeployment careful_ApplyStatefulSet careful_ApplyService careful_ApplyIngress careful_ApplyCertificate : careful.

Lemma careful_when_set {A} (f : A → M Cluster unit) o : (∀ x, careful (f x)) → careful (when_set f o).
Proof. destruct o; simpl; auto with careful. Qed.
#[local] Hint Resolve careful_when_set : careful.

Lemma careful_finished_loop {A} (m : M Cluster (option A)) : careful m → careful (finished_loop m).
Proof. intros Hm. apply careful_bind; [done|]. intros [x|]; auto with careful. Qed.

Lemma careful_Apply ctx resources : careful (Applier_Apply a ctx resources).
Proof. unfold Applier_Apply. destruct (ka_resources a); auto 20 with careful. Qed.

Lemma careful_RemoveEndpoint ctx application : careful (RemoveEndpoint a ctx application).
Proof.
  unfold RemoveEndpoint. destruct (ka_endpoints a); [|auto with careful].
  apply (careful_read _ (GetIngress _ _)). intros [l|e].
  - apply careful_after_guard; [done|]. intros Hm%negb_false_iff. licensed.
  - apply careful_after_careful; [done|]. auto with careful.
Qed.

Lemma careful_SyncApplicationEndpoints ctx application endpoints port :
  careful (Applier_SyncApplicationEndpoints a ctx application endpoints port).
Proof.
  unfold Applier_SyncApplicationEndpoints. destruct (ka_endpoints a), (ka_resources a); auto with careful.
  destruct (empty_list _); [apply careful_RemoveEndpoint | auto with careful].
Qed.

Lemma careful_scaleManagedWorkload ctx ns name kind replicas : careful (scaleManagedWorkload a ctx ns name kind replicas).
Proof.
  apply careful_through. intros _. case_decide.
  - apply (careful_read_wrapped _ _ (GetStatefulSet _ _)); [done|]. intros s.
    apply careful_after_guard; [done|]. intros Hm%negb_false_iff. apply careful_after_bind; [|auto with careful].
    apply careful_after_wrapping. licensed.
  - apply (careful_read_wrapped _ _ (GetDeployment _ _)); [done|]. intros s.
    apply careful_after_guard; [done|]. intros Hm%negb_false_iff. apply careful_after_bind; [|auto with careful].
    apply careful_after_wrapping. licensed.
Qed.

Lemma careful_stopManagedWorkloadIfExists ctx ns name kind : careful (stopManagedWorkloadIfExists a ctx ns name kind).
Proof.
  apply careful_through. intros _. case_decide.
  - apply (careful_read _ (GetStatefulSet _ _)). intros [l|e].
    + apply careful_after_guard; [done|]. intros Hm%negb_false_iff. licensed.
    + apply careful_after_careful; [done|]. auto with careful.
  - apply (careful_read _ (GetDeployment _ _)). intros [l|e].
    + apply careful_after_guard; [done|]. intros Hm%negb_false_iff. licensed.
    + apply careful_after_careful; [done|]. auto with careful.
Qed.
#[local] Hint Resolve careful_Apply careful_scaleManagedWorkload careful_stopManagedWorkloadIfExists : careful.

Lemma careful_workloadReady ctx application replicas : careful (workloadReady a ctx application replicas).
Proof. unfold workloadReady. apply careful_through. intros _. case_decide; auto 10 with careful. Qed.

Lemma careful_deploymentFailureDiagnostic ctx application spec : careful (deploymentFailureDiagnostic a ctx application spec).
Proof.
  unfold deploymentFailureDiagnostic. apply careful_through. intros _.
  apply careful_bind; [auto with careful|]. intros [pods|e]; [|auto with careful].
  destruct (pods_diagnostic _ _ _); [|auto with careful].
  apply careful_bind; [auto with careful|]. intros [events|e]; auto with careful.
Qed.

Lemma careful_CertificateReady client ctx ns name : careful (CertificateReady client ctx ns name).
Proof. unfold CertificateReady. auto 10 with careful. Qed.

Lemma careful_wait_body ctx application spec last : careful (wait_body a ctx application spec last).
Proof.
  unfold wait_body. apply careful_bind; [apply careful_workloadReady|]. intros ready.
  apply careful_bind; [apply careful_deploymentFailureDiagnostic|]. intros [diagnostic terminal].
  apply careful_bind; [auto with careful|]. intros _.
  destruct (negb ready); [auto with careful|]. destruct (negb _); [auto with careful|].
  apply careful_bind; [|auto with careful].
  unfold certificateReady. destruct (ka_diagnostics a); [|auto with careful].
  apply careful_wrapping, careful_CertificateReady.
Qed.

Lemma careful_WaitReady ctx application spec : careful (Applier_WaitReady a ctx application spec).
Proof.
  apply careful_bind; [auto with careful|]. intros now. apply careful_finished_loop.
  apply careful_poll; [apply careful_wait_body|]. intros last. apply careful_throw.
Qed.

Lemma careful_waitForWorkloadPodsStopped ctx ns name : careful (waitForWorkloadPodsStopped a ctx ns name).
Proof.
  apply careful_bind; [auto with careful|]. intros now. apply careful_finished_loop.
  apply careful_poll; [|auto with careful]. intros []. unfold stopped_body. auto 10 with careful.
Qed.
#[local] Hint Resolve careful_WaitReady careful_waitForWorkloadPodsStopped : careful.

Lemma careful_restore {A} ctx application k k' n applied cause : careful (A := A) (restore a ctx application k k' n applied cause).
Proof.
  unfold restore. apply careful_bind; [destruct applied; auto with careful|]. intros _.
  apply careful_bind; [|auto with careful]. apply careful_wrapping. unfold restoreManagedWorkload. auto with careful.
Qed.

Lemma careful_MigrateWorkloadKind ctx application spec kind : careful (MigrateWorkloadKind a ctx application spec kind).
Proof.
  unfold MigrateWorkloadKind. destruct (ka_workloads a); [|auto with careful]. case_decide; [auto with careful|].
  apply careful_bind; [auto with careful|]. intros _. apply careful_bind; [auto with careful|]. intros n.
  unfold migrate_target.
  repeat first [apply careful_restore | apply careful_WaitReady | apply careful_waitForWorkloadPodsStopped
    | apply careful_Apply | apply careful_lift | apply careful_bind; intros | apply careful_catching; intros].
Qed.

Lemma careful_pvcInfo ctx claim : careful (pvcInfo ctx claim).
Proof.
  unfold pvcInfo. apply careful_bind.
  - case_decide; [auto with careful|]. apply careful_bind; [auto with careful|]. intros [|]; auto with careful.
  - intros sc. apply careful_bind; [|auto with careful]. case_decide; [auto with careful|].
    apply careful_bind; [auto with careful|]. intros [|]; auto with careful.
Qed.

Lemma careful_GetManagedPVC client ctx ns name env : careful (GetManagedPVCContext client ctx ns name env).
Proof.
  unfold GetManagedPVCContext, get_claim. apply careful_bind; [auto with careful|]. intros _.
  apply careful_bind; [auto with careful|]. intros claim. apply careful_bind; [|intros; apply careful_pvcInfo].
  unfold owned_claim. auto with careful.
Qed.

Lemma careful_CheckCRD client ctx name : careful (CheckCRDContext client ctx name).
Proof.
  unfold CheckCRDContext. apply careful_bind; [auto with careful|]. intros _.
  apply careful_bind; [auto with careful|]. intros [|]; auto with careful.
Qed.

Lemma careful_DetectIngressController client ctx : careful (DetectIngressControllerContext client ctx).
Proof.
  unfold DetectIngressControllerContext. apply careful_bind; [auto with careful|]. intros cache.
  apply careful_bind; [auto with careful|]. intros now. destruct (cachedIngressControllerStatus _ _); [auto with careful|].
  apply careful_bind.
  - unfold detectIngressControllerContext. apply careful_bind; [apply careful_attempt, careful_CheckCRD|]. intros crd.
    apply careful_bind; [auto with careful|]. intros [|e]; [auto with careful|].
    destruct (negb _); [auto with careful|]. apply careful_bind; [auto with careful|]. intros ds. auto with careful.
  - intros status. apply careful_bind; [auto with careful|]. intros t. apply careful_bind; [|auto with careful].
    apply careful_silent. intros c. simpl. split; [done | lia].
Qed.

Lemma careful_ValidateFileMountSources ctx application spec : careful (ValidateFileMountSources a ctx application spec).
Proof.
  apply careful_for_each. intros f. unfold validate_file_mount, mounted_keys.
  repeat (case_decide; [first [by auto with careful
    | apply careful_through; intros _; apply careful_bind; [auto with careful | intros [|]; auto with careful]]|]).
  auto with careful.
Qed.

Lemma careful_ValidatePersistentVolumeClaims ctx application spec :
  careful (ValidatePersistentVolumeClaims a ctx application spec).
Proof.
  unfold ValidatePersistentVolumeClaims. destruct (empty_list _); [auto with careful|].
  apply careful_bind; [auto with careful|]. intros _. apply careful_bind.
  { case_decide; [auto with careful|]. apply careful_through. auto with careful. }
  intros _. apply careful_for_each. intros v. apply careful_bind; [|auto with careful].
  apply careful_through. intros client. apply careful_GetManagedPVC.
Qed.

Lemma careful_Preflight ctx application spec : careful (Applier_Preflight a ctx application spec).
Proof.
  unfold Applier_Preflight. destruct (ka_preflight a) as [client|], (ka_resources a); auto with careful.
  apply careful_bind; [auto with careful|]. intros r. apply careful_bind; [destruct r; auto with careful|]. intros phase.
  apply careful_bind; [auto with careful|]. intros _.
  apply careful_bind; [apply careful_ValidatePersistentVolumeClaims|]. intros _.
  apply careful_bind; [apply careful_ValidateFileMountSources|]. intros _. case_decide; [auto with careful|].
  apply careful_bind; [apply careful_attempt, careful_DetectIngressController|]. intros status.
  apply careful_bind; [auto with careful|]. intros _. destruct (ep_TLSEnabled _); [|auto with careful].
  apply careful_bind; [apply careful_attempt, careful_CheckCRD|]. auto with careful.
Qed.

Lemma careful_VerifyImage ctx spec : careful (Applier_VerifyImage ctx spec).
Proof.
  unfold Applier_VerifyImage. apply careful_bind; [auto with careful|]. intros ref.
  apply careful_bind; [auto with careful|]. intros now. apply careful_bind; [auto with careful|].
  intros [|]; auto with careful.
Qed.

Lemma careful_InspectReleasePods ctx application : careful (InspectReleasePods a ctx application).
Proof.
  unfold InspectReleasePods. destruct (ka_diagnostics a); [|auto with careful].
  apply careful_bind; [auto with careful|]. intros pods. apply careful_bind; [|auto with careful].
  destruct (empty_list _); [auto with careful|]. auto with careful.
Qed.

(** The operations of the applier, and what one leaves of the cluster. *)
Inductive operation :=
  | OpVerifyImage (spec : ReleaseSpec)
  | OpPreflight (application : ApplicationContext) (spec : ReleaseSpec)
  | OpApply (resources : RenderedResources)
  | OpWaitReady (application : ApplicationContext) (spec : ReleaseSpec)
  | OpSyncApplicationEndpoints (application : ApplicationContext) (endpoints : list ApplicationEndpoint) (servicePort : Z)
  | OpRemoveEndpoint (application : ApplicationContext)
  | OpMigrateWorkloadKind (application : ApplicationContext) (spec : ReleaseSpec) (targetKind : string)
  | OpInspectReleasePods (application : ApplicationContext).

Definition perform (c : Cluster) (op : Context * operation) : Cluster :=
  let ctx := fst op in
  match snd op with
  | OpVerifyImage spec => (Applier_VerifyImage ctx spec c).2
  | OpPreflight application spec => (Applier_Preflight a ctx application spec c).2
  | OpApply resources => (Applier_Apply a ctx resources c).2
  | OpWaitReady application spec => (Applier_WaitReady a ctx application spec c).2
  | OpSyncApplicationEndpoints application endpoints port =>
      (Applier_SyncApplicationEndpoints a ctx application endpoints port c).2
  | OpRemoveEndpoint application => (RemoveEndpoint a ctx application c).2
  | OpMigrateWorkloadKind application spec kind => (MigrateWorkloadKind a ctx application spec kind c).2
  | OpInspectReleasePods application => (InspectReleasePods a ctx application c).2
  end.

Lemma perform_justified c op : ∃ evs, c_log (perform c op) = c_log c ++ evs ∧ justified evs.
Proof.
  assert (∀ {A} (m : M Cluster A), careful m → ∃ evs, c_log (m c).2 = c_log c ++ evs ∧ justified evs) as Hm.
  { intros A m Hm. destruct (Hm c) as (evs & ? & ? & _). by exists evs. }
  destruct op as [ctx []]; apply Hm; [apply careful_VerifyImage | apply careful_Preflight | apply careful_Apply
    | apply careful_WaitReady | apply careful_SyncApplicationEndpoints | apply careful_RemoveEndpoint
    | apply careful_MigrateWorkloadKind | apply careful_InspectReleasePods].
Qed.

(** C3: Whatever the API server answers, fails or lets others change, in any sequence of operations of
    the applier every write to the cluster is immediately preceded by a read of the same object: a
    creation by a read that found nothing, an update by a read that showed the manager's label and the
    very revision the update names, a deletion by a read that showed that label. Objects of others are
    never overwritten. *)
Theorem applier_respects_ownership (ops : list (Context * operation)) (c : Cluster) :
  ∃ evs, c_log (foldl perform c ops) = c_log c ++ evs ∧
    ∀ pre x post, evs = pre ++ x :: post → is_Some (written (ex_request x)) →
      ∃ pre' g, pre = pre' ++ [g] ∧ licenses g (ex_request x).
Proof.
  cut (∃ evs, c_log (foldl perform c ops) = c_log c ++ evs ∧ justified evs).
  { intros (evs & Hl & Hj). exists evs. split; [done|]. intros pre x post. by apply justified_licensed. }
  revert c. induction ops as [|op ops IH]; intros c; simpl.
  - exists []. rewrite app_nil_r. by auto using justified_nil.
  - destruct (perform_justified c op) as (e1 & Hl1 & Hj1). destruct (IH (perform c op)) as (e2 & Hl2 & Hj2).
    exists (e1 ++ e2). rewrite Hl2, Hl1, app_assoc. by auto using justified_app.
Qed.
End ownership.

(** ** Objects are applied in order, and none after a failure *)

Section order.
Context `{K8sLibrary} `{!APIServer} `{ImageNames}.
Context (a : KubernetesApplier).

(** The object a request writes. *)
Definition target (q : request) : option (kind * string * string) :=
  (λ w, (w_Kind w, w_Namespace w, w_Name w)) <$> written q.
#[global] Arguments target : simpl never.
Definition object (k : kind) (m : ObjectMeta) : kind * string * string := (k, om_Namespace m, om_Name m).
Definition optional {A} (k : kind) (meta : A → ObjectMeta) (o : option A) : list (kind * string * string) :=
  match o with Some x => [object k (meta x)] | None => [] end.

(** The objects of a release in the order they depend on each other. *)
Definition planned (r : RenderedResources) : list (kind * string * string) :=
  optional KSecret sec_Meta (rd_ImagePullSecret r) ++ optional KConfigMap cm_Meta (rd_ConfigMap r)
  ++ optional KSecret sec_Meta (rd_Secret r) ++ optional KDeployment dep_Meta (rd_Deployment r)
  ++ optional KStatefulSet sts_Meta (rd_StatefulSet r) ++ [object KService (srv_Meta (rd_Service r))]
  ++ optional KCertificate cert_Meta (rd_Certificate r) ++ optional KIngress ing_Meta (rd_Ingress r).

Definition accepted (x : exchange) : bool := is_ok (ex_answer x).
(** The exchanges write exactly the objects [ts], in this order, and every write is accepted. *)
Definition placed (ts : list (kind * string * string)) (evs : list exchange) : Prop :=
  omap (λ x, target (ex_request x)) evs = ts ∧ ∀ x, x ∈ evs → is_Some (target (ex_request x)) → accepted x = true.
(** The object is not written, or its write is refused and is the last exchange. *)
Definition refused (t : kind * string * string) (evs : list exchange) : Prop :=
  omap (λ x, target (ex_request x)) evs = [] ∨
  ∃ reads x, evs = reads ++ [x] ∧ omap (λ x, target (ex_request x)) reads = [] ∧
    target (ex_request x) = Some t ∧ accepted x = false.

Definition applied {A} (ts : list (kind * string * string)) (r : result A) (evs : list exchange) : Prop :=
  match r with
  | Ok _ => placed ts evs
  | Err _ => ∃ before t after e1 e2, ts = before ++ t :: after ∧ evs = e1 ++ e2 ∧ placed before e1 ∧ refused t e2
  end.
Definition applies {A} (ts : list (kind * string * string)) (m : M Cluster A) : Prop :=
  ∀ c, ∃ evs, c_log (m c).2 = c_log c ++ evs ∧ applied ts (m c).1 evs.

Lemma placed_app ts ts' evs evs' : placed ts evs → placed ts' evs' → placed (ts ++ ts') (evs ++ evs').
Proof.
  intros [<- Hx] [<- Hx']. split; [by rewrite omap_app|]. intros x [?|?]%elem_of_app; auto.
Qed.
Lemma placed_nil : placed [] [].
Proof. split; [done | by intros ? ?%not_elem_of_nil]. Qed.

Lemma applies_ret {A} (x : A) : applies [] (mret x).
Proof. intros c. exists []. rewrite app_nil_r. split; [done | apply placed_nil]. Qed.

Lemma applies_bind {A B} ts ts' (m : M Cluster A) (f : A → M Cluster B) :
  applies ts m → (∀ x, applies ts' (f x)) → applies (ts ++ ts') (m ≫= f).
Proof.
  intros Hm Hf c. unfold mbind, M_bind. destruct (Hm c) as (e1 & Hl1 & Ha1).
  destruct (m c) as [[x|e] c1]; simpl in *.
  - destruct (Hf x c1) as (e2 & Hl2 & Ha2). exists (e1 ++ e2). rewrite Hl2, Hl1, app_assoc. split; [done|].
    destruct (f x c1).1; simpl in *; [by apply placed_app|].
    destruct Ha2 as (before & t & after & d1 & d2 & -> & -> & Hp & Hr).
    exists (ts ++ before), t, after, (e1 ++ d1), d2. rewrite <-!app_assoc. split_and!; [done..| |done]. by apply placed_app.
  - exists e1. split; [done|]. destruct Ha1 as (before & t & after & d1 & d2 & -> & -> & Hp & Hr).
    exists before, t, (after ++ ts'), d1, d2. by rewrite <-app_assoc.
Qed.

(** A computation that sends one write of [t]. *)
Definition sends (t : kind * string * string) (m : M Cluster unit) : Prop := ∀ c, ∃ x,
  c_log (m c).2 = c_log c ++ [x] ∧ target (ex_request x) = Some t ∧ accepted x = is_ok (m c).1.

Lemma applied_refused {A} t (e : goerr) evs : refused t evs → applied (A := A) [t] (Err e) evs.
Proof. intros Hr. exists [], t, [], [], evs. split_and!; [done..|apply placed_nil|done]. Qed.

Lemma sends_after t g (m : M Cluster unit) c0 c :
  written (ex_request g) = None → c_log c = c_log c0 ++ [g] → sends t m →
  ∃ evs, c_log (m c).2 = c_log c0 ++ evs ∧ applied [t] (m c).1 evs.
Proof.
  intros Hg Hc Hm. destruct (Hm c) as (x & Hl & Hx & Ha). exists [g; x].
  assert (target (ex_request g) = None) as Hn by (unfold target; by rewrite Hg).
  rewrite Hl, Hc, <-app_assoc. split; [done|]. destruct (m c).1 as [u|e]; simpl in Ha.
  - split; [simpl; by rewrite Hn, Hx|].
    intros y [->|[->|?%not_elem_of_nil]%elem_of_cons]%elem_of_cons; [rewrite Hn; by intros []|done..].
  - apply applied_refused. right. exists [g], x. simpl. rewrite Hn. done.
Qed.

Lemma applies_desired ctx q (meta : answer q → LiveMeta) create update t :
  written q = None → sends t create → (∀ l, sends t (update l)) →
  applies [t] (apply_desired (call ctx q) meta create update).
Proof.
  intros Hq Hc Hu c. unfold apply_desired. rewrite attempted_call_bind.
  set (c1 := exchanged ctx q c). pose (g := Exchange q (respond c ctx q)).
  assert (c_log c1 = c_log c ++ [g]) as Hc1 by done.
  assert (written (ex_request g) = None) as Hw by done. clearbody g c1.
  assert (target (ex_request g) = None) as Hg by (unfold target; by rewrite Hw).
  assert (∀ e, ∃ evs, c_log c1 = c_log c ++ evs ∧ applied (A := unit) [t] (Err e) evs) as Hfail.
  { intros e. exists [g]. split; [done|]. apply applied_refused. left. simpl. by rewrite Hg. }
  destruct (respond c ctx q) as [l|e].
  - unfold ensureApplicationManaged. destruct (managed _); [|apply Hfail]. exact (sends_after t g _ _ _ Hw Hc1 (Hu l)).
  - destruct (is_not_found e); [exact (sends_after t g _ _ _ Hw Hc1 Hc) | apply Hfail].
Qed.

Lemma applies_failure {A} t ts (m : M Cluster A) :
  (∀ c, ∃ e, m c = (Err e, c)) → applies (t :: ts) m.
Proof.
  intros Hm c. destruct (Hm c) as [e ->]. exists []. rewrite app_nil_r. split; [done|].
  exists [], t, ts, [], []. split_and!; [done..|apply placed_nil|by left].
Qed.

Lemma applies_ready {A} t ts client (m : M Cluster A) : applies (t :: ts) m → applies (t :: ts) (ready client ;; m).
Proof.
  intros Hm. unfold ready, guard_not. destruct (kc_Clientset client); [exact Hm|].
  apply applies_failure. intros c. by eexists.
Qed.

Ltac sent := intros; intros c; eexists; split_and!; [reflexivity | reflexivity | reflexivity].

Lemma applies_ConfigMap client ctx o : applies [object KConfigMap (cm_Meta o)] (ApplyConfigMap client ctx o).
Proof. apply applies_ready, (applies_desired _ (GetConfigMap _ _)); [done | sent | sent]. Qed.
Lemma applies_Secret client ctx o : applies [object KSecret (sec_Meta o)] (ApplySecret client ctx o).
Proof. apply applies_ready, (applies_desired _ (GetSecret _ _)); [done | sent | sent]. Qed.
Lemma applies_Deployment client ctx o : applies [object KDeployment (dep_Meta o)] (ApplyDeployment client ctx o).
Proof. apply applies_ready, (applies_desired _ (GetDeployment _ _)); [done | sent | sent]. Qed.
Lemma applies_StatefulSet client ctx o : applies [object KStatefulSet (sts_Meta o)] (ApplyStatefulSet client ctx o).
Proof. apply applies_ready, (applies_desired _ (GetStatefulSet _ _)); [done | sent | sent]. Qed.
Lemma applies_Service client ctx o : applies [object KService (srv_Meta o)] (ApplyService client ctx o).
Proof. apply applies_ready, (applies_desired _ (GetService _ _)); [done | sent | sent]. Qed.
Lemma applies_Ingress client ctx o : applies [object KIngress (ing_Meta o)] (ApplyIngress client ctx o).
Proof. apply applies_ready, (applies_desired _ (GetIngress _ _)); [done | sent | sent]. Qed.
Lemma applies_Certificate client ctx o : applies [object KCertificate (cert_Meta o)] (ApplyCertificate client ctx o).
Proof.
  apply applies_ready. destruct (kc_Dynamic client) as [u|e].
  - apply (applies_bind []); [apply (applies_ret u)|]. intros _.
    apply (applies_desired _ (GetCertificate _ _)); [done | sent | sent].
  - apply applies_failure. intros c. by eexists.
Qed.

Lemma applies_when_set {A} k (meta : A → ObjectMeta) f o :
  (∀ x, applies [object k (meta x)] (f x)) → applies (optional k meta o) (when_set f o).
Proof. destruct o; simpl; [auto | intros; apply applies_ret]. Qed.

(** C8: Applying a release writes its objects in a fixed order: pull secret, configuration, secret,
    workload, service, certificate, ingress. On success every object was written and every write
    accepted. On an error the writes are those of the objects before some object, all accepted; that
    object itself was not written or its write was refused, and nothing was sent after that. *)
Theorem apply_in_order ctx resources (c : Cluster) :
  let '(r, c') := Applier_Apply a ctx resources c in
  ∃ evs, c_log c' = c_log c ++ evs ∧ applied (planned resources) r evs.
Proof.
  assert (applies (planned resources) (Applier_Apply a ctx resources)) as Happ.
  2: { specialize (Happ c). by destruct (Applier_Apply a ctx resources c). }
  unfold Applier_Apply. destruct (ka_resources a) as [client|].
  - unfold planned. repeat (apply applies_bind; [|intros _]);
      auto using applies_when_set, applies_Secret, applies_ConfigMap, applies_Deployment, applies_StatefulSet,
        applies_Service, applies_Certificate, applies_Ingress.
  - assert (∃ t ts, planned resources = t :: ts) as (t & ts & ->).
    { unfold planned, optional. repeat case_match; simpl; eauto. }
    apply applies_failure. intros c'. by eexists.
Qed.
End order.
