(* ===== verification/ApplierGuarantees.v ===== *)
(** * What the applier guarantees

    Theorems on the waiting, migration and diagnostic operations of the file KubernetesApplier: the
    readiness loop ends within the time of its deadline and succeeds only on an observation of
    readiness; a migration that fails puts the replicas of the old workload back; diagnostics are
    bounded and free of credentials. *)
From Stdlib Require Import ZArith Ascii String.
From stdpp Require Import base sorting pretty numbers gmap strings list.
From S2P Require Import Prelude GoStrings Json ReleaseSpec ReleaseSnapshot Models ReleaseValidation ReleaseRendering Cluster ClusterResources KubernetesApplier.

(** ** Readiness *)

Section readiness.
Context `{K8sLibrary} `{!APIServer} `{ImageNames}.
Context (a : KubernetesApplier).

(** The exchange is a read of the workload that shows it ready. *)
Definition shows_ready (application : ApplicationContext) (replicas : Z) (x : exchange) : Prop :=
  match x with
  | Exchange q r =>
      match q as q return result (answer q) → Prop with
      | GetDeployment ns n => λ r, ac_WorkloadKind application ≠ WorkloadKindStatefulSet ∧
          (ns, n) = (ac_Namespace application, ac_ApplicationName application) ∧
          ∃ d, r = Ok d ∧ deployment_ready replicas d = true
      | GetStatefulSet ns n => λ r, ac_WorkloadKind application = WorkloadKindStatefulSet ∧
          (ns, n) = (ac_Namespace application, ac_ApplicationName application) ∧
          ∃ s, r = Ok s ∧ stateful_set_ready replicas s = true
      | _ => λ _, False
      end r
  end.
(** The exchange is a read of the certificate that shows it issued. *)
Definition shows_certificate (application : ApplicationContext) (endpoint : EndpointSpec) (x : exchange) : Prop :=
  match x with
  | Exchange q r =>
      match q as q return result (answer q) → Prop with
      | GetCertificate ns n => λ r,
          (ns, n) = (ac_Namespace application, certificate_name application endpoint) ∧
          ∃ m conditions, r = Ok (m, conditions) ∧ ("Ready", "True") ∈ conditions
      | _ => λ _, False
      end r
  end.
(** The reads of the diagnostics. *)
Definition is_diagnosis (x : exchange) : Prop :=
  match ex_request x with ListPods _ _ | ListEvents _ => True | _ => False end.

(** The last exchanges: the workload is ready, and so is the certificate when one is needed. *)
Definition observed_ready (application : ApplicationContext) (spec : ReleaseSpec) (evs : list exchange) : Prop :=
  ∃ pre x mid certs, evs = pre ++ x :: mid ++ certs ∧ shows_ready application (rs_Replicas spec) x ∧
    Forall is_diagnosis mid ∧
    if ep_TLSEnabled (rs_Endpoint spec)
    then ∃ y, certs = [y] ∧ shows_certificate application (rs_Endpoint spec) y else certs = [].

Lemma workloadReady_Ok ctx application replicas (c c' : Cluster) b :
  workloadReady a ctx application replicas c = (Ok b, c') →
  ∃ x, c_log c' = c_log c ++ [x] ∧ (b = true → shows_ready application replicas x).
Proof.
  unfold workloadReady, through. destruct (ka_workloads a); [|done]. case_decide as Hk.
  - rewrite (wrapped_call_bind _ _ (GetStatefulSet _ _)).
    destruct (respond c ctx (GetStatefulSet _ _)) as [s|e] eqn:Hr; [|done]. intros [= <- <-].
    eexists. split; [reflexivity|]. intros Hs. simpl. rewrite Hr. eauto 10.
  - rewrite (wrapped_call_bind _ _ (GetDeployment _ _)).
    destruct (respond c ctx (GetDeployment _ _)) as [d|e] eqn:Hr; [|done]. intros [= <- <-].
    eexists. split; [reflexivity|]. intros Hs. simpl. rewrite Hr. eauto 10.
Qed.

Lemma diagnostic_log ctx application spec (c c' : Cluster) r :
  deploymentFailureDiagnostic a ctx application spec c = (r, c') →
  ∃ mid, c_log c' = c_log c ++ mid ∧ Forall is_diagnosis mid.
Proof.
  unfold deploymentFailureDiagnostic, through. destruct (ka_diagnostics a).
  2: { intros [= _ <-]. exists []. by rewrite app_nil_r. }
  set (selector := if decide _ then _ else _).
  rewrite (attempted_call_bind _ (ListPods _ _)). destruct (respond c ctx (ListPods _ _)) as [pods|e].
  2: { intros [= _ <-]. eexists. split; [reflexivity|]. by repeat constructor. }
  destruct (pods_diagnostic _ _ _).
  2: { intros [= _ <-]. eexists. split; [reflexivity|]. by repeat constructor. }
  rewrite (attempted_call_bind _ (ListEvents _)). set (r' := respond _ ctx (ListEvents _)).
  assert (∀ x : string * bool, ∃ mid, c_log (exchanged ctx (ListEvents (ac_Namespace application))
      (exchanged ctx (ListPods (ac_Namespace application) selector) c)) = c_log c ++ mid ∧ Forall is_diagnosis mid) as Hmid.
  { intros _. eexists [_; _]. simpl. rewrite <-app_assoc. split; [reflexivity|]. by repeat constructor. }
  destruct r'; intros [= _ <-]; exact (Hmid ("", false)).
Qed.

Lemma certificateReady_Ok ctx application endpoint (c c' : Cluster) :
  certificateReady a ctx application endpoint c = (Ok true, c') →
  ∃ y, c_log c' = c_log c ++ [y] ∧ shows_certificate application endpoint y.
Proof.
  unfold certificateReady. destruct (ka_diagnostics a) as [client|]; [|done]. rewrite wrapping_Ok. unfold CertificateReady.
  intros (? & c1 & [_ ->]%lift_Ok & Hx)%bind_Ok. revert Hx. rewrite (call_bind _ (GetCertificate _ _)).
  destruct (respond c ctx (GetCertificate _ _)) as [[m conditions]|e] eqn:Hr; [|done]. intros [= Hb <-].
  eexists. split; [reflexivity|]. simpl. rewrite Hr. split; [done|]. exists m, conditions. split; [done|].
  apply existsb_exists in Hb as (condition & Hin & ->%bool_decide_eq_true). by apply list_elem_of_In.
Qed.

Lemma wait_body_ready ctx application spec last (c c' : Cluster) :
  wait_body a ctx application spec last c = (Ok (inr tt), c') →
  ∃ evs, c_log c' = c_log c ++ evs ∧ observed_ready application spec evs.
Proof.
  unfold wait_body. intros (ready & c1 & Hr & Hx)%bind_Ok. apply workloadReady_Ok in Hr as (x & Hl1 & Hready).
  apply bind_Ok in Hx as ([diagnostic terminal] & c2 & Hd & Hx). apply diagnostic_log in Hd as (mid & Hl2 & Hmid).
  apply bind_Ok in Hx as (? & c3 & [_ ->]%guard_not_Ok & Hx). destruct ready; [|done]. simpl in Hx.
  destruct (ep_TLSEnabled (rs_Endpoint spec)) eqn:Htls; simpl in Hx.
  - apply bind_Ok in Hx as ([] & c4 & Hc & Hx); [|done]. injection Hx as <-.
    apply certificateReady_Ok in Hc as (y & Hl3 & Hy). exists (x :: mid ++ [y]).
    rewrite Hl3, Hl2, Hl1, <-!app_assoc. split; [done|]. exists [], x, mid, [y]. rewrite Htls. eauto 10.
  - injection Hx as <-. exists (x :: mid ++ []). rewrite Hl2, Hl1, app_nil_r, <-app_assoc. split; [done|].
    exists [], x, mid, []. rewrite app_nil_r, Htls. auto.
Qed.

Lemma wait_body_expired ctx application spec last (c : Cluster) :
  expired_context_fails → done ctx (c_time c) = true → ∃ e, (wait_body a ctx application spec last c).1 = Err e.
Proof.
  intros Hexp Hd. unfold wait_body, workloadReady, through. destruct (ka_workloads a); [|by eexists].
  unfold mbind at 1, M_bind at 1. case_decide.
  - rewrite (wrapped_call_bind _ _ (GetStatefulSet _ _)). destruct (Hexp c ctx (GetStatefulSet (ac_Namespace application) (ac_ApplicationName application)) Hd) as [e ->]. by eexists.
  - rewrite (wrapped_call_bind _ _ (GetDeployment _ _)). destruct (Hexp c ctx (GetDeployment (ac_Namespace application) (ac_ApplicationName application)) Hd) as [e ->]. by eexists.
Qed.

Lemma finished_loop_Ok {A} (m : M Cluster (option A)) c x c' :
  finished_loop m c = (Ok x, c') ↔ m c = (Ok (Some x), c').
Proof.
  unfold finished_loop, mbind, M_bind. destruct (m c) as [[[y|]|e] c1]; split; try done; by intros [= -> ->].
Qed.

Lemma careful_time {A} (m : M Cluster A) c : careful m → (c_time c ≤ c_time (m c).2)%Z.
Proof. intros Hm. by destruct (Hm c) as (evs & _ & _ & ?). Qed.

Lemma wait_loop_ends ctx application spec (c : Cluster) :
  expired_context_fails → (wait_loop a ctx application spec (c_time c) c).1 ≠ Ok None.
Proof.
  intros Hexp. apply poll_terminates; [..|done|].
  - intros last c'. apply careful_time, careful_wait_body.
  - intros last c' Hd. apply wait_body_expired; [done|]. simpl. by apply bool_decide_eq_true.
  - destruct ctx; lia.
Qed.

Lemma stopped_loop_ends ctx ns name (c : Cluster) :
  expired_context_fails → (stopped_loop a ctx ns name (c_time c) c).1 ≠ Ok None.
Proof.
  intros Hexp. apply poll_terminates; [..|done|].
  - intros [] c'. apply careful_time. unfold stopped_body. apply careful_through. auto with careful.
  - intros [] c' Hd. unfold stopped_body, through. destruct (ka_diagnostics a); [|by eexists].
    rewrite (wrapped_call_bind _ _ (ListPods _ _)). set (dl := with_timeout _ _ _).
    assert (done dl (c_time c') = true) as Hdone by (by apply bool_decide_eq_true).
    destruct (Hexp c' dl (ListPods ns (name_selector name)) Hdone) as [e ->]. by eexists.
  - destruct ctx; lia.
Qed.

Lemma observed_ready_app application spec evs evs' :
  observed_ready application spec evs' → observed_ready application spec (evs ++ evs').
Proof. intros (pre & x & mid & certs & -> & Hx). exists (evs ++ pre), x, mid, certs. by rewrite <-app_assoc. Qed.

Lemma wait_loop_observed ctx application spec now (c c' : Cluster) :
  wait_loop a ctx application spec now c = (Ok (Some tt), c') →
  ∃ evs, c_log c' = c_log c ++ evs ∧ observed_ready application spec evs.
Proof.
  intros Hw. pose (Inv := λ (_ : string) (d : Cluster), ∃ evs, c_log d = c_log c ++ evs).
  pose (Q := λ (r : result unit) (d : Cluster), match r with
    | Ok _ => ∃ evs, c_log d = c_log c ++ evs ∧ observed_ready application spec evs | Err _ => True end).
  assert (triple (Inv "") (wait_loop a ctx application spec now) (λ r d, match r with
    Ok (Some x) => Q (Ok x) d | Ok None => True | Err e => Q (Err e) d end)) as H'.
  { apply (poll_triple _ _ _ _ Inv Inv Q).
    - intros last d (evs & Hl). destruct (wait_body _ _ _ _ _ d) as [[[last'|[]]|e] d'] eqn:Hb; [| |exact I].
      + destruct (careful_wait_body a (with_timeout ctx (readiness_timeout a) now) application spec last d) as (evs' & Hl' & _).
        rewrite Hb in Hl'. exists (evs ++ evs'). simpl in *. by rewrite Hl', Hl, app_assoc.
      + apply wait_body_ready in Hb as (evs' & Hl' & Ho). exists (evs ++ evs').
        simpl. rewrite Hl', Hl, <-app_assoc. split; [done | by apply observed_ready_app].
    - by intros last d t Hd _.
    - by intros last d (c0 & t & _ & -> & _). }
  specialize (H' c ltac:(exists []; by rewrite app_nil_r)). by rewrite Hw in H'.
Qed.

Lemma WaitReady_observed ctx application spec (c c' : Cluster) :
  Applier_WaitReady a ctx application spec c = (Ok tt, c') →
  ∃ evs, c_log c' = c_log c ++ evs ∧ observed_ready application spec evs.
Proof.
  intros (now & c1 & Hn & Hw)%bind_Ok. injection Hn as <- <-.
  apply finished_loop_Ok in Hw. by eapply wait_loop_observed.
Qed.

(** C7: Waiting terminates: as soon as requests whose context is done fail, the loop that waits for the
    workload and the one that waits for old pods to stop end within the iterations their deadline
    leaves room for, whatever the cluster answers and however long it takes. Waiting succeeds only when
    the last exchanges show the workload rolled out with enough replicas and, when TLS is required,
    the certificate issued. *)
Theorem waiting_terminates ctx application spec (c : Cluster) :
  expired_context_fails →
  (wait_loop a ctx application spec (c_time c) c).1 ≠ Ok None ∧
  (stopped_loop a ctx (ac_Namespace application) (ac_ApplicationName application) (c_time c) c).1 ≠ Ok None ∧
  ∀ c', Applier_WaitReady a ctx application spec c = (Ok tt, c') →
    ∃ evs, c_log c' = c_log c ++ evs ∧ observed_ready application spec evs.
Proof.
  intros Hexp. split_and!; [by apply wait_loop_ends | by apply stopped_loop_ends | apply WaitReady_observed].
Qed.
End readiness.

(** ** Migration *)

Section migration.
Context `{K8sLibrary} `{!APIServer} `{ImageNames}.
Context (a : KubernetesApplier).

(** The exchanges of a successful scaling: the workload is read, carries the label, and is written back with
    [to] replicas instead of [from]. *)
Definition scaled (ns name kind : string) (from to : Z) (evs : list exchange) : Prop :=
  (kind ≠ WorkloadKindStatefulSet ∧ ∃ d,
    evs = [Exchange (GetDeployment ns name) (Ok d); Exchange (UpdateDeployment (set_deployment_replicas to d)) (Ok tt)] ∧
    managed (lm_Labels (ld_Meta d)) = true ∧ default 1%Z (ld_Replicas d) = from) ∨
  (kind = WorkloadKindStatefulSet ∧ ∃ s,
    evs = [Exchange (GetStatefulSet ns name) (Ok s); Exchange (UpdateStatefulSet (set_stateful_set_replicas to s)) (Ok tt)] ∧
    managed (lm_Labels (lt_Meta s)) = true ∧ default 1%Z (lt_Replicas s) = from).

Lemma scaleManagedWorkload_Ok ctx ns name kind n m (c c' : Cluster) :
  scaleManagedWorkload a ctx ns name kind n c = (Ok m, c') →
  ∃ evs, c_log c' = c_log c ++ evs ∧ scaled ns name kind m n evs.
Proof.
  unfold scaleManagedWorkload, through. destruct (ka_workloads a); [|done]. case_decide as Hk.
  - rewrite (wrapped_call_bind _ _ (GetStatefulSet _ _)).
    destruct (respond c ctx (GetStatefulSet ns name)) as [s|e] eqn:Hr; [|done]. set (c1 := exchanged _ _ c).
    intros (? & c2 & [Hm%negb_false_iff ->]%guard_not_Ok & Hx)%bind_Ok. revert Hx.
    rewrite (wrapped_call_bind _ _ (UpdateStatefulSet _)).
    destruct (respond c1 ctx (UpdateStatefulSet _)) as [[]|e] eqn:Hu; [|done]. intros [= <- <-].
    eexists. split; [simpl; by rewrite Hu, Hr, <-app_assoc|]. right. eauto 10.
  - rewrite (wrapped_call_bind _ _ (GetDeployment _ _)).
    destruct (respond c ctx (GetDeployment ns name)) as [d|e] eqn:Hr; [|done]. set (c1 := exchanged _ _ c).
    intros (? & c2 & [Hm%negb_false_iff ->]%guard_not_Ok & Hx)%bind_Ok. revert Hx.
    rewrite (wrapped_call_bind _ _ (UpdateDeployment _)).
    destruct (respond c1 ctx (UpdateDeployment _)) as [[]|e] eqn:Hu; [|done]. intros [= <- <-].
    eexists. split; [simpl; by rewrite Hu, Hr, <-app_assoc|]. left. eauto 10.
Qed.

(** The old workload is back at [n] replicas, or the error says that this failed. *)
Definition put_back (ns name kind : string) (n : Z) (e : goerr) (evs : list exchange) : Prop :=
  (∃ before m last, evs = before ++ last ∧ scaled ns name kind m n last) ∨
  (∃ cause detail, e = EWrap "" cause ("；停止新工作负载失败: " +:+ detail)
    ∨ e = EWrap "" cause ("；恢复原工作负载失败: " +:+ detail)).

Lemma put_back_app ns name kind n e evs evs' :
  put_back ns name kind n e evs' → put_back ns name kind n e (evs ++ evs').
Proof.
  intros [(before & m & last & -> & Hs)|?]; [left | by right]. exists (evs ++ before), m, last. by rewrite <-app_assoc.
Qed.

Context (ctx : Context) (application : ApplicationContext).
#[local] Abbreviation ns := (ac_Namespace application).
#[local] Abbreviation name := (ac_ApplicationName application).

(** The log goes on from [l0]; an error comes with the old workload back. *)
Definition ends_back {A} (kind : string) (n : Z) (l0 : list exchange) (r : result A) (c : Cluster) : Prop :=
  ∃ evs, c_log c = l0 ++ evs ∧ match r with Ok _ => True | Err e => put_back ns name kind n e evs end.

Lemma careful_ends_back {A} kind n l0 (m : M Cluster A) :
  careful m → (∀ c e, (m c).1 = Err e → ∀ evs, put_back ns name kind n e evs) →
  triple (λ c, ∃ evs, c_log c = l0 ++ evs) m (ends_back kind n l0).
Proof.
  intros Hm He c (evs & Hl). destruct (Hm c) as (evs' & Hl' & _). exists (evs ++ evs').
  split; [by rewrite Hl', Hl, app_assoc|]. specialize (He c). destruct (m c).1; [done | by apply He].
Qed.

Lemma restore_ends_back {A} kind kind' n applied cause l0 :
  triple (λ c, ∃ evs, c_log c = l0 ++ evs) (restore (A := A) a ctx application kind kind' n applied cause) (λ r c, is_ok r = false ∧ ends_back kind n l0 r c).
Proof.
  unfold restore. eapply triple_bind with (R := ends_back kind n l0).
  - apply careful_ends_back.
    + destruct applied; [by apply careful_wrapping, careful_stopManagedWorkloadIfExists | apply careful_ret].
    + destruct applied; [|done]. intros c' e. unfold wrapping.
      destruct (stopManagedWorkloadIfExists _ _ _ _ _ c') as [[u|e'] c1]; intros [= <-] evs; right; eauto.
  - intros u. eapply triple_bind with (R := λ r c, match r with
      | Ok _ => ∃ evs, c_log c = l0 ++ evs ∧ ∃ before m last, evs = before ++ last ∧ scaled ns name kind m n last
      | Err e => ends_back (A := A) kind n l0 (Err e) c end).
    + intros c (evs & Hl & _). unfold wrapping, restoreManagedWorkload, mbind, M_bind.
      pose proof (careful_scaleManagedWorkload a ctx ns name kind n c) as (evs' & Hl' & _).
      destruct (scaleManagedWorkload a ctx ns name kind n c) as [[m|e] c'] eqn:Hs; simpl in *.
      * apply scaleManagedWorkload_Ok in Hs as (last & Hl2 & Hlast). exists (evs ++ last).
        split; [by rewrite Hl2, Hl, app_assoc | by exists evs, m, last].
      * exists (evs ++ evs'). split; [by rewrite Hl', Hl, app_assoc | right; eauto].
    + intros _ c (evs & Hl & Hs). split; [done|]. exists evs. split; [done | by left].
    + done.
  - intros e c (evs & Hl & Hb). split; [done|]. by exists evs.
Qed.

(** A step of the migration whose failure goes through [restore]. *)
Lemma guarded_step {A} kind kind' n applied l0 (wrap : goerr → goerr) (m : M Cluster A) :
  careful m →
  triple (λ c, ∃ evs, c_log c = l0 ++ evs)
    (catching m (λ e, restore a ctx application kind kind' n applied (wrap e))) (ends_back kind n l0).
Proof.
  intros Hm. eapply triple_catching with (R := λ _ c, ∃ evs, c_log c = l0 ++ evs).
  - intros c (evs & Hl). destruct (Hm c) as (evs' & Hl' & _). exists (evs ++ evs'). by rewrite Hl', Hl, app_assoc.
  - intros x c (evs & Hl). by exists evs.
  - intros e. eapply triple_weaken; [apply restore_ends_back | intros c Hc; exact Hc | by intros r c [_ Hr]].
Qed.

(** [ends_back], and a success was observed ready. *)
Definition migrated (spec : ReleaseSpec) (kind target : string) (n : Z) (l0 : list exchange) (r : result unit) (c : Cluster) : Prop :=
  ∃ evs, c_log c = l0 ++ evs ∧ match r with
    | Ok _ => observed_ready (with_workload_kind target application) spec evs
    | Err e => put_back ns name kind n e evs end.

Lemma migrate_target_migrated spec kind target n l0 :
  triple (λ c, ∃ evs, c_log c = l0 ++ evs) (migrate_target a ctx application spec kind target n) (migrated spec kind target n l0).
Proof.
  assert (∀ A e (c : Cluster), ends_back (A := A) kind n l0 (Err e) c → migrated spec kind target n l0 (Err e) c) as Herr.
  { intros A e c (evs & Hl & Hb). by exists evs. }
  assert (∀ A (x : A) (c : Cluster), ends_back kind n l0 (Ok x) c → ∃ evs, c_log c = l0 ++ evs) as Hok.
  { intros A x c (evs & Hl & _). by exists evs. }
  unfold migrate_target.
  eapply triple_bind; [exact (guarded_step kind target n false l0 id _ (careful_waitForWorkloadPodsStopped a ctx ns name))| |apply Herr].
  intros u. eapply triple_bind; [eapply triple_weaken; [apply (guarded_step kind target n false l0 id), careful_lift | apply Hok | intros r c Hc; exact Hc]| |apply Herr].
  intros resources. eapply triple_bind;
    [eapply triple_weaken; [apply (guarded_step kind target n false l0), careful_Apply | apply Hok | intros r c Hc; exact Hc]| |apply Herr].
  intros []. eapply triple_catching with (R := λ r c, ∃ evs, c_log c = l0 ++ evs ∧
    (r = Ok tt → observed_ready (with_workload_kind target application) spec evs)).
  - intros c (evs & Hl & _).
    destruct (careful_WaitReady a ctx (with_workload_kind target application) spec c) as (evs' & Hl' & _).
    destruct (Applier_WaitReady a ctx _ spec c) as [[[]|e] c'] eqn:Hw; simpl in *.
    + apply WaitReady_observed in Hw as (evs2 & Hl2 & Ho). exists (evs ++ evs2).
      split; [by rewrite Hl2, Hl, app_assoc | intros _; by apply observed_ready_app].
    + exists (evs ++ evs'). split; [by rewrite Hl', Hl, app_assoc | done].
  - intros [] c (evs & Hl & Ho). exists evs. split; [done | by apply Ho].
  - intros e. eapply triple_weaken; [apply restore_ends_back| |].
    + intros c (evs & Hl & _). by exists evs.
    + intros [v|e'] c [Hr Hb]; [done | by apply (Herr unit)].
Qed.

(** C6: Changing the kind of a workload either leaves the cluster as it was, or scales the old workload down
    first. After that, success means that the new workload was observed ready; any failure scales the
    old workload back to the replicas it had, as the last thing sent and accepted, unless the error
    returned says that stopping the new workload or restoring the old one failed. *)
Theorem migration_restores spec target (c : Cluster) :
  let kind := current_kind application in
  let '(r, c') := MigrateWorkloadKind a ctx application spec target c in
  c' = c ∨
  (∃ e, r = Err e ∧ scaleManagedWorkload a ctx ns name kind 0 c = (Err e, c')) ∨
  (∃ n down, scaled ns name kind n 0 down ∧ migrated spec kind target n (c_log c ++ down) r c').
Proof.
  destruct (MigrateWorkloadKind a ctx application spec target c) as [r c'] eqn:Hm. simpl. revert Hm.
  unfold MigrateWorkloadKind. destruct (ka_workloads a); [|intros [= _ <-]; by left].
  case_decide; [intros [= _ <-]; by left|].
  unfold mbind at 1, M_bind at 1, guard_not. destruct (_ && _); [intros [= _ <-]; by left|]. cbn [mret M_ret].
  unfold mbind at 1, M_bind at 1.
  destruct (scaleManagedWorkload a ctx ns name (current_kind application) 0 c) as [[n|e] c1] eqn:Hs.
  - apply scaleManagedWorkload_Ok in Hs as (down & Hl & Hdown). intros Hm. right. right. exists n, down.
    split; [done|]. pose proof (migrate_target_migrated spec (current_kind application) target n (c_log c ++ down) c1) as Ht.
    rewrite Hm in Ht. apply Ht. exists []. by rewrite app_nil_r.
  - intros [= <- <-]. right. left. by exists e.
Qed.
End migration.

(** ** Diagnostics *)

(** At most 1000 bytes, and none of the two credentials of the specification in it, unless a credential is
    made of the letters or brackets of the marker itself. *)
Definition clean_for (spec : ReleaseSpec) (d : string) : Prop :=
  String.length d ≤ 1000 ∧
  ∀ k, k ∈ [rs_RegistryCredential spec; rs_ImageVerificationCredential spec] →
    redactable (trim_space k) → contains d (trim_space k) = false.

Lemma redact_one_absent d k : redactable (trim_space k) → contains (redact_one d k) (trim_space k) = false.
Proof.
  intros Hk. unfold redact_one. rewrite decide_False by apply Hk. by apply replaced_absent.
Qed.
Lemma redact_one_keeps d k k' :
  redactable k' → contains d k' = false → contains (redact_one d k) k' = false.
Proof.
  intros Hk Hd. unfold redact_one. case_decide; [done|]. apply not_true_is_false. intros Hr%replaced_contains; congruence.
Qed.

Lemma redact_clean d spec : clean_for spec (redactReleaseDiagnostic d spec).
Proof.
  unfold redactReleaseDiagnostic. cbn [foldl].
  set (r1 := redact_one (trim_space d) (rs_RegistryCredential spec)).
  set (r2 := redact_one r1 (rs_ImageVerificationCredential spec)). split.
  - case_decide; [rewrite length_take_str|]; lia.
  - intros k Hin Hk. assert (contains r2 (trim_space k) = false) as Hr2.
    { apply elem_of_cons in Hin as [->|Hin]; [|apply list_elem_of_singleton in Hin as ->; by apply redact_one_absent].
      apply redact_one_keeps; [done|]. by apply redact_one_absent. }
    case_decide; [|done]. apply not_true_is_false. intros Ht%contains_take. congruence.
Qed.

Lemma clean_empty spec : clean_for spec "".
Proof. split; [simpl; lia|]. intros k _ (Hne & _). by destruct (trim_space k). Qed.
#[local] Hint Resolve redact_clean clean_empty : core.

Definition clean_sum (spec : ReleaseSpec) (r : string + string) : Prop := match r with inl d | inr d => clean_for spec d end.

Lemma containers_clean spec name last statuses : clean_for spec last → clean_sum spec (containers_diagnostic spec name last statuses).
Proof.
  revert last. induction statuses as [|s l IH]; intros last Hl; [done|]. simpl.
  destruct (cs_Waiting s) as [w|]; [|by apply IH]. case_decide; [by apply IH|].
  destruct (terminalContainerWaitingReason _); [apply redact_clean | apply IH, redact_clean].
Qed.

Lemma pod_clean spec last pod : clean_for spec last → clean_sum spec (pod_diagnostic spec last pod).
Proof.
  intros Hl. unfold pod_diagnostic. case_decide; [apply redact_clean|].
  pose proof (containers_clean spec (pod_name pod) last (pod_ContainerStatuses pod) Hl) as Hc.
  destruct (containers_diagnostic _ _ _ _) as [d|d]; [|done]. simpl in Hc |- *. clear Hl. revert d Hc.
  induction (pod_Conditions pod) as [|x l IH]; intros d Hd; [done|]. simpl. apply IH.
  unfold condition_diagnostic. by destruct (unscheduled x).
Qed.

Lemma pods_clean spec last pods : clean_for spec last → clean_sum spec (pods_diagnostic spec last pods).
Proof.
  revert last. induction pods as [|p l IH]; intros last Hl; [done|]. simpl.
  pose proof (pod_clean spec last p Hl) as Hp. destruct (pod_diagnostic spec last p); [by apply IH | done].
Qed.

Lemma events_clean spec names last events : clean_for spec last → clean_for spec (foldl (event_diagnostic spec names) last events).
Proof.
  revert last. induction events as [|e l IH]; intros last Hl; [done|]. simpl. apply IH.
  unfold event_diagnostic. by destruct (pod_warning names e).
Qed.

Section diagnostics.
Context `{K8sLibrary} `{!APIServer} `{ImageNames}.

End diagnostics.

(** ** A concrete cluster *)

Definition sample_meta : LiveMeta :=
  {| lm_Name := "web"; lm_Namespace := "shop-prod"; lm_Labels := {[ManagedByLabel := ManagedByValue]};
     lm_Annotations := ∅; lm_ResourceVersion := "7"; lm_Generation := 1; lm_CreationTimestamp := 0 |}.
Definition sample_live (ready : Z) : LiveDeployment :=
  {| ld_Meta := sample_meta; ld_Replicas := Some 2%Z; ld_Containers := []; ld_Annotations := ∅; ld_Selector := ""; ld_NodeSelector := ∅; ld_Claims := []; ld_Rest := JNull; ld_ObservedGeneration := 1;
     ld_UpdatedReplicas := ready; ld_ReadyReplicas := ready; ld_AvailableReplicas := ready; ld_UnavailableReplicas := 0; ld_Conditions := [] |}.

(** A server whose deployments become ready after ten seconds; the rest is missing. *)
Definition sample_respond (c : Cluster (H := sample_library)) (ctx : Context) (q : request (H := sample_library)) :
    result (answer q) :=
  if done ctx (c_time c) then Err (EText "context deadline exceeded") else
  match q as q return result (answer q) with
  | GetDeployment _ _ => Ok (sample_live (if decide (c_time c < 10 * second)%Z then 0 else 2)%Z)
  | ListPods _ _ => Ok []
  | ListEvents _ => Ok []
  | GetCertificate _ _ => Ok (sample_meta, [("Ready", "True")])
  | _ => Err not_found
  end.
#[local] Instance sample_server : APIServer (H := sample_library) :=
  {| respond := sample_respond; latency _ _ := 0; tick_first _ := true |}.
Definition sample_cluster : Cluster (H := sample_library) := {| c_log := []; c_time := 0; c_cache := None |}.

Lemma sample_server_expires : expired_context_fails (H0 := sample_server).
Proof. intros c ctx q Hd. simpl. unfold sample_respond. rewrite Hd. by eexists. Qed.

#[local] Instance sample_names : ImageNames :=
  {| ParseImage _ := Err not_found; NewRepository _ _ := Err not_found; ParseRequestURI _ := Err not_found |}.
Definition sample_k8s_applier : KubernetesApplier := NewKubernetesApplier {| kc_Clientset := true; kc_Dynamic := Ok tt |}.

(** The sample becomes ready in time. *)
Lemma waiting_terminates_witness :
  (wait_loop sample_k8s_applier None sample_context sample_spec 0 sample_cluster).1 ≠ Ok None ∧
  observed_ready sample_context sample_spec
    (c_log (Applier_WaitReady sample_k8s_applier None sample_context sample_spec sample_cluster).2).
Proof.
  pose proof (waiting_terminates sample_k8s_applier None sample_context sample_spec sample_cluster sample_server_expires)
    as (Hw & _ & Ho). split; [exact Hw|].
  assert ((Applier_WaitReady sample_k8s_applier None sample_context sample_spec sample_cluster).1 = Ok tt) as Hok
    by (vm_compute; reflexivity).
  destruct (Applier_WaitReady sample_k8s_applier None sample_context sample_spec sample_cluster) as [r c'].
  simpl in Hok |- *. subst r. destruct (Ho c' eq_refl) as (evs & Hl & Hobs). rewrite Hl. exact Hobs.
Defined.
