(* ===== verification/Store.v ===== *)
(** * The database

    [internal/store/application_release_repository.go] and [internal/store/application_repository.go]:
    the tables the release components use, and the repository operations over them. A table maps
    primary keys to rows; gorm's [Create] gives the next key and refuses a row that breaks a unique
    index, [Save] writes the whole row. A statement may fail for reasons of its own (a locked or
    full database), which the environment decides for each statement by [fault]; a statement or
    transaction that fails changes nothing. The world also holds the cluster, whose type is a
    parameter, and a ghost trace of what was written and called, used to state properties only. *)
From Stdlib Require Import ZArith Ascii String.
From stdpp Require Import base sorting pretty numbers gmap strings list.
From S2P Require Import Prelude GoStrings Json ReleaseSpec ReleaseSnapshot Models PlatformModels.

(** ** Tables *)

Record table (A : Type) := { t_rows : gmap Z A; t_next : Z }.
Arguments t_rows {A} _.
Arguments t_next {A} _.
Arguments Build_table {A} _ _.

(** A row: its primary key and its unique indexes. *)
Class Row (A : Type) := {
  row_id : A → Z;
  with_id : Z → A → A;
  (** the [default:] tags: what [Create] stores for zero values *)
  defaults : A → A;
  (** the two rows share a value of a unique index *)
  clash : A → A → bool
}.

(** The rows in the order of their primary keys. *)
Definition by_id {A} (a b : Z * A) : Prop := (a.1 ≤ b.1)%Z.
#[export] Instance by_id_dec {A} (a b : Z * A) : Decision (by_id a b).
Proof. unfold by_id. apply _. Defined.
Definition t_list {A} (t : table A) : list A := (merge_sort by_id (map_to_list (t_rows t))).*2.

(** [Where(...)], in the order of the keys *)
Definition select {A} (test : A → bool) (t : table A) : list A := List.filter test (t_list t).

Definition record_not_found : goerr := ESent "gorm.ErrRecordNotFound" "record not found".
Definition unique_violation : goerr := ESent "gorm.ErrDuplicatedKey" "UNIQUE constraint failed".

(** [First(&row)]: the first row of the query *)
Definition first_row {A} (l : list A) : result A :=
  match l with a :: _ => Ok a | [] => Err record_not_found end.

Section table_operations.
Context `{Row A}.

Definition clashes (id : Z) (a : A) (t : table A) : bool :=
  existsb (λ kv : Z * A, negb (bool_decide (kv.1 = id)) && clash kv.2 a) (map_to_list (t_rows t)).

(** [db.Create(&a)]: the row as stored, with its new key and the defaults of its zero columns *)
Definition t_create (a : A) (t : table A) : result (A * table A) :=
  let id := t_next t in
  if clashes id a t then Err unique_violation
  else
    let a := with_id id (defaults a) in
    Ok (a, {| t_rows := <[id := a]> (t_rows t); t_next := id + 1 |}).

(** [db.Save(&a)] for a row that has its key *)
Definition t_save (a : A) (t : table A) : result (table A) :=
  if clashes (row_id a) a t then Err unique_violation
  else Ok {| t_rows := <[row_id a := a]> (t_rows t); t_next := Z.max (t_next t) (row_id a + 1) |}.

(** [db.Model(...).Where(test).Updates(...)] *)
Definition t_update (test : A → bool) (f : A → A) (t : table A) : table A :=
  {| t_rows := (λ a, if test a then f a else a) <$> t_rows t; t_next := t_next t |}.

(** [db.Where(test).Delete(...)] *)
Definition t_delete (test : A → bool) (t : table A) : table A :=
  {| t_rows := filter (λ kv, test kv.2 = false) (t_rows t); t_next := t_next t |}.
End table_operations.

Definition empty_table {A} : table A := {| t_rows := ∅; t_next := 1 |}.

(** ** Rows

    A boolean column with [default:true] is stored as true by [Create] whatever it holds: its zero
    value is [false]. *)

Definition or_default (d s : string) : string := if decide (s = "") then d else s.

#[export] Instance release_row : Row Release := {
  row_id := rel_ID;
  with_id := set_rel_id;
  defaults r := r;
  clash a b := bool_decide (rel_ApplicationID a = rel_ApplicationID b ∧ rel_Sequence a = rel_Sequence b)
}.
#[export] Instance operation_row : Row ReleaseOperation := {
  row_id := op_ID; with_id := set_op_id; defaults o := o; clash _ _ := false
}.
#[export] Instance log_row : Row OperationLog := {
  row_id := log_ID; with_id := set_log_id;
  defaults l := let '(Build_OperationLog i t r s st d c) := l in
    Build_OperationLog i t r s (or_default "running" st) d c;
  clash _ _ := false
}.
#[export] Instance environment_row : Row Environment := {
  row_id := env_ID;
  with_id id e := {| env_ID := id; env_ProjectID := env_ProjectID e; env_Name := env_Name e;
                     env_Namespace := env_Namespace e |};
  defaults e := e;
  clash a b := bool_decide (env_ProjectID a = env_ProjectID b ∧ env_Name a = env_Name b)
}.
#[export] Instance project_row : Row Project := {
  row_id := pr_ID;
  with_id id p := {| pr_ID := id; pr_Name := pr_Name p; pr_Description := pr_Description p;
                     pr_DefaultImageRegistryID := pr_DefaultImageRegistryID p; pr_OwnerID := pr_OwnerID p |};
  defaults p := p;
  clash a b := bool_decide (pr_Name a = pr_Name b)
}.
#[export] Instance endpoint_table_row : Row ApplicationEndpoint := {
  row_id := ae_ID;
  with_id id e := let '(Build_ApplicationEndpoint _ a d x dm p sp pr t ie im ts ir am) := e in
    Build_ApplicationEndpoint id a d x dm p sp pr t ie im ts ir am;
  defaults e := let '(Build_ApplicationEndpoint i a d x dm p sp pr t _ im ts ir am) := e in
    Build_ApplicationEndpoint i a d (or_default "cluster" x) dm (or_default "/" p) sp (or_default "TCP" pr) t true
      (or_default "ingress" im) ts ir (or_default "public" am);
  clash _ _ := false
}.
#[export] Instance template_row : Row ApplicationDeploymentTemplate := {
  row_id := tpl_ID;
  with_id id t := let '(Build_ApplicationDeploymentTemplate _ a n d e s x r u) := t in
    Build_ApplicationDeploymentTemplate id a n d e s x r u;
  defaults t := let '(Build_ApplicationDeploymentTemplate i a n d _ s x r u) := t in
    Build_ApplicationDeploymentTemplate i a n d true s x r u;
  clash a b := bool_decide (tpl_ApplicationID a = tpl_ApplicationID b ∧ tpl_Name a = tpl_Name b)
}.
#[export] Instance managed_file_row : Row ApplicationManagedFile := {
  row_id := mf_ID;
  with_id id f := let '(Build_ApplicationManagedFile _ a k n key p fm v e c) := f in
    Build_ApplicationManagedFile id a k n key p fm v e c;
  defaults f := let '(Build_ApplicationManagedFile i a k n key p fm v _ c) := f in
    Build_ApplicationManagedFile i a k n key p (or_default "text" fm) (if decide (v = 0%Z) then 1%Z else v) true c;
  clash a b := bool_decide (mf_ApplicationID a = mf_ApplicationID b ∧ mf_ResourceKind a = mf_ResourceKind b
    ∧ mf_ResourceName a = mf_ResourceName b ∧ mf_Key a = mf_Key b)
}.
#[export] Instance application_row : Row Application := {
  row_id := app_ID;
  with_id id a := let '(Build_Application _ p e n w dt cs d c pr en eps) := a in
    Build_Application id p e n w dt cs d c pr en eps;
  defaults a := let '(Build_Application i p e n w dt cs d c pr en eps) := a in
    Build_Application i p e n (or_default "deployment" w) dt cs d c pr en eps;
  clash a b := bool_decide (app_EnvironmentID a = app_EnvironmentID b ∧ app_Name a = app_Name b)
}.

#[export] Instance image_registry_row : Row ImageRegistry := {
  row_id := ireg_ID;
  with_id id r := let '(Build_ImageRegistry _ n ep vi at_ u cr e lv ls le cb mr ps) := r in
    Build_ImageRegistry id n ep vi at_ u cr e lv ls le cb mr ps;
  defaults r := let '(Build_ImageRegistry i n ep vi at_ u cr _ lv ls le cb mr ps) := r in
    Build_ImageRegistry i n ep vi at_ u cr true lv ls le cb mr ps;
  clash a b := bool_decide (ireg_Name a = ireg_Name b) || bool_decide (ireg_Endpoint a = ireg_Endpoint b)
    || bool_decide (is_Some (ireg_ManagedRegistryID a) ∧ ireg_ManagedRegistryID a = ireg_ManagedRegistryID b)
}.
#[export] Instance server_row : Row Server := {
  row_id := sv_ID;
  with_id id s := let '(Build_Server _ n h r k sa sk c) := s in Build_Server id n h r k sa sk c;
  defaults s := s;
  clash a b := bool_decide (sv_Host a = sv_Host b)
}.
#[export] Instance mirror_node_row : Row NodeRegistryMirrorNode := {
  row_id := mn_ID;
  with_id id s := let '(Build_NodeRegistryMirrorNode _ m sv st d ap s) := s in
    Build_NodeRegistryMirrorNode id m sv st d ap s;
  defaults s := s;
  clash a b := bool_decide (mn_MirrorID a = mn_MirrorID b ∧ mn_ServerID a = mn_ServerID b)
}.
#[export] Instance mirror_row : Row NodeRegistryMirror := {
  row_id := nm_ID;
  with_id id m := let '(Build_NodeRegistryMirror _ n r e vi va vs ve aa as_ ae u c i en cb mr ca ns) := m in
    Build_NodeRegistryMirror id n r e vi va vs ve aa as_ ae u c i en cb mr ca ns;
  defaults m := let '(Build_NodeRegistryMirror id n r e vi va vs ve aa as_ ae u c i _ cb mr ca ns) := m in
    Build_NodeRegistryMirror id n r e vi va vs ve aa as_ ae u c i true cb mr ca ns;
  clash a b := bool_decide (nm_Name a = nm_Name b) || bool_decide (nm_Registry a = nm_Registry b)
    || bool_decide (is_Some (nm_ManagedRegistryID a) ∧ nm_ManagedRegistryID a = nm_ManagedRegistryID b)
}.

#[export] Instance proxy_row : Row RegistryProxy := {
  row_id := px_ID;
  with_id id p := let '(Build_RegistryProxy _ r n h np s e ds de da c) := p in
    Build_RegistryProxy id r n h np s e ds de da c;
  defaults p := p; clash _ _ := false
}.
#[export] Instance runtime_row : Row RuntimeInstance := {
  row_id := rt_ID;
  with_id id r := let '(Build_RuntimeInstance _ n t m ns mo k s hs hd lh a c) := r in
    Build_RuntimeInstance id n t m ns mo k s hs hd lh a c;
  defaults r := let '(Build_RuntimeInstance i n t m ns mo k s hs hd lh a c) := r in
    Build_RuntimeInstance i n t (or_default "managed" m) ns mo k s hs hd lh a c;
  clash a b := bool_decide (rt_Name a = rt_Name b)
}.
#[export] Instance grant_row : Row AgentCapabilityGrant := {
  row_id := gr_ID;
  with_id id g := let '(Build_AgentCapabilityGrant _ r c n e) := g in Build_AgentCapabilityGrant id r c n e;
  defaults g := g;
  clash a b := bool_decide (gr_RuntimeID a = gr_RuntimeID b ∧ gr_Capability a = gr_Capability b ∧
    gr_Namespace a = gr_Namespace b)
}.
#[export] Instance agent_operation_row : Row AgentOperation := {
  row_id := ao_ID;
  with_id id o := let '(Build_AgentOperation _ o r c q cs p h v s su es ab aa ex ca cr) := o in
    Build_AgentOperation id o r c q cs p h v s su es ab aa ex ca cr;
  defaults o := o;
  clash a b := bool_decide (ao_OperationID a = ao_OperationID b)
    || bool_decide (ao_RuntimeID a = ao_RuntimeID b ∧ ao_RequestID a = ao_RequestID b)
}.
#[export] Instance alert_row : Row AlertEvent := {
  row_id := al_ID;
  with_id id e := let '(Build_AlertEvent _ f n s nn m l a st r se re d o le sa ea ld) := e in
    Build_AlertEvent id f n s nn m l a st r se re d o le sa ea ld;
  defaults e := e;
  clash a b := bool_decide (al_Fingerprint a = al_Fingerprint b)
}.
#[export] Instance policy_row : Row AlertAutomationPolicy := {
  row_id := pol_ID;
  with_id id p := let '(Build_AlertAutomationPolicy _ r e n s m c) := p in
    Build_AlertAutomationPolicy id r e n s m c;
  defaults p := let '(Build_AlertAutomationPolicy i r e n s m c) := p in
    Build_AlertAutomationPolicy i r e n (or_default "warning" s) (or_default "report_only" m)
      (if decide (c = 0%Z) then 30%Z else c);
  clash _ _ := false
}.
#[export] Instance audit_row : Row AuditLog := {
  row_id := au_ID;
  with_id id l := let '(Build_AuditLog _ a rt ri tn u at_ an s o su rq op d c) := l in
    Build_AuditLog id a rt ri tn u at_ an s o su rq op d c;
  defaults l := l; clash _ _ := false
}.
#[export] Instance user_row : Row User := {
  row_id := us_ID;
  with_id id u := {| us_ID := id; us_Username := us_Username u; us_PasswordHash := us_PasswordHash u |};
  defaults u := u;
  clash a b := bool_decide (us_Username a = us_Username b)
}.
#[export] Instance login_token_row : Row TemporaryLoginToken := {
  row_id := lt_ID;
  with_id id t := let '(Build_TemporaryLoginToken _ h c l e r u ca) := t in Build_TemporaryLoginToken id h c l e r u ca;
  defaults t := t;
  clash a b := bool_decide (lt_TokenHash a = lt_TokenHash b)
}.
#[export] Instance session_row : Row IntegrationSession := {
  row_id := is_ID;
  with_id id s := let '(Build_IntegrationSession _ h st u p a e c ac he hu ex r) := s in
    Build_IntegrationSession id h st u p a e c ac he hu ex r;
  defaults s := s;
  clash a b := bool_decide (is_HandoffCodeHash a = is_HandoffCodeHash b)
    || bool_decide (is_Some (is_SessionTokenHash a) ∧ is_SessionTokenHash a = is_SessionTokenHash b)
}.
#[export] Instance domain_row : Row ManagedDomain := {
  row_id := md_ID;
  with_id id d := let '(Build_ManagedDomain _ h e ns c t i k o ds en) := d in Build_ManagedDomain id h e ns c t i k o ds en;
  defaults d := let '(Build_ManagedDomain id h e ns c t i k o ds _) := d in
    Build_ManagedDomain id h e ns c t i (or_default "ClusterIssuer" k) (or_default "managed" o) ds true;
  clash a b := bool_decide (md_Hostname a = md_Hostname b)
}.
#[export] Instance config_row : Row SystemConfig := {
  row_id := cfg_ID;
  with_id id c := {| cfg_ID := id; cfg_Key := cfg_Key c; cfg_Value := cfg_Value c |};
  defaults c := c;
  clash a b := bool_decide (cfg_Key a = cfg_Key b)
}.
#[export] Instance platform_release_row : Row PlatformRelease := {
  row_id := plr_ID;
  with_id id r := let '(Build_PlatformRelease _ s i p st d c ru sa ca cr) := r in Build_PlatformRelease id s i p st d c ru sa ca cr;
  defaults r := r; clash _ _ := false
}.
#[export] Instance nonce_row : Row PlatformWebhookNonce := {
  row_id := wn_ID;
  with_id id n := {| wn_ID := id; wn_Nonce := wn_Nonce n; wn_ExpiresAt := wn_ExpiresAt n |};
  defaults n := n;
  clash a b := bool_decide (wn_Nonce a = wn_Nonce b)
}.

#[export] Instance migration_row : Row PersistentVolumeMigration := {
  row_id := mig_ID;
  with_id id m := let '(Build_PersistentVolumeMigration _ e a s t sn tn d r st de b sp c) := m in
    Build_PersistentVolumeMigration id e a s t sn tn d r st de b sp c;
  defaults m := m; clash _ _ := false
}.

(** ** The database and the world *)

(** The tables of the platform's own records. *)
Record PlatformDB := {
  pdb_runtimes : table RuntimeInstance;
  pdb_grants : table AgentCapabilityGrant;
  pdb_agent_operations : table AgentOperation;
  pdb_alerts : table AlertEvent;
  pdb_policies : table AlertAutomationPolicy;
  pdb_audits : table AuditLog;
  pdb_proxies : table RegistryProxy;
  pdb_users : table User;
  pdb_login_tokens : table TemporaryLoginToken;
  pdb_sessions : table IntegrationSession;
  pdb_domains : table ManagedDomain;
  pdb_configs : table SystemConfig;
  pdb_platform_releases : table PlatformRelease;
  pdb_nonces : table PlatformWebhookNonce;
  pdb_migrations : table PersistentVolumeMigration
}.
Definition empty_platform : PlatformDB :=
  {| pdb_runtimes := empty_table; pdb_grants := empty_table; pdb_agent_operations := empty_table; pdb_alerts := empty_table;
     pdb_policies := empty_table; pdb_audits := empty_table; pdb_proxies := empty_table; pdb_users := empty_table;
     pdb_login_tokens := empty_table; pdb_sessions := empty_table;
     pdb_domains := empty_table; pdb_configs := empty_table; pdb_platform_releases := empty_table; pdb_nonces := empty_table; pdb_migrations := empty_table |}.

Record DB := {
  db_projects : table Project;
  db_environments : table Environment;
  db_applications : table Application;
  db_endpoints : table ApplicationEndpoint;
  db_templates : table ApplicationDeploymentTemplate;
  db_managed_files : table ApplicationManagedFile;
  db_releases : table Release;
  db_operations : table ReleaseOperation;
  db_logs : table OperationLog;
  db_registries : table ImageRegistry;
  db_mirrors : table NodeRegistryMirror;
  db_mirror_nodes : table NodeRegistryMirrorNode;
  db_servers : table Server;
  db_platform : PlatformDB;
  (** [idx_environments_namespace_unique] exists *)
  db_namespace_index : bool
}.

Definition empty_db : DB :=
  {| db_projects := empty_table; db_environments := empty_table; db_applications := empty_table;
     db_endpoints := empty_table; db_templates := empty_table; db_managed_files := empty_table;
     db_releases := empty_table; db_operations := empty_table; db_logs := empty_table;
     db_registries := empty_table; db_mirrors := empty_table; db_mirror_nodes := empty_table;
     db_servers := empty_table; db_platform := empty_platform; db_namespace_index := false |}.

(** One table of the database. *)
Class HasTable (A : Type) := {
  tbl : DB → table A;
  put : table A → DB → DB;
  tbl_put t db : tbl (put t db) = t;
  put_tbl db : put (tbl db) db = db;
  put_put t t' db : put t (put t' db) = put t db
}.

#[export] Program Instance projects_table : HasTable Project := {
  tbl := db_projects;
  put t db := let '(Build_DB _ b c d e f g h i j k l m q n) := db in Build_DB t b c d e f g h i j k l m q n }.
#[export] Program Instance environments_table : HasTable Environment := {
  tbl := db_environments;
  put t db := let '(Build_DB a _ c d e f g h i j k l m q n) := db in Build_DB a t c d e f g h i j k l m q n }.
#[export] Program Instance applications_table : HasTable Application := {
  tbl := db_applications;
  put t db := let '(Build_DB a b _ d e f g h i j k l m q n) := db in Build_DB a b t d e f g h i j k l m q n }.
#[export] Program Instance endpoints_table : HasTable ApplicationEndpoint := {
  tbl := db_endpoints;
  put t db := let '(Build_DB a b c _ e f g h i j k l m q n) := db in Build_DB a b c t e f g h i j k l m q n }.
#[export] Program Instance templates_table : HasTable ApplicationDeploymentTemplate := {
  tbl := db_templates;
  put t db := let '(Build_DB a b c d _ f g h i j k l m q n) := db in Build_DB a b c d t f g h i j k l m q n }.
#[export] Program Instance managed_files_table : HasTable ApplicationManagedFile := {
  tbl := db_managed_files;
  put t db := let '(Build_DB a b c d e _ g h i j k l m q n) := db in Build_DB a b c d e t g h i j k l m q n }.
#[export] Program Instance releases_table : HasTable Release := {
  tbl := db_releases;
  put t db := let '(Build_DB a b c d e f _ h i j k l m q n) := db in Build_DB a b c d e f t h i j k l m q n }.
#[export] Program Instance operations_table : HasTable ReleaseOperation := {
  tbl := db_operations;
  put t db := let '(Build_DB a b c d e f g _ i j k l m q n) := db in Build_DB a b c d e f g t i j k l m q n }.
#[export] Program Instance logs_table : HasTable OperationLog := {
  tbl := db_logs;
  put t db := let '(Build_DB a b c d e f g h _ j k l m q n) := db in Build_DB a b c d e f g h t j k l m q n }.
#[export] Program Instance registries_table : HasTable ImageRegistry := {
  tbl := db_registries;
  put t db := let '(Build_DB a b c d e f g h i _ k l m q n) := db in Build_DB a b c d e f g h i t k l m q n }.
#[export] Program Instance mirrors_table : HasTable NodeRegistryMirror := {
  tbl := db_mirrors;
  put t db := let '(Build_DB a b c d e f g h i j _ l m q n) := db in Build_DB a b c d e f g h i j t l m q n }.
#[export] Program Instance mirror_nodes_table : HasTable NodeRegistryMirrorNode := {
  tbl := db_mirror_nodes;
  put t db := let '(Build_DB a b c d e f g h i j k _ m q n) := db in Build_DB a b c d e f g h i j k t m q n }.
#[export] Program Instance servers_table : HasTable Server := {
  tbl := db_servers;
  put t db := let '(Build_DB a b c d e f g h i j k l _ q n) := db in Build_DB a b c d e f g h i j k l t q n }.
Definition put_platform (f : PlatformDB → PlatformDB) (db : DB) : DB :=
  let '(Build_DB a b c d e f0 g h i j k l m p n) := db in Build_DB a b c d e f0 g h i j k l m (f p) n.
#[export] Program Instance runtimes_table : HasTable RuntimeInstance := {
  tbl db := pdb_runtimes (db_platform db);
  put t db := put_platform (λ p, let '(Build_PlatformDB _ b c d e f g h i j k l m q r) := p in Build_PlatformDB t b c d e f g h i j k l m q r) db }.
#[export] Program Instance grants_table : HasTable AgentCapabilityGrant := {
  tbl db := pdb_grants (db_platform db);
  put t db := put_platform (λ p, let '(Build_PlatformDB a _ c d e f g h i j k l m q r) := p in Build_PlatformDB a t c d e f g h i j k l m q r) db }.
#[export] Program Instance agent_operations_table : HasTable AgentOperation := {
  tbl db := pdb_agent_operations (db_platform db);
  put t db := put_platform (λ p, let '(Build_PlatformDB a b _ d e f g h i j k l m q r) := p in Build_PlatformDB a b t d e f g h i j k l m q r) db }.
#[export] Program Instance alerts_table : HasTable AlertEvent := {
  tbl db := pdb_alerts (db_platform db);
  put t db := put_platform (λ p, let '(Build_PlatformDB a b c _ e f g h i j k l m q r) := p in Build_PlatformDB a b c t e f g h i j k l m q r) db }.
#[export] Program Instance policies_table : HasTable AlertAutomationPolicy := {
  tbl db := pdb_policies (db_platform db);
  put t db := put_platform (λ p, let '(Build_PlatformDB a b c d _ f g h i j k l m q r) := p in Build_PlatformDB a b c d t f g h i j k l m q r) db }.
#[export] Program Instance audits_table : HasTable AuditLog := {
  tbl db := pdb_audits (db_platform db);
  put t db := put_platform (λ p, let '(Build_PlatformDB a b c d e _ g h i j k l m q r) := p in Build_PlatformDB a b c d e t g h i j k l m q r) db }.
#[export] Program Instance proxies_table : HasTable RegistryProxy := {
  tbl db := pdb_proxies (db_platform db);
  put t db := put_platform (λ p, let '(Build_PlatformDB a b c d e f _ h i j k l m q r) := p in Build_PlatformDB a b c d e f t h i j k l m q r) db }.
#[export] Program Instance users_table : HasTable User := {
  tbl db := pdb_users (db_platform db);
  put t db := put_platform (λ p, let '(Build_PlatformDB a b c d e f g _ i j k l m q r) := p in Build_PlatformDB a b c d e f g t i j k l m q r) db }.
#[export] Program Instance login_tokens_table : HasTable TemporaryLoginToken := {
  tbl db := pdb_login_tokens (db_platform db);
  put t db := put_platform (λ p, let '(Build_PlatformDB a b c d e f g h _ j k l m q r) := p in Build_PlatformDB a b c d e f g h t j k l m q r) db }.
#[export] Program Instance sessions_table : HasTable IntegrationSession := {
  tbl db := pdb_sessions (db_platform db);
  put t db := put_platform (λ p, let '(Build_PlatformDB a b c d e f g h i _ k l m q r) := p in Build_PlatformDB a b c d e f g h i t k l m q r) db }.
#[export] Program Instance domains_table : HasTable ManagedDomain := {
  tbl db := pdb_domains (db_platform db);
  put t db := put_platform (λ p, let '(Build_PlatformDB a b c d e f g h i j _ l m q r) := p in Build_PlatformDB a b c d e f g h i j t l m q r) db }.
#[export] Program Instance configs_table : HasTable SystemConfig := {
  tbl db := pdb_configs (db_platform db);
  put t db := put_platform (λ p, let '(Build_PlatformDB a b c d e f g h i j k _ m q r) := p in Build_PlatformDB a b c d e f g h i j k t m q r) db }.
#[export] Program Instance platform_releases_table : HasTable PlatformRelease := {
  tbl db := pdb_platform_releases (db_platform db);
  put t db := put_platform (λ p, let '(Build_PlatformDB a b c d e f g h i j k l _ q r) := p in Build_PlatformDB a b c d e f g h i j k l t q r) db }.
#[export] Program Instance nonces_table : HasTable PlatformWebhookNonce := {
  tbl db := pdb_nonces (db_platform db);
  put t db := put_platform (λ p, let '(Build_PlatformDB a b c d e f g h i j k l m _ r) := p in Build_PlatformDB a b c d e f g h i j k l m t r) db }.
#[export] Program Instance migrations_table : HasTable PersistentVolumeMigration := {
  tbl db := pdb_migrations (db_platform db);
  put t db := put_platform (λ p, let '(Build_PlatformDB a b c d e f g h i j k l m q _) := p in Build_PlatformDB a b c d e f g h i j k l m q t) db }.
Solve All Obligations with (intros; by repeat match goal with db : DB |- _ => destruct db as [? ? ? ? ? ? ? ? ? ? ? ? ? [] ?] end).

#[global] Arguments tbl : simpl never.
#[global] Arguments put : simpl never.

(** What happened, for the properties: a release row written, a step of a release called on the
    cluster and what it returned. *)
Inductive event :=
  | Wrote (release : Release)
  | Called (step : string) (outcome : result unit).

Record World (C : Type) := {
  w_db : DB;
  w_tick : nat;
  w_cluster : C;
  w_trace : list event
}.
Arguments w_db {C} _.
Arguments w_tick {C} _.
Arguments w_cluster {C} _.
Arguments w_trace {C} _.
Arguments Build_World {C} _ _ _ _.

(** Which statement fails, and what [time.Now] reads, by the count of such steps. *)
Class Surroundings := {
  fault : nat → option goerr;
  clock : nat → Z
}.

Definition tick {C} (w : World C) : World C :=
  {| w_db := w_db w; w_tick := S (w_tick w); w_cluster := w_cluster w; w_trace := w_trace w |}.
Definition set_db {C} (db : DB) (w : World C) : World C :=
  {| w_db := db; w_tick := w_tick w; w_cluster := w_cluster w; w_trace := w_trace w |}.
Definition set_cluster {C} (c : C) (w : World C) : World C :=
  {| w_db := w_db w; w_tick := w_tick w; w_cluster := c; w_trace := w_trace w |}.
Definition traced {C} (e : event) (w : World C) : World C :=
  {| w_db := w_db w; w_tick := w_tick w; w_cluster := w_cluster w; w_trace := w_trace w ++ [e] |}.

Section repository.
Context {C : Type} `{Surroundings}.
#[local] Abbreviation M := (M (World C)).

Definition now : M Z := λ w, (Ok (clock (w_tick w)), tick w).
Definition note (e : event) : M unit := modify (traced e).

(** One statement or transaction: it fails as a whole or takes effect as a whole. *)
Definition statement {A} (f : DB → result (A * DB)) : M A := λ w,
  match fault (w_tick w) with
  | Some e => (Err e, tick w)
  | None =>
      match f (w_db w) with
      | Ok (a, db) => (Ok a, set_db db (tick w))
      | Err e => (Err e, tick w)
      end
  end.
Definition query {A} (f : DB → result A) : M A := statement (λ db, a ← f db; Ok (a, db)).
(** A statement that writes one table. *)
Definition execute {A} `{HasTable A} (f : table A → result (table A)) : M unit :=
  statement (λ db, t ← f (tbl db); Ok (tt, put t db)).
Definition create {A} `{HasTable A, Row A} (a : A) : M A :=
  statement (λ db, p ← t_create a (tbl db); Ok (p.1, put p.2 db)).
Definition save {A} `{HasTable A, Row A} (a : A) : M unit := execute (t_save a).
Definition find {A} `{HasTable A} (test : A → bool) : M (list A) := query (λ db, Ok (select test (tbl db))).
Definition first {A} `{HasTable A} (test : A → bool) : M A := query (λ db, first_row (select test (tbl db))).

(** *** Releases *)

Definition CreateRelease (release : Release) : M Release :=
  r ← create release; note (Wrote r) ;; mret r.
Definition UpdateRelease (release : Release) : M unit :=
  save release ;; note (Wrote release).
Definition GetRelease (id : Z) : M Release := first (λ r, bool_decide (rel_ID r = id)).

Definition newest_first (a b : Release) : Prop := (rel_Sequence b ≤ rel_Sequence a)%Z.
#[export] Instance newest_first_dec a b : Decision (newest_first a b).
Proof. unfold newest_first. apply _. Defined.
Definition releases_of (applicationID : Z) (db : DB) : list Release :=
  merge_sort newest_first (select (λ r, bool_decide (rel_ApplicationID r = applicationID)) (tbl db)).
Definition ListReleases (applicationID : Z) : M (list Release) :=
  query (λ db, Ok (releases_of applicationID db)).
Definition GetLatestSuccessfulRelease (applicationID : Z) : M Release :=
  query (λ db, first_row (List.filter (λ r, bool_decide (rel_Status r = ReleaseStatusSucceeded))
    (releases_of applicationID db))).
(** The releases of each requested application, newest first. *)
Definition ListReleasesByApplications (applicationIDs : list Z) : M (gmap Z (list Release)) :=
  if empty_list applicationIDs then mret ∅ else
  query (λ db, Ok (foldl (λ m r, <[rel_ApplicationID r := default [] (m !! rel_ApplicationID r) ++ [r]]> m) ∅
    (merge_sort newest_first (select (λ r, bool_decide (rel_ApplicationID r ∈ applicationIDs)) (tbl db))))).

Definition CreateReleaseOperation (operation : ReleaseOperation) : M ReleaseOperation := create operation.
Definition UpdateReleaseOperation (operation : ReleaseOperation) : M unit := save operation.
Definition ListReleaseOperations (releaseID : Z) : M (list ReleaseOperation) :=
  find (λ o, bool_decide (op_ReleaseID o = releaseID)).
Definition CreateOperationLog (log : OperationLog) : M OperationLog := create log.
Definition UpdateOperationLog (log : OperationLog) : M unit := save log.

(** *** Projects and environments *)

Definition CreateProject (project : Project) : M Project := create project.
Definition GetProject (id : Z) : M Project := first (λ p, bool_decide (pr_ID p = id)).
(** The registry that [GetProject] loads with the project. [Save] writes the rows a row belongs to first,
    and takes their keys. *)
Definition loaded_registry (project : Project) : M (option ImageRegistry) :=
  query (λ db, Ok (pr_DefaultImageRegistryID project ≫= λ id, t_rows (tbl db) !! id)).
Definition belonging_to (registry : option ImageRegistry) (p : Project) : Project :=
  match registry with
  | Some r => {| pr_ID := pr_ID p; pr_Name := pr_Name p; pr_Description := pr_Description p;
                 pr_DefaultImageRegistryID := Some (ireg_ID r); pr_OwnerID := pr_OwnerID p |}
  | None => p
  end.
Definition UpdateProject (project : Project) (registry : option ImageRegistry) : M unit :=
  save (belonging_to registry project).
Definition DeleteProject (id : Z) : M unit := execute (λ t, Ok (t_delete (λ p, bool_decide (pr_ID p = id)) t)).
Definition CountProjectEnvironments (projectID : Z) : M nat :=
  l ← find (λ e, bool_decide (env_ProjectID e = projectID)); mret (length l).
Definition CountProjectApplications (projectID : Z) : M nat :=
  l ← find (λ a, bool_decide (app_ProjectID a = projectID)); mret (length l).
Definition CountEnvironmentApplications (environmentID : Z) : M nat :=
  l ← find (λ a, bool_decide (app_EnvironmentID a = environmentID)); mret (length l).

Definition NamespaceConflictError (namespace : string) (e : Environment) : goerr :=
  ESent "NamespaceConflictError" ("命名空间 " +:+ quote namespace +:+ " 已被项目 " +:+ dec (env_ProjectID e)
    +:+ " 的环境 " +:+ dec (env_ID e) +:+ " 绑定").

(** The environments of a namespace, the excluded one apart. *)
Definition namespace_owners (namespace : string) (excludeEnvironmentID : Z) (db : DB) : list Environment :=
  select (λ e, bool_decide (env_Namespace e = namespace) &&
    (bool_decide (excludeEnvironmentID = 0%Z) || bool_decide (env_ID e ≠ excludeEnvironmentID))) (tbl db).
Definition ensureNamespaceAvailable (db : DB) (namespace : string) (excludeEnvironmentID : Z) : result unit :=
  match namespace_owners namespace excludeEnvironmentID db with
  | e :: _ => Err (NamespaceConflictError namespace e)
  | [] => Ok tt
  end.
Definition EnsureNamespaceAvailable (namespace : string) (excludeEnvironmentID : Z) : M unit :=
  query (λ db, ensureNamespaceAvailable db namespace excludeEnvironmentID).

Definition CreateEnvironment (environment : Environment) : M Environment :=
  statement (λ db,
    _ ← ensureNamespaceAvailable db (env_Namespace environment) 0;
    p ← t_create environment (tbl db); Ok (p.1, put p.2 db)).

Definition GetEnvironment (projectID environmentID : Z) : M Environment :=
  first (λ e, bool_decide (env_ProjectID e = projectID) && bool_decide (env_ID e = environmentID)).

Definition namespaces (db : DB) : list string := env_Namespace <$> t_list (tbl db).
(** The namespaces, not blank, that several environments use. *)
Definition duplicate_namespaces (db : DB) : list string :=
  List.filter (λ n, negb (empty_str n) && bool_decide (1 < length (List.filter (λ m, bool_decide (m = n)) (namespaces db))))
    (sort_strings (elements (list_to_set (namespaces db) : gset string))).
Definition ListEnvironmentNamespaceConflicts : M (list string) :=
  query (λ db, Ok (duplicate_namespaces db)).
Definition IsEnvironmentNamespaceConflicted (namespace : string) : M bool :=
  l ← find (λ e, bool_decide (env_Namespace e = namespace)); mret (bool_decide (1 < length l)).

(** [CREATE UNIQUE INDEX IF NOT EXISTS]: refused while two rows share a namespace, blank or not. *)
Definition create_namespace_index (db : DB) : result (unit * DB) :=
  if db_namespace_index db then Ok (tt, db)
  else if decide (NoDup (namespaces db)) then
    Ok (tt, let '(Build_DB a b c d e f g h i j k l m q _) := db in Build_DB a b c d e f g h i j k l m q true)
  else Err unique_violation.
Definition ReconcileEnvironmentNamespaceUniqueness : M unit :=
  conflicts ← ListEnvironmentNamespaceConflicts;
  if negb (empty_list conflicts) then mret tt else statement create_namespace_index.

Definition UpdateEnvironment (environment : Environment) : M unit :=
  statement (λ db,
    _ ← ensureNamespaceAvailable db (env_Namespace environment) (env_ID environment);
    t ← t_save environment (tbl db); Ok (tt, put t db)) ;;
  ReconcileEnvironmentNamespaceUniqueness.
Definition DeleteEnvironment (id : Z) : M unit :=
  execute (λ t, Ok (t_delete (λ e, bool_decide (env_ID e = id)) t)) ;;
  ReconcileEnvironmentNamespaceUniqueness.

(** *** Applications *)

Definition zero_project : Project := {| pr_ID := 0; pr_Name := ""; pr_Description := ""; pr_DefaultImageRegistryID := None; pr_OwnerID := 0 |}.
Definition zero_environment : Environment := {| env_ID := 0; env_ProjectID := 0; env_Name := ""; env_Namespace := "" |}.

(** The row with its project, environment and, on demand, endpoints. *)
Definition preload (endpoints : bool) (db : DB) (a : Application) : Application :=
  let '(Build_Application id p e n w dt cs d c _ _ _) := a in
  Build_Application id p e n w dt cs d c
    (default zero_project (t_rows (tbl db) !! p)) (default zero_environment (t_rows (tbl db) !! e))
    (if endpoints then select (λ ep, bool_decide (ae_ApplicationID ep = id)) (tbl db) else []).

Definition CreateApplication (application : Application) : M Application :=
  a ← lift (SetCapabilities application (app_Capabilities application)); create a.
Definition UpdateApplication (application : Application) : M unit :=
  a ← lift (SetCapabilities application (app_Capabilities application)); save a.
Definition get_application (db : DB) (id : Z) : result Application :=
  a ← first_row (select (λ a, bool_decide (app_ID a = id)) (tbl db)); Ok (LoadCapabilities (preload true db a)).
Definition GetApplication (id : Z) : M Application := query (λ db, get_application db id).
Definition GetApplicationByEnvironmentName (environmentID : Z) (name : string) : M Application :=
  query (λ db, a ← first_row (select (λ a, bool_decide (app_EnvironmentID a = environmentID)
    && bool_decide (app_Name a = name)) (tbl db)); Ok (LoadCapabilities (preload false db a))).

Definition set_capabilities_column (data : option json) (a : Application) : Application :=
  set_app_capabilities data (app_Capabilities a) a.
Definition ReplaceApplicationCapabilities (applicationID : Z) (values : list string) : M Application :=
  tags ← lift (NormalizeApplicationCapabilities values);
  execute (λ t, Ok (t_update (λ a, bool_decide (app_ID a = applicationID))
    (set_capabilities_column (Some (encode (list_codec string_codec) tags))) t)) ;;
  GetApplication applicationID.

(** *** Endpoints *)

Definition CreateApplicationEndpoint (endpoint : ApplicationEndpoint) : M ApplicationEndpoint := create endpoint.
Definition ListApplicationEndpoints (applicationID : Z) : M (list ApplicationEndpoint) :=
  find (λ e, bool_decide (ae_ApplicationID e = applicationID)).
Definition GetApplicationEndpoint (applicationID endpointID : Z) : M ApplicationEndpoint :=
  first (λ e, bool_decide (ae_ApplicationID e = applicationID) && bool_decide (ae_ID e = endpointID)).
Definition UpdateApplicationEndpoint (endpoint : ApplicationEndpoint) : M unit := save endpoint.
Definition DeleteApplicationEndpoint (applicationID endpointID : Z) : M unit :=
  execute (λ t, Ok (t_delete (λ e, bool_decide (ae_ApplicationID e = applicationID)
    && bool_decide (ae_ID e = endpointID)) t)).
Definition CountApplicationEndpointsByDomain (domainID : Z) : M nat :=
  l ← find (λ e, bool_decide (ae_DomainID e = domainID)); mret (length l).
(** Metadata-only bindings do not occupy an ingress route. *)
Definition CountApplicationEndpointRoute (domainID : Z) (path : string) (exceptEndpointID : Z) : M nat :=
  l ← find (λ e, bool_decide (ae_DomainID e = domainID) && bool_decide (ae_Path e = path)
    && bool_decide (ae_IngressMode e ≠ "metadata")
    && (bool_decide (exceptEndpointID = 0%Z) || bool_decide (ae_ID e ≠ exceptEndpointID)));
  mret (length l).

(** *** Deployment templates *)

Definition set_default_template (template : option Z) (a : Application) : Application :=
  let '(Build_Application id p e n w dt cs _ c pr en eps) := a in
  Build_Application id p e n w dt cs template c pr en eps.
Definition set_template_revision (revision : Z) (t : ApplicationDeploymentTemplate) : ApplicationDeploymentTemplate :=
  let '(Build_ApplicationDeploymentTemplate i a n d e s x _ u) := t in
  Build_ApplicationDeploymentTemplate i a n d e s x revision u.
Definition template_test (templateID applicationID : Z) (t : ApplicationDeploymentTemplate) : bool :=
  bool_decide (tpl_ID t = templateID) && bool_decide (tpl_ApplicationID t = applicationID).

Definition GetApplicationDeploymentTemplate (applicationID templateID : Z) : M ApplicationDeploymentTemplate :=
  first (template_test templateID applicationID).
Definition GetDefaultApplicationDeploymentTemplate (applicationID : Z) : M ApplicationDeploymentTemplate :=
  a ← first (λ a, bool_decide (app_ID a = applicationID));
  match app_DefaultDeploymentTemplateID a with
  | None => throw record_not_found
  | Some templateID => GetApplicationDeploymentTemplate applicationID templateID
  end.
Definition ListApplicationDeploymentTemplates (applicationID : Z) : M (list ApplicationDeploymentTemplate) :=
  find (λ t, bool_decide (tpl_ApplicationID t = applicationID)).

Definition update_default (applicationID : Z) (template : option Z) (db : DB) : DB :=
  put (t_update (λ a, bool_decide (app_ID a = applicationID)) (set_default_template template) (tbl db)) db.

Definition CreateApplicationDeploymentTemplate (template : ApplicationDeploymentTemplate) (makeDefault : bool) :
    M ApplicationDeploymentTemplate :=
  statement (λ db,
    p ← t_create (set_template_revision 1 template) (tbl db);
    let db := put p.2 db in
    Ok (p.1, if makeDefault then update_default (tpl_ApplicationID template) (Some (tpl_ID p.1)) db else db)).

Definition TemplateRevisionConflictError (current expected : Z) : goerr :=
  ESent "TemplateRevisionConflictError" ("模板版本冲突，当前版本为 " +:+ dec current +:+ "，期望版本为 " +:+ dec expected).

(** The transaction of both updates: [expected] is given by the conditional one. *)
Definition update_template (template : ApplicationDeploymentTemplate) (expected : option Z) (db : DB) :
    result (ApplicationDeploymentTemplate * DB) :=
  current ← first_row (select (template_test (tpl_ID template) (tpl_ApplicationID template)) (tbl db));
  match expected with
  | Some e => if decide (tpl_Revision current ≠ e)
      then Err (TemplateRevisionConflictError (tpl_Revision current) e) else Ok tt
  | None => Ok tt
  end ≫= λ _,
  let template := set_template_revision (u64 (tpl_Revision current + 1)) template in
  t ← t_save template (tbl db); Ok (template, put t db).
Definition UpdateApplicationDeploymentTemplate (template : ApplicationDeploymentTemplate) :
    M ApplicationDeploymentTemplate := statement (update_template template None).
Definition UpdateApplicationDeploymentTemplateIfRevision (template : ApplicationDeploymentTemplate)
    (expectedRevision : Z) : M ApplicationDeploymentTemplate :=
  statement (update_template template (Some expectedRevision)).

Definition SetDefaultApplicationDeploymentTemplate (applicationID templateID : Z) : M unit :=
  statement (λ db,
    _ ← first_row (select (λ t, template_test templateID applicationID t && tpl_Enabled t) (tbl db));
    Ok (tt, update_default applicationID (Some templateID) db)).

Definition DeleteApplicationDeploymentTemplate (applicationID templateID : Z) : M unit :=
  statement (λ db,
    if negb (empty_list (select (λ r, bool_decide (rel_TemplateID r = Some templateID)) (tbl db)))
    then Err (EText "该模板已有关联发布记录，无法删除") else
    let db := put (t_delete (template_test templateID applicationID) (tbl db)) db in
    Ok (tt, put (t_update (λ a, bool_decide (app_ID a = applicationID)
        && bool_decide (app_DefaultDeploymentTemplateID a = Some templateID)) (set_default_template None) (tbl db)) db)).

(** *** Managed files *)

Definition set_file (id version : Z) (f : ApplicationManagedFile) : ApplicationManagedFile :=
  let '(Build_ApplicationManagedFile _ a k n key p fm _ e c) := f in
  Build_ApplicationManagedFile id a k n key p fm version e c.
Definition set_file_format (format : string) (f : ApplicationManagedFile) : ApplicationManagedFile :=
  let '(Build_ApplicationManagedFile i a k n key p _ v e c) := f in
  Build_ApplicationManagedFile i a k n key p format v e c.
Definition set_file_enabled (enabled : bool) (f : ApplicationManagedFile) : ApplicationManagedFile :=
  let '(Build_ApplicationManagedFile i a k n key p fm v _ c) := f in
  Build_ApplicationManagedFile i a k n key p fm v enabled c.
(** The columns the upsert rewrites. *)
Definition set_file_columns (from f : ApplicationManagedFile) : ApplicationManagedFile :=
  let '(Build_ApplicationManagedFile i a k n key _ _ v _ c) := f in
  Build_ApplicationManagedFile i a k n key (mf_MountPath from) (mf_Format from) v (mf_Enabled from) c.

Definition CreateApplicationManagedFile (file : ApplicationManagedFile) : M ApplicationManagedFile :=
  let file := if decide (mf_Version file = 0%Z) then set_file (mf_ID file) 1 file else file in
  let file := if decide (mf_Format file = "") then set_file_format "text" file else file in
  create file.
Definition ListApplicationManagedFiles (applicationID : Z) : M (list ApplicationManagedFile) :=
  find (λ f, bool_decide (mf_ApplicationID f = applicationID) && mf_Enabled f).
Definition GetApplicationManagedFile (applicationID fileID : Z) : M ApplicationManagedFile :=
  first (λ f, bool_decide (mf_ApplicationID f = applicationID) && bool_decide (mf_ID f = fileID) && mf_Enabled f).

Definition UpsertApplicationManagedFile (file : ApplicationManagedFile) : M ApplicationManagedFile :=
  found ← attempt (first (λ f, clash f file));
  match found with
  | Err e => if err_is "gorm.ErrRecordNotFound" e then CreateApplicationManagedFile file else throw e
  | Ok existing =>
      execute (λ t, Ok (t_update (λ f, bool_decide (mf_ID f = mf_ID existing)) (set_file_columns file) t)) ;;
      mret (set_file (mf_ID existing) (mf_Version existing) file)
  end.

(** [fmt.Sprintf("%s\x00%s\x00%s", kind, name, key)] *)
Definition managedFileBinding (kind name key : string) : string :=
  kind +:+ String "000" (name +:+ String "000" key).
Definition file_binding (f : ApplicationManagedFile) : string :=
  managedFileBinding (mf_ResourceKind f) (mf_ResourceName f) (mf_Key f).

Definition DisableApplicationManagedFilesNotIn (applicationID : Z) (bindings : gset string) : M unit :=
  files ← ListApplicationManagedFiles applicationID;
  for_each (λ file,
    if decide (file_binding file ∈ bindings) then mret tt
    else execute (λ t, Ok (t_update (λ f, bool_decide (mf_ID f = mf_ID file)) (set_file_enabled false) t))) files.

Definition AdvanceApplicationManagedFileVersion (applicationID fileID expected : Z) : M Z :=
  let test f := bool_decide (mf_ApplicationID f = applicationID) && bool_decide (mf_ID f = fileID)
    && bool_decide (mf_Version f = expected) && mf_Enabled f in
  affected ← statement (λ db, Ok (length (select test (tbl db)),
    put (t_update test (λ f, set_file (mf_ID f) (u64 (expected + 1)) f) (tbl db)) db));
  if decide (affected ≠ 1) then throw record_not_found else mret (u64 (expected + 1)).

(** *** References to a resource *)

Record ResourceReference := {
  ref_ApplicationID : Z;
  ref_ApplicationName : string;
  ref_Kind : string;
  ref_Name : string
}.

(** [json.Unmarshal] into [fileMountReferenceSpec], then the scan of its mounts. *)
Definition mount_matches (sourceType sourceName : string) (mount : json) : option bool :=
  match mount with
  | JObj ms =>
      t ← get string_codec "source_type" "" ms; n ← get string_codec "source_name" "" ms;
      Some (bool_decide (t = sourceType) && bool_decide (n = sourceName))
  | JNull => Some (bool_decide ("" = sourceType) && bool_decide ("" = sourceName))
  | _ => None
  end.
Fixpoint last_file_mounts (cur : list json) (ms : list (string * json)) : option (list json) :=
  match ms with
  | [] => Some cur
  | (name, value) :: ms =>
      if same_key "file_mounts" name then
        match value with JArr l => last_file_mounts l ms | JNull => last_file_mounts [] ms | _ => None end
      else last_file_mounts cur ms
  end.
Definition document_matches (sourceType sourceName : string) (raw : json) : bool :=
  match raw with
  | JObj ms =>
      match (l ← last_file_mounts [] ms; mapM (mount_matches sourceType sourceName) l) with
      | Some tests => existsb id tests
      | None => false
      end
  | _ => false
  end.

Definition ListResourceReferences (namespace sourceType sourceName : string) : M (list ResourceReference) :=
  applications ← query (λ db, Ok (List.filter
    (λ a, bool_decide (env_Namespace (app_Environment a) = namespace))
    (preload false db <$> t_list (tbl db))));
  if empty_list applications then mret [] else
  let mine id := find_first (λ a, bool_decide (app_ID a = id)) applications in
  templates ← find (λ t, bool_decide (is_Some (mine (tpl_ApplicationID t))));
  releases ← find (λ r, bool_decide (is_Some (mine (rel_ApplicationID r))));
  let reference id kind name :=
    a ← mine id; Some {| ref_ApplicationID := app_ID a; ref_ApplicationName := app_Name a;
                         ref_Kind := kind; ref_Name := name |} in
  mret (omap (λ t, if document_matches sourceType sourceName (tpl_Spec t)
               then reference (tpl_ApplicationID t) "template" (tpl_Name t) else None) templates
        ++ omap (λ r, if document_matches sourceType sourceName (rel_DesiredSpec r)
               then reference (rel_ApplicationID r) "release" ("Release #" +:+ dec (rel_Sequence r)) else None) releases).
End repository.

(** ** Lemmas on tables *)

Lemma elem_of_t_list {A} (t : table A) a : a ∈ t_list t ↔ ∃ id, t_rows t !! id = Some a.
Proof.
  unfold t_list. rewrite list_elem_of_fmap. split.
  - intros ([id x] & -> & Hx). rewrite merge_sort_Permutation in Hx.
    exists id. by apply elem_of_map_to_list.
  - intros [id Hid]. exists (id, a). split; [done|]. rewrite merge_sort_Permutation.
    by apply elem_of_map_to_list.
Qed.

Lemma elem_of_select {A} (test : A → bool) t a : a ∈ select test t ↔ test a = true ∧ a ∈ t_list t.
Proof. unfold select. rewrite !list_elem_of_In, List.filter_In. tauto. Qed.

Lemma first_row_select {A} (test : A → bool) t a :
  first_row (select test t) = Ok a → test a = true ∧ a ∈ t_list t.
Proof.
  intros Ha. apply elem_of_select. destruct (select test t); simplify_eq/=. left.
Qed.

Lemma first_row_None {A} (test : A → bool) (t : table A) e :
  first_row (select test t) = Err e ↔ e = record_not_found ∧ ∀ a, a ∈ t_list t → test a = false.
Proof.
  destruct (select test t) as [|x l] eqn:Hs; simpl.
  - split.
    + intros [= <-]. split; [done|]. intros a Ha. apply not_true_iff_false. intros Ht.
      assert (a ∈ select test t) as Hin by by apply elem_of_select. rewrite Hs in Hin. by apply not_elem_of_nil in Hin.
    + by intros [-> _].
  - split; [done|]. intros [_ Hno]. assert (x ∈ select test t) as Hin by (rewrite Hs; left).
    apply elem_of_select in Hin as [Ht Hin]. apply Hno in Hin. congruence.
Qed.

(** A statement with its database: it failed and changed nothing, or did what it says. *)
Lemma statement_cases {C A} `{Surroundings} (f : DB → result (A * DB)) (w : World C) :
  (∃ e, statement f w = (Err e, tick w)) ∨
  (∃ a db, f (w_db w) = Ok (a, db) ∧ statement f w = (Ok a, set_db db (tick w))).
Proof.
  unfold statement. destruct (fault _) as [e|]; [by left; exists e|].
  destruct (f (w_db w)) as [[a db]|e]; [right; by exists a, db | by left; exists e].
Qed.

(** A query returns a row of the database or an error, and changes nothing but the clock. *)
Lemma query_cases {C A} `{Surroundings} (f : DB → result A) (w : World C) :
  (∃ e, query f w = (Err e, tick w)) ∨ (∃ a, f (w_db w) = Ok a ∧ query f w = (Ok a, set_db (w_db w) (tick w))).
Proof.
  unfold query. destruct (statement_cases (λ db, a ← f db; Ok (a, db)) w) as [(e & ->)|(a & db & Hf & ->)].
  - left. by exists e.
  - right. destruct (f (w_db w)) as [x|]; simplify_eq/=. by exists a.
Qed.

(** Without faults a statement is its function. *)
Lemma statement_no_fault {C A} `{Surroundings} (f : DB → result (A * DB)) (w : World C) :
  (∀ n, fault n = None) →
  statement f w = match f (w_db w) with Ok (a, db) => (Ok a, set_db db (tick w)) | Err e => (Err e, tick w) end.
Proof. intros Hf. unfold statement. by rewrite Hf. Qed.

Lemma query_Ok {C A} `{Surroundings} (f : DB → result A) (w : World C) a w' :
  query f w = (Ok a, w') → f (w_db w) = Ok a ∧ w_db w' = w_db w ∧ w_cluster w' = w_cluster w ∧ w_trace w' = w_trace w.
Proof. destruct (query_cases f w) as [(e & ->)|(x & Hx & ->)]; [done|]. by intros [= -> <-]. Qed.

Lemma statement_Ok {C A} `{Surroundings} (f : DB → result (A * DB)) (w : World C) a w' :
  statement f w = (Ok a, w') →
  f (w_db w) = Ok (a, w_db w') ∧ w_cluster w' = w_cluster w ∧ w_trace w' = w_trace w.
Proof. destruct (statement_cases f w) as [(e & ->)|(x & db & Hx & ->)]; [done|]. by intros [= -> <-]. Qed.

Lemma create_Ok {C A} `{HasTable A, Row A, Surroundings} (a r : A) (w w' : World C) :
  create a w = (Ok r, w') →
  let t := tbl (w_db w) in
  clashes (t_next t) a t = false ∧ r = with_id (t_next t) (defaults a) ∧
  w_db w' = put {| t_rows := <[t_next t := r]> (t_rows t); t_next := t_next t + 1 |} (w_db w) ∧
  w_cluster w' = w_cluster w ∧ w_trace w' = w_trace w.
Proof.
  unfold create. intros (Hf & Hc & Ht)%statement_Ok. unfold t_create in Hf.
  destruct (clashes _ a _) eqn:Hcl; simplify_eq/=. done.
Qed.

Lemma CreateRelease_Ok {C} `{Surroundings} (a r : Release) (w w' : World C) :
  CreateRelease a w = (Ok r, w') →
  let t := tbl (w_db w) in
  clashes (t_next t) a t = false ∧ r = with_id (t_next t) a ∧
  w_db w' = put {| t_rows := <[t_next t := r]> (t_rows t); t_next := t_next t + 1 |} (w_db w) ∧
  w_cluster w' = w_cluster w ∧ w_trace w' = w_trace w ++ [Wrote r].
Proof.
  unfold CreateRelease. intros (r0 & w1 & (Hc & -> & Hdb & Hcl & Ht)%create_Ok & Hn)%bind_Ok.
  apply bind_Ok in Hn as (u & w2 & Hn & [-> ->]%ret_Ok). injection Hn as _ <-. simpl in *.
  split_and!; try done. by rewrite Ht.
Qed.

Lemma UpdateRelease_Ok {C} `{Surroundings} r (w w' : World C) u :
  UpdateRelease r w = (Ok u, w') →
  ∃ t, t_save r (tbl (w_db w)) = Ok t ∧ w_db w' = put t (w_db w) ∧
    w_cluster w' = w_cluster w ∧ w_trace w' = w_trace w ++ [Wrote r].
Proof.
  unfold UpdateRelease. intros (u0 & w1 & (Hf & Hc & Ht)%statement_Ok & Hn)%bind_Ok.
  injection Hn as _ <-. revert Hf. destruct (t_save r (tbl (w_db w))) as [t|]; [|done].
  intros Hf. exists t. cbn [traced w_trace w_db w_cluster]. rewrite Ht. split_and!; try done.
  by injection Hf as Hf.
Qed.

(** The releases of an application, newest first. *)
Lemma elem_of_releases_of applicationID db r :
  r ∈ releases_of applicationID db ↔ rel_ApplicationID r = applicationID ∧ r ∈ t_list (tbl db).
Proof.
  unfold releases_of. rewrite merge_sort_Permutation, elem_of_select, bool_decide_eq_true. done.
Qed.

#[export] Instance newest_first_trans : Transitive newest_first.
Proof. intros a b c. unfold newest_first. lia. Qed.
#[export] Instance newest_first_total : Total newest_first.
Proof. intros a b. unfold newest_first. lia. Qed.

Lemma releases_of_sorted applicationID db : StronglySorted newest_first (releases_of applicationID db).
Proof. apply StronglySorted_merge_sort; apply _. Qed.

(** ** Well-keyed tables *)

Class KeyedRow (A : Type) `{Row A} := row_id_with_id id (a : A) : row_id (with_id id a) = id.

#[export] Instance project_keyed : KeyedRow Project.
Proof. by intros id []. Qed.
#[export] Instance environment_keyed : KeyedRow Environment.
Proof. done. Qed.
#[export] Instance application_keyed : KeyedRow Application.
Proof. by intros id []. Qed.
#[export] Instance template_keyed : KeyedRow ApplicationDeploymentTemplate.
Proof. by intros id []. Qed.
#[export] Instance managed_file_keyed : KeyedRow ApplicationManagedFile.
Proof. by intros id []. Qed.

(** Every row is under its key, and the next key is free. *)
Record keyed {A} `{Row A} (t : table A) : Prop := {
  keyed_id i a : t_rows t !! i = Some a → row_id a = i;
  keyed_next i a : t_rows t !! i = Some a → (i < t_next t)%Z
}.

Section keyed.
Context `{KeyedRow A}.

Lemma keyed_create a b (t t' : table A) :
  keyed t → t_create a t = Ok (b, t') →
  keyed t' ∧ b = with_id (t_next t) (defaults a) ∧ t_rows t !! t_next t = None ∧ t_rows t' = <[t_next t := b]> (t_rows t).
Proof.
  intros [Hid Hnext]. unfold t_create. destruct (clashes _ _ _); [done|]. intros [= <- <-].
  split_and!; try done.
  - split; simpl; intros i x [[<- <-]|[_ Hx]]%lookup_insert_Some.
    + apply row_id_with_id.
    + by apply Hid.
    + lia.
    + apply Hnext in Hx. lia.
  - destruct (t_rows t !! t_next t) as [x|] eqn:Hx; [|done]. apply Hnext in Hx. lia.
Qed.

Lemma keyed_save a (t t' : table A) :
  keyed t → t_save a t = Ok t' → keyed t' ∧ t_rows t' = <[row_id a := a]> (t_rows t).
Proof.
  intros [Hid Hnext]. unfold t_save. destruct (clashes _ _ _); [done|]. intros [= <-].
  split; [|done]. split; simpl; intros i x [[<- <-]|[_ Hx]]%lookup_insert_Some; try done.
  - by apply Hid.
  - lia.
  - apply Hnext in Hx. lia.
Qed.

Lemma keyed_update test f (t : table A) :
  (∀ a, row_id (f a) = row_id a) → keyed t → keyed (t_update test f t).
Proof.
  intros Hf [Hid Hnext]. split; simpl; intros i x; rewrite lookup_fmap; intros (y & Hy & ->)%fmap_Some.
  - apply Hid in Hy. destruct (test y); [by rewrite Hf | done].
  - by eapply Hnext.
Qed.

Lemma keyed_delete test (t : table A) : keyed t → keyed (t_delete test t).
Proof.
  intros [Hid Hnext]. split; simpl; intros i x [Hx _]%map_lookup_filter_Some; [by apply Hid | by eapply Hnext].
Qed.

Lemma keyed_elem (t : table A) a : keyed t → a ∈ t_list t → t_rows t !! row_id a = Some a.
Proof. intros [Hid _] [i Hi]%elem_of_t_list. by rewrite (Hid i a Hi). Qed.
End keyed.

Lemma lookup_t_update {A} test f (t : table A) i :
  t_rows (t_update test f t) !! i = (λ a, if test a then f a else a) <$> t_rows t !! i.
Proof. apply lookup_fmap. Qed.


(** A statement that keeps an invariant of the database. *)
Lemma keeps_statement {C A} `{Surroundings} (P : DB → Prop) (f : DB → result (A * DB)) :
  (∀ db a db', P db → f db = Ok (a, db') → P db') → keeps (λ w : World C, P (w_db w)) (statement f).
Proof.
  intros Hf w Hw. destruct (statement_cases f w) as [(e & ->)|(a & db & Hx & ->)]; [done|]. simpl.
  by eapply Hf.
Qed.

Lemma keeps_query {C A} `{Surroundings} (P : DB → Prop) (f : DB → result A) :
  keeps (λ w : World C, P (w_db w)) (query f).
Proof. intros w Hw. by destruct (query_cases f w) as [(e & ->)|(a & _ & ->)]. Qed.

(** ** Namespaces *)

Record environments_ok (db : DB) : Prop := {
  eok_keyed : keyed (tbl (A := Environment) db);
  eok_namespace i j a b : t_rows (tbl db) !! i = Some a → t_rows (tbl db) !! j = Some b →
    env_Namespace a = env_Namespace b → i = j
}.

Lemma ensure_available db namespace exclude :
  environments_ok db → ensureNamespaceAvailable db namespace exclude = Ok tt →
  ∀ i a, t_rows (tbl db) !! i = Some a → env_Namespace a = namespace → exclude ≠ 0%Z ∧ i = exclude.
Proof.
  intros Hok He i a Ha Hn. unfold ensureNamespaceAvailable in He.
  destruct (namespace_owners namespace exclude db) as [|x l] eqn:Hl; [|done].
  assert (a ∉ namespace_owners namespace exclude db) as Hnot by (rewrite Hl; apply not_elem_of_nil).
  pose proof (keyed_id _ (eok_keyed _ Hok) i a Ha) as Hi. simpl in Hi.
  destruct (decide (exclude ≠ 0%Z ∧ i = exclude)) as [?|Hneq]; [done|]. exfalso. apply Hnot.
  unfold namespace_owners. apply elem_of_select. split; [|apply elem_of_t_list; by exists i].
  rewrite bool_decide_true, andb_true_l by done. apply orb_true_iff. rewrite !bool_decide_eq_true.
  destruct (decide (exclude = 0%Z)); [by left|]. right. intros ?. apply Hneq. split; [done|]. congruence.
Qed.

Lemma environments_ok_insert db i e (t : table Environment) :
  environments_ok db → keyed t → t_rows t = <[i := e]> (t_rows (tbl db)) →
  (∀ j a, t_rows (tbl db) !! j = Some a → env_Namespace a = env_Namespace e → i = j) →
  environments_ok (put t db).
Proof.
  intros [_ Hn] Hk Ht Hfree. split; rewrite tbl_put; [done|]. rewrite Ht.
  intros k j a b [[<- <-]|[_ Ha]]%lookup_insert_Some [[<- <-]|[_ Hb]]%lookup_insert_Some Hab; [done| | |by eapply Hn].
  - by eapply Hfree.
  - symmetry. by eapply Hfree.
Qed.

Lemma create_namespace_index_ok db u db' :
  create_namespace_index db = Ok (u, db') → tbl (A := Environment) db' = tbl db ∧ db_namespace_index db' = true.
Proof.
  unfold create_namespace_index. destruct (db_namespace_index db) eqn:Hi; [by intros [= _ <-]|].
  case_decide; [|done]. destruct db. by intros [= _ <-].
Qed.

Lemma environments_ok_same db db' :
  tbl (A := Environment) db' = tbl db → environments_ok db → environments_ok db'.
Proof. intros Heq [Hk Hn]. split; rewrite Heq; done. Qed.

Lemma keeps_reconcile {C} `{Surroundings} :
  keeps (λ w : World C, environments_ok (w_db w)) ReconcileEnvironmentNamespaceUniqueness.
Proof.
  unfold ReconcileEnvironmentNamespaceUniqueness. apply keeps_bind; [apply keeps_query|]. intros l.
  destruct (negb (empty_list l)); [apply keeps_ret|]. apply keeps_statement.
  intros db u db' Hdb [Heq _]%create_namespace_index_ok. by eapply environments_ok_same.
Qed.

Lemma keeps_CreateEnvironment {C} `{Surroundings} e :
  keeps (λ w : World C, environments_ok (w_db w)) (CreateEnvironment e).
Proof.
  apply keeps_statement. intros db a db' Hdb Hf.
  apply result_bind_Ok in Hf as ([] & He & ([b t] & Hc & [= <- <-])%result_bind_Ok).
  apply (keyed_create _ _ _ _ (eok_keyed _ Hdb)) in Hc as (Hk & Hb & _ & Hrows).
  eapply environments_ok_insert; try done. rewrite Hb. intros j x Hx Hn.
  by destruct (ensure_available _ _ _ Hdb He j x Hx Hn) as [? _].
Qed.

Lemma keeps_UpdateEnvironment {C} `{Surroundings} e :
  keeps (λ w : World C, environments_ok (w_db w)) (UpdateEnvironment e).
Proof.
  unfold UpdateEnvironment. apply keeps_bind; [|intros; apply keeps_reconcile].
  apply keeps_statement. intros db a db' Hdb Hf.
  apply result_bind_Ok in Hf as ([] & He & (t & Hc & [= <- <-])%result_bind_Ok).
  apply (keyed_save _ _ _ (eok_keyed _ Hdb)) in Hc as (Hk & Hrows).
  eapply environments_ok_insert; try done. intros j x Hx Hn.
  by destruct (ensure_available _ _ _ Hdb He j x Hx Hn) as [_ ->].
Qed.

Lemma keeps_DeleteEnvironment {C} `{Surroundings} id :
  keeps (λ w : World C, environments_ok (w_db w)) (DeleteEnvironment id).
Proof.
  unfold DeleteEnvironment. apply keeps_bind; [|intros; apply keeps_reconcile].
  apply keeps_statement. intros db u db' [Hk Hn] (t & Ht & Hdb)%result_bind_Ok.
  assert (db' = put t db) as -> by congruence. injection Ht as <-. split; rewrite tbl_put; [by apply keyed_delete|]. simpl.
  intros i j a b [Ha _]%map_lookup_filter_Some [Hb _]%map_lookup_filter_Some. by eapply Hn.
Qed.

Lemma namespaces_NoDup db : environments_ok db → NoDup (namespaces db).
Proof.
  intros [_ Hn]. unfold namespaces, t_list. rewrite merge_sort_Permutation.
  rewrite <-list_fmap_compose. apply NoDup_fmap_2_strong; [|apply NoDup_map_to_list].
  intros [i a] [j b] Ha%elem_of_map_to_list Hb%elem_of_map_to_list Hab. simpl in Hab.
  assert (i = j) as <- by by eapply Hn. congruence.
Qed.

Lemma count_NoDup (l : list string) n :
  NoDup l → length (List.filter (λ m, bool_decide (m = n)) l) ≤ 1.
Proof.
  induction 1 as [|x l Hx Hl IH]; simpl; [lia|]. case_bool_decide as Heq; [|done]. subst.
  replace (List.filter (λ m, bool_decide (m = n)) l) with (@nil string); [simpl; lia|symmetry].
  clear IH Hl. induction l as [|y l IH]; [done|]. simpl. apply not_elem_of_cons in Hx as [Hy Hx].
  rewrite bool_decide_false by done. by apply IH.
Qed.

Lemma duplicate_namespaces_nil db : NoDup (namespaces db) → duplicate_namespaces db = [].
Proof.
  intros Hnd. unfold duplicate_namespaces. induction (sort_strings _) as [|n l IH]; [done|]. simpl.
  rewrite (bool_decide_false (1 < _)), andb_false_r; [done|].
  pose proof (count_NoDup (namespaces db) n Hnd). lia.
Qed.

(** No two environments share a namespace. Whichever statements fail, creating, updating and
    deleting an environment keep the namespaces of the environments distinct; creating one succeeds
    only under a namespace nobody owned; and while they are distinct, the reconciliation, when no
    statement fails, succeeds and leaves the unique index in place. *)
Theorem namespace_exclusive {C} `{Surroundings} (e : Environment) (id : Z) (w : World C)
    (Hok : environments_ok (w_db w)) :
  environments_ok (w_db (CreateEnvironment e w).2) ∧
  environments_ok (w_db (UpdateEnvironment e w).2) ∧
  environments_ok (w_db (DeleteEnvironment id w).2) ∧
  (is_ok (CreateEnvironment e w).1 = true → env_Namespace e ∉ namespaces (w_db w)) ∧
  ((∀ n, fault n = None) → ∃ w', ReconcileEnvironmentNamespaceUniqueness w = (Ok tt, w') ∧
     db_namespace_index (w_db w') = true).
Proof.
  split_and!; [by apply keeps_CreateEnvironment | by apply keeps_UpdateEnvironment | by apply keeps_DeleteEnvironment| |].
  - intros Hc (a & Hn & [i Ha]%elem_of_t_list)%list_elem_of_fmap. unfold CreateEnvironment in Hc.
    destruct (statement_cases (λ db, _ ← ensureNamespaceAvailable db (env_Namespace e) 0;
      p ← t_create e (tbl db); Ok (p.1, put p.2 db)) w) as [(x & Hx)|(x & db & Hx & _)]; [by rewrite Hx in Hc|].
    destruct (ensureNamespaceAvailable (w_db w) (env_Namespace e) 0) as [[]|] eqn:He; [|done].
    by destruct (ensure_available _ _ _ Hok He i a Ha) as [? _].
  - intros Hnf. pose proof (namespaces_NoDup _ Hok) as Hnd.
    unfold ReconcileEnvironmentNamespaceUniqueness, ListEnvironmentNamespaceConflicts, query.
    unfold mbind, M_bind. rewrite statement_no_fault by done. simpl.
    rewrite duplicate_namespaces_nil by done. simpl. rewrite statement_no_fault by done. simpl.
    destruct (create_namespace_index (w_db w)) as [[[] db]|] eqn:Hi.
    + eexists. split; [done|]. by apply create_namespace_index_ok in Hi as [_ ?].
    + unfold create_namespace_index in Hi. destruct (db_namespace_index _); [done|]. by case_decide.
Qed.

(** ** Deployment templates *)

Lemma u64_succ_ne z : u64 (z + 1) ≠ z.
Proof.
  intros Heq. pose proof (u64_range (z + 1)) as Hr. rewrite Heq in Hr. unfold is_u64 in Hr.
  unfold u64 in Heq. destruct (decide (z + 1 = 2 ^ 64)%Z) as [Hz|Hz].
  - rewrite Hz, Z.mod_same in Heq by done. lia.
  - rewrite Z.mod_small in Heq by lia. lia.
Qed.

Lemma template_fields revision t :
  tpl_ID (set_template_revision revision t) = tpl_ID t ∧
  tpl_ApplicationID (set_template_revision revision t) = tpl_ApplicationID t ∧
  tpl_Revision (set_template_revision revision t) = revision.
Proof. by destruct t. Qed.

(** The row [First] finds when the query names the key. *)
Lemma first_by_key `{Row A} (test : A → bool) (t : table A) id :
  keyed t → (∀ a, test a = true → row_id a = id) →
  first_row (select test t) =
    match t_rows t !! id with
    | Some a => if test a then Ok a else Err record_not_found
    | None => Err record_not_found
    end.
Proof.
  intros Hk Hid. destruct (first_row (select test t)) as [a|e] eqn:Hf.
  - apply first_row_select in Hf as [Ht Ha%keyed_elem]; [|done]. rewrite (Hid a Ht) in Ha. by rewrite Ha, Ht.
  - apply first_row_None in Hf as [-> Hno]. destruct (t_rows t !! id) as [a|] eqn:Ha; [|done].
    rewrite Hno; [done|]. apply elem_of_t_list. by exists id.
Qed.

Lemma template_test_spec id applicationID t :
  template_test id applicationID t = true ↔ tpl_ID t = id ∧ tpl_ApplicationID t = applicationID.
Proof. unfold template_test. by rewrite andb_true_iff, !bool_decide_eq_true. Qed.

Lemma first_template (t : table ApplicationDeploymentTemplate) id applicationID x :
  keyed t →
  first_row (select (template_test id applicationID) t) = Ok x ↔
    t_rows t !! id = Some x ∧ tpl_ApplicationID x = applicationID.
Proof.
  intros Hk. rewrite (first_by_key _ _ id Hk) by by intros a [? _]%template_test_spec.
  destruct (t_rows t !! id) as [y|] eqn:Hy; [|naive_solver].
  pose proof (keyed_id _ Hk _ _ Hy) as Hid. simpl in Hid.
  destruct (template_test id applicationID y) eqn:Ht.
  - apply template_test_spec in Ht as [_ ?]. split; [by intros [= ->] | by intros [[= ->] _]].
  - split; [done|]. intros [[= ->] Ha]. apply not_true_iff_false in Ht. by destruct Ht; apply template_test_spec.
Qed.

Lemma update_template_Ok template expected db stored db' :
  keyed (tbl (A := ApplicationDeploymentTemplate) db) →
  update_template template expected db = Ok (stored, db') →
  ∃ current t, t_rows (tbl db) !! tpl_ID template = Some current ∧
    tpl_ApplicationID current = tpl_ApplicationID template ∧
    (∀ e, expected = Some e → tpl_Revision current = e) ∧
    stored = set_template_revision (u64 (tpl_Revision current + 1)) template ∧
    db' = put t db ∧ keyed t ∧ t_rows t = <[tpl_ID template := stored]> (t_rows (tbl db)).
Proof.
  intros Hk (current & Hc & (u & He & (t & Hs & Hres)%result_bind_Ok)%result_bind_Ok)%result_bind_Ok.
  apply first_template in Hc as [Hc Ha]; [|done]. apply keyed_save in Hs as [Hkt Ht]; [|done].
  simpl in Ht. rewrite (proj1 (template_fields _ _)) in Ht.
  exists current, t. assert (stored = set_template_revision (u64 (tpl_Revision current + 1)) template) as -> by congruence.
  split_and!; [done|done| |done|congruence|done|exact Ht].
  intros e ->. case_decide; [done|]. by destruct (decide (tpl_Revision current = e)).
Qed.

(** C32: no update of a template is lost. When a conditional update succeeds, the template it replaced
    had the revision the caller expected, the stored template is the caller's with the next revision,
    no other template changed, and any later conditional update of the same template with that same
    expectation fails and changes nothing, whatever it would write. *)
Theorem template_no_lost_update {C} `{Surroundings} (t1 t2 stored : ApplicationDeploymentTemplate) expected
    (w w1 : World C)
    (Hupdate : UpdateApplicationDeploymentTemplateIfRevision t1 expected w = (Ok stored, w1))
    (Hkeyed : keyed (tbl (A := ApplicationDeploymentTemplate) (w_db w)))
    (Hsame : tpl_ID t2 = tpl_ID t1) :
  (∃ current, t_rows (tbl (w_db w)) !! tpl_ID t1 = Some current ∧ tpl_Revision current = expected ∧
    tpl_ApplicationID current = tpl_ApplicationID t1) ∧
  stored = set_template_revision (u64 (expected + 1)) t1 ∧
  t_rows (tbl (w_db w1)) = <[tpl_ID t1 := stored]> (t_rows (tbl (w_db w))) ∧
  ∃ e, UpdateApplicationDeploymentTemplateIfRevision t2 expected w1 = (Err e, tick w1).
Proof.
  apply statement_Ok in Hupdate as (Hf & _ & _).
  apply update_template_Ok in Hf as (current & t & Hc & Ha & He & Hst & Hdb & Hkt & Hrows); [|done].
  specialize (He _ eq_refl). subst expected. rewrite Hdb, tbl_put.
  split_and!; [by exists current | done | done|].
  destruct (statement_cases (update_template t2 (Some (tpl_Revision current))) w1) as [?|(a & db & Hf & _)]; [done|].
  exfalso. apply update_template_Ok in Hf as (c2 & t' & Hc2 & _ & He2 & _); [|by rewrite Hdb, tbl_put].
  rewrite Hdb, tbl_put, Hrows, Hsame, lookup_insert_eq in Hc2. injection Hc2 as <-.
  specialize (He2 _ eq_refl). rewrite Hst in He2.
  rewrite (proj2 (proj2 (template_fields _ _))) in He2. by apply u64_succ_ne in He2.
Qed.

(** The default template of an application is one of its templates. *)
Record templates_ok (db : DB) : Prop := {
  tok_templates : keyed (tbl (A := ApplicationDeploymentTemplate) db);
  tok_applications : keyed (tbl (A := Application) db);
  tok_default i a d : t_rows (tbl db) !! i = Some a → app_DefaultDeploymentTemplateID a = Some d →
    ∃ t, t_rows (tbl db) !! d = Some t ∧ tpl_ApplicationID t = i
}.

Lemma tbl_put_templates_applications (t : table ApplicationDeploymentTemplate) db :
  tbl (A := Application) (put t db) = tbl db.
Proof. by destruct db. Qed.
Lemma tbl_put_applications_templates (t : table Application) db :
  tbl (A := ApplicationDeploymentTemplate) (put t db) = tbl db.
Proof. by destruct db. Qed.

Lemma templates_ok_put (t : table ApplicationDeploymentTemplate) db :
  templates_ok db → keyed t →
  (∀ d x, t_rows (tbl db) !! d = Some x → ∃ y, t_rows t !! d = Some y ∧ tpl_ApplicationID y = tpl_ApplicationID x) →
  templates_ok (put t db).
Proof.
  intros [Hk Ha Hd] Hkt Hle. split.
  - by rewrite tbl_put.
  - by rewrite tbl_put_templates_applications.
  - rewrite tbl_put, tbl_put_templates_applications. intros i a d Hi Hdef.
    destruct (Hd i a d Hi Hdef) as (x & Hx & Happ). destruct (Hle d x Hx) as (y & ? & ?). exists y. split; congruence.
Qed.

Lemma templates_ok_default applicationID d db x :
  templates_ok db → t_rows (tbl db) !! d = Some x → tpl_ApplicationID x = applicationID →
  templates_ok (update_default applicationID (Some d) db).
Proof.
  intros [Hk Ha Hd] Hx Happ. unfold update_default. split.
  - by rewrite tbl_put_applications_templates.
  - rewrite tbl_put. apply keyed_update; [by intros []|done].
  - rewrite tbl_put, tbl_put_applications_templates. intros i a d'. rewrite lookup_t_update.
    intros (b & Hb & ->)%fmap_Some. case_bool_decide as Hid; [|by apply Hd].
    pose proof (keyed_id _ Ha _ _ Hb) as Hbi. simpl in Hbi. intros Hdef. exists x.
    destruct b; simplify_eq/=. split; [done|]. congruence.
Qed.

Lemma templates_ok_delete applicationID d db :
  templates_ok db →
  let db' := put (t_delete (template_test d applicationID) (tbl db)) db in
  templates_ok (put (t_update (λ a, bool_decide (app_ID a = applicationID)
    && bool_decide (app_DefaultDeploymentTemplateID a = Some d)) (set_default_template None) (tbl db')) db').
Proof.
  intros [Hk Ha Hd] db'. unfold db'. split.
  - rewrite tbl_put_applications_templates, tbl_put. by apply keyed_delete.
  - rewrite tbl_put, tbl_put_templates_applications. apply keyed_update; [by intros []|done].
  - rewrite tbl_put, tbl_put_applications_templates, tbl_put, tbl_put_templates_applications.
    intros i a d'. rewrite lookup_t_update. intros (b & Hb & ->)%fmap_Some Hdef.
    pose proof (keyed_id _ Ha _ _ Hb) as Hbi. simpl in Hbi.
    destruct (bool_decide (app_ID b = applicationID) && bool_decide (app_DefaultDeploymentTemplateID b = Some d)) eqn:Ht.
    + by destruct b.
    + destruct (Hd i b d' Hb Hdef) as (x & Hx & Happ). exists x. split; [|done]. simpl.
      apply map_lookup_filter_Some. split; [done|]. simpl. apply not_true_iff_false.
      intros [Hxd Hxa]%template_test_spec. apply not_true_iff_false in Ht. apply Ht.
      pose proof (keyed_id _ Hk _ _ Hx) as Hxi. simpl in Hxi.
      rewrite !bool_decide_true; [done | congruence | congruence].
Qed.

Lemma update_template_keeps template expected db stored db' :
  templates_ok db → update_template template expected db = Ok (stored, db') → templates_ok db'.
Proof.
  intros Hok (current & t & Hc & Ha & _ & Hst & -> & Hkt & Hrows)%update_template_Ok; [|apply Hok].
  apply templates_ok_put; [done..|]. rewrite Hrows. intros d x Hx.
  destruct (decide (d = tpl_ID template)) as [->|Hne].
  - exists stored. rewrite lookup_insert_eq, Hst. split; [done|].
    rewrite (proj1 (proj2 (template_fields _ _))). congruence.
  - exists x. by rewrite lookup_insert_ne.
Qed.

(** A default template never dangles. Whichever statements fail, creating a template (as default
    or not), updating one with or without an expected revision, choosing the default and deleting a
    template keep every application's default template stored and its own. *)
Theorem default_template_exists {C} `{Surroundings} (template : ApplicationDeploymentTemplate) (makeDefault : bool)
    (expected applicationID templateID : Z) (w : World C) (Hok : templates_ok (w_db w)) :
  templates_ok (w_db (CreateApplicationDeploymentTemplate template makeDefault w).2) ∧
  templates_ok (w_db (UpdateApplicationDeploymentTemplate template w).2) ∧
  templates_ok (w_db (UpdateApplicationDeploymentTemplateIfRevision template expected w).2) ∧
  templates_ok (w_db (SetDefaultApplicationDeploymentTemplate applicationID templateID w).2) ∧
  templates_ok (w_db (DeleteApplicationDeploymentTemplate applicationID templateID w).2).
Proof.
  split_and!; (eapply (keeps_statement templates_ok); [|done]); intros db a db' Hdb Hf.
  - apply result_bind_Ok in Hf as ([b t] & Hc & Hf).
    apply keyed_create in Hc as (Hk & Hb & Hfree & Hrows); [|apply Hdb].
    assert (templates_ok (put t db)) as Hput.
    { apply templates_ok_put; [done..|]. rewrite Hrows. intros d x Hx. exists x.
      rewrite lookup_insert_ne; [done|]. intros <-. congruence. }
    destruct makeDefault; cbn [fst snd] in Hf; [|by assert (db' = put t db) as -> by congruence].
    assert (db' = update_default (tpl_ApplicationID template) (Some (tpl_ID b)) (put t db)) as -> by congruence.
    eapply (templates_ok_default _ _ _ b Hput).
    + rewrite tbl_put, Hrows, Hb. replace (tpl_ID _) with (t_next (tbl (A := ApplicationDeploymentTemplate) db)); [apply lookup_insert_eq|].
      by destruct template.
    + rewrite Hb. by destruct template.
  - by eapply update_template_keeps.
  - by eapply update_template_keeps.
  - apply result_bind_Ok in Hf as (t & Ht & Hf). injection Hf as _ <-.
    apply first_row_select in Ht as [[[Hid Ha]%template_test_spec _]%andb_prop Hin].
    apply keyed_elem in Hin; [|apply Hdb]. simpl in Hin. rewrite Hid in Hin. by eapply templates_ok_default.
  - destruct (negb _); [done|]. injection Hf as _ <-. by apply templates_ok_delete.
Qed.

(** ** Managed files *)

(** No two mutations of a managed file go through with the same version. When the version is
    advanced, one enabled file of the application was at the expected version and is now at the next
    one, nothing else of it or of any other file changed; and advancing it again from the same version
    fails and changes nothing. *)
Theorem managed_file_version_cas {C} `{Surroundings} applicationID fileID expected v (w w1 : World C)
    (Hadvance : AdvanceApplicationManagedFileVersion applicationID fileID expected w = (Ok v, w1))
    (Hkeyed : keyed (tbl (A := ApplicationManagedFile) (w_db w))) :
  (∃ f, t_rows (tbl (w_db w)) !! fileID = Some f ∧ mf_ApplicationID f = applicationID ∧
    mf_Enabled f = true ∧ mf_Version f = expected ∧
    t_rows (tbl (w_db w1)) = <[fileID := set_file fileID v f]> (t_rows (tbl (w_db w)))) ∧
  v = u64 (expected + 1) ∧
  ∃ e w2, AdvanceApplicationManagedFileVersion applicationID fileID expected w1 = (Err e, w2) ∧
    t_rows (tbl (A := ApplicationManagedFile) (w_db w2)) = t_rows (tbl (w_db w1)).
Proof.
  set (test f := bool_decide (mf_ApplicationID f = applicationID) && bool_decide (mf_ID f = fileID)
    && bool_decide (mf_Version f = expected) && mf_Enabled f).
  assert (Htest : ∀ f, test f = true ↔ mf_ApplicationID f = applicationID ∧ mf_ID f = fileID ∧
    mf_Version f = expected ∧ mf_Enabled f = true).
  { intros f. unfold test. rewrite !andb_true_iff, !bool_decide_eq_true. tauto. }
  set (step := λ f, set_file (mf_ID f) (u64 (expected + 1)) f).
  apply bind_Ok in Hadvance as (n & w' & Hst & Hx). apply statement_Ok in Hst as (Hf & _ & _).
  assert (n = length (select test (tbl (w_db w))) ∧ w_db w' = put (t_update test step (tbl (w_db w))) (w_db w)) as [-> Hdb]
    by by injection Hf.
  clear Hf. case_decide as Hone; [done|]. apply ret_Ok in Hx as [-> ->].
  destruct (select test (tbl (w_db w))) as [|f [|? ?]] eqn:Hsel; try done. clear Hone.
  assert (f ∈ select test (tbl (w_db w))) as Hin by (rewrite Hsel; left).
  apply elem_of_select in Hin as [Ht Hin]. apply keyed_elem in Hin; [|done]. simpl in Hin.
  pose proof (proj1 (Htest f) Ht) as (Ha & Hid & Hv & Hen). rewrite Hid in Hin.
  assert (Hrows : t_rows (tbl (w_db w')) = <[fileID := set_file fileID (u64 (expected + 1)) f]> (t_rows (tbl (w_db w)))).
  { rewrite Hdb, tbl_put. apply map_eq. intros i. rewrite lookup_t_update.
    destruct (decide (i = fileID)) as [->|Hne].
    - rewrite Hin, lookup_insert_eq. simpl. rewrite Ht. unfold step. by rewrite Hid.
    - rewrite lookup_insert_ne by done. destruct (t_rows (tbl (w_db w)) !! i) as [g|] eqn:Hg; [|done]. simpl.
      destruct (test g) eqn:Htg; [|done]. apply Htest in Htg as (_ & Hgid & _).
      pose proof (keyed_id _ Hkeyed _ _ Hg) as Hk. simpl in Hk. congruence. }
  split_and!; [by exists f | done |].
  assert (Hnone : select test (tbl (w_db w')) = []).
  { apply elem_of_nil_inv. intros g [Hg [i Hi]%elem_of_t_list]%elem_of_select. apply Htest in Hg as (_ & Hgid & Hgv & _).
    rewrite Hrows in Hi. apply lookup_insert_Some in Hi as [[_ <-]|[Hne Hi]].
    - destruct f. simpl in Hgv. by apply u64_succ_ne in Hgv.
    - pose proof (keyed_id _ Hkeyed _ _ Hi) as Hk. simpl in Hk. congruence. }
  unfold AdvanceApplicationManagedFileVersion. unfold mbind, M_bind, statement.
  destruct (fault (w_tick w')) as [e|]; [by exists e, (tick w')|]. fold test. rewrite Hnone.
  eexists _, _. split; [done|]. cbn [set_db w_db snd]. rewrite tbl_put.
  apply map_eq. intros i. rewrite lookup_t_update.
  destruct (t_rows (tbl (w_db w')) !! i) as [g|] eqn:Hg; [|done]. simpl. destruct (test g) eqn:Htg; [|done].
  assert (g ∈ select test (tbl (w_db w'))) as Hin'; [|by rewrite Hnone in Hin'; apply not_elem_of_nil in Hin'].
  apply elem_of_select. split; [done|]. apply elem_of_t_list. by exists i.
Qed.

(** ** References *)

Lemma last_file_mounts_member {A} (c : Codec A) name v cur rest :
  same_key "file_mounts" name = false →
  last_file_mounts cur (member c name v ++ rest) = last_file_mounts cur rest.
Proof. intros Hn. simpl. by rewrite Hn. Qed.
Lemma last_file_mounts_omit {A} (c : Codec A) empty name v cur rest :
  same_key "file_mounts" name = false →
  last_file_mounts cur (omit_empty c empty name v ++ rest) = last_file_mounts cur rest.
Proof. intros Hn. destruct empty; [done|]. by apply last_file_mounts_member. Qed.

Definition mounts (sourceType sourceName : string) (f : FileMountSpec) : bool :=
  bool_decide (fm_SourceType f = sourceType) && bool_decide (fm_SourceName f = sourceName).

Lemma mount_matches_encode sourceType sourceName f :
  mount_matches sourceType sourceName (encode_FileMountSpec f) = Some (mounts sourceType sourceName f).
Proof. unfold encode_FileMountSpec. simpl. by destruct (fm_Managed f). Qed.

Lemma last_file_mounts_encode s :
  match encode_ReleaseSpec s with
  | JObj ms => last_file_mounts [] ms = Some (encode_FileMountSpec <$> rs_FileMounts s)
  | _ => False
  end.
Proof.
  unfold encode_ReleaseSpec.
  repeat first [rewrite last_file_mounts_member by reflexivity | rewrite last_file_mounts_omit by reflexivity].
  destruct (rs_FileMounts s) as [|f l] eqn:Hf; simpl; [done|]. done.
Qed.

Lemma document_matches_encode sourceType sourceName s :
  document_matches sourceType sourceName (encode_ReleaseSpec s) = existsb (mounts sourceType sourceName) (rs_FileMounts s).
Proof.
  pose proof (last_file_mounts_encode s) as Hl. unfold document_matches.
  destruct (encode_ReleaseSpec s); try done. rewrite Hl. simpl. clear Hl.
  replace (mapM (mount_matches sourceType sourceName) (encode_FileMountSpec <$> rs_FileMounts s))
    with (Some (mounts sourceType sourceName <$> rs_FileMounts s)).
  - induction (rs_FileMounts s) as [|f l IH]; [done|]. rewrite fmap_cons. simpl. by rewrite IH.
  - symmetry. induction (rs_FileMounts s) as [|f l IH]; [done|]. rewrite !fmap_cons. cbn [mapM].
    rewrite mount_matches_encode. simpl. by rewrite IH.
Qed.

(** The environment of an application has the namespace. *)
Definition in_namespace (namespace : string) (db : DB) (a : Application) : Prop :=
  env_Namespace (app_Environment (preload false db a)) = namespace.

(** The applications [ListResourceReferences] looks at, by their key. *)
Definition mine (namespace : string) (db : DB) (id : Z) : option Application :=
  find_first (λ a, bool_decide (app_ID a = id))
    (List.filter (λ a, bool_decide (env_Namespace (app_Environment a) = namespace)) (preload false db <$> t_list (tbl db))).

Lemma mine_Some namespace db id b :
  keyed (tbl (A := Application) db) → mine namespace db id = Some b →
  ∃ a, t_rows (tbl db) !! id = Some a ∧ in_namespace namespace db a ∧ b = preload false db a.
Proof.
  intros Hk Hb. apply find_first_Some in Hb as [Hin Hid%bool_decide_eq_true].
  apply list_elem_of_In, List.filter_In in Hin as [Hin Hn%bool_decide_eq_true].
  apply list_elem_of_In, list_elem_of_fmap in Hin as (a & -> & Ha%keyed_elem); [|done].
  exists a. split_and!; [|done|done]. replace id with (row_id a); [done|]. rewrite <-Hid. by destruct a.
Qed.

Lemma mine_in namespace db id a :
  keyed (tbl (A := Application) db) → t_rows (tbl db) !! id = Some a → in_namespace namespace db a →
  mine namespace db id = Some (preload false db a).
Proof.
  intros Hk Ha Hn. destruct (mine namespace db id) as [b|] eqn:Hb.
  - apply mine_Some in Hb as (a' & Ha' & _ & ->); [|done]. congruence.
  - exfalso. unfold mine in Hb.
    pose proof (proj1 (find_first_None _ _) Hb (preload false db a)) as Hno. simpl in Hno.
    apply bool_decide_eq_false in Hno.
    + apply Hno. pose proof (keyed_id _ Hk _ _ Ha) as Hid. simpl in Hid. by destruct a.
    + apply list_elem_of_In, List.filter_In. split; [|by apply bool_decide_eq_true].
      apply list_elem_of_In, list_elem_of_fmap. exists a. split; [done|]. apply elem_of_t_list. by exists id.
Qed.

(** A specification document that mounts the resource. *)
Definition mounts_resource (sourceType sourceName : string) (document : json) : Prop :=
  ∃ s f, document = encode_ReleaseSpec s ∧ f ∈ rs_FileMounts s ∧ fm_SourceType f = sourceType ∧ fm_SourceName f = sourceName.

Lemma document_matches_spec sourceType sourceName document :
  (∃ s, document = encode_ReleaseSpec s) →
  document_matches sourceType sourceName document = true ↔ mounts_resource sourceType sourceName document.
Proof.
  intros [s0 ->]. split.
  - rewrite document_matches_encode. intros (f & Hf & Hm)%existsb_exists. exists s0, f.
    unfold mounts in Hm. apply andb_prop in Hm as [?%bool_decide_eq_true ?%bool_decide_eq_true].
    split_and!; [done| |done|done]. by apply list_elem_of_In.
  - intros (s & f & -> & Hf & Ht & Hn). rewrite document_matches_encode. apply existsb_exists. exists f.
    split; [by apply list_elem_of_In|]. unfold mounts. by rewrite !bool_decide_true.
Qed.

Lemma query_no_fault {C A} `{Surroundings} (f : DB → result A) (w : World C) a :
  (∀ n, fault n = None) → f (w_db w) = Ok a → query f w = (Ok a, set_db (w_db w) (tick w)).
Proof. intros Hnf Hf. unfold query. rewrite statement_no_fault by done. by rewrite Hf. Qed.

Lemma find_no_fault {C A} `{Surroundings, HasTable A} (test : A → bool) (w : World C) :
  (∀ n, fault n = None) → find test w = (Ok (select test (tbl (w_db w))), set_db (w_db w) (tick w)).
Proof. intros Hnf. unfold find. by apply query_no_fault. Qed.

(** The application of a reference, with the template or release that mounts the resource. *)
Definition refers (sourceType sourceName : string) (db : DB) (ref : ResourceReference) : Prop :=
  (∃ t, t ∈ t_list (tbl db) ∧ tpl_ApplicationID t = ref_ApplicationID ref ∧
    mounts_resource sourceType sourceName (tpl_Spec t) ∧ ref_Kind ref = "template" ∧ ref_Name ref = tpl_Name t) ∨
  (∃ r, r ∈ t_list (tbl db) ∧ rel_ApplicationID r = ref_ApplicationID ref ∧
    mounts_resource sourceType sourceName (rel_DesiredSpec r) ∧ ref_Kind ref = "release" ∧
    ref_Name ref = "Release #" +:+ dec (rel_Sequence r)).

Definition reference (namespace : string) (db : DB) (id : Z) (kind name : string) : option ResourceReference :=
  a ← mine namespace db id;
  Some {| ref_ApplicationID := app_ID a; ref_ApplicationName := app_Name a; ref_Kind := kind; ref_Name := name |}.

Lemma reference_Some namespace db id kind name ref :
  keyed (tbl (A := Application) db) →
  reference namespace db id kind name = Some ref ↔
    ref_ApplicationID ref = id ∧ ref_Kind ref = kind ∧ ref_Name ref = name ∧
    ∃ a, t_rows (tbl db) !! id = Some a ∧ in_namespace namespace db a ∧ ref_ApplicationName ref = app_Name a.
Proof.
  intros Hk. unfold reference. split.
  - intros (b & (a & Ha & Hn & ->)%mine_Some & [= <-])%bind_Some; [|done]. simpl.
    pose proof (keyed_id _ Hk _ _ Ha) as Hid. simpl in Hid. split_and!; [|done|done|].
    + by destruct a.
    + exists a. split_and!; [done|done|]. by destruct a.
  - intros (Hid & Hkind & Hname & a & Ha & Hn & Happ). rewrite (mine_in _ _ _ a) by done. simpl.
    pose proof (keyed_id _ Hk _ _ Ha) as Hi. simpl in Hi. destruct ref, a; simplify_eq/=. done.
Qed.

(** One kind of row scanned for references. *)
Lemma references_of {X} (application : X → Z) (document : X → json) (name : X → string) kind (t : table X)
    namespace sourceType sourceName db ref :
  keyed (tbl (A := Application) db) → (∀ x, x ∈ t_list t → ∃ s, document x = encode_ReleaseSpec s) →
  (∃ x, x ∈ select (λ x, bool_decide (is_Some (mine namespace db (application x)))) t ∧
    (if document_matches sourceType sourceName (document x)
     then reference namespace db (application x) kind (name x) else None) = Some ref) ↔
  (∃ x, x ∈ t_list t ∧ application x = ref_ApplicationID ref ∧
    mounts_resource sourceType sourceName (document x) ∧ ref_Kind ref = kind ∧ ref_Name ref = name x) ∧
  ∃ a, t_rows (tbl db) !! ref_ApplicationID ref = Some a ∧ in_namespace namespace db a ∧
    ref_ApplicationName ref = app_Name a.
Proof.
  intros Hk Hdoc. split.
  - intros (x & [_ Hx]%elem_of_select & Href).
    destruct (document_matches _ _ _) eqn:Hm; [|done]. apply document_matches_spec in Hm; [|by apply Hdoc].
    apply reference_Some in Href as (Hid & Hkind & Hname & Ha); [|done]. rewrite <-Hid in Ha. split; [|done].
    exists x. done.
  - intros ((x & Hx & Happ & Hm%document_matches_spec & Hkind & Hname) & a & Ha & Hn & Hna); [|by apply Hdoc].
    rewrite <-Happ in Ha. exists x. rewrite Hm. split.
    + apply elem_of_select. split; [|done]. apply bool_decide_eq_true. rewrite (mine_in _ _ _ a) by done. by eexists.
    + apply reference_Some; [done|]. split_and!; [done..|]. by exists a.
Qed.

(** The references to a resource are found, all of them and no others. When no statement fails and
    the stored documents are encoded specifications, [ListResourceReferences] succeeds and returns
    exactly the templates and releases, of the applications in the namespace, whose specification has
    a file mount of that source type and name. *)
Theorem resource_references_complete {C} `{Surroundings} namespace sourceType sourceName (w : World C)
    (no_faults : ∀ n, fault n = None)
    (Hkeyed : keyed (tbl (A := Application) (w_db w)))
    (Htemplates : ∀ t, t ∈ t_list (tbl (w_db w)) → ∃ s, tpl_Spec t = encode_ReleaseSpec s)
    (Hreleases : ∀ r, r ∈ t_list (tbl (w_db w)) → ∃ s, rel_DesiredSpec r = encode_ReleaseSpec s) :
  ∃ refs w', ListResourceReferences namespace sourceType sourceName w = (Ok refs, w') ∧ ∀ ref, ref ∈ refs ↔
    refers sourceType sourceName (w_db w) ref ∧
    ∃ a, t_rows (tbl (w_db w)) !! ref_ApplicationID ref = Some a ∧ in_namespace namespace (w_db w) a ∧
      ref_ApplicationName ref = app_Name a.
Proof.
  set (db := w_db w) in *.
  set (apps := List.filter (λ a, bool_decide (env_Namespace (app_Environment a) = namespace)) (preload false db <$> t_list (tbl db))).
  assert (Hnone : apps = [] → ∀ id, mine namespace db id = None).
  { intros Hn id. unfold mine. fold apps. by rewrite Hn. }
  unfold ListResourceReferences. unfold mbind at 1, M_bind at 1.
  rewrite (query_no_fault _ w apps no_faults eq_refl).
  destruct (empty_list apps) eqn:He.
  - eexists [], _. split; [done|]. intros ref. split; [by intros ?%not_elem_of_nil|].
    intros (_ & a & Ha & Hn & _). pose proof (mine_in namespace db _ a Hkeyed Ha Hn) as Hm.
    rewrite Hnone in Hm; [done|]. by destruct apps.
  - unfold mbind, M_bind. rewrite !find_no_fault by done. cbn [set_db w_db].
    eexists _, _. split; [done|]. fold db. intros ref.
    rewrite elem_of_app, !list_elem_of_omap.
    pose proof (references_of tpl_ApplicationID tpl_Spec tpl_Name "template" (tbl db) namespace sourceType sourceName db
      ref Hkeyed Htemplates) as Ht.
    pose proof (references_of rel_ApplicationID rel_DesiredSpec (λ r, "Release #" +:+ dec (rel_Sequence r)) "release"
      (tbl db) namespace sourceType sourceName db ref Hkeyed Hreleases) as Hr.
    unfold refers. split; [intros [?%Ht|?%Hr]; tauto | intros [[?|?] ?]; [left; apply Ht | right; apply Hr]; tauto].
Qed.

(** ** A concrete database *)

(** No statement fails, and time is the number of statements. *)
Definition calm : Surroundings := {| fault _ := None; clock n := Z.of_nat n |}.
#[local] Existing Instance calm.
Lemma calm_faults n : fault n = None.
Proof. reflexivity. Qed.

Definition sample_template : ApplicationDeploymentTemplate :=
  Build_ApplicationDeploymentTemplate 1 7 "default" "" true (encode_ReleaseSpec sample_spec) "" 4 1.
Definition sample_file : ApplicationManagedFile :=
  {| mf_ID := 1; mf_ApplicationID := 7; mf_ResourceKind := "configmap"; mf_ResourceName := "web-config";
     mf_Key := "app.toml"; mf_MountPath := "/etc/app/app.toml"; mf_Format := "toml"; mf_Version := 2;
     mf_Enabled := true; mf_CreatedBy := 1 |}.
Definition one_row {A} `{Row A} (a : A) : table A := {| t_rows := {[row_id a := a]}; t_next := row_id a + 1 |}.
Definition sample_store : DB :=
  {| db_projects := one_row (app_Project sample_application);
     db_environments := one_row (app_Environment sample_application);
     db_applications := one_row (set_default_template (Some 1%Z) sample_application);
     db_endpoints := empty_table; db_templates := one_row sample_template; db_managed_files := one_row sample_file;
     db_releases := empty_table; db_operations := empty_table; db_logs := empty_table;
     db_registries := empty_table; db_mirrors := empty_table; db_mirror_nodes := empty_table;
     db_servers := empty_table; db_platform := empty_platform; db_namespace_index := true |}.
Definition sample_store_world : World unit :=
  {| w_db := sample_store; w_tick := 0; w_cluster := tt; w_trace := [] |}.

Lemma keyed_one_row `{Row A} (a : A) : keyed (one_row a).
Proof. split; simpl; intros i x [<- <-]%lookup_singleton_Some; [done | lia]. Qed.
Lemma lookup_one_row `{Row A} (a x : A) i : t_rows (one_row a) !! i = Some x ↔ i = row_id a ∧ x = a.
Proof. simpl. rewrite lookup_singleton_Some. naive_solver. Qed.
Lemma elem_of_one_row `{Row A} (a x : A) : x ∈ t_list (one_row a) → x = a.
Proof. intros [i Hi]%elem_of_t_list. by apply lookup_one_row in Hi as [_ ->]. Qed.

Lemma sample_environments_ok : environments_ok sample_store.
Proof.
  split; [apply keyed_one_row|]. intros i j a b Ha Hb _.
  apply lookup_one_row in Ha as [-> _]. by apply lookup_one_row in Hb as [-> _].
Qed.
Lemma sample_templates_ok : templates_ok sample_store.
Proof.
  split; [apply keyed_one_row | apply keyed_one_row |]. intros i a d Ha Hd.
  apply lookup_one_row in Ha as [-> ->]. injection Hd as <-. by exists sample_template.
Qed.

Lemma ran_Ok {W A} (m : M W A) (d : A) w : is_ok (m w).1 = true → m w = (Ok (from_ok d (m w).1), (m w).2).
Proof. destruct (m w) as [[|] ?]; by simpl. Qed.

Definition sample_environment : Environment :=
  {| env_ID := 0; env_ProjectID := 1; env_Name := "test"; env_Namespace := "shop-test" |}.
Lemma namespace_exclusive_witness :
  is_ok (CreateEnvironment sample_environment sample_store_world).1 = true ∧
  environments_ok (w_db (CreateEnvironment sample_environment sample_store_world).2).
Proof.
  split; [vm_compute; reflexivity|].
  exact (proj1 (namespace_exclusive sample_environment 2 sample_store_world sample_environments_ok)).
Defined.

Definition sample_updated := UpdateApplicationDeploymentTemplateIfRevision sample_template 4 sample_store_world.
Lemma template_no_lost_update_witness :
  ∃ e, UpdateApplicationDeploymentTemplateIfRevision sample_template 4 sample_updated.2 = (Err e, tick sample_updated.2).
Proof.
  refine (proj2 (proj2 (proj2 (template_no_lost_update sample_template sample_template
    (from_ok sample_template sample_updated.1) 4 sample_store_world sample_updated.2 _ _ _)))).
  - apply ran_Ok. vm_compute. reflexivity.
  - apply keyed_one_row.
  - reflexivity.
Defined.

Lemma default_template_exists_witness :
  templates_ok (w_db (DeleteApplicationDeploymentTemplate 7 1 sample_store_world).2) ∧
  t_rows (tbl (w_db (DeleteApplicationDeploymentTemplate 7 1 sample_store_world).2)) !! 7%Z = Some sample_application.
Proof.
  split; [|vm_compute; reflexivity].
  exact (proj2 (proj2 (proj2 (proj2 (default_template_exists sample_template true 4 7 1 sample_store_world sample_templates_ok))))).
Defined.

Definition sample_advanced := AdvanceApplicationManagedFileVersion 7 1 2 sample_store_world.
Lemma managed_file_version_cas_witness :
  from_ok 0%Z sample_advanced.1 = 3%Z ∧
  ∃ e w2, AdvanceApplicationManagedFileVersion 7 1 2 sample_advanced.2 = (Err e, w2).
Proof.
  split; [vm_compute; reflexivity|].
  destruct (managed_file_version_cas 7 1 2 (from_ok 0%Z sample_advanced.1) sample_store_world sample_advanced.2)
    as (_ & _ & e & w2 & He & _).
  - apply ran_Ok. vm_compute. reflexivity.
  - apply keyed_one_row.
  - exact (ex_intro _ e (ex_intro _ w2 He)).
Defined.

Lemma resource_references_complete_witness :
  ∃ refs w', ListResourceReferences "shop-prod" "application_config" "" sample_store_world = (Ok refs, w') ∧
    {| ref_ApplicationID := 7; ref_ApplicationName := "web"; ref_Kind := "template"; ref_Name := "default" |} ∈ refs.
Proof.
  destruct (resource_references_complete "shop-prod" "application_config" "" sample_store_world calm_faults)
    as (refs & w' & Hrun & Hrefs).
  - apply keyed_one_row.
  - intros t ->%elem_of_one_row. exists sample_spec. reflexivity.
  - intros r [i Hi]%elem_of_t_list. discriminate Hi.
  - exists refs, w'. split; [exact Hrun|]. apply Hrefs. split.
    + left. exists sample_template. split_and!; try reflexivity.
      * apply elem_of_t_list. by exists 1%Z.
      * exists sample_spec. eexists. split_and!; [reflexivity | left | reflexivity | reflexivity].
    + eexists. split_and!; reflexivity.
Defined.
