(* ===== verification/PlatformStore.v ===== *)
(** * The database of the platform's own records

    [internal/store/runtime_repository.go], [internal/store/auth_repository.go],
    [internal/store/integration_repository.go], the alerts, the automation policy and the audit records
    of [internal/store/observability_repository.go], the proxies of
    [internal/store/registry_repository.go] and the servers of [internal/store/infrastructure_repository.go]. A server
    that is deleted softly is out of its table: no modelled query reads it. *)
From Stdlib Require Import ZArith Ascii String Lia.
From stdpp Require Import base sorting pretty numbers gmap strings list.
From S2P Require Import Prelude GoStrings Json ReleaseSpec ReleaseValidation Models PlatformModels Store.

(** [db.Model(...).Where(test).Updates(...)] of columns with a unique index. *)
Definition t_update_unique {A} `{Row A} (test : A → bool) (f : A → A) (t : table A) : result (table A) :=
  let t' := t_update test f t in
  if existsb (λ kv : Z * A, clashes kv.1 kv.2 t') (map_to_list (t_rows t')) then Err unique_violation else Ok t'.

(** [db.Create(&a)] of a row that may come with its key. *)
Definition t_insert {A} `{Row A} (a : A) (t : table A) : result (A * table A) :=
  if decide (row_id a = 0%Z) then t_create a t
  else if bool_decide (is_Some (t_rows t !! row_id a)) || clashes (row_id a) a t then Err unique_violation
  else let a := with_id (row_id a) (defaults a) in
    Ok (a, {| t_rows := <[row_id a := a]> (t_rows t); t_next := Z.max (t_next t) (row_id a + 1) |}).

Section platform_repository.
Context {C : Type} `{Surroundings}.
#[local] Abbreviation M := (M (World C)).

(** [db.Save(&a)]: a row without a key is created. *)
Definition save_new {A} `{HasTable A, Row A} (a : A) : M A :=
  if decide (row_id a = 0%Z) then create a else save a ;; mret a.

(** ** Runtimes *)

Definition CreateRuntime (runtime : RuntimeInstance) : M RuntimeInstance := create runtime.
Definition GetRuntime (id : Z) : M RuntimeInstance := first (λ r, bool_decide (rt_ID r = id)).
Definition UpdateRuntime (runtime : RuntimeInstance) : M RuntimeInstance := save_new runtime.
Definition set_health (status detail : string) (checkedAt : Z) (r : RuntimeInstance) : RuntimeInstance :=
  let '(Build_RuntimeInstance i n t m ns mo k s _ _ _ a c) := r in
  Build_RuntimeInstance i n t m ns mo k s status detail (Some checkedAt) a c.
Definition UpdateRuntimeHealth (id : Z) (status detail : string) (checkedAt : Z) : M unit :=
  execute (λ t, Ok (t_update (λ r, bool_decide (rt_ID r = id)) (set_health status detail checkedAt) t)).
Definition DeleteRuntime (id : Z) : M unit :=
  execute (λ t, Ok (t_delete (λ r, bool_decide (rt_ID r = id)) t)).

(** ** Capabilities of agents *)

Definition by_capability (a b : AgentCapabilityGrant) : Prop :=
  String.le (gr_Capability a) (gr_Capability b) ∧
  (gr_Capability a = gr_Capability b → String.le (gr_Namespace a) (gr_Namespace b)).
#[export] Instance by_capability_dec a b : Decision (by_capability a b).
Proof. unfold by_capability. apply _. Defined.

Definition ListAgentCapabilityGrants (runtimeID : Z) : M (list AgentCapabilityGrant) :=
  query (λ db, Ok (merge_sort by_capability (select (λ g, bool_decide (gr_RuntimeID g = runtimeID)) (tbl db)))).

(** The capabilities that reach beyond a namespace are granted for all of them. *)
Definition cluster_capabilities : list string :=
  [AgentCapabilityClusterRead; AgentCapabilityRegistryRead; AgentCapabilityRegistryVerify;
   AgentCapabilityRegistryPullCheck; AgentCapabilityDNSRead; AgentCapabilityRegistryProxyDiagnose;
   AgentCapabilityAlertRead; AgentCapabilityMonitoringRead; AgentCapabilityMaintenanceInspect;
   AgentCapabilityMaintenanceCleanup].
Definition NamespaceValid `{K8sLibrary} (namespace : string) : bool :=
  bool_decide (namespace ≠ "") && negb (complains (IsDNS1123Subdomain namespace)).
Definition validAgentCapabilityGrant `{K8sLibrary} (grant : AgentCapabilityGrant) : bool :=
  if negb (ValidAgentCapability (gr_Capability grant))
     || (bool_decide (gr_Namespace grant ≠ "*") && negb (NamespaceValid (gr_Namespace grant))) then false
  else if bool_decide (gr_Capability grant ∈ cluster_capabilities) then bool_decide (gr_Namespace grant = "*")
  else true.

Fixpoint create_grants `{K8sLibrary} (runtimeID : Z) (grants : list AgentCapabilityGrant)
    (t : table AgentCapabilityGrant) : result (table AgentCapabilityGrant) :=
  match grants with
  | [] => Ok t
  | grant :: grants =>
      if bool_decide (gr_RuntimeID grant ≠ runtimeID) || negb (validAgentCapabilityGrant grant)
      then Err (EText "invalid agent capability grant")
      else p ← t_insert grant t; create_grants runtimeID grants p.2
  end.
Definition ReplaceAgentCapabilityGrants `{K8sLibrary} (runtimeID : Z) (grants : list AgentCapabilityGrant) : M unit :=
  execute (λ t, create_grants runtimeID grants (t_delete (λ g, bool_decide (gr_RuntimeID g = runtimeID)) t)).

Definition grants_capability (runtimeID : Z) (capability namespace : string) (g : AgentCapabilityGrant) : bool :=
  bool_decide (gr_RuntimeID g = runtimeID) && bool_decide (gr_Capability g = capability) && gr_Enabled g &&
  (if decide (namespace = "") then bool_decide (gr_Namespace g = "*")
   else bool_decide (gr_Namespace g ∈ ["*"; namespace])).
Definition HasAgentCapability (runtimeID : Z) (capability namespace : string) : M bool :=
  if negb (ValidAgentCapability capability) then mret false
  else l ← find (grants_capability runtimeID capability namespace); mret (bool_decide (0 < length l)).

(** ** Operations of agents *)

Definition incomplete_operation (o : AgentOperation) : bool :=
  bool_decide (ao_RuntimeID o = 0%Z) || bool_decide (ao_RequestID o = "") || bool_decide (ao_OperationID o = "")
  || bool_decide (ao_Capability o = "") || bool_decide (ao_Parameters o = None)
  || bool_decide (ao_ParametersHash o = "") || bool_decide (ao_Status o = "") || bool_decide (ao_ExpiresAt o = time_zero).
Definition same_request (operation o : AgentOperation) : bool :=
  bool_decide (ao_RuntimeID o = ao_RuntimeID operation) && bool_decide (ao_RequestID o = ao_RequestID operation).

Definition set_operation_created (at_ : Z) (o : AgentOperation) : AgentOperation :=
  let '(Build_AgentOperation i o r c q cs p h v s su es ab aa ex ca cr) := o in
  Build_AgentOperation i o r c q cs p h v s su es ab aa ex ca (if decide (cr = time_zero) then at_ else cr).

(** The operation of the request, and whether it is new: a repeated request gets the first one. *)
Definition CreateAgentOperation (operation : AgentOperation) : M (AgentOperation * bool) :=
  guard_not (incomplete_operation operation) (EText "invalid agent operation") ;;
  at_ ← now;
  statement (λ db,
    match first_row (select (same_request operation) (tbl db)) with
    | Ok existing => Ok ((existing, false), db)
    | Err _ => p ← t_create (set_operation_created at_ operation) (tbl db); Ok ((p.1, true), put p.2 db)
    end).
Definition GetAgentOperation (operationID : string) : M AgentOperation :=
  first (λ o, bool_decide (ao_OperationID o = operationID)).
Definition newer_operation (a b : AgentOperation) : Prop := (ao_CreatedAt b ≤ ao_CreatedAt a)%Z.
#[export] Instance newer_operation_dec a b : Decision (newer_operation a b).
Proof. unfold newer_operation. apply _. Defined.
Definition ListAgentOperations (runtimeID : Z) (limit : Z) (status sessionID : string) : M (list AgentOperation) :=
  let limit := if bool_decide (limit < 1)%Z || bool_decide (100 < limit)%Z then 50%Z else limit in
  l ← find (λ o,
    implb (bool_decide (0 < runtimeID)%Z) (bool_decide (ao_RuntimeID o = runtimeID))
    && implb (bool_decide (status ≠ "")) (bool_decide (ao_Status o = status))
    && implb (bool_decide (sessionID ≠ "")) (bool_decide (ao_ChatSessionID o = sessionID)));
  mret (take (Z.to_nat limit) (merge_sort newer_operation l)).

Definition set_operation (status errorSummary : string) (approved : option (Z * Z)) (completedAt : option Z)
    (o : AgentOperation) : AgentOperation :=
  let '(Build_AgentOperation i o r c q cs p h v _ su _ ab aa ex ca cr) := o in
  Build_AgentOperation i o r c q cs p h v status su errorSummary
    (match approved with Some (by_, _) => Some by_ | None => ab end)
    (match approved with Some (_, at_) => Some at_ | None => aa end) ex
    (match completedAt with Some at_ => Some at_ | None => ca end) cr.
Definition in_status (operationID fromStatus : string) (o : AgentOperation) : bool :=
  bool_decide (ao_OperationID o = operationID) && bool_decide (ao_Status o = fromStatus).

(** Whether the operation was in the status it is moved from. *)
Definition UpdateAgentOperationStatus (operationID fromStatus toStatus errorSummary : string) (approvedBy completedAt : option Z) :
    M bool :=
  approved ← match approvedBy with Some by_ => at_ ← now; mret (Some (by_, at_)) | None => mret None end;
  affected ← statement (λ db,
    Ok (length (select (in_status operationID fromStatus) (tbl db)),
        put (t_update (in_status operationID fromStatus) (set_operation toStatus errorSummary approved completedAt) (tbl db)) db));
  mret (bool_decide (affected = 1)).

(** ** Alerts *)

Definition incomplete_alert (e : AlertEvent) : bool :=
  bool_decide (al_Fingerprint e = "") || bool_decide (al_AlertName e = "") || bool_decide (al_Labels e = "")
  || bool_decide (al_Annotations e = "") || bool_decide (al_Status e = "") || bool_decide (al_StartsAt e = time_zero).
(** The stored alert after another notification of its fingerprint. *)
Definition renotified (event stored : AlertEvent) : AlertEvent :=
  let '(Build_AlertEvent i f _ _ _ _ _ _ st r se re d o le _ ea ld) := stored in
  let '(status, ends) :=
    if decide (al_Status event = AlertEventResolved) then (al_Status event, al_EndsAt event)
    else if decide (st = AlertEventResolved) then (AlertEventFiring, None) else (st, ea) in
  Build_AlertEvent i f (al_AlertName event) (al_Severity event) (al_NodeName event) (al_MountPoint event)
    (al_Labels event) (al_Annotations event) status r se re d o le (al_StartsAt event) ends ld.
Definition UpsertAlertEvent (event : AlertEvent) : M AlertEvent :=
  guard_not (incomplete_alert event) (EText "invalid alert event") ;;
  statement (λ db,
    let same e := bool_decide (al_Fingerprint e = al_Fingerprint event) in
    match first_row (select same (tbl db)) with
    | Err _ => p ← t_create event (tbl db); Ok (p.1, put p.2 db)
    | Ok stored =>
        let db := put (t_update (λ e, bool_decide (al_ID e = al_ID stored)) (renotified event) (tbl db)) db in
        stored ← first_row (select same (tbl db));
        Ok (if decide (al_ID event = 0%Z) then stored else event, db)
    end).
Definition GetAlertEvent (id : Z) : M AlertEvent := first (λ e, bool_decide (al_ID e = id)).
Definition UpdateAlertEvent (event : AlertEvent) : M unit :=
  guard_not (bool_decide (al_ID event = 0%Z)) (EText "invalid alert event") ;; save event.
Definition GetAlertAutomationPolicy : M AlertAutomationPolicy := first (λ _, true).
Definition SaveAlertAutomationPolicy (policy : AlertAutomationPolicy) : M unit :=
  execute (λ t,
    match first_row (t_list t) with
    | Err _ => p ← t_create policy t; Ok p.2
    | Ok existing => t_save (with_id (pol_ID existing) policy) t
    end).

Definition CreateAuditLog (entry : AuditLog) : M AuditLog := create entry.

(** ** Proxies and servers *)

Definition older_proxy (a b : RegistryProxy) : Prop := (px_CreatedAt a ≤ px_CreatedAt b)%Z.
#[export] Instance older_proxy_dec a b : Decision (older_proxy a b).
Proof. unfold older_proxy. apply _. Defined.
Definition GetRegistryProxy : M RegistryProxy := first (λ _, true).
Definition GetRegistryProxyByID (id : Z) : M RegistryProxy := first (λ p, bool_decide (px_ID p = id)).
Definition ListRegistryProxies : M (list RegistryProxy) :=
  query (λ db, Ok (merge_sort older_proxy (t_list (tbl db)))).
Definition SaveRegistryProxy (proxy : RegistryProxy) : M RegistryProxy := save_new proxy.

Definition newer_server (a b : Server) : Prop := (sv_CreatedAt b ≤ sv_CreatedAt a)%Z.
#[export] Instance newer_server_dec a b : Decision (newer_server a b).
Proof. unfold newer_server. apply _. Defined.
Definition CreateServer (server : Server) : M Server := create server.
Definition GetServer (id : Z) : M Server := first (λ s, bool_decide (sv_ID s = id)).
Definition GetServerByHost (host : string) : M Server := first (λ s, bool_decide (sv_Host s = host)).
Definition GetEnvironmentByID (environmentID : Z) : M Environment := first (λ e, bool_decide (env_ID e = environmentID)).
(** The applications of a project and an environment, 0 for any. *)
Definition ListApplications (projectID environmentID : Z) : M (list Application) :=
  query (λ db, Ok ((λ a, LoadCapabilities (preload true db a)) <$>
    reverse (select (λ a, (bool_decide (projectID = 0%Z) || bool_decide (app_ProjectID a = projectID))
      && (bool_decide (environmentID = 0%Z) || bool_decide (app_EnvironmentID a = environmentID))) (tbl db)))).
(** The keys grow with the time of creation. *)
Definition CreatePersistentVolumeMigration (migration : PersistentVolumeMigration) : M PersistentVolumeMigration := create migration.
Definition GetPersistentVolumeMigration (id : Z) : M PersistentVolumeMigration := first (λ m, bool_decide (mig_ID m = id)).
Definition ListPersistentVolumeMigrations (environmentID : Z) : M (list PersistentVolumeMigration) :=
  query (λ db, Ok (reverse (select (λ m, bool_decide (environmentID = 0%Z) || bool_decide (mig_EnvironmentID m = environmentID)) (tbl db)))).
Definition active_migration (environmentID : Z) (sourcePVCName : string) (m : PersistentVolumeMigration) : bool :=
  bool_decide (mig_EnvironmentID m = environmentID) && bool_decide (mig_SourcePVCName m = sourcePVCName)
  && negb (bool_decide (mig_Status m ∈ pvc_migration_terminal)).
Definition FindActivePVCMigration (environmentID : Z) (sourcePVCName : string) : M PersistentVolumeMigration :=
  query (λ db, first_row (reverse (select (active_migration environmentID sourcePVCName) (tbl db)))).
Definition set_migration (status detail : string) (completed : option Z) (m : PersistentVolumeMigration) : PersistentVolumeMigration :=
  let '(Build_PersistentVolumeMigration i e a s t sn tn d r _ _ b sp c) := m in
  Build_PersistentVolumeMigration i e a s t sn tn d r status detail b sp (match completed with Some at_ => Some at_ | None => c end).
(** The row as it is in memory afterwards, whether or not it was stored. *)
Definition UpdatePersistentVolumeMigration (migration : PersistentVolumeMigration) (status detail : string) :
    M (PersistentVolumeMigration * result unit) :=
  completed ← (if IsPVCMigrationTerminal status then at_ ← now; mret (Some at_) else mret None);
  let migration := set_migration status detail completed migration in
  stored ← attempt (save migration);
  mret (migration, stored).

Definition ListServers : M (list Server) := query (λ db, Ok (merge_sort newer_server (t_list (tbl db)))).
Definition UpdateServer (server : Server) : M Server := save_new server.
Definition UnbindServersFromClusterNode (nodeName : string) : M unit :=
  execute (λ t, Ok (t_update (λ s, bool_decide (sv_K8sNodeName s = nodeName))
    (λ s, {| sv_ID := sv_ID s; sv_Name := sv_Name s; sv_Host := sv_Host s; sv_ClusterRole := "";
             sv_K8sNodeName := ""; sv_SSHAuthType := sv_SSHAuthType s; sv_SSHKey := sv_SSHKey s;
             sv_CreatedAt := sv_CreatedAt s |}) t)).
Definition DeleteServer (id : Z) : M unit := execute (λ t, Ok (t_delete (λ s, bool_decide (sv_ID s = id)) t)).

(** ** Users, login tokens and integration sessions *)

Definition CreateUser (user : User) : M User := create user.
Definition GetUserByUsername (username : string) : M User := first (λ u, bool_decide (us_Username u = username)).
Definition GetUserByID (id : Z) : M User := first (λ u, bool_decide (us_ID u = id)).
Definition CountUsers : M nat := l ← find (A := User) (λ _, true); mret (length l).

(** gorm sets the time of creation. *)
Definition set_login_created (at_ : Z) (t : TemporaryLoginToken) : TemporaryLoginToken :=
  let '(Build_TemporaryLoginToken i h c l e r u ca) := t in
  Build_TemporaryLoginToken i h c l e r u (if decide (ca = time_zero) then at_ else ca).
Definition CreateTemporaryLoginToken (token : TemporaryLoginToken) : M TemporaryLoginToken :=
  at_ ← now; create (set_login_created at_ token).
Definition ListTemporaryLoginTokens (userID : Z) : M (list TemporaryLoginToken) :=
  l ← find (λ t, bool_decide (lt_CreatedBy t = userID)); mret (rev l).
Definition FindActiveTemporaryLoginToken (hash : string) (at_ : Z) : M TemporaryLoginToken :=
  first (λ t, bool_decide (lt_TokenHash t = hash) && bool_decide (lt_RevokedAt t = None) && bool_decide (at_ < lt_ExpiresAt t)%Z).
Definition set_used (at_ : Z) (t : TemporaryLoginToken) : TemporaryLoginToken :=
  let '(Build_TemporaryLoginToken i h c l e r _ ca) := t in Build_TemporaryLoginToken i h c l e r (Some at_) ca.
Definition MarkTemporaryLoginTokenUsed (hash : string) (usedAt : Z) : M unit :=
  execute (λ t, Ok (t_update (λ t, bool_decide (lt_TokenHash t = hash)) (set_used usedAt) t)).
Definition set_revoked (at_ : Z) (t : TemporaryLoginToken) : TemporaryLoginToken :=
  let '(Build_TemporaryLoginToken i h c l e _ u ca) := t in Build_TemporaryLoginToken i h c l e (Some at_) u ca.
Definition RevokeTemporaryLoginToken (userID tokenID : Z) (revokedAt : Z) : M unit :=
  execute (λ t, Ok (t_update (λ t, bool_decide (lt_ID t = tokenID) && bool_decide (lt_CreatedBy t = userID)
    && bool_decide (lt_RevokedAt t = None)) (set_revoked revokedAt) t)).

Definition CreateIntegrationSession (session : IntegrationSession) : M IntegrationSession := create session.
Definition handed_off (sessionHash : string) (sessionExpiresAt at_ : Z) (s : IntegrationSession) : IntegrationSession :=
  let '(Build_IntegrationSession i h _ u p a e c ac he _ _ r) := s in
  Build_IntegrationSession i h (Some sessionHash) u p a e c ac he (Some at_) sessionExpiresAt r.
Definition open_handoff (handoffHash : string) (at_ : Z) (s : IntegrationSession) : bool :=
  bool_decide (is_HandoffCodeHash s = handoffHash) && bool_decide (is_HandoffUsedAt s = None)
  && bool_decide (is_RevokedAt s = None) && bool_decide (at_ < is_HandoffExpiresAt s)%Z.
Definition Store_ExchangeIntegrationSession (handoffHash sessionHash : string) (sessionExpiresAt at_ : Z) : M IntegrationSession :=
  statement (λ db,
    let affected := length (select (open_handoff handoffHash at_) (tbl db)) in
    t ← t_update_unique (open_handoff handoffHash at_) (handed_off sessionHash sessionExpiresAt at_) (tbl db);
    if decide (affected ≠ 1) then Err record_not_found
    else
      let db := put t db in
      session ← first_row (select (λ s, bool_decide (is_HandoffCodeHash s = handoffHash)) (tbl db));
      Ok (session, db)).
Definition GetActiveIntegrationSession (tokenHash : string) (at_ : Z) : M IntegrationSession :=
  first (λ s, bool_decide (is_SessionTokenHash s = Some tokenHash) && bool_decide (is_RevokedAt s = None)
    && bool_decide (at_ < is_ExpiresAt s)%Z).
(** ** Domains *)

Definition by_hostname (a b : ManagedDomain) : Prop := String.le (md_Hostname a) (md_Hostname b).
#[export] Instance by_hostname_dec a b : Decision (by_hostname a b).
Proof. unfold by_hostname. apply _. Defined.
Definition domains_where (test : ManagedDomain → bool) : M (list ManagedDomain) :=
  query (λ db, Ok (merge_sort by_hostname (select test (tbl db)))).
Definition CreateManagedDomain (domain : ManagedDomain) : M ManagedDomain := create domain.
(** Without an environment, or with the environment 0, all domains. *)
Definition ListManagedDomains (environmentID : option Z) : M (list ManagedDomain) :=
  domains_where (λ d, match environmentID with
    | Some id => bool_decide (id = 0%Z) || bool_decide (md_EnvironmentID d = id)
    | None => true
    end).
Definition ListUnassignedManagedDomains : M (list ManagedDomain) :=
  domains_where (λ d, bool_decide (md_EnvironmentID d = 0%Z)).
Definition ListClaimableManagedDomains (namespace : string) : M (list ManagedDomain) :=
  domains_where (λ d, bool_decide (md_EnvironmentID d = 0%Z) && bool_decide (md_Namespace d = namespace)).
Definition GetManagedDomain (id : Z) : M ManagedDomain := first (λ d, bool_decide (md_ID d = id)).
Definition GetManagedDomainByHostname (hostname : string) : M ManagedDomain :=
  first (λ d, bool_decide (md_Hostname d = hostname)).
Definition UpdateManagedDomain (domain : ManagedDomain) : M ManagedDomain := save_new domain.
Definition DeleteManagedDomain (id : Z) : M unit := execute (λ t, Ok (t_delete (λ d, bool_decide (md_ID d = id)) t)).

(** ** Configuration and the releases of the platform *)

Definition GetSystemConfig (key : string) : M string :=
  cfg ← first (λ c, bool_decide (cfg_Key c = key)); mret (cfg_Value cfg).
(** gorm sets the time of creation. *)
Definition set_release_created (at_ : Z) (r : PlatformRelease) : PlatformRelease :=
  let '(Build_PlatformRelease i s im p st d c ru sa ca cr) := r in
  Build_PlatformRelease i s im p st d c ru sa ca (if decide (cr = time_zero) then at_ else cr).
Definition CreatePlatformRelease (release : PlatformRelease) : M PlatformRelease :=
  at_ ← now; create (set_release_created at_ release).
Definition GetPlatformRelease (id : Z) : M PlatformRelease := first (λ r, bool_decide (plr_ID r = id)).
(** Newest first; a limit that is not positive is none. *)
Definition ListPlatformReleases (limit : Z) : M (list PlatformRelease) :=
  l ← find (A := PlatformRelease) (λ _, true);
  mret (if bool_decide (0 < limit)%Z then take (Z.to_nat limit) (rev l) else rev l).
Definition incomplete_release (r : PlatformRelease) : bool :=
  bool_decide (plr_Status r ∈ ["accepted"; "applying"; "waiting_ready"]).
Definition LatestIncompletePlatformRelease : M PlatformRelease :=
  query (λ db, first_row (rev (select incomplete_release (tbl db)))).
Definition UpdatePlatformRelease (release : PlatformRelease) : M unit := save release.
Definition CreatePlatformWebhookNonce (nonce : string) (expiresAt : Z) : M PlatformWebhookNonce :=
  create {| wn_ID := 0; wn_Nonce := nonce; wn_ExpiresAt := expiresAt |}.
Definition DeleteExpiredPlatformWebhookNonces (at_ : Z) : M unit :=
  execute (λ t, Ok (t_delete (λ n, bool_decide (wn_ExpiresAt n ≤ at_)%Z) t)).

End platform_repository.

(** ** Statements that succeeded *)

Section succeeded.
Context {C : Type} `{Surroundings}.

Lemma execute_Ok {A} `{HasTable A} (f : table A → result (table A)) (w w' : World C) u :
  execute f w = (Ok u, w') → ∃ t, f (tbl (w_db w)) = Ok t ∧ w_db w' = put t (w_db w) ∧
    w_cluster w' = w_cluster w ∧ w_trace w' = w_trace w.
Proof.
  intros (Hf & Hc & Ht)%statement_Ok. apply result_bind_Ok in Hf as (t & Hf & Hx). injection Hx as _ <-. by exists t.
Qed.

Lemma first_Ok {A} `{HasTable A} (test : A → bool) (w w' : World C) a :
  first test w = (Ok a, w') → test a = true ∧ a ∈ t_list (tbl (w_db w)) ∧ w_db w' = w_db w.
Proof. intros ([? ?]%first_row_select & Hdb & _)%query_Ok. done. Qed.

Lemma find_Ok {A} `{HasTable A} (test : A → bool) (w w' : World C) l :
  find test w = (Ok l, w') → l = select test (tbl (w_db w)) ∧ w_db w' = w_db w.
Proof. intros (Hl & Hdb & _)%query_Ok. by injection Hl as <-. Qed.
End succeeded.

(** A row that was created clashes with no other. *)
Lemma created_apart {A} `{Row A} (a b : A) (t t' : table A) i x :
  keyed t → t_create a t = Ok (b, t') → t_rows t !! i = Some x → clash x a = false.
Proof.
  intros Hk. unfold t_create. destruct (clashes (t_next t) a t) eqn:Hc; [done|]. intros _ Hi.
  apply not_true_iff_false. apply not_true_iff_false in Hc. intros Hx. apply Hc. unfold clashes. apply existsb_exists.
  exists (i, x). split; [by apply list_elem_of_In, elem_of_map_to_list|].
  apply andb_true_iff. split; [|done]. apply negb_true_iff, bool_decide_eq_false. apply (keyed_next _ Hk) in Hi. simpl. lia.
Qed.
