(* ===== verification/Api.v ===== *)
(** * Requests and answers

    [internal/api/shared/http.go], [response.go] and [identity.go]: what the handlers share. An answer
    that is not a success is an error whose tag is the HTTP status; the decoding of a request is an
    argument of its handler. *)
From Stdlib Require Import ZArith Ascii String.
From stdpp Require Import base sorting pretty numbers gmap strings list.
From S2P Require Import Prelude GoStrings Json.

Definition BadRequest (message : string) : goerr := ESent "400" message.
Definition ValidationError (message : string) : goerr := ESent "400" message.
Definition Unauthorized (message : string) : goerr := ESent "401" message.
Definition Forbidden (message : string) : goerr := ESent "403" message.
Definition NotFound (message : string) : goerr := ESent "404" message.
Definition Conflict (message : string) : goerr := ESent "409" message.
Definition TooLarge (message : string) : goerr := ESent "413" message.
Definition InternalError (message : string) : goerr := ESent "500" message.
Definition DBError (message : string) : goerr := ESent "500" message.
Definition K8sAPIError (message : string) : goerr := ESent "502" message.
Definition BadGateway (message : string) : goerr := ESent "502" message.
Definition ServiceUnavailable (message : string) : goerr := ESent "503" message.

(** This answer has the status of a success. *)
Definition K8sUnavailable : goerr := ESent "200" "K8s 集群未连接".

Definition ParseID (value : string) : option Z := parse_uint value.
Definition ParsePositiveID (value : string) : option Z :=
  id ← ParseID value; if decide (id = 0%Z) then None else Some id.
Definition OptionalID (value : string) : option Z :=
  if decide (value = "") then Some 0%Z else ParsePositiveID value.

(** [strings.SplitN(s, " ", 2)] when it gives two parts. *)
Fixpoint cut_space (s : string) : option (string * string) :=
  match s with
  | EmptyString => None
  | String c s =>
      if decide (c = " "%char) then Some ("", s)
      else '(a, b) ← cut_space s; Some (String c a, b)
  end.
(** The credential of an [Authorization] header with the scheme Bearer. *)
Definition bearer (header : string) : option string :=
  '(scheme, credential) ← cut_space header; if decide (scheme = "Bearer") then Some credential else None.

(** Who is logged in, as the middleware leaves it in the request. *)
Record Identity := { id_UserID : Z; id_Username : string }.
