(* ===== verification/AuditTrail.v ===== *)
(** * The audit timeline

    [internal/service/audit/service.go]: a completed event is checked, its metadata redacted by key and
    by content, and written as one row. Metadata is a document; [json.Marshal] of a map lists its
    members in the order of their keys. *)
From Stdlib Require Import ZArith Ascii String.
From stdpp Require Import base sorting pretty numbers gmap strings list.
From S2P Require Import Prelude GoStrings Json Security Models PlatformModels Store PlatformStore.

Record Actor := { act_Type : string; act_ID : Z; act_Name : string }.

Record AuditEventInput := {
  ev_Action : string;
  ev_ResourceType : string;
  ev_ResourceID : Z;
  ev_TargetName : string;
  ev_Actor : Actor;
  ev_Source : string;
  ev_Outcome : string;
  ev_Summary : string;
  ev_RequestID : string;
  ev_OperationID : string;
  ev_Metadata : list (string * json)
}.

Definition isSensitiveKey (key : string) : bool :=
  let key := to_lower key in
  contains key "secret" || contains key "password" || contains key "token" || contains key "private_key"
  || bool_decide (key = "content").

Definition by_key (a b : string * json) : Prop := String.le a.1 b.1.
#[export] Instance by_key_dec a b : Decision (by_key a b).
Proof. unfold by_key. apply _. Defined.

Fixpoint redactMetadata (value : json) : json :=
  match value with
  | JObj members =>
      JObj (merge_sort by_key
        (map (λ kv, (kv.1, if isSensitiveKey kv.1 then JStr "[REDACTED]" else redactMetadata kv.2)) members))
  | JArr items => JArr (map redactMetadata items)
  | JStr s => JStr (Redact s)
  | _ => value
  end.

Definition blank_text (s : string) : bool := bool_decide (trim_space s = "").

Section service.
Context {C : Type} `{Surroundings}.
#[local] Abbreviation M := (M (World C)).

Definition audit_row_of (input : AuditEventInput) (at_ : Z) : AuditLog :=
  {| au_ID := 0; au_Action := ev_Action input; au_ResourceType := ev_ResourceType input;
     au_ResourceID := ev_ResourceID input;
     au_TargetName := if decide (ev_TargetName input = "")
       then AuditTargetFallback (ev_ResourceType input) (ev_ResourceID input) else ev_TargetName input;
     au_UserID := act_ID (ev_Actor input);
     au_ActorType := or_default AuditActorSystem (act_Type (ev_Actor input));
     au_ActorName := act_Name (ev_Actor input); au_Source := ev_Source input; au_Outcome := ev_Outcome input;
     au_Summary := ev_Summary input; au_RequestID := ev_RequestID input; au_OperationID := ev_OperationID input;
     au_Detail := redactMetadata (JObj (ev_Metadata input)); au_CreatedAt := at_ |}.

Definition Service_Record (input : AuditEventInput) : M unit :=
  guard_not (blank_text (ev_Action input) || blank_text (ev_ResourceType input) || blank_text (ev_Source input)
             || blank_text (ev_Outcome input) || blank_text (ev_Summary input)) (EText "incomplete audit event") ;;
  at_ ← now;
  _ ← CreateAuditLog (audit_row_of input at_);
  mret tt.
End service.
