(* ===== verification/Tokens.v ===== *)
(** * Signed tokens and temporary logins

    [internal/service/auth/jwt.go], [delegation.go] and [service.go], with the middleware and the
    refresh of [internal/api/auth/auth_middleware.go] and [auth_handler.go]. A token is the text
    [header.payload.signature]: the payload is the JSON text of its claims, the signature the HMAC of
    what precedes it. The digests of [crypto] are parameters, and so are the random values. *)
From Stdlib Require Import ZArith Ascii String.
From stdpp Require Import base sorting pretty numbers gmap strings list.
From S2P Require Import Prelude GoStrings GoBase64 GoPath Json JsonText ReleaseSpec ReleaseSnapshot Security Models PlatformModels Store PlatformStore Api AuditTrail.

(** [crypto/hmac] over [crypto/sha256], and [sha256.Sum256] *)
Class Digests := {
  hmac_sha256 : string → string → string;
  sha256 : string → string
}.

(** [rand.Read] of as many bytes as are asked for, at each moment; [None] when it fails. *)
Class Entropy := random_bytes : nat → Z → option string.
(** [fmt.Sprintf("%x", s)] *)
Definition hex_text (s : string) : string :=
  of_chars (concat ((λ c, [hex_digit (code c / 16); hex_digit (code c mod 16)]) <$> chars s)).

Definition ErrTokenExpired : goerr := ESent "auth.ErrTokenExpired" "token expired".
Definition ErrTokenInvalid : goerr := ESent "auth.ErrTokenInvalid" "token invalid".

(** ** Claims *)

Record Claims := { jwt_UserID : Z; jwt_Username : string; jwt_Exp : Z; jwt_Iat : Z }.
Definition zero_Claims : Claims := {| jwt_UserID := 0; jwt_Username := ""; jwt_Exp := 0; jwt_Iat := 0 |}.
Definition encode_Claims (c : Claims) : json :=
  JObj (
    member u64_codec "user_id" (jwt_UserID c) ++
    member string_codec "username" (jwt_Username c) ++
    member i64_codec "exp" (jwt_Exp c) ++
    member i64_codec "iat" (jwt_Iat c) ++ []).
Definition decode_Claims (c : Claims) (j : json) : option Claims :=
  match j with
  | JNull => Some c
  | JObj ms =>
      vUserID ← get u64_codec "user_id" (jwt_UserID c) ms;
      vUsername ← get string_codec "username" (jwt_Username c) ms;
      vExp ← get i64_codec "exp" (jwt_Exp c) ms;
      vIat ← get i64_codec "iat" (jwt_Iat c) ms;
      Some {| jwt_UserID := vUserID; jwt_Username := vUsername; jwt_Exp := vExp; jwt_Iat := vIat |}
  | _ => None
  end.

Record DelegationClaims := {
  dc_Type : string;
  dc_Audience : string;
  dc_UserID : Z;
  dc_Username : string;
  dc_ProjectID : Z;
  dc_EnvironmentIDs : list Z;
  dc_ApplicationIDs : list Z;
  dc_Capability : string;
  dc_Actions : list string;
  dc_JTI : string;
  dc_Exp : Z;
  dc_Iat : Z
}.
Definition zero_DelegationClaims : DelegationClaims :=
  {| dc_Type := ""; dc_Audience := ""; dc_UserID := 0; dc_Username := ""; dc_ProjectID := 0;
     dc_EnvironmentIDs := []; dc_ApplicationIDs := []; dc_Capability := ""; dc_Actions := []; dc_JTI := "";
     dc_Exp := 0; dc_Iat := 0 |}.
Definition encode_DelegationClaims (c : DelegationClaims) : json :=
  JObj (
    member string_codec "typ" (dc_Type c) ++
    member string_codec "aud" (dc_Audience c) ++
    member u64_codec "user_id" (dc_UserID c) ++
    member string_codec "username" (dc_Username c) ++
    member u64_codec "project_id" (dc_ProjectID c) ++
    member (list_codec u64_codec) "environment_ids" (dc_EnvironmentIDs c) ++
    omit_empty (list_codec u64_codec) (empty_list (dc_ApplicationIDs c)) "application_ids" (dc_ApplicationIDs c) ++
    member string_codec "capability" (dc_Capability c) ++
    member (list_codec string_codec) "actions" (dc_Actions c) ++
    member string_codec "jti" (dc_JTI c) ++
    member i64_codec "exp" (dc_Exp c) ++
    member i64_codec "iat" (dc_Iat c) ++ []).
Definition decode_DelegationClaims (c : DelegationClaims) (j : json) : option DelegationClaims :=
  match j with
  | JNull => Some c
  | JObj ms =>
      vType ← get string_codec "typ" (dc_Type c) ms;
      vAudience ← get string_codec "aud" (dc_Audience c) ms;
      vUserID ← get u64_codec "user_id" (dc_UserID c) ms;
      vUsername ← get string_codec "username" (dc_Username c) ms;
      vProjectID ← get u64_codec "project_id" (dc_ProjectID c) ms;
      vEnvironmentIDs ← get (list_codec u64_codec) "environment_ids" (dc_EnvironmentIDs c) ms;
      vApplicationIDs ← get (list_codec u64_codec) "application_ids" (dc_ApplicationIDs c) ms;
      vCapability ← get string_codec "capability" (dc_Capability c) ms;
      vActions ← get (list_codec string_codec) "actions" (dc_Actions c) ms;
      vJTI ← get string_codec "jti" (dc_JTI c) ms;
      vExp ← get i64_codec "exp" (dc_Exp c) ms;
      vIat ← get i64_codec "iat" (dc_Iat c) ms;
      Some {| dc_Type := vType; dc_Audience := vAudience; dc_UserID := vUserID; dc_Username := vUsername;
              dc_ProjectID := vProjectID; dc_EnvironmentIDs := vEnvironmentIDs; dc_ApplicationIDs := vApplicationIDs;
              dc_Capability := vCapability; dc_Actions := vActions; dc_JTI := vJTI; dc_Exp := vExp; dc_Iat := vIat |}
  | _ => None
  end.

(** ** Signing and verifying *)

Section tokens.
Context `{Digests}.

Definition header_text : string :=
  print (JObj [("alg", JStr "HS256"); ("typ", JStr "JWT")]).
Definition sign_text (secret payload_text : string) : string :=
  let signingInput := base64url header_text +:+ ("." +:+ base64url payload_text) in
  signingInput +:+ ("." +:+ base64url (hmac_sha256 secret signingInput)).
Definition signPayload (secret : string) (claims : json) : string := sign_text secret (print claims).

(** [strings.Split(token, ".")] into its three parts, with the signature of the first two *)
Definition signed_payload (secret tokenString : string) : option string :=
  match split_char "." tokenString with
  | [p0; p1; p2] =>
      if decide (p2 = base64url (hmac_sha256 secret (p0 +:+ ("." +:+ p1)))) then base64url_decode p1 else None
  | _ => None
  end.

(** *** Browser tokens *)

Definition GenerateAccessToken (secret : string) (userID : Z) (username : string) (ttl at_ : Z) : string :=
  signPayload secret (encode_Claims
    {| jwt_UserID := userID; jwt_Username := username; jwt_Exp := unix (at_ + ttl); jwt_Iat := unix at_ |}).
Definition GenerateRefreshToken (secret : string) (userID : Z) (ttl at_ : Z) : string :=
  signPayload secret (encode_Claims
    {| jwt_UserID := userID; jwt_Username := ""; jwt_Exp := unix (at_ + ttl); jwt_Iat := unix at_ |}).
Definition ParseToken (secret tokenString : string) (at_ : Z) : result Claims :=
  match signed_payload secret tokenString with
  | None => Err ErrTokenInvalid
  | Some payload =>
      match j ← parse payload; decode_Claims zero_Claims j with
      | None => Err ErrTokenInvalid
      | Some claims => if bool_decide (jwt_Exp claims < unix at_)%Z then Err ErrTokenExpired else Ok claims
      end
  end.

(** *** Delegations *)

Definition DelegationTokenType := "delegation".
Definition DelegationTokenAudience := "cylism-integration".
Definition MaxDelegationTTL : Z := 600 * second.

(** [for action := range seen { ... }; sort.Strings(result)] *)
Definition normalizedDelegationActions (actions : list string) : list string :=
  sort_strings (elements (list_to_set (List.filter (λ a, bool_decide (a ≠ "")) (trim_space <$> actions)) : gset string)).
Definition normalizedIDs (ids : list Z) : list Z :=
  merge_sort Z.le (elements (list_to_set (List.filter (λ id, bool_decide (id ≠ 0%Z)) ids) : gset Z)).

Definition delegation_valid (c : DelegationClaims) (at_ : Z) : bool :=
  bool_decide (dc_Type c = DelegationTokenType) && bool_decide (dc_Audience c = DelegationTokenAudience)
  && bool_decide (dc_UserID c ≠ 0%Z) && bool_decide (dc_ProjectID c ≠ 0%Z) && bool_decide (dc_Capability c ≠ "")
  && bool_decide (dc_JTI c ≠ "") && negb (empty_list (dc_Actions c)) && bool_decide (unix at_ < dc_Exp c)%Z
  && bool_decide (dc_Iat c ≤ unix at_)%Z && bool_decide (dc_Exp c - dc_Iat c ≤ MaxDelegationTTL / second)%Z.

(** The claims that are signed; [jti] is what [newDelegationID] drew. *)
Definition issued_claims (claims : DelegationClaims) (jti : string) (ttl at_ : Z) : DelegationClaims :=
  {| dc_Type := DelegationTokenType; dc_Audience := DelegationTokenAudience; dc_UserID := dc_UserID claims;
     dc_Username := dc_Username claims; dc_ProjectID := dc_ProjectID claims;
     dc_EnvironmentIDs := normalizedIDs (dc_EnvironmentIDs claims);
     dc_ApplicationIDs := normalizedIDs (dc_ApplicationIDs claims);
     dc_Capability := to_lower (trim_space (dc_Capability claims));
     dc_Actions := normalizedDelegationActions (dc_Actions claims); dc_JTI := jti;
     dc_Exp := unix (at_ + ttl); dc_Iat := unix at_ |}.
Definition bounded_ttl (ttl : Z) : Z :=
  if bool_decide (ttl ≤ 0)%Z || bool_decide (MaxDelegationTTL < ttl)%Z then MaxDelegationTTL else ttl.

Definition GenerateDelegationToken (secret : string) (claims : DelegationClaims) (ttl at_ : Z) (newDelegationID : result string) :
    result string :=
  jti ← (if decide (dc_JTI claims = "") then newDelegationID else Ok (dc_JTI claims));
  let claims := issued_claims claims jti (bounded_ttl ttl) at_ in
  if negb (delegation_valid claims at_) then Err ErrTokenInvalid
  else Ok (signPayload secret (encode_DelegationClaims claims)).

(** [at_] is the first reading of the clock, [later] the second. *)
Definition ParseDelegationToken (secret tokenString : string) (at_ later : Z) : result DelegationClaims :=
  match signed_payload secret tokenString with
  | None => Err ErrTokenInvalid
  | Some payload =>
      match j ← parse payload; decode_DelegationClaims zero_DelegationClaims j with
      | None => Err ErrTokenInvalid
      | Some claims =>
          if bool_decide (dc_Exp claims < unix at_)%Z then Err ErrTokenExpired
          else if negb (delegation_valid claims later) then Err ErrTokenInvalid else Ok claims
      end
  end.
End tokens.

Definition Allows (c : DelegationClaims) (action : string) : bool := existsb (λ a, bool_decide (a = action)) (dc_Actions c).

(** [sort.Search(n, f)] between [i] and [j]: the interval halves, so [n] is enough fuel. *)
Fixpoint search (fuel : nat) (f : nat → bool) (i j : nat) : nat :=
  match fuel with
  | 0 => i
  | S fuel =>
      if i <? j then
        let h := Nat.div2 (i + j) in
        if negb (f h) then search fuel f (S h) j else search fuel f i h
      else i
  end.
Definition Search (n : nat) (f : nat → bool) : nat := search n f 0 n.
(** A panic for an index out of range cannot happen: the index is compared with the length first. *)
Definition listed (ids : list Z) (id : Z) : bool :=
  let index := Search (length ids) (λ index, bool_decide (id ≤ nth index ids 0)%Z) in
  (index <? length ids) && bool_decide (nth index ids 0%Z = id).
Definition AllowsEnvironment (c : DelegationClaims) (id : Z) : bool :=
  empty_list (dc_EnvironmentIDs c) || listed (dc_EnvironmentIDs c) id.
Definition AllowsApplication (c : DelegationClaims) (id : Z) : bool :=
  empty_list (dc_ApplicationIDs c) || listed (dc_ApplicationIDs c) id.

(** ** Middleware and logins *)

Section logins.
Context `{Digests} {C : Type} `{Surroundings}.
#[local] Abbreviation M := (M (World C)).

(** A token is looked for in the header, then in the query. *)
Definition request_token (header query_token : string) : string :=
  let token := default "" (bearer header) in if decide (token = "") then query_token else token.

Definition JWTAuthMiddleware (secret header query_token : string) : M Identity :=
  let token := request_token header query_token in
  guard_not (bool_decide (token = "")) (Unauthorized "未提供认证 token") ;;
  at_ ← now;
  claims ← catching (lift (ParseToken secret token at_)) (λ _, throw (Unauthorized "token 无效或已过期"));
  mret {| id_UserID := jwt_UserID claims; id_Username := jwt_Username claims |}.

Definition recordDelegationAuthentication (requestID reason : string) : M unit :=
  ignore (Service_Record
    {| ev_Action := "application.delegation.authenticate"; ev_ResourceType := "delegation"; ev_ResourceID := 0;
       ev_TargetName := "integration delegation"; ev_Actor := {| act_Type := AuditActorSystem; act_ID := 0; act_Name := "" |};
       ev_Source := AuditSourceDelegation; ev_Outcome := AuditOutcomeDenied; ev_Summary := "委托认证被拒绝";
       ev_RequestID := requestID; ev_OperationID := ""; ev_Metadata := [("reason", JStr reason)] |}).
Definition DelegationAuthMiddlewareWithAudit (secret header requestID : string) : M (Identity * DelegationClaims) :=
  match bearer header with
  | Some token =>
      if blank_text token then
        recordDelegationAuthentication requestID "missing_token" ;; throw (Unauthorized "未提供委托 token")
      else
        at_ ← now; later ← now;
        claims ← catching (lift (ParseDelegationToken secret token at_ later))
          (λ _, recordDelegationAuthentication requestID "invalid_token" ;; throw (Unauthorized "委托 token 无效或已过期"));
        mret ({| id_UserID := dc_UserID claims; id_Username := dc_Username claims |}, claims)
  | None => recordDelegationAuthentication requestID "missing_token" ;; throw (Unauthorized "未提供委托 token")
  end.

(** *** [AuthHandler] *)

Record AuthHandler := {
  ah_jwtSecret : string;
  ah_accessTokenTTL : Z;
  ah_refreshTokenTTL : Z;
  (** [bcrypt.CompareHashAndPassword] *)
  CheckPassword : string → string → bool
}.
Variable h : AuthHandler.

Definition auth_record (action : string) (userID : Z) (username outcome summary requestID : string) : M unit :=
  ignore (Service_Record
    {| ev_Action := action; ev_ResourceType := "identity"; ev_ResourceID := userID; ev_TargetName := username;
       ev_Actor := {| act_Type := AuditActorUser; act_ID := userID; act_Name := username |};
       ev_Source := AuditSourceAPI; ev_Outcome := outcome; ev_Summary := summary; ev_RequestID := requestID;
       ev_OperationID := ""; ev_Metadata := [] |}).

(** The access and the refresh token; marshalling claims does not fail. *)
Definition Login (username password requestID : string) : M (string * string) :=
  user ← attempt (GetUserByUsername username);
  let denied : M (string * string) :=
    auth_record "auth.login" 0 username AuditOutcomeDenied "登录失败" requestID ;; throw (Unauthorized "用户名或密码错误") in
  match user with
  | Ok user =>
      if negb (CheckPassword h password (us_PasswordHash user)) then denied else
      at_ ← now;
      let access := GenerateAccessToken (ah_jwtSecret h) (us_ID user) (us_Username user) (ah_accessTokenTTL h) at_ in
      at_ ← now;
      let refresh := GenerateRefreshToken (ah_jwtSecret h) (us_ID user) (ah_refreshTokenTTL h) at_ in
      auth_record "auth.login" (us_ID user) (us_Username user) AuditOutcomeSucceeded "用户登录" requestID ;;
      mret (access, refresh)
  | Err _ => denied
  end.

Definition Refresh (refreshToken requestID : string) : M (string * string) :=
  at_ ← now;
  claims ← catching (lift (ParseToken (ah_jwtSecret h) refreshToken at_))
    (λ _, auth_record "auth.token.refresh" 0 "" AuditOutcomeDenied "刷新令牌被拒绝" requestID ;;
          throw (Unauthorized "refresh token 无效或已过期"));
  at_ ← now;
  let access := GenerateAccessToken (ah_jwtSecret h) (jwt_UserID claims) (jwt_Username claims) (ah_accessTokenTTL h) at_ in
  at_ ← now;
  let refresh := GenerateRefreshToken (ah_jwtSecret h) (jwt_UserID claims) (ah_refreshTokenTTL h) at_ in
  auth_record "auth.token.refresh" (jwt_UserID claims) (jwt_Username claims) AuditOutcomeSucceeded "刷新登录令牌" requestID ;;
  mret (access, refresh).

(** *** Temporary logins *)

Definition DefaultTemporaryLoginTTL : Z := 3600 * second.
Definition MaxTemporaryLoginTTL : Z := 7 * 24 * 3600 * second.
Definition ErrTemporaryLoginInvalid : goerr := ESent "auth.ErrTemporaryLoginInvalid" "临时登录秘钥无效或已过期".

Definition hashToken (value : string) : string := base64url (sha256 value).
Definition token_status (item : TemporaryLoginToken) (at_ : Z) : string :=
  if bool_decide (lt_RevokedAt item ≠ None) then "revoked"
  else if negb (bool_decide (at_ < lt_ExpiresAt item)%Z) then "expired" else "active".

(** The stored row and the token itself, shown once; [randomToken] is the draw of 32 bytes. *)
Definition TemporaryTokenService_Create (randomToken : result string) (userID : Z) (label : string) (ttl : Z) :
    M (TemporaryLoginToken * string) :=
  guard_not (bool_decide (userID = 0%Z)) (EText "用户未认证") ;;
  let ttl := if bool_decide (ttl ≤ 0)%Z then DefaultTemporaryLoginTTL else ttl in
  let ttl := Z.min ttl MaxTemporaryLoginTTL in
  raw ← lift randomToken;
  let plain := "cylism_tmp_" +:+ base64url raw in
  at_ ← now;
  entity ← CreateTemporaryLoginToken
    {| lt_ID := 0; lt_TokenHash := hashToken plain; lt_CreatedBy := userID; lt_Label := trim_space label;
       lt_ExpiresAt := at_ + ttl; lt_RevokedAt := None; lt_LastUsedAt := None;
       lt_CreatedAt := time_zero |};
  mret (entity, plain).
Definition TemporaryTokenService_List (userID : Z) : M (list (TemporaryLoginToken * string)) :=
  items ← ListTemporaryLoginTokens userID;
  at_ ← now;
  mret ((λ item, (item, token_status item at_)) <$> items).
Definition TemporaryTokenService_Revoke (userID tokenID : Z) : M unit :=
  at_ ← now; RevokeTemporaryLoginToken userID tokenID at_.
Definition Redeem (token : string) : M User :=
  let token := trim_space token in
  guard_not (bool_decide (token = "")) ErrTemporaryLoginInvalid ;;
  at_ ← now;
  entity ← catching (FindActiveTemporaryLoginToken (hashToken token) at_) (λ _, throw ErrTemporaryLoginInvalid);
  user ← catching (GetUserByID (lt_CreatedBy entity)) (λ _, throw ErrTemporaryLoginInvalid);
  ignore (MarkTemporaryLoginTokenUsed (lt_TokenHash entity) at_) ;;
  mret user.

Definition TemporaryLogin (token requestID : string) : M (string * string) :=
  user ← catching (Redeem token)
    (λ _, auth_record "auth.temporary_login" 0 "" AuditOutcomeDenied "临时登录凭据被拒绝" requestID ;;
          throw (Unauthorized "临时登录秘钥无效或已过期"));
  at_ ← now;
  let access := GenerateAccessToken (ah_jwtSecret h) (us_ID user) (us_Username user) (ah_accessTokenTTL h) at_ in
  at_ ← now;
  let refresh := GenerateRefreshToken (ah_jwtSecret h) (us_ID user) (ah_refreshTokenTTL h) at_ in
  auth_record "auth.temporary_login" (us_ID user) (us_Username user) AuditOutcomeSucceeded "使用临时登录凭据创建会话" requestID ;;
  mret (access, refresh).
End logins.

(** ** Properties *)

Section token_properties.
Context `{Digests}.

(** *** Reading a signed text back *)

Lemma signed_payload_text secret text : signed_payload secret (sign_text secret text) = Some text.
Proof.
  unfold signed_payload, sign_text.
  assert (∀ x : string, "." +:+ x = String "." x) as Hdot by done.
  rewrite <-!app_str_assoc, !Hdot, !split_char_app by apply base64url_dotless.
  rewrite contains_char_replace_free by apply base64url_dotless.
  rewrite decide_True by done. apply base64url_round_trip.
Qed.

Definition browser_claims (userID : Z) (username : string) (ttl at_ : Z) : Claims :=
  {| jwt_UserID := userID; jwt_Username := username; jwt_Exp := unix (at_ + ttl); jwt_Iat := unix at_ |}.

Record signable (c : Claims) : Prop := {
  sg_user : is_u64 (jwt_UserID c);
  sg_name : utf8 (jwt_Username c) = true;
  sg_exp : is_i64 (jwt_Exp c);
  sg_iat : is_i64 (jwt_Iat c)
}.
Record signable_delegation (c : DelegationClaims) : Prop := {
  sd_user : is_u64 (dc_UserID c);
  sd_project : is_u64 (dc_ProjectID c);
  sd_environments : Forall is_u64 (dc_EnvironmentIDs c);
  sd_applications : Forall is_u64 (dc_ApplicationIDs c);
  sd_exp : is_i64 (dc_Exp c);
  sd_iat : is_i64 (dc_Iat c);
  sd_text : textual (encode_DelegationClaims c) = true
}.

Lemma decode_encode_Claims c : signable c → decode_Claims zero_Claims (encode_Claims c) = Some c.
Proof. intros [Hu Hn He Hi]. unfold decode_Claims, encode_Claims. struct_round_trip c. Qed.

Lemma decode_encode_DelegationClaims c :
  signable_delegation c → decode_DelegationClaims zero_DelegationClaims (encode_DelegationClaims c) = Some c.
Proof.
  intros [Hu Hp He Ha Hx Hi _]. unfold decode_DelegationClaims, encode_DelegationClaims. struct_round_trip c.
Qed.

(** The claims a browser token would carry, read from a delegation. *)
Definition seen_by_browser (c : DelegationClaims) : Claims :=
  {| jwt_UserID := dc_UserID c; jwt_Username := dc_Username c; jwt_Exp := dc_Exp c; jwt_Iat := dc_Iat c |}.

Lemma decode_Claims_delegation c :
  signable_delegation c → decode_Claims zero_Claims (encode_DelegationClaims c) = Some (seen_by_browser c).
Proof.
  intros [Hu Hp He Ha Hx Hi _]. unfold decode_Claims, encode_DelegationClaims. read_fields. done.
Qed.

Lemma textual_Claims c : signable c → textual (encode_Claims c) = true.
Proof. intros [Hu Hn He Hi]. simpl. by rewrite Hn. Qed.

Lemma ParseToken_signed secret j c at_ :
  textual j = true → decode_Claims zero_Claims j = Some c →
  ParseToken secret (signPayload secret j) at_ =
    if bool_decide (jwt_Exp c < unix at_)%Z then Err ErrTokenExpired else Ok c.
Proof.
  intros Hj Hc. unfold ParseToken, signPayload. rewrite signed_payload_text, parse_print by done. simpl. by rewrite Hc.
Qed.

Lemma ParseDelegationToken_signed secret j c at_ later :
  textual j = true → decode_DelegationClaims zero_DelegationClaims j = Some c →
  ParseDelegationToken secret (signPayload secret j) at_ later =
    if bool_decide (dc_Exp c < unix at_)%Z then Err ErrTokenExpired
    else if negb (delegation_valid c later) then Err ErrTokenInvalid else Ok c.
Proof.
  intros Hj Hc. unfold ParseDelegationToken, signPayload. rewrite signed_payload_text, parse_print by done. simpl. by rewrite Hc.
Qed.

Lemma GenerateDelegationToken_Ok secret claims ttl at_ drawn token :
  GenerateDelegationToken secret claims ttl at_ drawn = Ok token →
  ∃ jti, (if decide (dc_JTI claims = "") then drawn else Ok (dc_JTI claims)) = Ok jti ∧
    let issued := issued_claims claims jti (bounded_ttl ttl) at_ in
    delegation_valid issued at_ = true ∧ token = signPayload secret (encode_DelegationClaims issued).
Proof.
  unfold GenerateDelegationToken. intros (jti & Hj & Ht)%result_bind_Ok. exists jti. split; [done|].
  destruct (delegation_valid _ _); [|done]. simpl in Ht. by injection Ht as <-.
Qed.
End token_properties.

(** *** Scopes: binary search and normalisation *)

Lemma search_spec fuel f i j :
  j - i ≤ fuel → i ≤ j → (∀ a b, a ≤ b → b < j → f a = true → f b = true) →
  i ≤ search fuel f i j ≤ j ∧ (∀ k, i ≤ k → k < search fuel f i j → f k = false) ∧
  (search fuel f i j < j → f (search fuel f i j) = true).
Proof.
  revert i j. induction fuel as [|fuel IH]; intros i j Hf Hij Hmono; cbn [search].
  { split_and!; [lia..|]. intros. lia. }
  destruct (Nat.ltb_spec i j) as [Hlt|Hge]; [|split_and!; intros; lia].
  set (h := Nat.div2 (i + j)). pose proof (Nat.div2_double i). pose proof (Nat.div2_double j).
  assert (i ≤ h < j) as Hh by (subst h; rewrite Nat.div2_div; pose proof (Nat.div_mod (i + j) 2); pose proof (Nat.mod_upper_bound (i + j) 2); lia).
  destruct (f h) eqn:Hfh; simpl.
  - destruct (IH i h) as (Hr & Hlow & Hhi); [lia..| |].
    { intros a b Hab Hb. apply Hmono; lia. }
    split_and!; [lia..|done|]. intros _. destruct (decide (search fuel f i h < h)) as [Hs|Hs]; [by apply Hhi|].
    by replace (search fuel f i h) with h by lia.
  - destruct (IH (S h) j) as (Hr & Hlow & Hhi); [lia..|done|]. split_and!; [lia..| |done].
    intros k Hk Hkr. destruct (decide (k ≤ h)) as [Hkh|Hkh]; [|apply Hlow; lia].
    destruct (f k) eqn:Hfk; [|done]. by rewrite (Hmono k h) in Hfh by (done || lia).
Qed.

Lemma sorted_nth (ids : list Z) a b : StronglySorted Z.le ids → a ≤ b → b < length ids → (nth a ids 0 ≤ nth b ids 0)%Z.
Proof.
  intros Hs. revert a b. induction Hs as [|x ids Hs IH Hx]; intros a b Hab Hb; [simpl in Hb; lia|].
  destruct a as [|a], b as [|b]; simpl in *; try lia; [|apply IH; lia].
  rewrite Forall_forall in Hx. apply Hx, list_elem_of_In, nth_In. lia.
Qed.

(** The binary search of [AllowsEnvironment] decides membership in a sorted list. *)
Lemma listed_spec ids id : StronglySorted Z.le ids → listed ids id = true ↔ id ∈ ids.
Proof.
  intros Hs. unfold listed, Search. set (f := λ index, bool_decide (id ≤ nth index ids 0)%Z).
  destruct (search_spec (length ids) f 0 (length ids)) as (Hr & Hlow & Hhi); [lia..| |].
  { intros a b Hab Hb Ha%bool_decide_eq_true. apply bool_decide_eq_true.
    pose proof (sorted_nth ids a b Hs Hab Hb). lia. }
  revert Hr Hlow Hhi. generalize (search (length ids) f 0 (length ids)) as r. intros r Hr Hlow Hhi.
  rewrite andb_true_iff, Nat.ltb_lt, bool_decide_eq_true. split.
  - intros [Hlt <-]. by apply list_elem_of_In, nth_In.
  - intros (k & Hk & Hid)%list_elem_of_In%(In_nth _ _ 0%Z). destruct (decide (k < r)) as [Hkr|Hkr].
    + specialize (Hlow k ltac:(lia) Hkr). apply bool_decide_eq_false in Hlow. lia.
    + assert (r < length ids) as Hrl by lia. split; [done|]. specialize (Hhi Hrl). apply bool_decide_eq_true in Hhi.
      pose proof (sorted_nth ids r k Hs ltac:(lia) Hk). lia.
Qed.

Lemma normalizedIDs_sorted ids : StronglySorted Z.le (normalizedIDs ids).
Proof. apply StronglySorted_merge_sort; apply _. Qed.
Lemma elem_of_normalizedIDs ids id : id ∈ normalizedIDs ids ↔ id ≠ 0%Z ∧ id ∈ ids.
Proof.
  unfold normalizedIDs. rewrite merge_sort_Permutation, elem_of_elements, elem_of_list_to_set, !list_elem_of_In, List.filter_In.
  rewrite bool_decide_eq_true. tauto.
Qed.
Lemma elem_of_normalizedActions actions a :
  a ∈ normalizedDelegationActions actions ↔ a ≠ "" ∧ a ∈ trim_space <$> actions.
Proof.
  unfold normalizedDelegationActions.
  rewrite elem_of_sort_strings, elem_of_elements, elem_of_list_to_set, !list_elem_of_In, List.filter_In, bool_decide_eq_true.
  tauto.
Qed.

(** Who a list of identifiers admits: everyone when it names no one. *)
Definition admits (ids : list Z) (id : Z) : Prop := (∀ i, i ∈ ids → i = 0%Z) ∨ id ≠ 0%Z ∧ id ∈ ids.
Lemma normalized_admits ids id : empty_list (normalizedIDs ids) || listed (normalizedIDs ids) id = true ↔ admits ids id.
Proof.
  rewrite orb_true_iff, listed_spec, elem_of_normalizedIDs by apply normalizedIDs_sorted. unfold admits.
  assert (empty_list (normalizedIDs ids) = true ↔ ∀ i, i ∈ ids → i = 0%Z) as ->; [|done].
  destruct (normalizedIDs ids) as [|x l] eqn:Hn; simpl; split; try done.
  - intros _ i Hi. destruct (decide (i = 0%Z)) as [|Hi0]; [done|].
    assert (i ∈ normalizedIDs ids) as Hin by by apply elem_of_normalizedIDs. rewrite Hn in Hin. by apply not_elem_of_nil in Hin.
  - intros Hz. assert (x ∈ normalizedIDs ids) as [Hx Hin]%elem_of_normalizedIDs by (rewrite Hn; left). by destruct (Hx (Hz x Hin)).
Qed.

(** *** Delegations *)

Section delegation_properties.
Context `{Digests}.

(** C15: a delegation grants what was asked and nothing else, for ten minutes at most. The token that
    is issued is read back, while the clock stays between the moment of issue and the expiry, as the
    claims that were signed; after the expiry it is refused. Its life is positive and at most 600
    seconds whatever was asked. It allows exactly the actions that were asked, trimmed and not
    blank; it admits exactly the environments and the applications that were listed, zeros left out,
    and all of them when none is listed: the binary search over the sorted identifiers agrees with
    membership. *)
Theorem delegation_round_trip secret claims ttl at_ drawn token
    (Hissued : GenerateDelegationToken secret claims ttl at_ (Ok drawn) = Ok token)
    (Hfits : signable_delegation (issued_claims claims
       (if decide (dc_JTI claims = "") then drawn else dc_JTI claims) (bounded_ttl ttl) at_)) :
  let issued := issued_claims claims (if decide (dc_JTI claims = "") then drawn else dc_JTI claims) (bounded_ttl ttl) at_ in
  (∀ t later, (unix at_ ≤ unix t ≤ unix later)%Z → (unix later < dc_Exp issued)%Z →
     ParseDelegationToken secret token t later = Ok issued) ∧
  (∀ t later, (dc_Exp issued ≤ unix later)%Z → ∃ e, ParseDelegationToken secret token t later = Err e) ∧
  (0 < dc_Exp issued - dc_Iat issued ≤ 600)%Z ∧
  (∀ action, Allows issued action = true ↔ action ≠ "" ∧ action ∈ trim_space <$> dc_Actions claims) ∧
  (∀ id, AllowsEnvironment issued id = true ↔ admits (dc_EnvironmentIDs claims) id) ∧
  (∀ id, AllowsApplication issued id = true ↔ admits (dc_ApplicationIDs claims) id).
Proof.
  apply GenerateDelegationToken_Ok in Hissued as (jti & Hj & Hvalid & ->).
  assert (jti = if decide (dc_JTI claims = "") then drawn else dc_JTI claims) as -> by (case_decide; congruence).
  set (issued := issued_claims _ _ _ _) in *.
  pose proof (λ t l, ParseDelegationToken_signed secret _ issued t l (sd_text _ Hfits) (decode_encode_DelegationClaims _ Hfits)) as Hparse.
  assert (∀ t, delegation_valid issued t = true ↔ (dc_Iat issued ≤ unix t < dc_Exp issued)%Z) as Hwhen.
  { intros t. unfold delegation_valid in *. rewrite !andb_true_iff, !bool_decide_eq_true in *. tauto. }
  intros issued'. subst issued'. split_and!.
  - intros t later [Ht1 Ht2] Hl. rewrite Hparse. rewrite bool_decide_eq_false_2 by lia.
    rewrite (proj2 (Hwhen later)); [done|]. change (dc_Iat issued) with (unix at_). lia.
  - intros t later Hl. rewrite Hparse. case_bool_decide; [by eexists|].
    destruct (delegation_valid issued later) eqn:Hv; [|by eexists]. apply Hwhen in Hv. lia.
  - apply Hwhen in Hvalid. lia.
  - unfold delegation_valid in Hvalid. rewrite !andb_true_iff, !bool_decide_eq_true in Hvalid.
    change (600)%Z with (MaxDelegationTTL / second)%Z. tauto.
  - intros a. unfold Allows. rewrite <-elem_of_normalizedActions. change (dc_Actions issued) with (normalizedDelegationActions (dc_Actions claims)).
    rewrite existsb_exists. split.
    + intros (x & Hx%list_elem_of_In & <-%bool_decide_eq_true). done.
    + intros Ha. exists a. split; [by apply list_elem_of_In | by apply bool_decide_eq_true].
  - intros id. apply normalized_admits.
  - intros id. apply normalized_admits.
Qed.
End delegation_properties.

(** *** Logins *)

Section login_properties.
Context `{Digests} {C : Type} `{Surroundings}.

Lemma bearer_token token : bearer ("Bearer " +:+ token) = Some token.
Proof. reflexivity. Qed.

Lemma signed_nonempty secret text : sign_text secret text ≠ "".
Proof.
  intros Hs. apply (f_equal String.length) in Hs. unfold sign_text in Hs. rewrite !length_str_app in Hs. simpl in Hs. lia.
Qed.

Lemma JWTAuthMiddleware_signed secret text c (w : World C) :
  ParseToken secret (sign_text secret text) (clock (w_tick w)) = Ok c →
  JWTAuthMiddleware secret ("Bearer " +:+ sign_text secret text) "" w =
    (Ok {| id_UserID := jwt_UserID c; id_Username := jwt_Username c |}, tick w).
Proof.
  intros Hp. pose proof (signed_nonempty secret text) as Hne. unfold JWTAuthMiddleware, request_token.
  rewrite bearer_token. cbn [default from_option id]. rewrite decide_False by done.
  unfold guard_not. rewrite bool_decide_eq_false_2 by done.
  unfold now, mbind, M_bind, mret, M_ret, catching, lift. cbv beta iota. by rewrite Hp.
Qed.

Lemma auth_record_Ok action userID username outcome summary requestID (w : World C) :
  (auth_record action userID username outcome summary requestID w).1 = Ok tt.
Proof. done. Qed.

Lemma Refresh_signed h text c requestID (w : World C) :
  ParseToken (ah_jwtSecret h) (sign_text (ah_jwtSecret h) text) (clock (w_tick w)) = Ok c →
  ∃ access w', Refresh h (sign_text (ah_jwtSecret h) text) requestID w =
    (Ok (access, GenerateRefreshToken (ah_jwtSecret h) (jwt_UserID c) (ah_refreshTokenTTL h) (clock (S (S (w_tick w))))), w').
Proof.
  intros Hp. unfold Refresh, now, mbind, M_bind, catching, lift, mret, M_ret. cbv beta iota. rewrite Hp. cbv beta iota.
  destruct (auth_record _ _ _ _ _ _ _) as [r w'] eqn:Hr. pose proof (f_equal fst Hr) as Hok.
  rewrite auth_record_Ok in Hok. simpl in Hok. subst r. by do 2 eexists.
Qed.

Lemma unix_range t : (0 ≤ t < 2 ^ 63)%Z → is_i64 (unix t).
Proof.
  intros Ht. unfold is_i64, unix, second. pose proof (Z.div_pos t 1000000000). pose proof (Z.div_le_upper_bound t 1000000000 t).
  lia.
Qed.

(** C10: a delegation is accepted as the login of the user who issued it; the converse does not hold.
    Both kinds of token are signed with the same secret, and reading a browser token ignores the
    members it does not know, the type and the audience among them. So until it expires, the token
    that was given to an external console for one project, one capability and a few actions passes
    the middleware of every route of the platform as its issuer, and the refresh of logins exchanges
    it for a login that lasts as long as any other. A login is never accepted as a delegation. *)
Theorem delegation_substitutes_login h claims ttl at_ drawn token requestID (w : World C)
    (Hissued : GenerateDelegationToken (ah_jwtSecret h) claims ttl at_ (Ok drawn) = Ok token)
    (Hfits : signable_delegation (issued_claims claims
       (if decide (dc_JTI claims = "") then drawn else dc_JTI claims) (bounded_ttl ttl) at_))
    (Hclock : ∀ n, (0 ≤ clock n < 2 ^ 62)%Z) (Httl : (0 ≤ ah_refreshTokenTTL h < 2 ^ 62)%Z) :
  ((unix (clock (w_tick w)) ≤ unix (at_ + bounded_ttl ttl))%Z →
   JWTAuthMiddleware (ah_jwtSecret h) ("Bearer " +:+ token) "" w =
     (Ok {| id_UserID := dc_UserID claims; id_Username := dc_Username claims |}, tick w) ∧
   ∃ access refresh w', Refresh h token requestID w = (Ok (access, refresh), w') ∧
     ∀ t, (unix t ≤ unix (clock (S (S (w_tick w))) + ah_refreshTokenTTL h))%Z →
       ∃ c, ParseToken (ah_jwtSecret h) refresh t = Ok c ∧ jwt_UserID c = dc_UserID claims) ∧
  (∀ userID username life since t later, signable (browser_claims userID username life since) →
     ∃ e, ParseDelegationToken (ah_jwtSecret h) (GenerateAccessToken (ah_jwtSecret h) userID username life since) t later = Err e).
Proof.
  apply GenerateDelegationToken_Ok in Hissued as (jti & Hj & Hvalid & ->).
  assert (jti = if decide (dc_JTI claims = "") then drawn else dc_JTI claims) as -> by (case_decide; congruence).
  set (issued := issued_claims _ _ _ _) in *. split.
  - intros Hnow.
    pose proof (ParseToken_signed (ah_jwtSecret h) _ _ (clock (w_tick w)) (sd_text _ Hfits) (decode_Claims_delegation _ Hfits)) as Hp.
    rewrite bool_decide_eq_false_2 in Hp by (simpl; lia). split; [exact (JWTAuthMiddleware_signed _ (print (encode_DelegationClaims issued)) (seen_by_browser issued) w Hp)|].
    destruct (Refresh_signed h (print (encode_DelegationClaims issued)) (seen_by_browser issued) requestID w Hp) as (access & w' & Hr).
    do 3 eexists. split; [exact Hr|]. intros t Ht.
    assert (signable (browser_claims (dc_UserID claims) "" (ah_refreshTokenTTL h) (clock (S (S (w_tick w)))))) as Hs.
    { pose proof (Hclock (S (S (w_tick w)))). split; [exact (sd_user _ Hfits)|done|..]; apply unix_range; simpl; lia. }
    exists (browser_claims (dc_UserID claims) "" (ah_refreshTokenTTL h) (clock (S (S (w_tick w))))). split; [|done].
    unfold GenerateRefreshToken. rewrite (ParseToken_signed _ _ _ _ (textual_Claims _ Hs) (decode_encode_Claims _ Hs)).
    by rewrite bool_decide_eq_false_2 by (simpl; lia).
  - intros userID username life since t later Hs.
    assert (∃ d, decode_DelegationClaims zero_DelegationClaims (encode_Claims (browser_claims userID username life since)) = Some d
      ∧ dc_Type d = "") as (d & Hd & Htype).
    { destruct Hs as [Hu Hn He Hi]. eexists. split.
      - unfold decode_DelegationClaims, encode_Claims. read_fields. reflexivity.
      - reflexivity. }
    unfold GenerateAccessToken. rewrite (ParseDelegationToken_signed _ _ d) by (done || by apply textual_Claims).
    case_bool_decide; [by eexists|]. unfold delegation_valid. rewrite Htype. by eexists.
Qed.
End login_properties.

Record login_tokens_ok (db : DB) : Prop := {
  lto_keyed : keyed (tbl (A := TemporaryLoginToken) db);
  lto_hashes : ∀ i j a b, t_rows (tbl db) !! i = Some a → t_rows (tbl db) !! j = Some b →
    lt_TokenHash a = lt_TokenHash b → i = j
}.

Lemma revoked_at at_ t : lt_RevokedAt (set_revoked at_ t) = Some at_.
Proof. by destruct t. Qed.

Section temporary_logins.
Context `{Digests} {C : Type} `{Surroundings}.

(** A temporary login lets in exactly the user it was created for, and only while it is alive. A
    secret that is redeemed belongs to a stored token that is neither revoked nor expired at that
    moment, and the session is the one of its creator. Once the creator has revoked a token, its
    secret is refused, whichever statements fail. *)
Theorem temporary_login_alive :
  (∀ token (w w' : World C) user, Redeem token w = (Ok user, w') →
     ∃ row, row ∈ t_list (tbl (w_db w)) ∧ lt_TokenHash row = hashToken (trim_space token) ∧ lt_RevokedAt row = None ∧
       (clock (w_tick w) < lt_ExpiresAt row)%Z ∧ user ∈ t_list (tbl (w_db w)) ∧ us_ID user = lt_CreatedBy row) ∧
  (∀ userID tokenID row token (w w1 : World C), login_tokens_ok (w_db w) →
     TemporaryTokenService_Revoke userID tokenID w = (Ok tt, w1) →
     t_rows (tbl (w_db w)) !! tokenID = Some row → lt_CreatedBy row = userID →
     lt_TokenHash row = hashToken (trim_space token) → ∃ w2, Redeem token w1 = (Err ErrTemporaryLoginInvalid, w2)).
Proof.
  split.
  - intros token w w' user. unfold Redeem.
    intros (u0 & w0 & [Hne ->]%guard_not_Ok & (at_ & w1 & Hnow & (row & w2 & Hrow & (u & w3 & Hu & Hx)%bind_Ok)%bind_Ok)%bind_Ok)%bind_Ok.
    injection Hnow as <- <-. unfold catching in Hrow, Hu.
    destruct (FindActiveTemporaryLoginToken _ _ _) as [[r|e] w2'] eqn:Hf; [|done]. injection Hrow as -> ->.
    destruct (GetUserByID _ _) as [[v|e] w3'] eqn:Hg; [|done]. injection Hu as -> ->.
    apply first_Ok in Hf as (Ht & Hin & Hdb). apply first_Ok in Hg as (Hid%bool_decide_eq_true & Hinu & _).
    rewrite Hdb in Hinu. apply andb_prop in Ht as [[Hh%bool_decide_eq_true Hr%bool_decide_eq_true]%andb_prop He%bool_decide_eq_true].
    assert (user = u) as -> by by injection Hx as ->. by exists row.
  - intros userID tokenID row token w w1 [[Hkey _] Huniq] Hrev Hrow Hby Hhash.
    assert (∀ r, r ∈ t_list (tbl (w_db w1)) → lt_TokenHash r = hashToken (trim_space token) → lt_RevokedAt r ≠ None) as Hdead.
    { unfold TemporaryTokenService_Revoke in Hrev. apply bind_Ok in Hrev as (at_ & w0 & Hnow & Hx). injection Hnow as <- <-.
      apply execute_Ok in Hx as (t & Hf & Hdb & _). injection Hf as <-. rewrite Hdb, tbl_put. intros r [i Hi]%elem_of_t_list Hr.
      rewrite lookup_t_update in Hi. apply fmap_Some in Hi as (q & Hq & ->).
      assert (lt_TokenHash q = lt_TokenHash row) as Heq by (rewrite Hhash, <-Hr; case_match; by destruct q).
      pose proof (Huniq _ _ _ _ Hq Hrow Heq) as ->. assert (q = row) as -> by congruence.
      pose proof (Hkey _ _ Hrow) as Hid. simpl in Hid. rewrite Hid, Hby, (bool_decide_eq_true_2 (tokenID = tokenID)), (bool_decide_eq_true_2 (userID = userID)) by done. simpl.
      clear Hr. case_bool_decide as Hn; [by rewrite revoked_at | done]. }
    unfold Redeem. unfold mbind at 1, M_bind at 1, guard_not. case_bool_decide as Hne; [by eexists|].
    unfold mret, M_ret, mbind, M_bind, now, catching.
    destruct (FindActiveTemporaryLoginToken _ _ _) as [[r|e] w2] eqn:Hf; [|by eexists].
    apply first_Ok in Hf as (Ht & Hin & _).
    apply andb_prop in Ht as [[Hh%bool_decide_eq_true Hr%bool_decide_eq_true]%andb_prop _].
    destruct (Hdead r Hin Hh Hr).
Qed.
End temporary_logins.

(** ** A concrete run *)

(** Digests that keep their input, for evaluation only. *)
Definition sample_digests : Digests := {| hmac_sha256 key message := key +:+ message; sha256 value := value |}.
#[local] Existing Instance sample_digests.
#[local] Existing Instance calm.

Definition sample_delegation : DelegationClaims :=
  {| dc_Type := ""; dc_Audience := ""; dc_UserID := 3; dc_Username := "ana"; dc_ProjectID := 1;
     dc_EnvironmentIDs := [9; 0; 2; 9]%Z; dc_ApplicationIDs := []; dc_Capability := " MySQL "; dc_Actions := ["configmap:read"; " "; "application:read"];
     dc_JTI := ""; dc_Exp := 0; dc_Iat := 0 |}.
Definition sample_token : string := from_ok "" (GenerateDelegationToken "key" sample_delegation 0 (5 * second)%Z (Ok "id")).
Definition sample_issued : DelegationClaims := issued_claims sample_delegation "id" (bounded_ttl 0) (5 * second)%Z.

Lemma sample_token_issued : GenerateDelegationToken "key" sample_delegation 0 (5 * second)%Z (Ok "id") = Ok sample_token.
Proof. apply from_ok_spec. vm_compute. reflexivity. Qed.
Lemma sample_issued_signable : signable_delegation sample_issued.
Proof.
  assert (normalizedIDs [9; 0; 2; 9]%Z = [2; 9]%Z) as Hids by (vm_compute; reflexivity).
  split.
  - unfold is_u64. simpl. lia.
  - unfold is_u64. simpl. lia.
  - change (Forall is_u64 (normalizedIDs [9; 0; 2; 9]%Z)). rewrite Hids. repeat constructor; lia.
  - constructor.
  - vm_compute. intuition congruence.
  - vm_compute. intuition congruence.
  - vm_compute. reflexivity.
Qed.

Lemma delegation_round_trip_witness :
  ParseDelegationToken "key" sample_token (6 * second)%Z (7 * second)%Z = Ok sample_issued ∧
  AllowsEnvironment sample_issued 2 = true ∧ Allows sample_issued "configmap:read" = true.
Proof.
  destruct (delegation_round_trip "key" sample_delegation 0 (5 * second)%Z "id" sample_token
    sample_token_issued sample_issued_signable) as (Hparse & _ & _ & Hact & Henv & _).
  split_and!.
  - apply Hparse; vm_compute; intuition congruence.
  - apply Henv. right. split; [done|]. do 2 right. left.
  - apply Hact. split; [done|]. left.
Defined.

Definition sample_handler : AuthHandler :=
  {| ah_jwtSecret := "key"; ah_accessTokenTTL := (3600 * second)%Z; ah_refreshTokenTTL := (7 * 24 * 3600 * second)%Z;
     CheckPassword := String.eqb |}.
(** A clock that stands still. *)
Definition still_clock : Surroundings := {| fault _ := None; clock _ := (8 * second)%Z |}.

Lemma delegation_substitutes_login_witness :
  ∃ access refresh w', Refresh (H0 := still_clock) sample_handler sample_token "r1" sample_store_world = (Ok (access, refresh), w') ∧
    ∃ c, ParseToken "key" refresh (9 * second)%Z = Ok c ∧ jwt_UserID c = 3%Z.
Proof.
  destruct (delegation_substitutes_login (H0 := still_clock) sample_handler sample_delegation 0 (5 * second)%Z "id" sample_token "r1"
    sample_store_world sample_token_issued sample_issued_signable) as [Haccept _].
  - intros n. vm_compute. intuition congruence.
  - vm_compute. intuition congruence.
  - destruct Haccept as (_ & access & refresh & w' & Hr & Hc); [vm_compute; congruence|].
    exists access, refresh, w'. split; [exact Hr|]. apply Hc. vm_compute. congruence.
Defined.
