(* ===== verification/IntegrationSessions.v ===== *)
(** * Sessions of external consoles

    [internal/api/application/integration_session_handler.go]: a person hands off to the console of an
    application with a code, the console exchanges the code for a session, and the session signs
    delegations. A handler is the sequence of its steps, so that requests may run at the same time. The
    hashes of the code and of the session token are stored, the values themselves are not. Parsing and
    printing of URLs and of addresses ([net/url], [net]) are parameters. *)
From Stdlib Require Import ZArith Ascii String Lia.
From stdpp Require Import base sorting pretty numbers gmap strings list.
From S2P Require Import Prelude GoStrings GoBase64 GoPath Json JsonText ReleaseSpec ReleaseSnapshot Models PlatformModels Store PlatformStore Api AuditTrail Tokens Interleaving.

(** What the code reads of a URL; [URL_SetQuery key value] encodes the query again with one more value. *)
Class URLs := {
  URL : Type;
  URL_Parse : string → option URL;
  URL_Scheme : URL → string;
  URL_Host : URL → string;
  URL_Hostname : URL → string;
  URL_HasUser : URL → bool;
  URL_SetQuery : string → string → URL → URL;
  URL_String : URL → string;
  (** [ip := net.ParseIP(host); ip != nil && ip.IsLoopback()] *)
  LoopbackIP : string → bool
}.

Definition ApplicationEndpointAccessPublic := "public".
Definition ApplicationEndpointAccessProtectedConsole := "protected_console".
Definition integrationHandoffTTL : Z := 60 * second.
Definition integrationSessionTTL : Z := 8 * 3600 * second.

Definition integration_actions : list string :=
  ["application:read"; "configmap:read"; "configmap:write"; "application:restart"].

Record integrationHandoffRequest := { hr_EndpointID : Z; hr_RedirectURL : string }.
Record handoff := { ho_Code : string; ho_URL : string; ho_ExpiresIn : Z }.
Record exchange_answer := { xa_SessionToken : string; xa_ExpiresAt : Z }.
Record delegation_answer := { da_Token : string; da_ExpiresIn : Z }.

Section links.
Context `{URLs}.

Definition parseExternalLink (raw : string) : result URL :=
  let invalid := Err (EText "invalid external link") in
  match URL_Parse (trim_space raw) with
  | None => invalid
  | Some u =>
      if (bool_decide (URL_Scheme u ≠ "http") && bool_decide (URL_Scheme u ≠ "https")) || bool_decide (URL_Host u = "")
      then invalid else Ok u
  end.
Definition parseLoopbackRedirectURL (raw : string) : result URL :=
  match parseExternalLink raw with
  | Err _ => Err (EText "invalid local redirect URL")
  | Ok u =>
      if URL_HasUser u then Err (EText "invalid local redirect URL") else
      let host := trim_suffix (to_lower (URL_Hostname u)) "." in
      if bool_decide (host = "localhost") then Ok u
      else if LoopbackIP host then Ok u
      else Err (EText "redirect URL must use a loopback host")
  end.
Definition appendHandoffCode (raw code : string) : result string :=
  u ← parseExternalLink raw; Ok (URL_String (URL_SetQuery "handoff_code" code u)).
End links.

(** The credential of the header, without the space around it. *)
Definition bearerValue (header : string) : string := trim_space (default "" (bearer header)).

Section sessions.
Context `{Digests} `{Entropy} {C : Type} `{Surroundings} `{URLs}.
#[local] Abbreviation W := (World C).
#[local] Abbreviation M := (M W).
#[local] Abbreviation Handler := (handler W).

Definition opaqueHash (value : string) : string := hex_text (sha256 value).
Definition draw (size : Z) (f : string → string) : M string := λ w,
  (match random_bytes (w_tick w) size with Some raw => Ok (f raw) | None => Err (EText "crypto/rand") end, tick w).
Definition randomOpaqueValue (size : Z) : M string := draw size base64url.
Definition newDelegationID : M string := draw 16 hex_text.

(** ** The code *)

Definition new_session (code : string) (userID : Z) (app : Application) (at_ : Z) : IntegrationSession :=
  {| is_ID := 0; is_HandoffCodeHash := opaqueHash code; is_SessionTokenHash := None; is_UserID := userID;
     is_ProjectID := app_ProjectID app; is_ApplicationID := app_ID app; is_EnvironmentID := app_EnvironmentID app;
     is_Capability := ""; is_ActionsData := join "," integration_actions;
     is_HandoffExpiresAt := at_ + integrationHandoffTTL; is_HandoffUsedAt := None;
     is_ExpiresAt := at_ + integrationSessionTTL; is_RevokedAt := None |}.

(** Where the browser is sent: the endpoint, or a console on the machine of the person. *)
Definition handoff_target (endpoint : ApplicationEndpoint) (redirect : string) : result string :=
  if decide (trim_space redirect = "") then
    Ok ((if ae_TLSEnabled endpoint then "https" else "http") +:+ ("://" +:+ (ae_Domain endpoint +:+ ae_Path endpoint)))
  else
    match parseLoopbackRedirectURL redirect with
    | Ok u => Ok (URL_String u)
    | Err _ => Err (ValidationError "本地联调地址无效，仅支持 http(s)://localhost、127.0.0.1 或 ::1")
    end.

(** [body] is [None] when the request cannot be decoded. *)
Definition createIntegrationHandoff (param_id : string) (body : option integrationHandoffRequest) (userID : Z) :
    Handler handoff :=
  match ParseID param_id with
  | None => refuse (BadRequest "应用 ID 无效")
  | Some applicationID =>
      app ← step_or (GetApplication applicationID) (λ _, NotFound "应用不存在");
      match body with
      | None => refuse (BadRequest "应用入口必填")
      | Some req =>
          refuse_if (bool_decide (hr_EndpointID req = 0%Z)) (BadRequest "应用入口必填") ;;
          endpoint ← step_or (GetApplicationEndpoint (app_ID app) (hr_EndpointID req)) (λ _, NotFound "应用入口不存在");
          refuse_if (bool_decide (ae_AccessMode endpoint ≠ ApplicationEndpointAccessProtectedConsole))
            (ValidationError "该入口不是受保护控制台") ;;
          refuse_if (bool_decide (ae_Domain endpoint = "")) (ValidationError "应用入口尚未绑定域名") ;;
          endpointURL ← Finished (handoff_target endpoint (hr_RedirectURL req));
          at_ ← step_or now id;
          code ← step_or (randomOpaqueValue 32) (λ _, DBError "创建管理会话失败");
          _ ← step_or (CreateIntegrationSession (new_session code userID app at_)) (λ _, DBError "创建管理会话失败");
          handoffURL ← Finished (map_err (λ _, DBError "生成跳转地址失败") (appendHandoffCode endpointURL code));
          mret {| ho_Code := code; ho_URL := handoffURL; ho_ExpiresIn := integrationHandoffTTL / second |}
      end
  end.

(** ** The session *)

Definition ExchangeIntegrationSession (header : string) : Handler exchange_answer :=
  let code := bearerValue header in
  refuse_if (bool_decide (code = "")) (Unauthorized "未提供跳转码") ;;
  at_ ← step_or now id;
  token ← step_or (randomOpaqueValue 48) (λ _, DBError "交换管理会话失败");
  session ← step_or (Store_ExchangeIntegrationSession (opaqueHash code) (opaqueHash token) (at_ + integrationSessionTTL) at_)
    (λ _, Unauthorized "跳转码无效或已过期");
  mret {| xa_SessionToken := token; xa_ExpiresAt := is_ExpiresAt session |}.

(** ** The delegations of a session *)

Definition recordIntegrationDelegation (audited : bool) (requestID : string) (session : IntegrationSession)
    (capability : string) : Handler unit :=
  if audited then
    ignored (Service_Record
      {| ev_Action := "application.delegation.create"; ev_ResourceType := "application"; ev_ResourceID := is_ApplicationID session;
         ev_TargetName := ""; ev_Actor := {| act_Type := AuditActorUser; act_ID := is_UserID session; act_Name := "" |};
         ev_Source := AuditSourceDelegation; ev_Outcome := AuditOutcomeSucceeded; ev_Summary := "签发受控保护台应用委托";
         ev_RequestID := requestID; ev_OperationID := "";
         ev_Metadata := [("project_id", JInt (is_ProjectID session)); ("environment_id", JInt (is_EnvironmentID session));
                         ("capability", JStr capability)] |})
  else mret tt.

Definition session_claims (session : IntegrationSession) (capability : string) : DelegationClaims :=
  {| dc_Type := ""; dc_Audience := ""; dc_UserID := is_UserID session; dc_Username := ""; dc_ProjectID := is_ProjectID session;
     dc_EnvironmentIDs := [is_EnvironmentID session]; dc_ApplicationIDs := []; dc_Capability := capability;
     dc_Actions := split_char "," (is_ActionsData session); dc_JTI := ""; dc_Exp := 0; dc_Iat := 0 |}.

(** [capability] is the member of the body, [None] when the request cannot be decoded. *)
Definition createIntegrationDelegation (secret : string) (audited : bool) (header requestID : string) (capability : option string) :
    Handler delegation_answer :=
  let token := bearerValue header in
  refuse_if (bool_decide (token = "")) (Unauthorized "未提供管理会话") ;;
  at_ ← step_or now id;
  session ← step_or (GetActiveIntegrationSession (opaqueHash token) at_) (λ _, Unauthorized "管理会话无效或已过期");
  match capability with
  | None => refuse (ValidationError "capability 必填")
  | Some capability =>
      refuse_if (blank_text capability) (ValidationError "capability 必填") ;;
      match NormalizeApplicationCapabilities [capability] with
      | Err _ => refuse (ValidationError "capability 格式无效")
      | Ok normalized =>
          let capability := nth 0 normalized "" in
          drawn ← tried newDelegationID;
          issued ← step_or now id;
          delegation ← Finished (map_err (λ _, DBError "签发委托失败")
            (GenerateDelegationToken secret (session_claims session capability) MaxDelegationTTL issued drawn));
          recordIntegrationDelegation audited requestID session capability ;;
          mret {| da_Token := delegation; da_ExpiresIn := MaxDelegationTTL / second |}
      end
  end.
End sessions.

(** ** Properties *)

(** What never changes after the creation. *)
Definition identity_of (s : IntegrationSession) : IntegrationSession :=
  let '(Build_IntegrationSession i h _ u p a e c ac he _ _ r) := s in Build_IntegrationSession i h None u p a e c ac he None 0 r.

(** A session has a token exactly when its code was used, in time, and lives eight hours from then on. *)
Record session_ok (s : IntegrationSession) : Prop := {
  sok_token : is_Some (is_SessionTokenHash s) ↔ is_Some (is_HandoffUsedAt s);
  sok_life : ∀ t, is_HandoffUsedAt s = Some t →
    (t < is_HandoffExpiresAt s)%Z ∧ is_ExpiresAt s = (t + integrationSessionTTL)%Z
}.

#[export] Instance session_keyed : KeyedRow IntegrationSession.
Proof. by intros id []. Qed.

Section session_safety.
Context `{Digests} `{Entropy} {C : Type} `{Surroundings} `{URLs}.
#[local] Abbreviation W := (World C).

Definition sessions (w : W) : table IntegrationSession := tbl (w_db w).

Record sessions_sound (w : W) : Prop := {
  sso_keyed : keyed (sessions w);
  sso_codes : ∀ i j s s', t_rows (sessions w) !! i = Some s → t_rows (sessions w) !! j = Some s' →
    is_HandoffCodeHash s = is_HandoffCodeHash s' → i = j;
  sso_rows : ∀ i s, t_rows (sessions w) !! i = Some s → session_ok s
}.

(** A code that was used is never used again. *)
Record session_later (s s' : IntegrationSession) : Prop := {
  sl_identity : identity_of s' = identity_of s;
  sl_used : is_HandoffUsedAt s ≠ None → s' = s
}.
Definition sessions_later (t : table IntegrationSession) (w : W) : Prop :=
  ∀ i s, t_rows t !! i = Some s → ∃ s', t_rows (sessions w) !! i = Some s' ∧ session_later s s'.

Lemma session_later_refl s : session_later s s.
Proof. done. Qed.
Lemma session_later_trans s1 s2 s3 : session_later s1 s2 → session_later s2 s3 → session_later s1 s3.
Proof.
  intros [Hi Hu] [Hi' Hu']. constructor; [congruence|]. intros Hs. specialize (Hu Hs). subst s2. by apply Hu'.
Qed.
Lemma identity_code s s' : identity_of s' = identity_of s → is_HandoffCodeHash s' = is_HandoffCodeHash s.
Proof. destruct s, s'. by intros [=]. Qed.

(** The sessions a handler exchanged, as they are then and stay. *)
Definition exchanged_row (w : W) (s : IntegrationSession) : Prop :=
  t_rows (sessions w) !! is_ID s = Some s ∧ is_HandoffUsedAt s ≠ None.

Definition sessions_evolve (w w' : W) : Prop := sessions_sound w' ∧ sessions_later (sessions w) w'.

Inductive session_trades (w : W) (ks : list IntegrationSession) (w' : W) (ks' : list IntegrationSession) : Prop :=
  | no_trade : sessions_evolve w w' → ks' = ks → session_trades w ks w' ks'
  | exchange_trade s s' : sessions_evolve w w' → ks' = s' :: ks → is_ID s = is_ID s' →
      t_rows (sessions w) !! is_ID s = Some s → is_HandoffUsedAt s = None → exchanged_row w' s' → session_trades w ks w' ks'.

Record sessions_inv (t0 : table IntegrationSession) (w : W) (held : list IntegrationSession) : Prop := {
  si_sound : sessions_sound w;
  si_later : sessions_later t0 w;
  si_held : ∀ s, s ∈ held → exchanged_row w s;
  si_once : NoDup (is_ID <$> held)
}.

Lemma exchanged_row_later w w' s : sessions_later (sessions w) w' → exchanged_row w s → exchanged_row w' s.
Proof. intros Hl [Hs Hu]. destruct (Hl _ _ Hs) as (s' & Hs' & [_ Heq]). by rewrite (Heq Hu) in Hs'. Qed.
Lemma sessions_later_trans t w w' : sessions_later t w → sessions_later (sessions w) w' → sessions_later t w'.
Proof.
  intros Ha Hb i s Hi. destruct (Ha _ _ Hi) as (s1 & Ha' & L1), (Hb _ _ Ha') as (s2 & Hb' & L2).
  exists s2. split; [done | by eapply session_later_trans].
Qed.

Lemma sessions_inv_perm t0 w held held' : held ≡ₚ held' → sessions_inv t0 w held → sessions_inv t0 w held'.
Proof.
  intros Hp [Hs Hl Hh Ho]. constructor; [done..| |by rewrite <-Hp]. intros s Hin. apply Hh. by rewrite Hp.
Qed.
Lemma session_trades_frame t0 w ks w' ks' others :
  session_trades w ks w' ks' → sessions_inv t0 w (ks ++ others) → sessions_inv t0 w' (ks' ++ others).
Proof.
  intros Ht [Hs Hl Hh Ho]. destruct Ht as [[Hs' Hl'] ->|s s' [Hs' Hl'] -> Hid Hrow Hunused Hx].
  - constructor; [done|by eapply sessions_later_trans| |done]. intros s Hin. eapply exchanged_row_later; [done|by apply Hh].
  - constructor; [done|by eapply sessions_later_trans| |].
    + intros q [->|Hin]%elem_of_cons; [done|]. eapply exchanged_row_later; [done|by apply Hh].
    + cbn [app fmap list_fmap]. apply NoDup_cons. split; [|done].
      intros (q & Hq & Hin)%list_elem_of_fmap. destruct (Hh _ Hin) as [Hq' Hu]. rewrite <-Hid in Hq. rewrite <-Hq in Hq'. congruence.
Qed.

(** *** Steps *)

#[local] Abbreviation neutral := (neutral sessions_sound session_trades).
#[local] Abbreviation D := (disciplined sessions_sound session_trades).

Lemma same_sessions (w w' : W) : sessions w' = sessions w → sessions_sound w → sessions_evolve w w'.
Proof.
  intros Hs [Hk Hc Ho]. split; [by constructor; rewrite Hs|]. intros i s Hi. exists s. by rewrite Hs.
Qed.
Lemma untouched_neutral {A} (m : M W A) : (∀ w, sessions (m w).2 = sessions w) → neutral m.
Proof. intros Hm w ks Hw. apply no_trade; [by apply same_sessions | done]. Qed.

Lemma neutral_query {A} (f : DB → result A) : neutral (query f).
Proof. apply untouched_neutral. intros w. by destruct (query_cases f w) as [(e & ->)|(a & _ & ->)]. Qed.
Lemma neutral_now : neutral now.
Proof. by apply untouched_neutral. Qed.
Lemma neutral_draw size f : neutral (draw size f).
Proof. by apply untouched_neutral. Qed.
Lemma sessions_put_audits (t : table AuditLog) db : tbl (A := IntegrationSession) (put t db) = tbl db.
Proof. by destruct db as [? ? ? ? ? ? ? ? ? ? ? ? ? [] ?]. Qed.
Lemma neutral_record input : neutral (Service_Record input).
Proof.
  apply untouched_neutral. intros w. unfold Service_Record, mbind, M_bind, guard_not.
  destruct (_ || _); [done|]. unfold CreateAuditLog, create, mret, M_ret, now. cbv beta iota.
  set (f := λ db : DB, _). destruct (statement_cases f (tick w)) as [(e & ->)|(a & db & Hf & ->)]; [done|].
  subst f. cbv beta in Hf. apply result_bind_Ok in Hf as (p & _ & Hp). injection Hp as _ <-.
  unfold sessions. cbn. apply sessions_put_audits.
Qed.

Lemma neutral_create_session s : session_ok s → neutral (CreateIntegrationSession s).
Proof.
  intros Hs w ks Hw. apply no_trade; [|done]. unfold CreateIntegrationSession, create.
  set (f := λ db : DB, _). destruct (statement_cases f w) as [(e & ->)|(a & db & Hf & ->)]; [by apply same_sessions|].
  subst f. cbv beta in Hf. apply result_bind_Ok in Hf as ([b t] & Hc & Hp). injection Hp as _ <-. cbn [fst snd] in *.
  set (w' := set_db _ _). assert (sessions w' = t) as Ht by (unfold sessions; cbn; apply tbl_put).
  destruct Hw as [Hk Hcodes Hrows]. pose proof (λ i x, created_apart _ _ _ _ i x Hk Hc) as Hapart.
  destruct (keyed_create _ _ _ _ Hk Hc) as (Hk' & Hb & Hfresh & Hins). rewrite <-Ht in *.
  assert (is_HandoffCodeHash b = is_HandoffCodeHash s ∧ session_ok b) as [Hcode Hok].
  { subst b. by destruct Hs, s. }
  assert (∀ j x, t_rows (sessions w) !! j = Some x → is_HandoffCodeHash x ≠ is_HandoffCodeHash s) as Hne.
  { intros j x Hx Heq. apply Hapart in Hx. cbn in Hx. by rewrite Heq, bool_decide_eq_true_2 in Hx. }
  split.
  - constructor; [done| |].
    + intros i j x y. rewrite !Hins, !lookup_insert_Some. intros [[<- <-]|[_ Hi]] [[<- <-]|[_ Hj]] Hxy; [done| | |by eapply Hcodes].
      * by destruct (Hne _ _ Hj); congruence.
      * by destruct (Hne _ _ Hi); congruence.
    + intros i x. rewrite Hins, lookup_insert_Some. intros [[_ <-]|[_ Hi]]; [done | by eapply Hrows].
  - intros i x Hi. exists x. split; [|done]. rewrite Hins, lookup_insert_ne; [done|]. intros <-. congruence.
Qed.

Lemma new_session_ok code userID app at_ : session_ok (new_session code userID app at_).
Proof. constructor; simpl; [|done]. split; by intros [? ?]. Qed.

(** *** The exchange *)

Lemma handed_off_fields token expires at_ s :
  identity_of (handed_off token expires at_ s) = identity_of s ∧ is_ID (handed_off token expires at_ s) = is_ID s ∧
  is_SessionTokenHash (handed_off token expires at_ s) = Some token ∧
  is_HandoffUsedAt (handed_off token expires at_ s) = Some at_ ∧ is_ExpiresAt (handed_off token expires at_ s) = expires ∧
  is_HandoffCodeHash (handed_off token expires at_ s) = is_HandoffCodeHash s ∧
  is_HandoffExpiresAt (handed_off token expires at_ s) = is_HandoffExpiresAt s.
Proof. by destruct s. Qed.
Lemma open_handoff_spec code at_ s : open_handoff code at_ s = true ↔
  is_HandoffCodeHash s = code ∧ is_HandoffUsedAt s = None ∧ is_RevokedAt s = None ∧ (at_ < is_HandoffExpiresAt s)%Z.
Proof. unfold open_handoff. rewrite !andb_true_iff, !bool_decide_eq_true. tauto. Qed.

Definition exchanging (code token : string) (at_ : Z) :=
  t_update (open_handoff code at_) (handed_off token (at_ + integrationSessionTTL) at_).

Lemma exchanging_evolves (w w' : W) code token at_ :
  sessions_sound w → sessions w' = exchanging code token at_ (sessions w) → sessions_evolve w w'.
Proof.
  intros [Hk Hc Ho] Hw'.
  assert (∀ i s, t_rows (sessions w) !! i = Some s →
    let s' := if open_handoff code at_ s then handed_off token (at_ + integrationSessionTTL) at_ s else s in
    t_rows (sessions w') !! i = Some s' ∧ session_later s s' ∧ session_ok s') as Hrow.
  { intros i s Hi s'. rewrite Hw'. unfold exchanging. rewrite lookup_t_update, Hi. split; [done|]. subst s'.
    destruct (open_handoff code at_ s) eqn:Hop; [|by split; [|eapply Ho]].
    apply open_handoff_spec in Hop as (_ & Hu & _ & Hlt).
    destruct (handed_off_fields token (at_ + integrationSessionTTL) at_ s) as (Hid & _ & Ht & Hus & Hx & _ & Hh).
    split; [by constructor; [|rewrite Hu]|]. constructor; [by rewrite Ht, Hus|].
    intros t. rewrite Hus, Hx, Hh. by intros [= <-]. }
  assert (∀ i s', t_rows (sessions w') !! i = Some s' → ∃ s, t_rows (sessions w) !! i = Some s ∧ session_later s s' ∧ session_ok s') as Hback.
  { intros i s' Hi. assert (is_Some (t_rows (sessions w) !! i)) as [s Hs].
    { revert Hi. rewrite Hw'. unfold exchanging. rewrite lookup_t_update. destruct (t_rows (sessions w) !! i); [by eexists|done]. }
    destruct (Hrow _ _ Hs) as (Hs' & Hl & Hok). rewrite Hs' in Hi. injection Hi as <-. by exists s. }
  split.
  - constructor.
    + rewrite Hw'. apply keyed_update; [|done]. intros s. apply handed_off_fields.
    + intros i j x y Hi Hj Hxy. destruct (Hback _ _ Hi) as (x0 & Hx0 & [Hx1 _] & _), (Hback _ _ Hj) as (y0 & Hy0 & [Hy1 _] & _).
      eapply Hc; [done..|]. by rewrite <-(identity_code _ _ Hx1), <-(identity_code _ _ Hy1).
    + intros i s Hi. by destruct (Hback _ _ Hi) as (? & _ & _ & ?).
  - intros i s Hi. destruct (Hrow _ _ Hi) as (? & ? & _). by eexists.
Qed.

Lemma exchange_step (w : W) code token at_ :
  sessions_sound w →
  let '(r, w') := Store_ExchangeIntegrationSession code token (at_ + integrationSessionTTL) at_ w in
  sessions_evolve w w' ∧
  match r with
  | Err _ => True
  | Ok s' => ∃ s, t_rows (sessions w) !! is_ID s = Some s ∧ is_HandoffUsedAt s = None ∧ is_ID s = is_ID s' ∧
      exchanged_row w' s' ∧ is_HandoffCodeHash s' = code ∧ is_SessionTokenHash s' = Some token
  end.
Proof.
  intros Hw. unfold Store_ExchangeIntegrationSession. set (f := λ db : DB, _).
  destruct (statement_cases f w) as [(e & ->)|(s' & db & Hf & ->)]; [by split; [apply same_sessions|]|].
  subst f. cbv beta zeta in Hf. apply result_bind_Ok in Hf as (t & Ht & Hf). case_decide as Hn; [done|].
  apply result_bind_Ok in Hf as (q & Hq & Hp). injection Hp as -> <-.
  unfold t_update_unique in Ht. destruct (existsb _ _); [done|]. injection Ht as <-.
  set (w' := set_db _ _). assert (sessions w' = exchanging code token at_ (sessions w)) as Hw' by (unfold sessions; cbn; apply tbl_put).
  pose proof (exchanging_evolves w w' code token at_ Hw Hw') as [Hsound' Hlater]. split; [done|].
  rewrite tbl_put in Hq. apply first_row_select in Hq as [Hcode%bool_decide_eq_true Hin].
  change (s' ∈ t_list (exchanging code token at_ (sessions w))) in Hin. rewrite <-Hw' in Hin.
  apply keyed_elem in Hin; [|apply Hsound'].
  assert (∃ s, s ∈ select (open_handoff code at_) (sessions w)) as (s & [Hop Hs]%elem_of_select).
  { unfold sessions. destruct (select _ _) as [|s l]; [by simpl in Hn|]. exists s. left. }
  apply keyed_elem in Hs; [|apply Hw]. pose proof Hop as (Hc & Hu & _ & _)%open_handoff_spec.
  assert (t_rows (sessions w') !! row_id s = Some (handed_off token (at_ + integrationSessionTTL) at_ s)) as Hnew.
  { rewrite Hw'. unfold exchanging. rewrite lookup_t_update, Hs. cbn [fmap option_fmap option_map]. by rewrite Hop. }
  destruct (handed_off_fields token (at_ + integrationSessionTTL) at_ s) as (_ & Hid & Htok & Hus & _ & Hch & _).
  assert (row_id s' = row_id s) as Heq by (eapply (sso_codes _ Hsound'); [done..|congruence]).
  assert (s' = handed_off token (at_ + integrationSessionTTL) at_ s) as -> by congruence.
  exists s. split_and!; try done. split; [by rewrite Hid|by rewrite Hus].
Qed.

(** *** Requests that run at the same time *)

Inductive session_call :=
  | CallHandoff (param_id : string) (body : option integrationHandoffRequest) (userID : Z)
  | CallExchange (header : string)
  | CallDelegation (secret : string) (audited : bool) (header requestID : string) (capability : option string).
Inductive session_answer :=
  | AHandoff (a : handoff)
  | AExchange (a : exchange_answer)
  | ADelegation (a : delegation_answer).

(** The answer of a request, with the request. *)
Definition serve (c : session_call) : handler W (session_call * session_answer) :=
  a ← match c with
      | CallHandoff param_id body userID => a ← createIntegrationHandoff param_id body userID; mret (AHandoff a)
      | CallExchange header => a ← ExchangeIntegrationSession header; mret (AExchange a)
      | CallDelegation secret audited header requestID capability =>
          a ← createIntegrationDelegation secret audited header requestID capability; mret (ADelegation a)
      end;
  mret (c, a).

(** What a handler that exchanged a code holds. *)
Definition exchanged_by (header : string) (a : exchange_answer) (s : IntegrationSession) : Prop :=
  is_HandoffCodeHash s = opaqueHash (bearerValue header) ∧
  is_SessionTokenHash s = Some (opaqueHash (xa_SessionToken a)) ∧ xa_ExpiresAt a = is_ExpiresAt s.
Definition served (r : result (session_call * session_answer)) (ks : list IntegrationSession) : Prop :=
  match r with
  | Ok (CallExchange header, AExchange a) => ∃ s, s ∈ ks ∧ exchanged_by header a s
  | _ => True
  end.

Lemma handler_bind_assoc {A B E} (p : handler W A) (f : A → handler W B) (g : B → handler W E) ks post :
  D ks (p ≫= λ a, f a ≫= g) post → D ks ((p ≫= f) ≫= g) post.
Proof.
  revert ks. induction p as [r|X m rest IH]; intros ks.
  - by destruct r.
  - intros Hp w Hw. destruct (Hp w Hw) as (ks' & ? & ?). exists ks'. split; [done|]. by apply IH.
Qed.

Lemma D_handoff param_id body userID ks :
  D ks (serve (CallHandoff param_id body userID)) served.
Proof.
  unfold serve, createIntegrationHandoff. apply handler_bind_assoc.
  assert (∀ e ks, served (Err e) ks) as Herr by done.
  destruct (ParseID param_id) as [applicationID|]; [|done]. apply handler_bind_assoc.
  apply neutral_step_or; [apply neutral_query| |done]. intros app. destruct body as [req|]; [|done].
  apply handler_bind_assoc, disciplined_refuse_if; [|done]. intros _.
  apply handler_bind_assoc, neutral_step_or; [apply neutral_query| |done]. intros endpoint.
  apply handler_bind_assoc, disciplined_refuse_if; [|done]. intros _.
  apply handler_bind_assoc, disciplined_refuse_if; [|done]. intros _.
  apply handler_bind_assoc, disciplined_known; [|done]. intros url _.
  apply handler_bind_assoc, neutral_step_or; [apply neutral_now| |done]. intros at_.
  apply handler_bind_assoc, neutral_step_or; [apply neutral_draw| |done]. intros code.
  apply handler_bind_assoc, neutral_step_or; [apply neutral_create_session, new_session_ok| |done]. intros _.
  by apply handler_bind_assoc, disciplined_known.
Qed.

Lemma D_exchange header ks : D ks (serve (CallExchange header)) served.
Proof.
  unfold serve, ExchangeIntegrationSession. apply handler_bind_assoc.
  apply handler_bind_assoc, disciplined_refuse_if; [|done]. intros _.
  apply handler_bind_assoc, neutral_step_or; [apply neutral_now| |done]. intros at_.
  apply handler_bind_assoc, neutral_step_or; [apply neutral_draw| |done]. intros token.
  apply handler_bind_assoc. intros w Hw.
  pose proof (exchange_step w (opaqueHash (bearerValue header)) (opaqueHash token) at_ Hw) as Hstep.
  destruct (Store_ExchangeIntegrationSession _ _ _ _ w) as [[s'|e] w']; destruct Hstep as [Hev Hs].
  - destruct Hs as (s & Hrow & Hunused & Hid & Hx & Hcode & Htoken). exists (s' :: ks).
    split; [by eapply exchange_trade|]. exists s'. split; [left|]. by split_and!.
  - exists ks. by split; [apply no_trade|].
Qed.

Lemma D_delegation secret audited header requestID capability ks :
  D ks (serve (CallDelegation secret audited header requestID capability)) served.
Proof.
  unfold serve, createIntegrationDelegation. apply handler_bind_assoc.
  apply handler_bind_assoc, disciplined_refuse_if; [|done]. intros _.
  apply handler_bind_assoc, neutral_step_or; [apply neutral_now| |done]. intros at_.
  apply handler_bind_assoc, neutral_step_or; [apply neutral_query| |done]. intros session.
  destruct capability as [capability|]; [|done].
  apply handler_bind_assoc, disciplined_refuse_if; [|done]. intros _.
  destruct (NormalizeApplicationCapabilities _) as [normalized|]; [|done].
  apply handler_bind_assoc, neutral_tried; [apply neutral_draw|]. intros drawn.
  apply handler_bind_assoc, neutral_step_or; [apply neutral_now| |done]. intros issued.
  apply handler_bind_assoc, disciplined_known; [|done]. intros delegation _.
  unfold recordIntegrationDelegation. destruct audited; [|done].
  by apply handler_bind_assoc, neutral_ignored; [apply neutral_record|].
Qed.

Lemma D_serve c ks : D ks (serve c) served.
Proof. destruct c; [apply D_handoff | apply D_exchange | apply D_delegation]. Qed.

Lemma exchanged_apart (held : list (list IntegrationSession)) i j l l' s s' :
  NoDup (is_ID <$> concat held) → held !! i = Some l → held !! j = Some l' → i ≠ j → s ∈ l → s' ∈ l' → is_ID s ≠ is_ID s'.
Proof.
  revert i j. induction held as [|x held IH]; intros i j Hnd Hi Hj Hij Hs Hs'; [done|].
  cbn [concat] in Hnd. rewrite fmap_app, NoDup_app in Hnd. destruct Hnd as (_ & Hdisj & Hnd).
  assert (∀ k y q, held !! k = Some y → q ∈ y → is_ID q ∈ is_ID <$> concat held) as Hin.
  { intros k y q Hk Hq. apply list_elem_of_fmap_2, list_elem_of_In, in_concat. exists y.
    split; apply list_elem_of_In; [by eapply list_elem_of_lookup_2 | done]. }
  destruct i as [|i], j as [|j]; simplify_eq/=; [| |by apply (IH i j); auto].
  - intros Heq. apply (Hdisj (is_ID s)); [by apply list_elem_of_fmap_2|]. rewrite Heq. by eapply Hin.
  - intros Heq. apply (Hdisj (is_ID s')); [by apply list_elem_of_fmap_2|]. rewrite <-Heq. by eapply Hin.
Qed.

(** C25: a handoff code is exchanged once, and the session it opens is never taken over. However the
    requests that create, exchange and use codes are interleaved, and whichever statements fail: a
    session keeps its user, project, application, environment and actions, and once its code was used
    nothing of it changes; a code was used before it expired, and the session lives eight hours from
    then on; every answer that carries a session token belongs to one stored session, opened by the
    code of that request, and no other request ever gets a token for that code. *)
Theorem handoff_exchanged_once (calls : list session_call) (schedule : list nat) (w : W) (Hsound : sessions_sound w) :
  let '(pool, w') := interleave schedule (serve <$> calls) w in
  sessions_sound w' ∧ sessions_later (sessions w) w' ∧
  ∀ i header a, pool !! i = Some (Finished (Ok (CallExchange header, AExchange a))) →
    ∃ s, t_rows (sessions w') !! is_ID s = Some s ∧ session_ok s ∧ exchanged_by header a s ∧
      ∀ j header' a', j ≠ i → pool !! j = Some (Finished (Ok (CallExchange header', AExchange a'))) →
        opaqueHash (bearerValue header') ≠ opaqueHash (bearerValue header).
Proof.
  pose proof (interleave_invariant sessions_sound session_trades (sessions_inv (sessions w))) as Hrun.
  specialize (Hrun (λ _ _, si_sound _ _ _) (sessions_inv_perm _) (session_trades_frame _) _ served schedule (serve <$> calls) w).
  destruct (interleave schedule (serve <$> calls) w) as [pool w'].
  destruct Hrun as (held & Hpool & [Hs Hl Hh Ho]).
  { apply fresh_pool_ok.
    - rewrite Forall_fmap. apply Forall_true. intros c. apply D_serve.
    - constructor; [done| | |constructor].
      + intros i s Hi. by exists s.
      + intros s Hin. by apply not_elem_of_nil in Hin. }
  simpl in *. split_and!; [done..|]. intros i header a Hi.
  destruct (Forall2_lookup_r _ _ _ _ _ Hpool Hi) as (l & Hli & s & Hsl & Hby).
  assert (s ∈ concat held) as Hin.
  { apply list_elem_of_In, in_concat. exists l. split; apply list_elem_of_In; [by eapply list_elem_of_lookup_2 | done]. }
  destruct (Hh _ Hin) as [Hrow Hused]. exists s. split_and!; [done|by eapply sso_rows|done|].
  intros j header' a' Hji Hj Heq. destruct (Forall2_lookup_r _ _ _ _ _ Hpool Hj) as (l' & Hlj & s' & Hsl' & Hby').
  assert (s' ∈ concat held) as Hin'.
  { apply list_elem_of_In, in_concat. exists l'. split; apply list_elem_of_In; [by eapply list_elem_of_lookup_2 | done]. }
  apply (exchanged_apart _ _ _ _ _ _ _ Ho Hlj Hli Hji Hsl' Hsl).
  destruct (Hh _ Hin') as [Hrow' _]. eapply (sso_codes _ Hs); [done..|].
  destruct Hby as (-> & _), Hby' as (-> & _). done.
Qed.
End session_safety.

Lemma normalize_one value l :
  NormalizeApplicationCapabilities [value] = Ok l →
  l = [to_lower (trim_space value)] ∧ applicationCapabilityPattern (to_lower (trim_space value)) = true.
Proof.
  unfold NormalizeApplicationCapabilities. rewrite decide_False by (unfold maxApplicationCapabilities; simpl; lia).
  cbn [normalize_capabilities]. destruct (applicationCapabilityPattern _) eqn:Hp; [|done].
  cbn [mbind result_bind]. rewrite union_empty_r_L, elements_singleton. intros [= <-]. done.
Qed.

Section session_delegations.
Context `{Digests} `{Entropy} {C : Type} `{Surroundings} `{URLs}.

(** What a session may sign. A delegation comes from a session that exists, was exchanged for the
    token of the request, is not revoked and has not expired; it is signed for the user, the project,
    the one environment and the actions of the session, for ten minutes, with the capability the
    request named, in its normal form. The application of the session does not restrict it: it admits
    every application of the environment that has that capability. *)
Theorem session_delegation_scope secret audited header requestID capability (w w' : World C) a
    (Hrun : alone (createIntegrationDelegation secret audited header requestID capability) w = (Ok a, w')) :
  ∃ s jti issued, s ∈ t_list (sessions w) ∧ is_SessionTokenHash s = Some (opaqueHash (bearerValue header)) ∧
    is_RevokedAt s = None ∧ (clock (w_tick w) < is_ExpiresAt s)%Z ∧
    ∃ raw, capability = Some raw ∧
    let c := issued_claims (session_claims s (to_lower (trim_space raw))) jti MaxDelegationTTL issued in
    da_Token a = signPayload secret (encode_DelegationClaims c) ∧ delegation_valid c issued = true ∧
    dc_UserID c = is_UserID s ∧ dc_ProjectID c = is_ProjectID s ∧
    applicationCapabilityPattern (dc_Capability c) = true ∧
    (∀ id, AllowsEnvironment c id = true ↔ is_EnvironmentID s = 0%Z ∨ id ≠ 0%Z ∧ id = is_EnvironmentID s) ∧
    (∀ action, Allows c action = true ↔ action ≠ "" ∧ action ∈ trim_space <$> split_char "," (is_ActionsData s)) ∧
    (∀ id, AllowsApplication c id = true).
Proof.
  unfold createIntegrationDelegation in Hrun.
  apply alone_refuse_if_Ok in Hrun as [_ Hrun]. apply alone_step_or_Ok in Hrun as (at_ & w1 & Hnow & Hrun).
  injection Hnow as <- <-. apply alone_step_or_Ok in Hrun as (s & w2 & Hs & Hrun).
  apply first_Ok in Hs as (Ht & Hin & _). cbn [w_db tick] in Hin.
  apply andb_prop in Ht as [[Htoken%bool_decide_eq_true Hrev%bool_decide_eq_true]%andb_prop Hlive%bool_decide_eq_true].
  destruct capability as [raw|]; [|done]. apply alone_refuse_if_Ok in Hrun as [_ Hrun].
  destruct (NormalizeApplicationCapabilities [raw]) as [l|] eqn:Hn; [|done]. apply normalize_one in Hn as [-> Hpat].
  apply alone_tried_Ok in Hrun as (drawn & w3 & _ & Hrun). apply alone_step_or_Ok in Hrun as (issued & w4 & _ & Hrun).
  apply alone_known_Ok in Hrun as (token & Hg & Hrun). cbn [nth] in Hg.
  destruct (GenerateDelegationToken _ _ _ _ _) as [t|e] eqn:Hgen; [|done]. injection Hg as ->.
  apply GenerateDelegationToken_Ok in Hgen as (jti & _ & Hvalid & ->).
  exists s, jti, issued. split_and!; [done..|]. exists raw. split; [done|]. cbv zeta.
  change (bounded_ttl MaxDelegationTTL) with MaxDelegationTTL in *.
  split_and!.
  - assert (a = {| da_Token := signPayload secret (encode_DelegationClaims (issued_claims (session_claims s (to_lower (trim_space raw))) jti MaxDelegationTTL issued)); da_ExpiresIn := MaxDelegationTTL / second |}) as ->; [|done].
    revert Hrun. unfold recordIntegrationDelegation. destruct audited; cbn [mbind handler_mbind handler_bind ignored alone mret handler_ret].
    + destruct (Service_Record _ _) as [r w5]. cbn. by intros [= <- _].
    + by intros [= <- _].
  - done.
  - done.
  - done.
  - unfold delegation_valid in Hvalid. cbn [issued_claims dc_Capability session_claims]. by rewrite pattern_tag.
  - intros id. etransitivity; [apply normalized_admits|]. unfold admits. cbn [session_claims dc_EnvironmentIDs]. split.
    + intros [Hz|[Hid Hx%list_elem_of_singleton]]; [left; apply Hz; left | by right].
    + intros [Hz|[Hid ->]]; [left; by intros i ->%list_elem_of_singleton | right; split; [done|left]].
  - intros action. unfold Allows. rewrite <-elem_of_normalizedActions. cbn [issued_claims dc_Actions session_claims].
    rewrite existsb_exists. split.
    + intros (x & Hx%list_elem_of_In & <-%bool_decide_eq_true). done.
    + intros Ha. exists action. split; [by apply list_elem_of_In | by apply bool_decide_eq_true].
  - intros id. apply normalized_admits. left. intros i Hi. by apply not_elem_of_nil in Hi.
Qed.
End session_delegations.

(** ** A concrete run *)

#[local] Existing Instances calm sample_digests.
#[local] Instance session_entropy : Entropy := λ n size, Some (dec (Z.of_nat n)).
(** URLs of which nothing is parsed: the sample requests carry none. *)
#[local] Instance session_urls : URLs :=
  {| URL := unit; URL_Parse _ := None; URL_Scheme _ := ""; URL_Host _ := ""; URL_Hostname _ := ""; URL_HasUser _ := false;
     URL_SetQuery _ _ u := u; URL_String _ := ""; LoopbackIP _ := false |}.

Definition sample_session : IntegrationSession :=
  {| is_ID := 1; is_HandoffCodeHash := opaqueHash "code"; is_SessionTokenHash := None; is_UserID := 3; is_ProjectID := 1;
     is_ApplicationID := 7; is_EnvironmentID := 2; is_Capability := ""; is_ActionsData := join "," integration_actions;
     is_HandoffExpiresAt := integrationHandoffTTL; is_HandoffUsedAt := None; is_ExpiresAt := integrationSessionTTL;
     is_RevokedAt := None |}.
Definition session_world : World unit := Build_World (put (one_row sample_session) empty_db) 0 tt [].

Lemma session_world_sound : sessions_sound session_world.
Proof.
  assert (t_rows (sessions session_world) = {[1%Z := sample_session]}) as Hrows by reflexivity.
  constructor.
  - split; intros i s; rewrite Hrows; intros [<- <-]%lookup_singleton_Some; [done|]. change (t_next (sessions session_world)) with 2%Z. lia.
  - intros i j s s'. rewrite Hrows. intros [<- <-]%lookup_singleton_Some [<- <-]%lookup_singleton_Some. done.
  - intros i s. rewrite Hrows. intros [<- <-]%lookup_singleton_Some. constructor; [|done]. split; by intros [? ?].
Qed.

(** Two requests race for the same code, step by step; the second statement comes too late. *)
Definition racing : list session_call := [CallExchange "Bearer code"; CallExchange "Bearer code"].
Definition race := interleave [0; 1; 0; 1; 0; 1]%nat (serve (C := unit) <$> racing) session_world.
Lemma handoff_exchanged_once_witness :
  (∃ a, race.1 !! 0 = Some (Finished (Ok (CallExchange "Bearer code", AExchange a)))) ∧
  race.1 !! 1 = Some (Finished (Err (Unauthorized "跳转码无效或已过期"))) ∧ sessions_sound race.2.
Proof.
  pose proof (handoff_exchanged_once racing [0; 1; 0; 1; 0; 1] session_world session_world_sound) as Hrun.
  unfold race. revert Hrun. destruct (interleave _ _ _) as [pool w'] eqn:Hi. intros (Hs & _).
  split_and!; [|..|exact Hs]; change pool with (pool, w').1; rewrite <-Hi; vm_compute; [eexists|]; reflexivity.
Defined.

Definition active_session : IntegrationSession := handed_off (opaqueHash "token") integrationSessionTTL 0 sample_session.
Definition active_world : World unit := Build_World (put (one_row active_session) empty_db) 0 tt [].
Definition signed_run := alone (createIntegrationDelegation "key" false "Bearer token" "r1" (Some " MySQL ")) active_world.
Lemma session_delegation_scope_witness :
  ∃ a s c, signed_run.1 = Ok a ∧ s ∈ t_list (sessions active_world) ∧ da_Token a = signPayload "key" (encode_DelegationClaims c) ∧
    ∀ id, AllowsApplication c id = true.
Proof.
  assert (∃ a w', signed_run = (Ok a, w')) as (a & w' & Hrun) by (vm_compute; by do 2 eexists).
  destruct (session_delegation_scope "key" false "Bearer token" "r1" (Some " MySQL ") active_world w' a Hrun)
    as (s & jti & issued & Hs & _ & _ & _ & raw & _ & Htoken & _ & _ & _ & _ & _ & _ & Hall).
  exists a, s. eexists. rewrite Hrun. split_and!; [done|exact Hs|exact Htoken|exact Hall].
Defined.
