(* ===== verification/AgentRequests.v ===== *)
(** * What agents may ask for

    [internal/api/agent/agent_handler.go] and the request types of [agent_workload_handler.go],
    [agent_cleanup_handler.go] and [agent_registry_handler.go]: the validators, the documents of the
    parameters, and the effects that an approved operation has on the cluster and on the nodes. The [Site] keeps the
    cluster and, as a ghost, the effects performed so far, each with the operation in whose name it was. What
    a command over SSH prints is decided by [Nodes]; identifiers are drawn at random. *)
From Stdlib Require Import ZArith Ascii String Lia.
From stdpp Require Import base sorting pretty numbers gmap strings list.
From S2P Require Import Prelude GoStrings GoBase64 Json JsonText ReleaseSpec ReleaseSnapshot ReleaseValidation Security Models PlatformModels Cluster Store PlatformStore AuditTrail Tokens NodeMaintenance RegistryNodes Interleaving.

(** ** Validators *)

Definition alnum_any (c : ascii) : bool := alnum c || is_upper c.
(** [^first([inner]*first)?$] *)
Definition bounded_by (outer inner : ascii → bool) (s : string) : bool :=
  let l := chars s in
  forallb inner l && match head l, last l with Some a, Some b => outer a && outer b | _, _ => false end.
Definition validAgentName (value : string) : bool :=
  bool_decide (String.length value ≤ 63) && bounded_by alnum alnum_or_hyphen value.
Definition validAgentResourceName (value : string) : bool := validAgentName value.
Definition validAgentNamespace (value : string) : bool := validAgentName value.
Definition validAgentContainer (value : string) : bool :=
  bool_decide (String.length value ≤ 63)
  && bounded_by alnum_any (λ c, alnum_any c || bool_decide (c ∈ ["-"; "_"; "."]%char)) value.
Definition validAgentKind (value : string) : bool := bool_decide (value ∈ ["deployment"; "statefulset"; "daemonset"]).
Definition validAgentInvolvedKind (value : string) : bool := bool_decide (value ∈ ["pod"; "persistentvolumeclaim"]).
Definition validAgentRequestID (value : string) : bool :=
  bool_decide (1 ≤ String.length value ≤ 128)
  && forallb (λ c, alnum_any c || bool_decide (c ∈ ["_"; "-"]%char)) (chars value).
Definition validAgentOperationID (value : string) : bool := has_prefix "op_" value && validAgentRequestID value.
Definition port_text (s : string) : bool :=
  bool_decide (1 ≤ String.length s ≤ 5) && forallb (λ c, bool_decide (is_Some (digit_value c))) (chars s).
Definition validAgentRegistry (value : string) : bool :=
  let value := trim_space value in
  let host := bounded_by alnum_any (λ c, alnum_any c || bool_decide (c ∈ ["-"; "."]%char)) in
  bool_decide (1 ≤ String.length value ≤ 253) &&
  match split_char ":" value with
  | [h] => host h
  | [h; p] => host h && port_text p
  | _ => false
  end.
Definition validAgentOperationStatus (status : string) : bool :=
  bool_decide (status ∈ [AgentOperationPendingApproval; AgentOperationApproved; AgentOperationRejected;
    AgentOperationSucceeded; AgentOperationFailed; AgentOperationStale; AgentOperationExpired]).
Definition agentServerForNode (node : string) (servers : list Server) : option Server :=
  find_first (λ s, bool_decide (sv_K8sNodeName s = node)) servers.

(** ** Parameters *)

Record deploymentScaleRequest := { ds_Namespace : string; ds_Name : string; ds_Replicas : Z }.
Definition zero_deploymentScaleRequest : deploymentScaleRequest := {| ds_Namespace := ""; ds_Name := ""; ds_Replicas := 0 |}.
Definition encode_deploymentScaleRequest (r : deploymentScaleRequest) : json :=
  JObj (
    member string_codec "namespace" (ds_Namespace r) ++
    member string_codec "name" (ds_Name r) ++
    member i32_codec "replicas" (ds_Replicas r) ++ []).
Definition decode_deploymentScaleRequest (r : deploymentScaleRequest) (j : json) : option deploymentScaleRequest :=
  match j with
  | JNull => Some r
  | JObj ms =>
      vNamespace ← get string_codec "namespace" (ds_Namespace r) ms;
      vName ← get string_codec "name" (ds_Name r) ms;
      vReplicas ← get i32_codec "replicas" (ds_Replicas r) ms;
      Some {| ds_Namespace := vNamespace; ds_Name := vName; ds_Replicas := vReplicas |}
  | _ => None
  end.

Record maintenanceCleanupRequest := { mr_AlertID : Z; mr_Recipe : string }.
Definition decode_maintenanceCleanupRequest (j : json) : option maintenanceCleanupRequest :=
  match j with
  | JNull => Some {| mr_AlertID := 0; mr_Recipe := "" |}
  | JObj ms =>
      vAlertID ← get u64_codec "alert_id" 0%Z ms;
      vRecipe ← get string_codec "recipe" "" ms;
      Some {| mr_AlertID := vAlertID; mr_Recipe := vRecipe |}
  | _ => None
  end.

Record maintenanceCleanupParameters := { mp_AlertID : Z; mp_Node : string; mp_Recipe : string }.
Definition zero_maintenanceCleanupParameters : maintenanceCleanupParameters :=
  {| mp_AlertID := 0; mp_Node := ""; mp_Recipe := "" |}.
Definition encode_maintenanceCleanupParameters (r : maintenanceCleanupParameters) : json :=
  JObj (
    member u64_codec "alert_id" (mp_AlertID r) ++
    member string_codec "node" (mp_Node r) ++
    member string_codec "recipe" (mp_Recipe r) ++ []).
Definition decode_maintenanceCleanupParameters (r : maintenanceCleanupParameters) (j : json) :
    option maintenanceCleanupParameters :=
  match j with
  | JNull => Some r
  | JObj ms =>
      vAlertID ← get u64_codec "alert_id" (mp_AlertID r) ms;
      vNode ← get string_codec "node" (mp_Node r) ms;
      vRecipe ← get string_codec "recipe" (mp_Recipe r) ms;
      Some {| mp_AlertID := vAlertID; mp_Node := vNode; mp_Recipe := vRecipe |}
  | _ => None
  end.

Record registryNodeRequest := { rn_Node : string; rn_Registry : string; rn_VerificationImage : string }.
Definition zero_registryNodeRequest : registryNodeRequest :=
  {| rn_Node := ""; rn_Registry := ""; rn_VerificationImage := "" |}.
Definition encode_registryNodeRequest (r : registryNodeRequest) : json :=
  JObj (
    member string_codec "node" (rn_Node r) ++
    member string_codec "registry" (rn_Registry r) ++
    omit_empty string_codec (empty_str (rn_VerificationImage r)) "verification_image" (rn_VerificationImage r) ++ []).
Definition decode_registryNodeRequest (r : registryNodeRequest) (j : json) : option registryNodeRequest :=
  match j with
  | JNull => Some r
  | JObj ms =>
      vNode ← get string_codec "node" (rn_Node r) ms;
      vRegistry ← get string_codec "registry" (rn_Registry r) ms;
      vVerificationImage ← get string_codec "verification_image" (rn_VerificationImage r) ms;
      Some {| rn_Node := vNode; rn_Registry := vRegistry; rn_VerificationImage := vVerificationImage |}
  | _ => None
  end.

(** [decoder.DisallowUnknownFields()] on a struct whose fields are not structs *)
Definition only_fields (names : list string) (j : json) : bool :=
  match j with
  | JObj ms => forallb (λ kv : string * json, existsb (λ name, same_key name kv.1) names) ms
  | _ => true
  end.

(** ** Effects *)

(** A deployment written back, or a command run on a node within a time. *)
Inductive effect :=
  | Scaled (namespace : string) (deployment : LiveDeployment)
  | Ran (server : Server) (timeout : Z) (command : string).

Record Site `{K8sLibrary} := { si_cluster : Cluster; si_performed : list (string * effect) }.

(** Output and error of [SSHExecutor.Execute], at each moment. *)
Class Nodes := ssh_Execute : nat → Z → Server → string → string * option goerr.

Section effects.
Context `{K8sLibrary} `{!APIServer} `{Surroundings} `{Nodes} `{Entropy}.
#[local] Abbreviation M := (M (World Site)).

Definition on_cluster {A} (m : Prelude.M Cluster A) : M A := λ w,
  let '(a, c) := m (si_cluster (w_cluster w)) in
  (a, set_cluster {| si_cluster := c; si_performed := si_performed (w_cluster w) |} w).
Definition performing (operationID : string) (e : effect) (w : World Site) : World Site :=
  set_cluster {| si_cluster := si_cluster (w_cluster w); si_performed := si_performed (w_cluster w) ++ [(operationID, e)] |} w.

(** [Deployments(namespace).Update(ctx, deployment, ...)] *)
Definition update_deployment (operationID namespace : string) (ctx : Context) (d : LiveDeployment) : M unit :=
  modify (performing operationID (Scaled namespace d)) ;;
  on_cluster (call ctx (UpdateDeployment d)).
Definition run_command (operationID : string) (timeout : Z) (server : Server) (command : string) : M (string * option goerr) :=
  λ w, (Ok (ssh_Execute (w_tick w) timeout server command), tick (performing operationID (Ran server timeout command) w)).

(** [CleanupService.Execute] *)
Definition CleanupService_Execute (operationID : string) (server : Server) (recipe : string) : M (string * option goerr) :=
  if negb (ValidCleanupRecipe recipe) then mret ("", Some (EText "node or cleanup recipe unavailable")) else
  output ← run_command operationID (120 * second) server (cleanupCommand recipe);
  let summary := cleanOutput output.1 512 in
  match output.2 with
  | Some e => mret (summary, Some (EWrap "maintenance cleanup failed: " e ""))
  | None => mret (summary, None)
  end.
(** [NodePullService.Pull] *)
Definition NodePullService_Pull (operationID : string) (server : Server) (image : string) : M unit :=
  guard_not (blank_text image) (EText "node or verification image unavailable") ;;
  output ← run_command operationID (120 * second) server (PullCommand image);
  match output.2 with
  | Some e =>
      let detail := trim_space output.1 in
      throw (EWrap "verification image pull failed: " e (if decide (detail = "") then "" else ": " +:+ detail))
  | None => mret tt
  end.

Definition newAgentOperationID : M string := λ w,
  (Ok match random_bytes (w_tick w) 18 with
      | Some b => "op_" +:+ base64url b
      | None => "op_" +:+ dec (clock (w_tick w))
      end, tick w).
End effects.

(** ** Summaries: [agent_operation_handler.go] *)

Definition agentOperationErrorSummaryLimit : Z := 512.
Definition agentOperationErrorSummary (prefix : string) (err : option goerr) : string :=
  match err with
  | None => prefix
  | Some e =>
      let detail := trim_space (Redact (err_text e)) in
      if decide (detail = "") then prefix
      else Truncate (prefix +:+ (": " +:+ detail)) (agentOperationErrorSummaryLimit - 3)
  end.
Definition maintenanceCleanupFailureSummary (output : string) (executeErr : goerr) : string :=
  let detail := trim_space output in
  if decide (detail = "") then agentOperationErrorSummary "执行固定清理配方失败" (Some executeErr)
  else agentOperationErrorSummary "执行固定清理配方失败" (Some (EWrap (detail +:+ ": ") executeErr "")).

(** ** Reading the documents back *)

Lemma decode_encode_scale r : is_i32 (ds_Replicas r) →
  decode_deploymentScaleRequest zero_deploymentScaleRequest (encode_deploymentScaleRequest r) = Some r.
Proof. intros Hr. unfold decode_deploymentScaleRequest, encode_deploymentScaleRequest. struct_round_trip r. Qed.
Lemma decode_encode_cleanup p : is_u64 (mp_AlertID p) →
  decode_maintenanceCleanupParameters zero_maintenanceCleanupParameters (encode_maintenanceCleanupParameters p) = Some p.
Proof. intros Hp. unfold decode_maintenanceCleanupParameters, encode_maintenanceCleanupParameters. struct_round_trip p. Qed.
Lemma decode_encode_registry r :
  decode_registryNodeRequest zero_registryNodeRequest (encode_registryNodeRequest r) = Some r.
Proof. unfold decode_registryNodeRequest, encode_registryNodeRequest. struct_round_trip r. Qed.

(** ** Bounds *)

Lemma Truncate_bounded value limit : (Z.of_nat (String.length (Truncate value limit)) ≤ Z.max 0 limit + 3)%Z.
Proof.
  unfold Truncate. case_bool_decide; [lia|]. rewrite length_str_app, length_take_str. simpl. lia.
Qed.

Definition summary_fits (s : string) : Prop := String.length s ≤ 512.
Lemma errorSummary_fits prefix err : String.length prefix ≤ 512 → summary_fits (agentOperationErrorSummary prefix err).
Proof.
  intros Hp. unfold agentOperationErrorSummary, summary_fits. destruct err as [e|]; [|done]. cbv zeta. case_decide; [done|].
  pose proof (Truncate_bounded (prefix +:+ (": " +:+ trim_space (Redact (err_text e)))) (agentOperationErrorSummaryLimit - 3)) as Hb.
  change (Z.max 0 (agentOperationErrorSummaryLimit - 3) + 3)%Z with 512%Z in Hb. lia.
Qed.
Lemma failureSummary_fits output e : summary_fits (maintenanceCleanupFailureSummary output e).
Proof. unfold maintenanceCleanupFailureSummary. cbv zeta. case_decide; apply errorSummary_fits; vm_compute; lia. Qed.
