(* ===== verification/RegistryStore.v ===== *)
(** * Image registries and node mirrors in the database

    [internal/store/registry_repository.go]: the image registries with the projects they are
    authorised for, the registry mirrors of the nodes and their deployment states. *)
From Stdlib Require Import ZArith Ascii String.
From stdpp Require Import base sorting pretty numbers gmap strings list.
From S2P Require Import Prelude GoStrings Json Models Store.

Section registries.
Context {C : Type} `{Surroundings}.
#[local] Abbreviation M := (M (World C)).

(** *** Image registries *)

(** The projects, once each, all of which must exist. *)
Fixpoint imageRegistryProjects (projects : table Project) (seen : gset Z) (projectIDs : list Z) : result (list Z) :=
  match projectIDs with
  | [] => Ok []
  | projectID :: projectIDs =>
      if decide (projectID = 0%Z) then Err (EText "项目 ID 无效")
      else if decide (projectID ∈ seen) then imageRegistryProjects projects seen projectIDs
      else
        project ← first_row (select (λ p, bool_decide (pr_ID p = projectID)) projects);
        rest ← imageRegistryProjects projects ({[projectID]} ∪ seen) projectIDs;
        Ok (pr_ID project :: rest)
  end.

Definition set_projects (projects : list Z) (r : ImageRegistry) : ImageRegistry :=
  let '(Build_ImageRegistry i n ep vi at_ u cr e lv ls le cb mr _) := r in
  Build_ImageRegistry i n ep vi at_ u cr e lv ls le cb mr projects.
Definition set_verification (status detail : string) (verifiedAt : Z) (r : ImageRegistry) : ImageRegistry :=
  let '(Build_ImageRegistry i n ep vi at_ u cr e _ _ _ cb mr ps) := r in
  Build_ImageRegistry i n ep vi at_ u cr e (Some verifiedAt) status detail cb mr ps.
Definition set_default_registry (registry : option Z) (p : Project) : Project :=
  let '(Build_Project i n d _ o) := p in Build_Project i n d registry o.

Definition CreateImageRegistry (registry : ImageRegistry) (projectIDs : list Z) : M ImageRegistry :=
  statement (λ db,
    projects ← imageRegistryProjects (tbl db) ∅ projectIDs;
    p ← t_create (set_projects projects registry) (tbl db);
    Ok (p.1, put p.2 db)).

(** The projects that lose their default: those that use the registry and may not any more. *)
Definition loses_default (registry : ImageRegistry) (projectIDs : list Z) (p : Project) : bool :=
  bool_decide (pr_DefaultImageRegistryID p = Some (ireg_ID registry)) &&
  (if ireg_Enabled registry && negb (empty_list projectIDs) then bool_decide (pr_ID p ∉ projectIDs) else true).
Definition UpdateImageRegistry (registry : ImageRegistry) (projectIDs : list Z) : M unit :=
  statement (λ db,
    projects ← imageRegistryProjects (tbl db) ∅ projectIDs;
    t ← t_save (set_projects projects registry) (tbl db);
    let db := put t db in
    Ok (tt, put (t_update (loses_default registry projectIDs) (set_default_registry None) (tbl db)) db)).

Definition GetImageRegistry (id : Z) : M ImageRegistry := first (λ r, bool_decide (ireg_ID r = id)).
Definition GetImageRegistryByEndpoint (endpoint : string) : M ImageRegistry :=
  first (λ r, bool_decide (ireg_Endpoint r = endpoint)).
Definition GetImageRegistryForProject (id projectID : Z) : M ImageRegistry :=
  first (λ r, bool_decide (ireg_ID r = id) && bool_decide (projectID ∈ ireg_Projects r)).
Definition UpdateImageRegistryVerification (id : Z) (status detail : string) (verifiedAt : Z) : M unit :=
  execute (λ t, Ok (t_update (λ r, bool_decide (ireg_ID r = id)) (set_verification status detail verifiedAt) t)).
Definition CountImageRegistryReleases (id : Z) : M nat :=
  l ← find (λ r, bool_decide (rel_ImageRegistryID r = Some id)); mret (length l).
Definition DeleteImageRegistry (id : Z) : M unit :=
  execute (λ t, Ok (t_delete (λ r, bool_decide (ireg_ID r = id)) t)).

(** *** Node mirrors *)

Definition zero_server : Server :=
  {| sv_ID := 0; sv_Name := ""; sv_Host := ""; sv_ClusterRole := ""; sv_K8sNodeName := ""; sv_SSHAuthType := "";
     sv_SSHKey := ""; sv_CreatedAt := 0 |}.
Definition set_server (server : Server) (s : NodeRegistryMirrorNode) : NodeRegistryMirrorNode :=
  let '(Build_NodeRegistryMirrorNode i m sv st d ap _) := s in Build_NodeRegistryMirrorNode i m sv st d ap server.
Definition set_created_at (at_ : Z) (m : NodeRegistryMirror) : NodeRegistryMirror :=
  let '(Build_NodeRegistryMirror id n r e vi va vs ve aa as_ ae u c i en cb mr ca ns) := m in
  Build_NodeRegistryMirror id n r e vi va vs ve aa as_ ae u c i en cb mr (if decide (ca = 0%Z) then at_ else ca) ns.
Definition set_statuses (statuses : list NodeRegistryMirrorNode) (m : NodeRegistryMirror) : NodeRegistryMirror :=
  let '(Build_NodeRegistryMirror id n r e vi va vs ve aa as_ ae u c i en cb mr ca _) := m in
  Build_NodeRegistryMirror id n r e vi va vs ve aa as_ ae u c i en cb mr ca statuses.
Definition set_mirror_verification (status detail : string) (verifiedAt : Z) (m : NodeRegistryMirror) : NodeRegistryMirror :=
  let '(Build_NodeRegistryMirror id n r e vi _ _ _ aa as_ ae u c i en cb mr ca ns) := m in
  Build_NodeRegistryMirror id n r e vi (Some verifiedAt) status detail aa as_ ae u c i en cb mr ca ns.
(** The row with its node statuses and their servers; a deleted server reads as the zero one. *)
Definition preload_statuses (db : DB) (m : NodeRegistryMirror) : NodeRegistryMirror :=
  set_statuses ((λ s, set_server (default zero_server (t_rows (tbl db) !! mn_ServerID s)) s) <$>
    select (λ s, bool_decide (mn_MirrorID s = nm_ID m)) (tbl db)) m.

Definition latest_first (a b : NodeRegistryMirror) : Prop := (nm_CreatedAt b ≤ nm_CreatedAt a)%Z.
#[export] Instance latest_first_dec a b : Decision (latest_first a b).
Proof. unfold latest_first. apply _. Defined.

Definition CreateNodeRegistryMirror (mirror : NodeRegistryMirror) : M NodeRegistryMirror :=
  at_ ← now; create (set_created_at at_ mirror).
Definition GetNodeRegistryMirror (id : Z) : M NodeRegistryMirror :=
  query (λ db, m ← first_row (select (λ m, bool_decide (nm_ID m = id)) (tbl db)); Ok (preload_statuses db m)).
Definition GetNodeRegistryMirrorByRegistry (registry : string) : M NodeRegistryMirror :=
  query (λ db, m ← first_row (select (λ m, bool_decide (nm_Registry m = registry)) (tbl db)); Ok (preload_statuses db m)).
Definition ListNodeRegistryMirrors : M (list NodeRegistryMirror) :=
  query (λ db, Ok (preload_statuses db <$> merge_sort latest_first (t_list (tbl db)))).
(** [Save] also writes the statuses that were loaded with the mirror: one that is gone is inserted again, one
    that is stored keeps its columns. *)
Fixpoint restore_statuses (statuses : list NodeRegistryMirrorNode) (t : table NodeRegistryMirrorNode) : result (table NodeRegistryMirrorNode) :=
  match statuses with
  | [] => Ok t
  | s :: statuses =>
      if bool_decide (is_Some (t_rows t !! mn_ID s)) then restore_statuses statuses t
      else t ← t_save s t; restore_statuses statuses t
  end.
Definition UpdateNodeRegistryMirror (mirror : NodeRegistryMirror) : M unit :=
  statement (λ db,
    t ← t_save (set_statuses [] mirror) (tbl db);
    let db := put t db in
    statuses ← restore_statuses (nm_NodeStatuses mirror) (tbl db);
    Ok (tt, put statuses db)).
Definition UpdateNodeRegistryMirrorVerification (id : Z) (status detail : string) (verifiedAt : Z) : M unit :=
  execute (λ t, Ok (t_update (λ m, bool_decide (nm_ID m = id)) (set_mirror_verification status detail verifiedAt) t)).
Definition DeleteNodeRegistryMirror (id : Z) : M unit :=
  statement (λ db,
    let db := put (t_delete (λ s, bool_decide (mn_MirrorID s = id)) (tbl db)) db in
    Ok (tt, put (t_delete (λ m, bool_decide (nm_ID m = id)) (tbl db)) db)).

(** [Where(...).Assign(status).FirstOrCreate(...)]: the columns of [status] that are not zero are
    assigned to the row found; a new row takes them all. *)
Definition assign_status (status s : NodeRegistryMirrorNode) : NodeRegistryMirrorNode :=
  let '(Build_NodeRegistryMirrorNode i m sv st d ap server) := s in
  Build_NodeRegistryMirrorNode i m sv (or_default st (mn_Status status)) (or_default d (mn_Detail status))
    (match mn_AppliedAt status with Some at_ => Some at_ | None => ap end) server.
Definition UpsertNodeRegistryMirrorStatus (status : NodeRegistryMirrorNode) : M unit :=
  statement (λ db,
    match first_row (select (clash status) (tbl db)) with
    | Ok found => Ok (tt, put (t_update (λ s, bool_decide (mn_ID s = mn_ID found)) (assign_status status) (tbl db)) db)
    | Err _ => p ← t_create status (tbl db); Ok (tt, put p.2 db)
    end).
End registries.

(** ** Properties *)

(** The default registry of a project is enabled and authorised for it. *)
Definition defaults_authorised (db : DB) : Prop :=
  ∀ i p r, t_rows (tbl db) !! i = Some p → pr_DefaultImageRegistryID p = Some r →
    ∃ registry, t_rows (tbl db) !! r = Some registry ∧ ireg_Enabled registry = true ∧ i ∈ ireg_Projects registry.

Record registries_ok (db : DB) : Prop := {
  rok_projects : keyed (tbl (A := Project) db);
  rok_registries : keyed (tbl (A := ImageRegistry) db);
  rok_defaults : defaults_authorised db
}.

#[export] Instance image_registry_keyed : KeyedRow ImageRegistry.
Proof. by intros id []. Qed.

Lemma tbl_put_registries_projects (t : table ImageRegistry) db : tbl (A := Project) (put t db) = tbl db.
Proof. by destruct db. Qed.
Lemma tbl_put_projects_registries (t : table Project) db : tbl (A := ImageRegistry) (put t db) = tbl db.
Proof. by destruct db. Qed.

Lemma imageRegistryProjects_elem projects seen ids out x :
  imageRegistryProjects projects seen ids = Ok out → x ∈ ids → x ∈ seen ∨ x ∈ out.
Proof.
  revert seen out. induction ids as [|i ids IH]; intros seen out Hout Hx; [by apply not_elem_of_nil in Hx|].
  simpl in Hout. case_decide; [done|]. case_decide as Hs.
  - apply elem_of_cons in Hx as [->|Hx]; [by left | by eapply IH].
  - apply result_bind_Ok in Hout as (p & [Hp%bool_decide_eq_true _]%first_row_select & (rest & Hr & [= <-])%result_bind_Ok).
    apply elem_of_cons in Hx as [->|Hx]; [right; rewrite Hp; left|].
    destruct (IH _ _ Hr Hx) as [[Hi%elem_of_singleton|?]%elem_of_union|?]; [|by left|right; by right].
    right. rewrite Hp, Hi. left.
Qed.

Lemma keeps_CreateImageRegistry {C} `{Surroundings} registry projectIDs :
  keeps (λ w : World C, registries_ok (w_db w)) (CreateImageRegistry registry projectIDs).
Proof.
  apply keeps_statement. intros db a db' [Hp Hr Hd] (ps & _ & ([b t] & Hc & Hx)%result_bind_Ok)%result_bind_Ok.
  assert (db' = put t db) as -> by by injection Hx as _ <-.
  apply keyed_create in Hc as (Hk & _ & Hfree & Hrows); [|done]. split.
  - by rewrite tbl_put_registries_projects.
  - by rewrite tbl_put.
  - intros i p r. rewrite tbl_put_registries_projects, tbl_put, Hrows. intros Hi Hdef.
    destruct (Hd i p r Hi Hdef) as (reg & Hreg & ?). exists reg. split; [|done].
    rewrite lookup_insert_ne; [done|]. intros <-. congruence.
Qed.

Lemma loses_default_spec registry projectIDs p :
  loses_default registry projectIDs p = false → pr_DefaultImageRegistryID p = Some (ireg_ID registry) →
  ireg_Enabled registry = true ∧ pr_ID p ∈ projectIDs.
Proof.
  unfold loses_default. intros Hl Hd. rewrite bool_decide_true in Hl by done. simpl in Hl.
  destruct (ireg_Enabled registry && negb (empty_list projectIDs)) eqn:He; [|done].
  apply andb_prop in He as [He _]. split; [done|]. apply bool_decide_eq_false in Hl. by apply dec_stable.
Qed.

Lemma keeps_UpdateImageRegistry {C} `{Surroundings} registry projectIDs :
  keeps (λ w : World C, registries_ok (w_db w)) (UpdateImageRegistry registry projectIDs).
Proof.
  apply keeps_statement. intros db a db' [Hp Hr Hd] (ps & Hps & (t & Hs & Hx)%result_bind_Ok)%result_bind_Ok.
  injection Hx as _ <-. apply keyed_save in Hs as [Hk Hrows]; [|done].
  assert (Hid : row_id (set_projects ps registry) = ireg_ID registry) by by destruct registry.
  rewrite Hid in Hrows. split.
  - rewrite tbl_put, tbl_put_registries_projects. apply keyed_update; [by intros [] | done].
  - by rewrite tbl_put_projects_registries, tbl_put.
  - intros i p r. rewrite tbl_put, tbl_put_registries_projects, tbl_put_projects_registries, tbl_put, lookup_t_update.
    intros (q & Hq & ->)%fmap_Some Hdef. destruct (loses_default registry projectIDs q) eqn:Hl; [by destruct q|].
    pose proof (keyed_id _ Hp _ _ Hq) as Hqi. simpl in Hqi. rewrite Hrows.
    destruct (decide (r = ireg_ID registry)) as [->|Hne].
    + destruct (loses_default_spec _ _ _ Hl Hdef) as [He Hin].
      exists (set_projects ps registry). rewrite lookup_insert_eq. rewrite <-Hqi.
      destruct (imageRegistryProjects_elem _ _ _ _ _ Hps Hin) as [?|?]; [set_solver|]. by destruct registry.
    + rewrite lookup_insert_ne by done. by eapply Hd.
Qed.

(** A project never keeps a default registry it may not use. Whichever statements fail, creating
    a registry and updating one (disabling it, or changing the projects it is authorised for) leave
    every project's default registry stored, enabled and authorised for that project. *)
Theorem default_registry_authorised {C} `{Surroundings} registry projectIDs (w : World C)
    (Hok : registries_ok (w_db w)) :
  registries_ok (w_db (CreateImageRegistry registry projectIDs w).2) ∧
  registries_ok (w_db (UpdateImageRegistry registry projectIDs w).2).
Proof. split; [by apply keeps_CreateImageRegistry | by apply keeps_UpdateImageRegistry]. Qed.

#[local] Existing Instance calm.

Definition sample_registry : ImageRegistry :=
  {| ireg_ID := 1; ireg_Name := "main"; ireg_Endpoint := "registry.local"; ireg_VerificationImage := "";
     ireg_AuthType := "basic"; ireg_Username := "robot"; ireg_Credential := "sealed"; ireg_Enabled := true;
     ireg_LastVerifiedAt := None; ireg_LastVerifyStatus := ""; ireg_LastVerifyError := "";
     ireg_CreatedBy := 1; ireg_ManagedRegistryID := None; ireg_Projects := [1%Z] |}.
Definition sample_registry_world : World unit :=
  {| w_db := put (one_row sample_registry) (put (one_row (set_default_registry (Some 1%Z) (app_Project sample_application))) empty_db);
     w_tick := 0; w_cluster := tt; w_trace := [] |}.

Lemma default_registry_authorised_witness :
  registries_ok (w_db (UpdateImageRegistry sample_registry [] sample_registry_world).2) ∧
  pr_DefaultImageRegistryID <$>
    (t_rows (tbl (w_db (UpdateImageRegistry sample_registry [] sample_registry_world).2)) !! 1%Z) = Some None.
Proof.
  split; [|vm_compute; reflexivity].
  refine (proj2 (default_registry_authorised sample_registry [] sample_registry_world _)).
  split; [apply keyed_one_row | apply keyed_one_row |]. intros i p r Hi Hd.
  apply lookup_one_row in Hi as [-> ->]. injection Hd as <-. exists sample_registry. split_and!; [reflexivity..|left].
Defined.
