(* ===== verification/AgentOperations.v ===== *)
(** * Requests and approvals of agents

    [internal/api/agent]: the handlers that record an operation an agent asks for, and those by
    which a person approves or rejects it. A handler is the sequence of its steps, so that handlers of several
    requests may run at the same time; the clock is read together with the statement that follows. The
    theorems hold for every schedule of any number of these handlers: the rows stay well formed, and an
    operation has at most one effect, after its approval, and the effect its parameters say. *)
From Stdlib Require Import ZArith Ascii String Lia.
From stdpp Require Import base sorting pretty numbers gmap strings list.
From S2P Require Import Prelude GoStrings Json JsonText ReleaseSpec ReleaseValidation Security Models PlatformModels Cluster Store PlatformStore Api AuditTrail Tokens NodeMaintenance RegistryNodes RegistryStore Interleaving AgentRequests.

Section handlers.
Context `{K8sLibrary} `{!APIServer} `{Surroundings} `{Nodes} `{Entropy} `{Digests} `{URLParser}.
#[local] Abbreviation W := (World Site).
#[local] Abbreviation M := (M W).
#[local] Abbreviation Handler := (handler W).

(** What an answer says: the operation and its status. *)
Definition answered : Type := string * string.

(** ** The side of the agents: [AgentHandler] *)

(** What the request carries besides its body. *)
Record AgentCall := {
  ag_Instance : RuntimeInstance;
  ag_RequestID : string;
  ag_IdempotencyKey : string;
  ag_ChatSessionID : string;
  ag_Context : Context
}.

Definition detail_of (detail : list (string * string)) (key : string) : string :=
  default "" ((list_to_map detail : gmap string string) !! key).
Definition agent_audit (instance : RuntimeInstance) (action : string) (detail : list (string * string)) : Handler unit :=
  let outcome := if contains action "requested" then AuditOutcomeAccepted
    else if contains action "denied" then AuditOutcomeDenied else AuditOutcomeSucceeded in
  ignored (Service_Record
    {| ev_Action := action; ev_ResourceType := "agent_runtime"; ev_ResourceID := rt_ID instance; ev_TargetName := rt_Name instance;
       ev_Actor := {| act_Type := AuditActorAgent; act_ID := rt_ID instance; act_Name := rt_Name instance |};
       ev_Source := AuditSourceAgent; ev_Outcome := outcome;
       ev_Summary := AuditSummaryFallback action "agent_runtime" (rt_ID instance);
       ev_RequestID := detail_of detail "request_id"; ev_OperationID := detail_of detail "operation_id";
       ev_Metadata := (λ kv, (kv.1, JStr kv.2)) <$> detail |}).
Definition requireCapability (instance : RuntimeInstance) (capability namespace : string) : Handler unit :=
  granted ← step_or (HasAgentCapability (rt_ID instance) capability namespace) (λ _, InternalError "capability check failed");
  if (granted : bool) then mret tt else
    agent_audit instance "agent.denied" [("capability", capability); ("namespace", namespace); ("reason", "not_granted")] ;;
    refuse (Forbidden "capability not granted").

(** [&model.AgentOperation{...}] with the hash of its parameters *)
Definition new_operation (operationID capability requestID : string) (call : AgentCall) (parameters : json)
    (resourceVersion summary : string) (at_ : Z) : AgentOperation :=
  {| ao_ID := 0; ao_OperationID := operationID; ao_RuntimeID := rt_ID (ag_Instance call); ao_Capability := capability;
     ao_RequestID := requestID; ao_ChatSessionID := ag_ChatSessionID call; ao_Parameters := Some parameters;
     ao_ParametersHash := hex_text (sha256 (print parameters)); ao_ResourceVersion := resourceVersion;
     ao_Status := AgentOperationPendingApproval; ao_Summary := summary; ao_ErrorSummary := ""; ao_ApprovedBy := None;
     ao_ApprovedAt := None; ao_ExpiresAt := at_ + 900 * second; ao_CompletedAt := None; ao_CreatedAt := time_zero |}.
Definition record_operation (capability requestID : string) (call : AgentCall) (parameters : json)
    (resourceVersion summary failure : string) : Handler AgentOperation :=
  operationID ← step_or newAgentOperationID id;
  at_ ← step_or now id;
  stored ← step_or
    (CreateAgentOperation (new_operation operationID capability requestID call parameters resourceVersion summary at_))
    (λ _, InternalError failure);
  mret stored.1.

Definition replay_key (call : AgentCall) : Handler string :=
  let requestID := ag_RequestID call in
  refuse_if (negb (validAgentRequestID requestID) || bool_decide (ag_IdempotencyKey call ≠ requestID))
    (BadRequest "matching request and idempotency keys are required") ;;
  mret requestID.

(** [body] is the one JSON value of the request, [None] when it is not one. *)
Definition DeploymentScale (available : bool) (call : AgentCall) (body : option json) : Handler answered :=
  requestID ← replay_key call;
  match body ≫= (λ j, if only_fields ["namespace"; "name"; "replicas"] j then decode_deploymentScaleRequest zero_deploymentScaleRequest j else None) with
  | None => refuse (BadRequest "invalid deployment scale request")
  | Some request =>
      refuse_if (negb (validAgentNamespace (ds_Namespace request)) || negb (validAgentName (ds_Name request))
                 || bool_decide (ds_Replicas request < 0)%Z || bool_decide (50 < ds_Replicas request)%Z)
        (BadRequest "invalid deployment scale request") ;;
      requireCapability (ag_Instance call) AgentCapabilityDeploymentScale (ds_Namespace request) ;;
      refuse_if (negb available) (ServiceUnavailable "Kubernetes client unavailable") ;;
      deployment ← step_or (on_cluster (Cluster.call (ag_Context call) (GetDeployment (ds_Namespace request) (ds_Name request))))
        (λ _, BadGateway "deployment unavailable");
      stored ← record_operation AgentCapabilityDeploymentScale requestID call (encode_deploymentScaleRequest request)
        (lm_ResourceVersion (ld_Meta deployment))
        ("scale deployment " +:+ (ds_Namespace request +:+ ("/" +:+ (ds_Name request +:+ (" to " +:+ (dec (ds_Replicas request) +:+ " replicas"))))))
        "operation persistence failed";
      agent_audit (ag_Instance call) "agent.deployment_scale_requested"
        [("capability", AgentCapabilityDeploymentScale); ("namespace", ds_Namespace request); ("name", ds_Name request);
         ("request_id", requestID); ("operation_id", ao_OperationID stored)] ;;
      mret (ao_OperationID stored, "pending_approval")
  end.

Definition registryNodeConfig (node registry : string) : Handler (RegistryConfig * Server) :=
  let unavailable (_ : goerr) := EText "registry status unavailable" in
  mirrors ← step_or ListNodeRegistryMirrors unavailable;
  proxies ← step_or ListRegistryProxies unavailable;
  match ResolveRegistry registry mirrors proxies with
  | None => refuse (EText "registry is not platform configured")
  | Some config =>
      servers ← step_or ListServers (λ _, EText "node mapping unavailable");
      match agentServerForNode node servers with
      | None => refuse (EText "node is not a platform managed server")
      | Some server => mret (config, server)
      end
  end.
(** An error of a helper, answered otherwise. *)
Fixpoint answering {A} (f : goerr → goerr) (p : Handler A) : Handler A :=
  match p with
  | Finished r => Finished (map_err f r)
  | Step m rest => Step m (λ r, answering f (rest r))
  end.

Definition RegistryNodePullCheck (call : AgentCall) (body : option json) : Handler answered :=
  requestID ← replay_key call;
  match body ≫= (λ j, if only_fields ["node"; "registry"; "verification_image"] j then decode_registryNodeRequest zero_registryNodeRequest j else None) with
  | None => refuse (BadRequest "invalid registry pull check request")
  | Some request =>
      refuse_if (negb (validAgentName (rn_Node request)) || negb (validAgentRegistry (rn_Registry request)))
        (BadRequest "invalid registry pull check request") ;;
      requireCapability (ag_Instance call) AgentCapabilityRegistryPullCheck "" ;;
      let unavailable := BadRequest "registered verification image unavailable" in
      config ← answering (λ _, unavailable) (registryNodeConfig (rn_Node request) (rn_Registry request));
      let config := config.1 in
      refuse_if (bool_decide (rc_Mirror config = None) || blank_text (rc_VerificationImage config)) unavailable ;;
      stored ← record_operation AgentCapabilityRegistryPullCheck requestID call
        (encode_registryNodeRequest {| rn_Node := rn_Node request; rn_Registry := rc_Registry config;
                                       rn_VerificationImage := rc_VerificationImage config |})
        "" ("pull verification image " +:+ (rc_VerificationImage config +:+ (" for registry " +:+ (rc_Registry config +:+ (" on node " +:+ rn_Node request)))))
        "operation persistence failed";
      agent_audit (ag_Instance call) "agent.registry_pull_check_requested"
        [("capability", AgentCapabilityRegistryPullCheck); ("node", rn_Node request); ("registry", rc_Registry config);
         ("request_id", requestID); ("operation_id", ao_OperationID stored)] ;;
      mret (ao_OperationID stored, "pending_approval")
  end.

Definition set_alert (operationID status diagnostic lastError : string) (e : AlertEvent) : AlertEvent :=
  let '(Build_AlertEvent i f n s nn m l a _ r se re _ _ _ sa ea ld) := e in
  Build_AlertEvent i f n s nn m l a status r se re diagnostic operationID lastError sa ea ld.

Definition MaintenanceCleanupRequest (call : AgentCall) (body : option json) : Handler answered :=
  let instance := ag_Instance call in
  requireCapability instance AgentCapabilityMaintenanceCleanup "" ;;
  match body ≫= decode_maintenanceCleanupRequest with
  | None => refuse (BadRequest "invalid maintenance cleanup request")
  | Some request =>
      refuse_if (bool_decide (mr_AlertID request = 0%Z) || negb (ValidCleanupRecipe (mr_Recipe request)))
        (BadRequest "invalid maintenance cleanup request") ;;
      let ineligible := Conflict "alert event is not eligible for cleanup" in
      event ← step_or (GetAlertEvent (mr_AlertID request)) (λ _, ineligible);
      refuse_if (bool_decide (al_Status event = AlertEventResolved) || blank_text (al_NodeName event)) ineligible ;;
      let disabled := Forbidden "cleanup request is not enabled for this alert runtime" in
      policy ← step_or GetAlertAutomationPolicy (λ _, disabled);
      refuse_if (negb (pol_Enabled policy) || bool_decide (pol_Mode policy ≠ AlertAutomationApproval)
                 || bool_decide (pol_RuntimeID policy ≠ rt_ID instance) || bool_decide (al_RuntimeID event ≠ Some (rt_ID instance))) disabled ;;
      let requestID := trim_space (ag_IdempotencyKey call) in
      refuse_if (bool_decide (requestID = "") || bool_decide (128 < String.length requestID)) (BadRequest "missing idempotency key") ;;
      stored ← record_operation AgentCapabilityMaintenanceCleanup requestID call
        (encode_maintenanceCleanupParameters {| mp_AlertID := al_ID event; mp_Node := al_NodeName event; mp_Recipe := mr_Recipe request |})
        "" (CleanupSummary (al_NodeName event) (mr_Recipe request)) "unable to create cleanup approval";
      ignored (UpdateAlertEvent (set_alert (ao_OperationID stored) AlertEventAwaitingApproval "等待管理员审批固定清理配方" (al_LastError event) event)) ;;
      agent_audit instance "agent.maintenance_cleanup_requested"
        [("capability", AgentCapabilityMaintenanceCleanup); ("alert_id", dec (al_ID event)); ("recipe", mr_Recipe request);
         ("request_id", requestID); ("operation_id", ao_OperationID stored)] ;;
      mret (ao_OperationID stored, "pending_approval")
  end.

(** ** The side of the browser: [AgentOperationHandler] *)

(** The adapters that are wired, and the identity and request of the call. *)
Record AgentOperationHandler := { oh_client : bool; oh_registryPullExecutor : bool; oh_maintenanceCleanupExecutor : bool }.
Record BrowserCall := { br_Identity : Identity; br_RequestID : string; br_Context : Context }.
Variables (h : AgentOperationHandler) (c : BrowserCall).

Definition runtimeExists (runtimeID : Z) : Handler unit :=
  _ ← step_or (GetRuntime runtimeID) (λ _, NotFound "Runtime 不存在"); mret tt.

Definition audit (runtimeID userID : Z) (action outcome : string) (operationID : option string) (detail : list (string * json)) :
    Handler unit :=
  runtime ← tried (GetRuntime runtimeID);
  let targetName := match runtime with
    | Ok runtime => rt_Name runtime
    | Err _ => AuditTargetFallback "agent_runtime" runtimeID
    end in
  ignored (Service_Record
    {| ev_Action := action; ev_ResourceType := "agent_runtime"; ev_ResourceID := runtimeID; ev_TargetName := targetName;
       ev_Actor := {| act_Type := AuditActorUser; act_ID := userID; act_Name := id_Username (br_Identity c) |};
       ev_Source := AuditSourceAPI; ev_Outcome := outcome; ev_Summary := AuditSummaryFallback action "agent_runtime" runtimeID;
       ev_RequestID := br_RequestID c; ev_OperationID := default "" operationID;
       ev_Metadata := match operationID with Some id => [("operation_id", JStr id)] | None => [] end ++ detail |}).
Definition operation_audit (operation : AgentOperation) (userID : Z) (action outcome : string) (detail : list (string * json)) :
    Handler unit :=
  audit (ao_RuntimeID operation) userID action outcome (Some (ao_OperationID operation)) detail.

Definition ReplaceGrants (runtimeID : Z) (body : option (list AgentCapabilityGrant)) : Handler (list AgentCapabilityGrant) :=
  runtimeExists runtimeID ;;
  match body with
  | None => refuse (ValidationError "授权参数无效")
  | Some grants =>
      let grants := (λ g, {| gr_ID := gr_ID g; gr_RuntimeID := runtimeID; gr_Capability := gr_Capability g;
                             gr_Namespace := gr_Namespace g; gr_Enabled := gr_Enabled g |}) <$> grants in
      step_or (ReplaceAgentCapabilityGrants runtimeID grants) (λ _, ValidationError "授权范围或能力无效") ;;
      audit runtimeID (id_UserID (br_Identity c)) "agent.grants_replaced" AuditOutcomeSucceeded None
        [("grant_count", JInt (Z.of_nat (length grants)))] ;;
      mret grants
  end.
Definition ListOperations (runtimeID : Z) (status session_id : string) : Handler (list AgentOperation) :=
  runtimeExists runtimeID ;;
  let status := trim_space status in
  refuse_if (bool_decide (status ≠ "") && negb (validAgentOperationStatus status)) (ValidationError "Agent 操作状态无效") ;;
  let sessionID := trim_space session_id in
  refuse_if (bool_decide (128 < String.length sessionID) || has_prefix "api:" sessionID) (ValidationError "会话 ID 无效") ;;
  step_or (ListAgentOperations runtimeID 50 status sessionID) (λ _, DBError "读取 Agent 操作失败").

(** [changed, _ := h.store.UpdateAgentOperationStatus(...)] *)
Definition update_status (operationID from to errorSummary : string) (approvedBy completedAt : option Z) : Handler bool :=
  changed ← tried (UpdateAgentOperationStatus operationID from to errorSummary approvedBy completedAt);
  mret (from_ok false changed).
Definition approve_operation (operation : AgentOperation) (to errorSummary : string) : Handler unit :=
  changed ← update_status (ao_OperationID operation) AgentOperationPendingApproval to errorSummary
    (Some (id_UserID (br_Identity c))) None;
  refuse_if (negb changed) (Conflict "Agent 操作状态已变化").
(** The status of an operation that was performed *)
Definition complete_operation (operation : AgentOperation) (to errorSummary : string) : Handler unit :=
  at_ ← step_or now id;
  _ ← update_status (ao_OperationID operation) AgentOperationApproved to errorSummary None (Some at_);
  mret tt.
Definition markOperationStale (operation : AgentOperation) (message : string) : Handler answered :=
  changed ← update_status (ao_OperationID operation) AgentOperationPendingApproval AgentOperationStale message None None;
  (if (changed : bool) then operation_audit operation 0 "agent.operation_stale" AuditOutcomeFailed [] else mret tt) ;;
  refuse (Conflict message).

Definition capability_detail (operation : AgentOperation) : list (string * json) := [("capability", JStr (ao_Capability operation))].
Definition failed_audit (operation : AgentOperation) : Handler unit :=
  operation_audit operation (id_UserID (br_Identity c)) "agent.operation_failed" AuditOutcomeFailed (capability_detail operation).
Definition succeeded_audit (operation : AgentOperation) (detail : list (string * json)) : Handler unit :=
  operation_audit operation (id_UserID (br_Identity c)) "agent.operation_succeeded" AuditOutcomeSucceeded
    (capability_detail operation ++ detail).

Definition resolveDeploymentScale (operation : AgentOperation) : Handler answered :=
  refuse_if (bool_decide (ao_Capability operation ≠ AgentCapabilityDeploymentScale) || negb (oh_client h))
    (ServiceUnavailable "Agent 操作执行器不可用") ;;
  match ao_Parameters operation ≫= decode_deploymentScaleRequest zero_deploymentScaleRequest with
  | None => refuse (InternalError "Agent 操作参数无效")
  | Some parameters =>
      deployment ← step_or (on_cluster (Cluster.call (br_Context c) (GetDeployment (ds_Namespace parameters) (ds_Name parameters))))
        (λ _, K8sAPIError "读取目标 Deployment 失败");
      if decide (lm_ResourceVersion (ld_Meta deployment) ≠ ao_ResourceVersion operation) then
        _ ← update_status (ao_OperationID operation) AgentOperationPendingApproval AgentOperationStale
          "目标资源已变化，需要重新发起审批" None None;
        refuse (Conflict "目标资源已变化，需要重新发起审批")
      else
        approve_operation operation AgentOperationApproved "" ;;
        operation_audit operation (id_UserID (br_Identity c)) "agent.operation_approved" AuditOutcomeSucceeded [] ;;
        let deployment := {| ld_Meta := ld_Meta deployment; ld_Replicas := Some (ds_Replicas parameters);
          ld_Containers := ld_Containers deployment; ld_Annotations := ld_Annotations deployment; ld_Selector := ld_Selector deployment; ld_NodeSelector := ld_NodeSelector deployment; ld_Claims := ld_Claims deployment; ld_Rest := ld_Rest deployment;
          ld_ObservedGeneration := ld_ObservedGeneration deployment; ld_UpdatedReplicas := ld_UpdatedReplicas deployment;
          ld_ReadyReplicas := ld_ReadyReplicas deployment; ld_AvailableReplicas := ld_AvailableReplicas deployment;
          ld_UnavailableReplicas := ld_UnavailableReplicas deployment; ld_Conditions := ld_Conditions deployment |} in
        updated ← tried (update_deployment (ao_OperationID operation) (ds_Namespace parameters) (br_Context c) deployment);
        match updated with
        | Err e =>
            complete_operation operation AgentOperationFailed (agentOperationErrorSummary "执行 Deployment 扩缩容失败" (Some e)) ;;
            failed_audit operation ;;
            refuse (K8sAPIError "执行 Deployment 扩缩容失败")
        | Ok _ =>
            complete_operation operation AgentOperationSucceeded "" ;;
            succeeded_audit operation [] ;;
            mret (ao_OperationID operation, AgentOperationSucceeded)
        end
  end.

Definition resolveMaintenanceCleanup (operation : AgentOperation) : Handler answered :=
  refuse_if (negb (oh_maintenanceCleanupExecutor h)) (ServiceUnavailable "固定清理执行器不可用") ;;
  match ao_Parameters operation ≫= decode_maintenanceCleanupParameters zero_maintenanceCleanupParameters with
  | None => refuse (InternalError "Agent 操作参数无效")
  | Some parameters =>
      refuse_if (negb (ValidCleanupRecipe (mp_Recipe parameters)) || bool_decide (mp_AlertID parameters = 0%Z)
                 || negb (validAgentResourceName (mp_Node parameters))) (InternalError "Agent 操作参数无效") ;;
      event ← tried (GetAlertEvent (mp_AlertID parameters));
      match event with
      | Err _ => markOperationStale operation "告警已恢复或目标节点已变化，需要重新诊断"
      | Ok event =>
      if bool_decide (al_NodeName event ≠ mp_Node parameters) || bool_decide (al_Status event = AlertEventResolved)
      then markOperationStale operation "告警已恢复或目标节点已变化，需要重新诊断" else
      servers ← step_or ListServers (λ _, DBError "读取节点映射失败");
      match agentServerForNode (mp_Node parameters) servers with
      | None => markOperationStale operation "目标节点不再由平台管理，需要重新诊断"
      | Some server =>
          approve_operation operation AgentOperationApproved "" ;;
          operation_audit operation (id_UserID (br_Identity c)) "agent.operation_approved" AuditOutcomeSucceeded (capability_detail operation) ;;
          let event := set_alert (al_OperationID event) AlertEventRemediating "管理员已批准，正在执行固定清理配方" (al_LastError event) event in
          ignored (UpdateAlertEvent event) ;;
          outcome ← step_or (CleanupService_Execute (ao_OperationID operation) server (mp_Recipe parameters)) id;
          match outcome.2 with
          | Some executeErr =>
              let message := maintenanceCleanupFailureSummary outcome.1 executeErr in
              complete_operation operation AgentOperationFailed message ;;
              failed_audit operation ;;
              ignored (UpdateAlertEvent (set_alert (al_OperationID event) AlertEventFailed (al_DiagnosticSummary event) message event)) ;;
              refuse (BadGateway "执行固定清理配方失败")
          | None =>
              complete_operation operation AgentOperationSucceeded "" ;;
              ignored (UpdateAlertEvent (set_alert (al_OperationID event) AlertEventFiring
                (CleanupCompletionSummary (mp_Recipe parameters) outcome.1) "" event)) ;;
              succeeded_audit operation [("recipe", JStr (mp_Recipe parameters)); ("alert_id", JInt (mp_AlertID parameters))] ;;
              mret (ao_OperationID operation, AgentOperationSucceeded)
          end
      end
      end
  end.

Definition resolveRegistryPullCheck (operation : AgentOperation) : Handler answered :=
  refuse_if (negb (oh_registryPullExecutor h)) (ServiceUnavailable "镜像拉取检测执行器不可用") ;;
  match ao_Parameters operation ≫= decode_registryNodeRequest zero_registryNodeRequest with
  | None => refuse (InternalError "Agent 操作参数无效")
  | Some parameters =>
      mirrors ← step_or ListNodeRegistryMirrors (λ _, DBError "读取镜像源配置失败");
      proxies ← step_or ListRegistryProxies (λ _, DBError "读取镜像代理配置失败");
      let changed := "镜像源配置或验证镜像已变化，需要重新发起审批" in
      match ResolveRegistry (rn_Registry parameters) mirrors proxies with
      | None => markOperationStale operation changed
      | Some config =>
      if bool_decide (rc_Mirror config = None) || bool_decide (rc_VerificationImage config = "")
         || bool_decide (rc_VerificationImage config ≠ rn_VerificationImage parameters)
      then markOperationStale operation changed else
      servers ← step_or ListServers (λ _, DBError "读取节点映射失败");
      match agentServerForNode (rn_Node parameters) servers with
      | None => markOperationStale operation "目标节点不再由平台管理，需要重新发起审批"
      | Some server =>
          approve_operation operation AgentOperationApproved "" ;;
          operation_audit operation (id_UserID (br_Identity c)) "agent.operation_approved" AuditOutcomeSucceeded (capability_detail operation) ;;
          pulled ← tried (NodePullService_Pull (ao_OperationID operation) server (rc_VerificationImage config));
          match pulled with
          | Err e =>
              complete_operation operation AgentOperationFailed (agentOperationErrorSummary "节点验证镜像拉取失败" (Some e)) ;;
              failed_audit operation ;;
              refuse (BadGateway "节点验证镜像拉取失败")
          | Ok _ =>
              complete_operation operation AgentOperationSucceeded "" ;;
              succeeded_audit operation [] ;;
              mret (ao_OperationID operation, AgentOperationSucceeded)
          end
      end
      end
  end.

Definition resolve (operationID : string) (approve : bool) : Handler answered :=
  operation ← step_or (GetAgentOperation operationID) (λ _, NotFound "Agent 操作不存在");
  refuse_if (bool_decide (ao_Status operation ≠ AgentOperationPendingApproval)) (Conflict "Agent 操作不再等待审批") ;;
  at_ ← step_or now id;
  if decide (ao_ExpiresAt operation < at_)%Z then
    changed ← update_status operationID AgentOperationPendingApproval AgentOperationExpired "审批已过期" None None;
    (if (changed : bool) then operation_audit operation 0 "agent.operation_expired" AuditOutcomeFailed [] else mret tt) ;;
    refuse (Conflict "Agent 操作审批已过期")
  else if negb approve then
    approve_operation operation AgentOperationRejected "已被管理员拒绝" ;;
    operation_audit operation (id_UserID (br_Identity c)) "agent.operation_rejected" AuditOutcomeDenied [] ;;
    mret (ao_OperationID operation, AgentOperationRejected)
  else if decide (ao_Capability operation = AgentCapabilityRegistryPullCheck) then resolveRegistryPullCheck operation
  else if decide (ao_Capability operation = AgentCapabilityMaintenanceCleanup) then resolveMaintenanceCleanup operation
  else resolveDeploymentScale operation.
Definition Approve (operationID : string) : Handler answered := resolve operationID true.
Definition Reject (operationID : string) : Handler answered := resolve operationID false.
End handlers.

(** The handlers that touch the operations of agents. *)
Inductive agent_handler `{K8sLibrary, !APIServer, Surroundings, Nodes, Entropy, Digests, URLParser} :
    handler (World Site) answered → Prop :=
  | scale_handler available call body : agent_handler (DeploymentScale available call body)
  | pull_check_handler call body : agent_handler (RegistryNodePullCheck call body)
  | cleanup_handler call body : agent_handler (MaintenanceCleanupRequest call body)
  | resolve_handler h c operationID approve : agent_handler (resolve h c operationID approve).
