(* ===== verification/AgentSafety.v ===== *)
(** * Approved once, performed once

    The invariant of the operations of agents under every schedule of the handlers of AgentOperations, and the
    discipline of their steps: who has read an operation knows its request for ever, who moves it from pending
    to approved holds the right to perform it, and spends that right with the effect. *)
From Stdlib Require Import ZArith Ascii String Lia.
From stdpp Require Import base sorting pretty numbers gmap strings list.
From S2P Require Import Prelude GoStrings Json JsonText ReleaseSpec ReleaseValidation Security Models PlatformModels Cluster Store PlatformStore Api AuditTrail Tokens NodeMaintenance RegistryNodes RegistryStore Interleaving AgentRequests AgentOperations.

(** ** Well-formed operations *)

(** What never changes after the creation: everything but the status and what comes with it. *)
Definition request_of (o : AgentOperation) : AgentOperation :=
  let '(Build_AgentOperation i o r c q cs p h v _ su _ _ _ ex _ cr) := o in
  Build_AgentOperation i o r c q cs p h v "" su "" None None ex None cr.

Definition scale_ok (r : deploymentScaleRequest) : Prop :=
  validAgentNamespace (ds_Namespace r) = true ∧ validAgentName (ds_Name r) = true ∧ (0 ≤ ds_Replicas r ≤ 50)%Z.
Definition cleanup_ok (p : maintenanceCleanupParameters) : Prop :=
  is_u64 (mp_AlertID p) ∧ mp_AlertID p ≠ 0%Z ∧ blank_text (mp_Node p) = false ∧ ValidCleanupRecipe (mp_Recipe p) = true.
Definition pull_ok (r : registryNodeRequest) : Prop :=
  validAgentName (rn_Node r) = true ∧ blank_text (rn_VerificationImage r) = false.
(** The parameters are the document of a request that passed its checks, of the type of the capability. *)
Definition parameters_ok (capability : string) (j : json) : Prop :=
  (capability = AgentCapabilityDeploymentScale ∧ ∃ r, j = encode_deploymentScaleRequest r ∧ scale_ok r) ∨
  (capability = AgentCapabilityMaintenanceCleanup ∧ ∃ p, j = encode_maintenanceCleanupParameters p ∧ cleanup_ok p) ∨
  (capability = AgentCapabilityRegistryPullCheck ∧ ∃ r, j = encode_registryNodeRequest r ∧ pull_ok r).

Definition decided : list string :=
  [AgentOperationApproved; AgentOperationRejected; AgentOperationSucceeded; AgentOperationFailed].
Definition executing : list string := [AgentOperationApproved; AgentOperationSucceeded; AgentOperationFailed].
Definition completed : list string := [AgentOperationSucceeded; AgentOperationFailed].

Definition present {A} (x : option A) : bool := match x with Some _ => true | None => false end.
Definition among (l : list string) (s : string) : bool := bool_decide (s ∈ l).

(** The approver and the moment of the approval are recorded exactly when it was decided, the moment of
    completion exactly when it was performed. *)
Record operation_ok `{Digests} (o : AgentOperation) : Prop := {
  ook_status : validAgentOperationStatus (ao_Status o) = true;
  ook_parameters : ∃ j, ao_Parameters o = Some j ∧ parameters_ok (ao_Capability o) j ∧
    ao_ParametersHash o = hex_text (sha256 (print j));
  ook_approver : present (ao_ApprovedBy o) = among decided (ao_Status o);
  ook_approved_at : present (ao_ApprovedAt o) = among decided (ao_Status o);
  ook_completed : present (ao_CompletedAt o) = among completed (ao_Status o);
  ook_summary : summary_fits (ao_ErrorSummary o)
}.

(** The moves of the status machine, with what they record. *)
Inductive allowed : string → string → option Z → option Z → Prop :=
  | approve_move by_ : allowed AgentOperationPendingApproval AgentOperationApproved (Some by_) None
  | reject_move by_ : allowed AgentOperationPendingApproval AgentOperationRejected (Some by_) None
  | expire_move : allowed AgentOperationPendingApproval AgentOperationExpired None None
  | stale_move : allowed AgentOperationPendingApproval AgentOperationStale None None
  | succeed_move at_ : allowed AgentOperationApproved AgentOperationSucceeded None (Some at_)
  | fail_move at_ : allowed AgentOperationApproved AgentOperationFailed None (Some at_).

(** The effect an operation stands for. *)
Definition intended (o : AgentOperation) (e : effect) : Prop :=
  match e with
  | Scaled namespace d =>
      ao_Capability o = AgentCapabilityDeploymentScale ∧
      ∃ r, ao_Parameters o = Some (encode_deploymentScaleRequest r) ∧ scale_ok r ∧ namespace = ds_Namespace r ∧
        ld_Replicas d = Some (ds_Replicas r) ∧ lm_ResourceVersion (ld_Meta d) = ao_ResourceVersion o
  | Ran server timeout command =>
      (ao_Capability o = AgentCapabilityMaintenanceCleanup ∧
       ∃ p, ao_Parameters o = Some (encode_maintenanceCleanupParameters p) ∧ cleanup_ok p ∧
         sv_K8sNodeName server = mp_Node p ∧ command = cleanupCommand (mp_Recipe p)) ∨
      (ao_Capability o = AgentCapabilityRegistryPullCheck ∧
       ∃ r, ao_Parameters o = Some (encode_registryNodeRequest r) ∧ pull_ok r ∧
         sv_K8sNodeName server = rn_Node r ∧ command = PullCommand (rn_VerificationImage r))
  end.

Section safety.
Context `{K8sLibrary} `{!APIServer} `{Surroundings} `{Nodes} `{Entropy} `{Digests} `{URLParser}.
#[local] Abbreviation W := (World Site).
#[local] Abbreviation M := (M W).

Definition operations (w : W) : table AgentOperation := tbl (w_db w).
Definition performed (w : W) : list (string * effect) := si_performed (w_cluster w).

Record sound (w : W) : Prop := {
  snd_keyed : keyed (operations w);
  snd_unique : ∀ i j a b, t_rows (operations w) !! i = Some a → t_rows (operations w) !! j = Some b →
    ao_OperationID a = ao_OperationID b → i = j;
  snd_ok : ∀ i o, t_rows (operations w) !! i = Some o → operation_ok o
}.

(** ** Tokens *)

Inductive token := Known (o : AgentOperation) | Won (o : AgentOperation).
Definition won (k : token) : option string := match k with Won o => Some (ao_OperationID o) | Known _ => None end.
Definition subject (k : token) : AgentOperation := match k with Known o | Won o => o end.

Definition recorded (w : W) (r : AgentOperation) (P : AgentOperation → Prop) : Prop :=
  ∃ i o, t_rows (operations w) !! i = Some o ∧ request_of o = request_of r ∧ P o.
(** Some operation of that identifier. *)
Definition named (w : W) (id : string) (P : AgentOperation → Prop) : Prop :=
  ∃ i o, t_rows (operations w) !! i = Some o ∧ ao_OperationID o = id ∧ P o.
Definition is_pending (o : AgentOperation) : Prop := ao_Status o = AgentOperationPendingApproval.
Definition in_execution (o : AgentOperation) : Prop := among executing (ao_Status o) = true.

Record Inv (w : W) (held : list token) : Prop := {
  inv_sound : sound w;
  inv_known : ∀ k, k ∈ held → recorded w (subject k) (λ o, is_Some (won k) → in_execution o);
  inv_once : NoDup (omap won held ++ (performed w).*1);
  inv_performed : ∀ id e, (id, e) ∈ performed w →
    ∃ i o, t_rows (operations w) !! i = Some o ∧ ao_OperationID o = id ∧ in_execution o ∧ intended o e
}.

(** What may become of an operation: its request stays, what was approved stays approved, and nothing
    happens after a terminal status. *)
Record later (o o' : AgentOperation) : Prop := {
  lat_request : request_of o' = request_of o;
  lat_execution : in_execution o → in_execution o';
  lat_terminal : AgentOperationTerminal (ao_Status o) = true → o' = o
}.
Definition evolves (w w' : W) : Prop :=
  sound w' ∧ ∀ i o, t_rows (operations w) !! i = Some o → ∃ o', t_rows (operations w') !! i = Some o' ∧ later o o'.

Inductive trades (w : W) (ks : list token) (w' : W) (ks' : list token) : Prop :=
  | trade_none : evolves w w' → performed w' = performed w → ks' = ks → trades w ks w' ks'
  | trade_know o : evolves w w' → performed w' = performed w → recorded w' o (λ _, True) → ks' = Known o :: ks →
      trades w ks w' ks'
  | trade_win o : evolves w w' → performed w' = performed w → ks' = Won o :: ks → Known o ∈ ks →
      named w (ao_OperationID o) is_pending → named w' (ao_OperationID o) in_execution → trades w ks w' ks'
  | trade_perform o e : evolves w w' → performed w' = performed w ++ [(ao_OperationID o, e)] → ks = Won o :: ks' →
      intended o e → trades w ks w' ks'.

Lemma request_id o o' : request_of o = request_of o' → ao_OperationID o = ao_OperationID o'.
Proof. by destruct o, o'; intros [= -> ->]. Qed.
Lemma intended_request o o' e : request_of o = request_of o' → intended o e → intended o' e.
Proof. destruct o, o'. intros [=]; subst. by destruct e. Qed.

Lemma recorded_evolves w w' r (P Q : AgentOperation → Prop) :
  evolves w w' → (∀ o o', request_of o' = request_of o → (in_execution o → in_execution o') → P o → Q o') →
  recorded w r P → recorded w' r Q.
Proof.
  intros [_ He] HPQ (i & o & Hi & Hr & HP). destruct (He _ _ Hi) as (o' & Hi' & [Hr' Hx _]).
  exists i, o'. split_and!; [done|congruence|by eapply HPQ].
Qed.

(** The parts of the invariant that no trade endangers. *)
Lemma evolves_known w w' (ks : list token) : evolves w w' →
  (∀ k, k ∈ ks → recorded w (subject k) (λ o, is_Some (won k) → in_execution o)) →
  ∀ k, k ∈ ks → recorded w' (subject k) (λ o, is_Some (won k) → in_execution o).
Proof. intros He Hk k Hin. eapply recorded_evolves; [done| |by apply Hk]. naive_solver. Qed.
Lemma evolves_performed w w' (l : list (string * effect)) : evolves w w' →
  (∀ id e, (id, e) ∈ l → ∃ i o, t_rows (operations w) !! i = Some o ∧ ao_OperationID o = id ∧ in_execution o ∧ intended o e) →
  ∀ id e, (id, e) ∈ l → ∃ i o, t_rows (operations w') !! i = Some o ∧ ao_OperationID o = id ∧ in_execution o ∧ intended o e.
Proof.
  intros [_ He] Hp id e Hin. destruct (Hp _ _ Hin) as (i & o & Hi & <- & Hx & Hint).
  destruct (He _ _ Hi) as (o' & Hi' & [Hr Hx' _]). exists i, o'. split_and!; [done|by apply request_id|by apply Hx'|].
  by eapply intended_request.
Qed.

(** A pending operation is neither won nor performed. *)
Lemma pending_is_free w held o :
  Inv w held → named w (ao_OperationID o) is_pending →
  ao_OperationID o ∉ omap won held ++ (performed w).*1.
Proof.
  intros [Hs Hk _ Hp] (i & r & Hi & Hr & Hst) Hin. unfold is_pending in Hst.
  assert (∀ j o', t_rows (operations w) !! j = Some o' → ao_OperationID o' = ao_OperationID o → in_execution o' → False) as Hno.
  { intros j o' Hj Hid Hx. assert (j = i) as -> by (eapply (snd_unique _ Hs); [done..|]; by rewrite Hid).
    assert (o' = r) as -> by congruence. unfold in_execution in Hx. by rewrite Hst in Hx. }
  apply elem_of_app in Hin as [(k & Hk1 & Hw)%list_elem_of_omap|([id e] & Hid & Hin)%list_elem_of_fmap].
  - destruct (Hk _ Hk1) as (j & o' & Hj & Hr' & Hx). apply (Hno j o' Hj); [|apply Hx; by eexists].
    destruct k as [|o1]; [done|]. injection Hw as Hw. rewrite <-Hw. by apply request_id.
  - simpl in Hid. destruct (Hp _ _ Hin) as (j & o' & Hj & Hid' & Hx & _). apply (Hno j o' Hj); [congruence|done].
Qed.

Lemma Inv_sound w held : Inv w held → sound w.
Proof. by intros []. Qed.
Lemma Inv_perm w held held' : held ≡ₚ held' → Inv w held → Inv w held'.
Proof.
  intros Hp [Hs Hk Ho Hx]. constructor; [done| |by rewrite <-Hp|done].
  intros k Hin. apply Hk. by rewrite Hp.
Qed.
Lemma trades_frame w ks w' ks' others : trades w ks w' ks' → Inv w (ks ++ others) → Inv w' (ks' ++ others).
Proof.
  intros Ht HI. pose proof (pending_is_free w (ks ++ others)) as Hfree. pose proof HI as [Hs Hk Ho Hp].
  destruct Ht as [He Hperf ->|o He Hperf Hrec ->|o He Hperf -> Hknown Hpend Hnow|o e He Hperf -> Hint].
  - constructor; [apply He|by eapply evolves_known|by rewrite Hperf|rewrite Hperf; by eapply evolves_performed].
  - constructor; [apply He| |by rewrite Hperf|rewrite Hperf; by eapply evolves_performed].
    intros k [->|Hin]%elem_of_cons; [|by eapply evolves_known]. destruct Hrec as (i & r & ? & ? & _). exists i, r.
    split_and!; [done..|]. by intros [].
  - constructor; [apply He| | |rewrite Hperf; by eapply evolves_performed].
    + intros k [->|Hin]%elem_of_cons; [|by eapply evolves_known].
      destruct (Hk (Known o)) as (i & r & Hi & Hr & _); [by apply elem_of_app; left|].
      destruct (proj2 He _ _ Hi) as (r' & Hi' & [Hr' _ _]), Hnow as (j & r2 & Hj & Hid & Hx). cbn [subject] in *.
      assert (j = i) as -> by (eapply (snd_unique _ (proj1 He)); [done..|]; rewrite Hid; apply request_id; congruence).
      exists i, r'. split_and!; [done|congruence|]. by replace r' with r2 by congruence.
    + cbn [app omap list_omap won]. rewrite Hperf. apply NoDup_cons. split; [by apply Hfree|done].
  - constructor; [apply He|intros k Hin; eapply evolves_known; [done|exact Hk|by right]| |].
    + rewrite Hperf, fmap_app. cbn [app omap list_omap won fmap list_fmap] in *. rewrite app_assoc, Permutation_app_comm. done.
    + rewrite Hperf. intros id e' [Hin|Heq%list_elem_of_singleton]%elem_of_app; [by eapply evolves_performed|].
      injection Heq as -> ->. destruct (Hk (Won o)) as (i & r & Hi & Hr & Hx); [left|].
      destruct (proj2 He _ _ Hi) as (r' & Hi' & [Hr' Hx' _]). cbn [subject] in Hr. exists i, r'.
      split_and!; [done|apply request_id; congruence|apply Hx', Hx; by eexists|].
      eapply intended_request; [|exact Hint]. congruence.
Qed.

(** ** Steps that leave operations and effects alone *)

Definition quiet {A} (m : M A) : Prop := ∀ w, operations (m w).2 = operations w ∧ performed (m w).2 = performed w.

Lemma quiet_trades {A} (m : M A) w ks : quiet m → sound w → trades w ks (m w).2 ks.
Proof.
  intros Hq [Hk Hu Ho]. destruct (Hq w) as [Hops Hp]. apply trade_none; [|done..]. split.
  - constructor; rewrite Hops; done.
  - intros i o Hi. exists o. by rewrite Hops.
Qed.

Lemma quiet_ret {A} (a : A) : quiet (mret a).
Proof. by intros w. Qed.
Lemma quiet_throw {A} e : quiet (throw (A := A) e).
Proof. by intros w. Qed.
Lemma quiet_now : quiet now.
Proof. by intros w. Qed.
Lemma quiet_id_draw : quiet newAgentOperationID.
Proof. by intros w. Qed.
Lemma quiet_bind {A B} (m : M A) (f : A → M B) : quiet m → (∀ a, quiet (f a)) → quiet (m ≫= f).
Proof.
  intros Hm Hf w. unfold mbind, M_bind. destruct (Hm w) as [Ho Hp]. destruct (m w) as [[a|e] w1]; simpl in *; [|done].
  destruct (Hf a w1) as [Ho' Hp']. by rewrite Ho', Hp'.
Qed.
Lemma quiet_statement {A} (f : DB → result (A * DB)) :
  (∀ db a db', f db = Ok (a, db') → tbl (A := AgentOperation) db' = tbl db) → quiet (statement f).
Proof.
  intros Hf w. unfold statement. destruct (fault (w_tick w)); [done|]. destruct (f (w_db w)) as [[a db]|e] eqn:Hr; [|done].
  split; [|done]. by apply Hf in Hr.
Qed.
Lemma quiet_query {A} (f : DB → result A) : quiet (query f).
Proof. apply quiet_statement. intros db a db' (x & _ & Hx)%result_bind_Ok. by injection Hx as _ <-. Qed.
Lemma quiet_first {A} `{HasTable A} (test : A → bool) : quiet (first test).
Proof. apply quiet_query. Qed.
Lemma quiet_find {A} `{HasTable A} (test : A → bool) : quiet (find test).
Proof. apply quiet_query. Qed.
Lemma quiet_guard b e : quiet (guard_not b e).
Proof. by destruct b. Qed.
Lemma quiet_on_cluster {A} (m : Prelude.M Cluster A) : quiet (on_cluster m).
Proof. intros w. unfold on_cluster. by destruct (m _). Qed.

Lemma apart_alerts (t : table AlertEvent) db : tbl (A := AgentOperation) (put t db) = tbl db.
Proof. by destruct db as [? ? ? ? ? ? ? ? ? ? ? ? ? [] ?]. Qed.
Lemma apart_audits (t : table AuditLog) db : tbl (A := AgentOperation) (put t db) = tbl db.
Proof. by destruct db as [? ? ? ? ? ? ? ? ? ? ? ? ? [] ?]. Qed.

Lemma quiet_audit input : quiet (Service_Record input).
Proof.
  apply quiet_bind; [apply quiet_guard|]. intros _. apply quiet_bind; [apply quiet_now|]. intros at_.
  apply quiet_bind; [|intros a; apply quiet_ret].
  apply quiet_statement. intros db a db' (p & _ & Hp)%result_bind_Ok. injection Hp as _ <-. apply apart_audits.
Qed.
Lemma quiet_alert e : quiet (UpdateAlertEvent e).
Proof.
  apply quiet_bind; [apply quiet_guard|]. intros _.
  apply quiet_statement. intros db a db' (p & _ & Hp)%result_bind_Ok. injection Hp as _ <-. apply apart_alerts.
Qed.
Lemma quiet_capability id capability namespace : quiet (HasAgentCapability id capability namespace).
Proof. unfold HasAgentCapability. destruct (negb _); [apply quiet_ret|]. apply quiet_bind; [apply quiet_find|intros l; apply quiet_ret]. Qed.

(** ** Handlers of quiet steps *)

#[local] Abbreviation D := (disciplined sound trades).
(** Only the discipline matters: every end is as good as another. *)
Definition any {A} (_ : result A) (_ : list token) : Prop := True.

Lemma D_step_or {A B} (m : M A) g (f : A → handler W B) ks :
  quiet m → (∀ a, D ks (f a) any) → D ks (step_or m g ≫= f) any.
Proof.
  intros Hq Hf w Hw. exists ks. split; [by apply quiet_trades|]. by destruct (m w).1; [apply Hf|].
Qed.
Lemma D_tried {A B} (m : M A) (f : result A → handler W B) ks :
  quiet m → (∀ r, D ks (f r) any) → D ks (tried m ≫= f) any.
Proof. intros Hq Hf w Hw. exists ks. split; [by apply quiet_trades|]. apply Hf. Qed.
Lemma D_ignored {A B} (m : M A) (f : unit → handler W B) ks :
  quiet m → D ks (f tt) any → D ks (ignored m ≫= f) any.
Proof. intros Hq Hf w Hw. exists ks. split; [by apply quiet_trades|]. apply Hf. Qed.
Lemma D_refuse {A} e ks : D ks (refuse (A := A) e) any.
Proof. done. Qed.
Lemma D_refuse_bind {A B} e (f : A → handler W B) ks : D ks (refuse e ≫= f) any.
Proof. done. Qed.
Lemma D_ret {A} (a : A) ks : D ks (mret a) any.
Proof. done. Qed.
Lemma D_refuse_if {B} b e (f : unit → handler W B) ks : (b = false → D ks (f tt) any) → D ks (refuse_if b e ≫= f) any.
Proof. destruct b; [done|]. intros Hf. by apply Hf. Qed.
(** A handler that keeps the tokens, as a part of another. *)
Definition keeping (ks : list token) {A} (_ : result A) (ks' : list token) : Prop := ks' = ks.
Lemma D_part {A B} (p : handler W A) (f : A → handler W B) ks :
  disciplined sound trades ks p (keeping ks) → (∀ a, D ks (f a) any) → D ks (p ≫= f) any.
Proof. intros Hp Hf. eapply disciplined_bind; [exact Hp| |done]. by intros a ks' ->. Qed.

Lemma K_ignored {A} (m : M A) ks : quiet m → disciplined sound trades ks (ignored m) (keeping ks).
Proof. intros Hq w Hw. exists ks. split; [by apply quiet_trades|done]. Qed.
Lemma K_tried {A B} (m : M A) (f : result A → handler W B) ks : quiet m →
  (∀ r, disciplined sound trades ks (f r) (keeping ks)) → disciplined sound trades ks (tried m ≫= f) (keeping ks).
Proof. intros Hq Hf w Hw. exists ks. split; [by apply quiet_trades|]. apply Hf. Qed.
Lemma K_step_or {A B} (m : M A) g (f : A → handler W B) ks : quiet m →
  (∀ r, disciplined sound trades ks (f r) (keeping ks)) → disciplined sound trades ks (step_or m g ≫= f) (keeping ks).
Proof. intros Hq Hf w Hw. exists ks. split; [by apply quiet_trades|]. by destruct (m w).1; [apply Hf|]. Qed.

Lemma K_audit c runtimeID userID action outcome operationID detail ks :
  disciplined sound trades ks (audit c runtimeID userID action outcome operationID detail) (keeping ks).
Proof. apply K_tried; [apply quiet_first|]. intros r. apply K_ignored, quiet_audit. Qed.
Lemma K_agent_audit instance action detail ks :
  disciplined sound trades ks (agent_audit instance action detail) (keeping ks).
Proof. apply K_ignored, quiet_audit. Qed.
Lemma K_capability instance capability namespace ks :
  disciplined sound trades ks (requireCapability instance capability namespace) (keeping ks).
Proof.
  apply K_step_or; [apply quiet_capability|]. intros []; [done|].
  eapply disciplined_bind; [apply K_agent_audit| |]; by intros ? ? ->.
Qed.

(** ** Reading an operation *)

Lemma D_know {B} id g (f : AgentOperation → handler W B) ks :
  (∀ o, operation_ok o → ao_OperationID o = id → D (Known o :: ks) (f o) any) →
  D ks (step_or (GetAgentOperation id) g ≫= f) any.
Proof.
  intros Hf w Hw. pose proof (quiet_first (λ o : AgentOperation, bool_decide (ao_OperationID o = id))) as Hq.
  unfold GetAgentOperation. destruct (first _ w) as [[o|e] w'] eqn:Hr; simpl.
  - apply first_Ok in Hr as Hx. destruct Hx as (Hid%bool_decide_eq_true & Hin & _).
    destruct (Hq w) as [Hops Hp]. rewrite Hr in Hops, Hp. simpl in *.
    apply keyed_elem in Hin; [|apply Hw]. exists (Known o :: ks). split.
    + apply (trade_know _ _ _ _ o); [|done| |done].
      * destruct (quiet_trades _ w [] Hq Hw) as [He| | |]; rewrite Hr in *; done.
      * exists (row_id o), o. by rewrite Hops.
    + apply Hf; [by eapply snd_ok|done].
  - exists ks. split; [|done]. pose proof (quiet_trades _ w ks Hq Hw) as Ht. by rewrite Hr in Ht.
Qed.

(** ** Moving an operation *)

Lemma allowed_ok from to err approved completedAt (o : AgentOperation) :
  allowed from to (fst <$> approved) completedAt → summary_fits err → ao_Status o = from → operation_ok o →
  operation_ok (set_operation to err approved completedAt o) ∧
  (in_execution o → in_execution (set_operation to err approved completedAt o)).
Proof.
  intros Ha Hfit Hst [Hs Hp Happ Hat Hc Hsum].
  destruct o as [i oi r c q cs p hh v st su es ab aa ex ca cr]; cbn in Hst; subst st.
  unfold in_execution.
  inversion Ha; subst; destruct approved as [[by' at']|]; simplify_eq/=;
    (split; [constructor; cbn [set_operation ao_Status ao_Parameters ao_Capability ao_ParametersHash ao_ApprovedBy ao_ApprovedAt
        ao_CompletedAt ao_ErrorSummary]|]).
  all: first [reflexivity | done | assumption].
Qed.

Lemma set_operation_request to err approved completedAt o :
  request_of (set_operation to err approved completedAt o) = request_of o.
Proof. by destruct o. Qed.
Lemma set_operation_status to err approved completedAt o : ao_Status (set_operation to err approved completedAt o) = to.
Proof. by destruct o. Qed.
Lemma in_status_spec id from o : in_status id from o = true ↔ ao_OperationID o = id ∧ ao_Status o = from.
Proof. unfold in_status. by rewrite andb_true_iff, !bool_decide_eq_true. Qed.

#[export] Instance agent_operation_keyed : KeyedRow AgentOperation.
Proof. by intros id []. Qed.

Definition moved (id from to err : string) (approved : option (Z * Z)) (completedAt : option Z) :=
  t_update (in_status id from) (set_operation to err approved completedAt).

(** The update of a table of well-formed operations. *)
Lemma moved_row (w w' : W) id from to err approved completedAt i o :
  allowed from to (fst <$> approved) completedAt → summary_fits err → sound w →
  operations w' = moved id from to err approved completedAt (operations w) →
  t_rows (operations w) !! i = Some o →
  ∃ o', t_rows (operations w') !! i = Some o' ∧ later o o' ∧ operation_ok o' ∧ (in_status id from o = true → ao_Status o' = to).
Proof.
  intros Ha Hfit Hw Hops Hi. pose proof (snd_ok _ Hw _ _ Hi) as Hok.
  rewrite Hops. unfold moved. rewrite lookup_t_update, Hi. cbn [fmap option_fmap option_map].
  destruct (in_status id from o) eqn:Hin.
  - pose proof Hin as [_ Hst]%in_status_spec. destruct (allowed_ok _ _ _ _ _ _ Ha Hfit Hst Hok) as [Hset Hexec].
    eexists. split_and!; [reflexivity| |done|intros _; apply set_operation_status].
    constructor; [apply set_operation_request|done|]. rewrite Hst. by inversion Ha.
  - eexists. by split_and!.
Qed.

Lemma moved_evolves (w w' : W) id from to err approved completedAt :
  allowed from to (fst <$> approved) completedAt → summary_fits err → sound w →
  operations w' = moved id from to err approved completedAt (operations w) → evolves w w'.
Proof.
  intros Ha Hfit Hw Hops. pose proof (λ i o, moved_row _ _ _ _ _ _ _ _ i o Ha Hfit Hw Hops) as Hrow.
  assert (∀ i o', t_rows (operations w') !! i = Some o' →
    ∃ o, t_rows (operations w) !! i = Some o ∧ request_of o' = request_of o ∧ operation_ok o') as Hback.
  { intros i o' Hi. assert (is_Some (t_rows (operations w) !! i)) as [o Ho].
    { revert Hi. rewrite Hops. unfold moved. rewrite lookup_t_update. destruct (t_rows (operations w) !! i); [by eexists|done]. }
    destruct (Hrow _ _ Ho) as (x & Hx & [Hr _ _] & Hok & _). assert (x = o') as -> by congruence. by exists o. }
  split.
  - constructor.
    + rewrite Hops. apply keyed_update; [by intros []|apply Hw].
    + intros i j a b Hi Hj Hab. destruct (Hback _ _ Hi) as (a0 & Ha0 & Hra & _), (Hback _ _ Hj) as (b0 & Hb0 & Hrb & _).
      eapply (snd_unique _ Hw); [done..|]. by rewrite <-(request_id _ _ Hra), <-(request_id _ _ Hrb).
    + intros i o Hi. by destruct (Hback _ _ Hi) as (? & _ & _ & ?).
  - intros i o Hi. destruct (Hrow _ _ Hi) as (o' & ? & ? & _). by exists o'.
Qed.

Lemma status_update_reads (w : W) id from to err approvedBy completedAt :
  ∃ approved w0, fst <$> approved = approvedBy ∧ w_db w0 = w_db w ∧ w_cluster w0 = w_cluster w ∧
    UpdateAgentOperationStatus id from to err approvedBy completedAt w =
      (affected ← statement (λ db, Ok (length (select (in_status id from) (tbl db)),
         put (moved id from to err approved completedAt (tbl db)) db));
       mret (bool_decide (affected = 1))) w0.
Proof.
  destruct approvedBy as [by_|]; [exists (Some (by_, clock (w_tick w))), (tick w) | exists None, w]; by split_and!.
Qed.

(** What [UpdateAgentOperationStatus] does, and when it reports a change. *)
Lemma status_update_spec (w : W) id from to err approvedBy completedAt :
  allowed from to approvedBy completedAt → summary_fits err → sound w →
  let '(r, w') := UpdateAgentOperationStatus id from to err approvedBy completedAt w in
  evolves w w' ∧ performed w' = performed w ∧
  (r = Ok true → named w id (λ o, ao_Status o = from) ∧ named w' id (λ o, ao_Status o = to)).
Proof.
  intros Ha Hfit Hw. destruct (status_update_reads w id from to err approvedBy completedAt) as (approved & w0 & <- & Hdb & Hc & ->).
  unfold mbind, M_bind. set (f := λ db : DB, Ok _).
  destruct (statement_cases f w0) as [(e & ->)|(n & db & Hf & ->)].
  - split_and!; [|unfold performed; cbn; by rewrite Hc|done]. destruct Hw as [Hk Hu Ho].
    assert (operations (tick w0) = operations w) as Hops by (unfold operations; cbn; by rewrite Hdb).
    split; [constructor; by rewrite Hops|]. intros i o Hi. exists o. by rewrite Hops.
  - subst f. injection Hf as Hn <-. cbn [mret M_ret].
    set (w' := set_db _ (tick w0)).
    assert (operations w' = moved id from to err approved completedAt (operations w)) as Hops.
    { unfold operations, w'. cbn. rewrite tbl_put. by rewrite Hdb. }
    assert (evolves w w') as He by by eapply moved_evolves. split_and!; [done|unfold performed; cbn; by rewrite Hc|].
    intros [= Htrue%bool_decide_eq_true]. rewrite Hdb in Hn.
    destruct (select (in_status id from) (tbl (w_db w))) as [|o l] eqn:Hsel; [simpl in Hn; lia|].
    assert (o ∈ select (in_status id from) (tbl (w_db w))) as [Hin Ho%keyed_elem]%elem_of_select by (rewrite Hsel; left); [|apply Hw].
    pose proof Hin as [Hid Hst]%in_status_spec. split; [by exists (row_id o), o|].
    destruct (moved_row _ _ _ _ _ _ _ _ _ _ Ha Hfit Hw Hops Ho) as (o' & Hi' & [Hr _ _] & _ & Hst').
    exists (row_id o), o'. split_and!; [done| |by apply Hst']. rewrite <-Hid. by apply request_id.
Qed.

Lemma update_status_step {B} id from to err approvedBy completedAt (f : bool → handler W B) ks :
  allowed from to approvedBy completedAt → summary_fits err →
  (∀ w w' r, sound w → evolves w w' → performed w' = performed w →
     (r = Ok true → named w id (λ o, ao_Status o = from) ∧ named w' id (λ o, ao_Status o = to)) →
     ∃ ks', trades w ks w' ks' ∧ D ks' (f (from_ok false r)) any) →
  D ks (update_status id from to err approvedBy completedAt ≫= f) any.
Proof.
  intros Ha Hfit Hf w Hw. pose proof (status_update_spec w id from to err approvedBy completedAt Ha Hfit Hw) as Hs.
  change (∃ ks', trades w ks (UpdateAgentOperationStatus id from to err approvedBy completedAt w).2 ks' ∧
    D ks' (f (from_ok false (UpdateAgentOperationStatus id from to err approvedBy completedAt w).1)) any).
  destruct (UpdateAgentOperationStatus _ _ _ _ _ _ w) as [r w']. destruct Hs as (He & Hp & Hwon). by apply Hf.
Qed.
Lemma D_update_status {B} id from to err approvedBy completedAt (f : bool → handler W B) ks :
  allowed from to approvedBy completedAt → summary_fits err → (∀ b, D ks (f b) any) →
  D ks (update_status id from to err approvedBy completedAt ≫= f) any.
Proof.
  intros Ha Hfit Hf. apply update_status_step; [done..|]. intros w w' r Hw He Hp _. exists ks.
  split; [by apply trade_none|apply Hf].
Qed.

Lemma approve_unfold {B} c (o : AgentOperation) to err (f : unit → handler W B) :
  approve_operation c o to err ≫= f =
  update_status (ao_OperationID o) AgentOperationPendingApproval to err (Some (id_UserID (br_Identity c))) None ≫=
    λ changed, refuse_if (negb changed) (Conflict "Agent 操作状态已变化") ≫= f.
Proof. reflexivity. Qed.

(** The approval gives the right to perform. *)
Lemma D_approve {B} c (o : AgentOperation) (f : unit → handler W B) ks :
  Known o ∈ ks → D (Won o :: ks) (f tt) any → D ks (approve_operation c o AgentOperationApproved "" ≫= f) any.
Proof.
  intros Hk Hf. rewrite approve_unfold. apply update_status_step; [constructor|apply le_0_n|].
  intros w w' r Hw He Hp Hwon. destruct r as [[]|e]; [|exists ks; split; [by apply trade_none|done]..].
  destruct (Hwon eq_refl) as [Hpend (i & x & Hi & Hid & Hst)]. exists (Won o :: ks). split; [|exact Hf].
  apply (trade_win _ _ _ _ o); [done..|]. exists i, x. split_and!; [done..|]. unfold in_execution. by rewrite Hst.
Qed.
Lemma D_reject {B} c (o : AgentOperation) err (f : unit → handler W B) ks :
  summary_fits err → D ks (f tt) any → D ks (approve_operation c o AgentOperationRejected err ≫= f) any.
Proof.
  intros Hfit Hf. rewrite approve_unfold. apply D_update_status; [constructor|done|]. intros b. by apply D_refuse_if.
Qed.
Lemma D_complete {B} (o : AgentOperation) to err (f : unit → handler W B) ks :
  (∀ at_, allowed AgentOperationApproved to None (Some at_)) → summary_fits err → D ks (f tt) any →
  D ks (complete_operation o to err ≫= f) any.
Proof.
  intros Ha Hfit Hf. unfold complete_operation.
  change (D ks (step_or now id ≫= λ at_, update_status (ao_OperationID o) AgentOperationApproved to err None (Some at_) ≫= λ _, f tt) any).
  apply D_step_or; [apply quiet_now|]. intros at_. apply D_update_status; [apply Ha|done|done].
Qed.

(** ** Performing an operation *)

Lemma performing_evolves (w w' : W) : sound w → operations w' = operations w → evolves w w'.
Proof.
  intros [Hk Hu Ho] Hops. split; [constructor; by rewrite Hops|]. intros i o Hi. exists o. by rewrite Hops.
Qed.
Lemma D_perform {A B} (m : M A) (o : AgentOperation) e (f : result A → handler W B) ks :
  (∀ w, operations (m w).2 = operations w ∧ performed (m w).2 = performed w ++ [(ao_OperationID o, e)]) →
  intended o e → (∀ r, D ks (f r) any) → D (Won o :: ks) (tried m ≫= f) any.
Proof.
  intros Hm Hint Hf w Hw. exists ks. split; [|apply Hf]. destruct (Hm w) as [Hops Hp].
  eapply trade_perform; [by apply performing_evolves|exact Hp|done|done].
Qed.
Lemma D_perform_or {A B} (m : M A) (o : AgentOperation) e g (f : A → handler W B) ks :
  (∀ w, operations (m w).2 = operations w ∧ performed (m w).2 = performed w ++ [(ao_OperationID o, e)]) →
  intended o e → (∀ r, D ks (f r) any) → D (Won o :: ks) (step_or m g ≫= f) any.
Proof.
  intros Hm Hint Hf w Hw. exists ks. split; [|by destruct (m w).1; [apply Hf|]]. destruct (Hm w) as [Hops Hp].
  eapply trade_perform; [by apply performing_evolves|exact Hp|done|done].
Qed.

Lemma performs_update id namespace ctx d (w : W) :
  operations (update_deployment id namespace ctx d w).2 = operations w ∧
  performed (update_deployment id namespace ctx d w).2 = performed w ++ [(id, Scaled namespace d)].
Proof. by split. Qed.
Lemma performs_cleanup id server recipe (w : W) : ValidCleanupRecipe recipe = true →
  operations (CleanupService_Execute id server recipe w).2 = operations w ∧
  performed (CleanupService_Execute id server recipe w).2 = performed w ++ [(id, Ran server (120 * second) (cleanupCommand recipe))].
Proof.
  intros Hr. unfold CleanupService_Execute. rewrite Hr. cbn [negb]. unfold mbind, M_bind, run_command.
  by destruct (ssh_Execute _ _ _ _) as [out [e|]].
Qed.
Lemma performs_pull id server image (w : W) : blank_text image = false →
  operations (NodePullService_Pull id server image w).2 = operations w ∧
  performed (NodePullService_Pull id server image w).2 = performed w ++ [(id, Ran server (120 * second) (PullCommand image))].
Proof.
  intros Hi. unfold NodePullService_Pull. rewrite Hi. unfold mbind, M_bind, run_command. cbn [guard_not mret M_ret].
  by destruct (ssh_Execute _ _ _ _) as [out [e|]].
Qed.

(** ** Recording an operation *)

Lemma create_apart (a b : AgentOperation) (t t' : table AgentOperation) i x :
  keyed t → t_create a t = Ok (b, t') → t_rows t !! i = Some x → ao_OperationID x ≠ ao_OperationID a.
Proof.
  intros Hk Hc Hi Heq. pose proof (created_apart _ _ _ _ _ _ Hk Hc Hi) as Hx. cbn in Hx.
  by rewrite bool_decide_eq_true_2 in Hx.
Qed.

Lemma create_operation_evolves (w w' : W) a b :
  sound w → operation_ok a → t_create a (operations w) = Ok (b, operations w') → evolves w w'.
Proof.
  intros Hw Ha Hc. pose proof (λ i x, create_apart _ _ _ _ i x (snd_keyed _ Hw) Hc) as Hapart.
  destruct (keyed_create _ _ _ _ (snd_keyed _ Hw) Hc) as (Hk & -> & Hfresh & Hrows).
  assert (operation_ok (with_id (t_next (operations w)) (defaults a))) as Hok by (destruct Ha; destruct a; by constructor).
  assert (ao_OperationID (with_id (t_next (operations w)) (defaults a)) = ao_OperationID a) as Hid by by destruct a.
  revert Hok Hid Hrows. generalize (with_id (t_next (operations w)) (defaults a)) as b. intros b Hok Hid Hrows.
  split.
  - constructor; [done| |].
    + intros i j x y. rewrite !Hrows, !lookup_insert_Some. intros [[<- <-]|[_ Hi]] [[<- <-]|[_ Hj]] Hxy; [done| | |].
      * by destruct (Hapart _ _ Hj); rewrite <-Hxy, Hid.
      * by destruct (Hapart _ _ Hi); rewrite Hxy, Hid.
      * by eapply (snd_unique _ Hw).
    + intros i x. rewrite Hrows, lookup_insert_Some. intros [[<- <-]|[_ Hi]]; [done|by eapply snd_ok].
  - intros i x Hi. exists x. split; [|done]. rewrite Hrows, lookup_insert_ne; [done|]. intros <-. congruence.
Qed.

Lemma create_unfold o (w : W) :
  CreateAgentOperation o w =
    if incomplete_operation o then (Err (EText "invalid agent operation"), w) else
    statement (λ db,
      match first_row (select (same_request o) (tbl db)) with
      | Ok existing => Ok ((existing, false), db)
      | Err _ => p ← t_create (set_operation_created (clock (w_tick w)) o) (tbl db); Ok ((p.1, true), put p.2 db)
      end) (tick w).
Proof. unfold CreateAgentOperation. by destruct (incomplete_operation o). Qed.

Lemma create_step (w : W) o :
  sound w → (∀ at_, operation_ok (set_operation_created at_ o)) →
  evolves w (CreateAgentOperation o w).2 ∧ performed (CreateAgentOperation o w).2 = performed w.
Proof.
  intros Hw Ho.
  assert (∀ w' : W, operations w' = operations w → evolves w w') as Hsame by (intros; by apply performing_evolves).
  rewrite create_unfold. destruct (incomplete_operation o); [by split; [apply Hsame|]|].
  set (f := λ db : DB, match first_row _ with Ok _ => _ | Err _ => _ end).
  destruct (statement_cases f (tick w)) as [(e & ->)|(x & db & Hf & ->)]; [by split; [apply Hsame|]|].
  split; [|done]. subst f. cbn [w_db tick] in Hf. cbn [snd]. destruct (first_row _) as [existing|e].
  - injection Hf as _ <-. by apply Hsame.
  - apply result_bind_Ok in Hf as ([b t] & Hc & Hx). injection Hx as _ <-.
    eapply create_operation_evolves; [done|apply Ho|]. unfold operations at 2. cbn. rewrite tbl_put. exact Hc.
Qed.

Lemma new_operation_ok operationID capability requestID call parameters rv summary at_ created :
  parameters_ok capability parameters →
  operation_ok (set_operation_created created (new_operation operationID capability requestID call parameters rv summary at_)).
Proof.
  intros Hp. constructor; try reflexivity; [|apply le_0_n]. exists parameters. by split_and!.
Qed.

Lemma D_record {B} capability requestID call parameters rv summary failure (f : AgentOperation → handler W B) ks :
  parameters_ok capability parameters → (∀ o, D ks (f o) any) →
  D ks (record_operation capability requestID call parameters rv summary failure ≫= f) any.
Proof.
  intros Hp Hf. unfold record_operation.
  apply D_part; [|done]. apply K_step_or; [apply quiet_id_draw|]. intros operationID.
  apply K_step_or; [apply quiet_now|]. intros at_ w Hw. exists ks. split.
  - apply trade_none; [| |done]; apply create_step; (done || intros; by apply new_operation_ok).
  - by destruct (CreateAgentOperation _ w).1.
Qed.

(** ** The handlers keep the discipline *)

Lemma get_keeps {A} (c : Codec A) (P : A → Prop) name cur ms v :
  (∀ x j y, P x → decode c x j = Some y → P y) → P cur → get c name cur ms = Some v → P v.
Proof.
  intros Hc. revert cur. induction ms as [|[k j] ms IH]; intros cur Hcur Hg; simpl in Hg; [congruence|].
  destruct (same_key name k); [|by eapply IH]. apply bind_Some in Hg as (x & Hx & Hg). eapply IH; [|exact Hg]. by eapply Hc.
Qed.
Lemma get_u64_range name cur ms v : is_u64 cur → get u64_codec name cur ms = Some v → is_u64 v.
Proof.
  apply get_keeps. intros x j y Hx Hd. destruct j; simpl in Hd; try done; [congruence|]. case_decide; congruence.
Qed.

Lemma D_read {A B} (m : M A) g (f : A → handler W B) ks :
  quiet m → (∀ a, (∃ w w', m w = (Ok a, w')) → D ks (f a) any) → D ks (step_or m g ≫= f) any.
Proof.
  intros Hq Hf w Hw. exists ks. split; [by apply quiet_trades|].
  change (D ks (handler_bind f (Finished (map_err g (m w).1))) any).
  destruct (m w) as [[a|e] w'] eqn:Hr; [|done]. apply Hf. by exists w, w'.
Qed.

Lemma K_answering {A} g (p : handler W A) ks :
  disciplined sound trades ks p (keeping ks) → disciplined sound trades ks (answering g p) (keeping ks).
Proof.
  generalize ks at 1 3. induction p as [r|B m rest IH]; intros ks'; [done|].
  intros Hp w Hw. destruct (Hp w Hw) as (ks1 & Ht & Hd). exists ks1. split; [done|]. by apply IH.
Qed.
Lemma K_registryNodeConfig node registry ks :
  disciplined sound trades ks (registryNodeConfig node registry) (keeping ks).
Proof.
  apply K_step_or; [apply quiet_query|]. intros mirrors. apply K_step_or; [apply quiet_query|]. intros proxies.
  destruct (ResolveRegistry registry mirrors proxies) as [config|]; [|done].
  apply K_step_or; [apply quiet_query|]. intros servers. by destruct (agentServerForNode node servers).
Qed.
Lemma K_replay_key call ks : disciplined sound trades ks (replay_key call) (keeping ks).
Proof. unfold replay_key. by destruct (negb _ || _). Qed.

Lemma D_DeploymentScale available call body ks : D ks (DeploymentScale available call body) any.
Proof.
  apply D_part; [apply K_replay_key|]. intros requestID. destruct (body ≫= _) as [request|]; [|done].
  apply D_refuse_if. rewrite !orb_false_iff, !negb_false_iff, !bool_decide_eq_false. intros [[[Hns Hname] Hlo] Hhi].
  apply D_part; [apply K_capability|]. intros _. apply D_refuse_if. intros _.
  apply D_step_or; [apply quiet_on_cluster|]. intros deployment.
  apply D_record; [left; split; [done|]; exists request; split; [done|]; split_and!; [done..|lia|lia]|]. intros stored.
  by apply D_part; [apply K_agent_audit|].
Qed.

Lemma D_RegistryNodePullCheck call body ks : D ks (RegistryNodePullCheck call body) any.
Proof.
  apply D_part; [apply K_replay_key|]. intros requestID. destruct (body ≫= _) as [request|]; [|done].
  apply D_refuse_if. rewrite orb_false_iff, !negb_false_iff. intros [Hnode _].
  apply D_part; [apply K_capability|]. intros _.
  apply D_part; [apply K_answering, K_registryNodeConfig|]. intros [config server].
  apply D_refuse_if. rewrite orb_false_iff. intros [_ Hi].
  apply D_record; [right; right; split; [done|]; eexists; by split; [reflexivity|]|]. intros stored.
  by apply D_part; [apply K_agent_audit|].
Qed.

Lemma D_MaintenanceCleanupRequest call body ks : D ks (MaintenanceCleanupRequest call body) any.
Proof.
  apply D_part; [apply K_capability|]. intros _. destruct (body ≫= _) as [request|] eqn:Hbody; [|done].
  apply D_refuse_if. rewrite orb_false_iff, bool_decide_eq_false, negb_false_iff. intros [Hid Hrecipe].
  apply D_read; [apply quiet_first|]. intros event (w & w' & Hget). apply first_Ok in Hget as [Hal%bool_decide_eq_true _].
  assert (is_u64 (mr_AlertID request)) as Hu.
  { apply bind_Some in Hbody as (j & _ & Hj). destruct j as [| | | | | |ms]; try done; simpl in Hj.
    - injection Hj as <-. by vm_compute.
    - apply bind_Some in Hj as (z & Hz & (r & _ & Hr)%bind_Some). injection Hr as <-. by apply get_u64_range in Hz. }
  apply D_refuse_if. rewrite orb_false_iff. intros [_ Hnode].
  apply D_step_or; [apply quiet_first|]. intros policy. apply D_refuse_if. intros _. apply D_refuse_if. intros _.
  apply D_record.
  { right; left. split; [done|]. eexists. split; [reflexivity|]. split_and!; simpl; congruence. }
  intros stored. apply D_ignored; [apply quiet_alert|]. by apply D_part; [apply K_agent_audit|].
Qed.

(** *** Approvals *)

Lemma D_stale c o message ks : summary_fits message → D ks (markOperationStale c o message) any.
Proof.
  intros Hfit. apply D_update_status; [constructor|done|]. intros changed.
  apply D_part; [|done]. destruct changed; [apply K_audit|done].
Qed.

(** The parameters of a well-formed operation, as an approval reads them. *)
Lemma scale_parameters o r : operation_ok o → ao_Capability o = AgentCapabilityDeploymentScale →
  ao_Parameters o ≫= decode_deploymentScaleRequest zero_deploymentScaleRequest = Some r →
  ao_Parameters o = Some (encode_deploymentScaleRequest r) ∧ scale_ok r.
Proof.
  intros [_ (j & Hj & Hp & _) _ _ _ _] Hc. rewrite Hj. cbn [mbind option_bind].
  destruct Hp as [[_ (x & -> & Hx)]|[[Hc' _]|[Hc' _]]]; [|by rewrite Hc in Hc'..].
  rewrite decode_encode_scale; [by intros [= ->]|]. destruct Hx as (_ & _ & ?). unfold is_i32. lia.
Qed.
Lemma cleanup_parameters o p : operation_ok o → ao_Capability o = AgentCapabilityMaintenanceCleanup →
  ao_Parameters o ≫= decode_maintenanceCleanupParameters zero_maintenanceCleanupParameters = Some p →
  ao_Parameters o = Some (encode_maintenanceCleanupParameters p) ∧ cleanup_ok p.
Proof.
  intros [_ (j & Hj & Hp & _) _ _ _ _] Hc. rewrite Hj. cbn [mbind option_bind].
  destruct Hp as [[Hc' _]|[[_ (x & -> & Hx)]|[Hc' _]]]; [by rewrite Hc in Hc'| |by rewrite Hc in Hc'].
  rewrite decode_encode_cleanup; [by intros [= ->]|]. apply Hx.
Qed.
Lemma pull_parameters o r : operation_ok o → ao_Capability o = AgentCapabilityRegistryPullCheck →
  ao_Parameters o ≫= decode_registryNodeRequest zero_registryNodeRequest = Some r →
  ao_Parameters o = Some (encode_registryNodeRequest r) ∧ pull_ok r.
Proof.
  intros [_ (j & Hj & Hp & _) _ _ _ _] Hc. rewrite Hj. cbn [mbind option_bind].
  destruct Hp as [[Hc' _]|[[Hc' _]|[_ (x & -> & Hx)]]]; [by rewrite Hc in Hc'..|].
  rewrite decode_encode_registry. by intros [= ->].
Qed.

Lemma serverForNode node servers server : agentServerForNode node servers = Some server → sv_K8sNodeName server = node.
Proof. intros [_ Hs%bool_decide_eq_true]%find_first_Some. done. Qed.

Lemma D_resolveDeploymentScale h c o ks :
  operation_ok o → D (Known o :: ks) (resolveDeploymentScale h c o) any.
Proof.
  intros Hok. unfold resolveDeploymentScale. apply D_refuse_if. rewrite orb_false_iff, bool_decide_eq_false. intros [Hc%dec_stable _].
  destruct (ao_Parameters o ≫= _) as [r|] eqn:Hr; [|done]. apply scale_parameters in Hr as [Hp Hs]; [|done..].
  apply D_step_or; [apply quiet_on_cluster|]. intros d. case_decide as Hv.
  { apply D_update_status; [constructor|vm_compute; lia|done]. }
  apply D_approve; [left|]. apply D_part; [apply K_audit|]. intros _.
  eapply D_perform; [apply performs_update| |].
  { split; [done|]. exists r. refine (conj Hp (conj Hs (conj eq_refl (conj eq_refl _)))). exact Hv. }
  intros [u|e].
  - apply D_complete; [constructor|apply le_0_n|]. by apply D_part; [apply K_audit|].
  - apply D_complete; [constructor|apply errorSummary_fits; vm_compute; lia|]. by apply D_part; [apply K_audit|].
Qed.

Lemma D_resolveMaintenanceCleanup h c o ks :
  operation_ok o → ao_Capability o = AgentCapabilityMaintenanceCleanup →
  D (Known o :: ks) (resolveMaintenanceCleanup h c o) any.
Proof.
  intros Hok Hc. unfold resolveMaintenanceCleanup. apply D_refuse_if. intros _.
  destruct (ao_Parameters o ≫= _) as [p|] eqn:Hr; [|done]. apply cleanup_parameters in Hr as [Hp Hs]; [|done..].
  apply D_refuse_if. rewrite !orb_false_iff, !negb_false_iff. intros [[Hrecipe _] _].
  apply D_tried; [apply quiet_first|]. intros [event|e]; [|apply D_stale; vm_compute; lia].
  destruct (_ || _); [apply D_stale; vm_compute; lia|].
  apply D_step_or; [apply quiet_query|]. intros servers.
  destruct (agentServerForNode _ servers) as [server|] eqn:Hserver; [|apply D_stale; vm_compute; lia].
  apply serverForNode in Hserver. apply D_approve; [left|]. apply D_part; [apply K_audit|]. intros _.
  apply D_ignored; [apply quiet_alert|].
  eapply D_perform_or; [intros w; by apply performs_cleanup| |].
  { left. split; [done|]. by exists p. }
  intros [output [e|]]; cbn [snd fst].
  - apply D_complete; [constructor|apply failureSummary_fits|]. apply D_part; [apply K_audit|]. intros _.
    by apply D_ignored; [apply quiet_alert|].
  - apply D_complete; [constructor|apply le_0_n|]. apply D_ignored; [apply quiet_alert|]. by apply D_part; [apply K_audit|].
Qed.

Lemma D_resolveRegistryPullCheck h c o ks :
  operation_ok o → ao_Capability o = AgentCapabilityRegistryPullCheck →
  D (Known o :: ks) (resolveRegistryPullCheck h c o) any.
Proof.
  intros Hok Hc. unfold resolveRegistryPullCheck. apply D_refuse_if. intros _.
  destruct (ao_Parameters o ≫= _) as [r|] eqn:Hr; [|done]. apply pull_parameters in Hr as [Hp Hs]; [|done..].
  apply D_step_or; [apply quiet_query|]. intros mirrors. apply D_step_or; [apply quiet_query|]. intros proxies.
  destruct (ResolveRegistry _ mirrors proxies) as [config|]; [|apply D_stale; vm_compute; lia].
  destruct (_ || _) eqn:Hi; [apply D_stale; vm_compute; lia|]. apply orb_false_iff in Hi as [_ Hi%bool_decide_eq_false%dec_stable].
  apply D_step_or; [apply quiet_query|]. intros servers.
  destruct (agentServerForNode _ servers) as [server|] eqn:Hserver; [|apply D_stale; vm_compute; lia].
  apply serverForNode in Hserver. apply D_approve; [left|]. apply D_part; [apply K_audit|]. intros _. rewrite Hi.
  eapply D_perform; [intros w; apply performs_pull; apply Hs| |].
  { right. split; [done|]. by exists r. }
  intros [u|e].
  - apply D_complete; [constructor|apply le_0_n|]. by apply D_part; [apply K_audit|].
  - apply D_complete; [constructor|apply errorSummary_fits; vm_compute; lia|]. by apply D_part; [apply K_audit|].
Qed.

Lemma D_resolve h c id approve ks : D ks (resolve h c id approve) any.
Proof.
  apply D_know. intros o Hok Hid. apply D_refuse_if. intros _. apply D_step_or; [apply quiet_now|]. intros at_.
  case_decide as Hlate.
  { apply D_update_status; [constructor|vm_compute; lia|]. intros changed. apply D_part; [|done].
    destruct changed; [apply K_audit|done]. }
  destruct approve; cbn [negb].
  - case_decide; [by apply D_resolveRegistryPullCheck|]. case_decide; [by apply D_resolveMaintenanceCleanup|].
    by apply D_resolveDeploymentScale.
  - apply D_reject; [vm_compute; lia|]. by apply D_part; [apply K_audit|].
Qed.

Lemma agent_handler_disciplined p : agent_handler p → D [] p any.
Proof.
  destruct 1; [apply D_DeploymentScale|apply D_RegistryNodePullCheck|apply D_MaintenanceCleanupRequest|apply D_resolve].
Qed.

(** ** Every schedule *)

Lemma evolves_refl w : sound w → evolves w w.
Proof. intros Hw. split; [done|]. intros i o Hi. by exists o. Qed.
Lemma later_trans a b d : later a b → later b d → later a d.
Proof.
  intros [Hr1 Hx1 Ht1] [Hr2 Hx2 Ht2]. constructor; [congruence|tauto|]. intros Ht. specialize (Ht1 Ht) as ->. by apply Ht2.
Qed.
Lemma evolves_trans w1 w2 w3 : evolves w1 w2 → evolves w2 w3 → evolves w1 w3.
Proof.
  intros [_ H12] [Hs H23]. split; [done|]. intros i o Hi. destruct (H12 _ _ Hi) as (o2 & Hi2 & Hl).
  destruct (H23 _ _ Hi2) as (o3 & Hi3 & Hl'). exists o3. split; [done|by eapply later_trans].
Qed.
Lemma trades_evolve w ks w' ks' : trades w ks w' ks' → evolves w w'.
Proof. by intros []. Qed.

(** The invariant, and what became of the operations since [w0]. *)
Definition since (w0 w : W) (held : list token) : Prop := Inv w held ∧ evolves w0 w.

Lemma schedules_keep_invariant schedule pool w :
  Forall agent_handler pool → sound w → performed w = [] →
  ∃ held, since w (interleave schedule pool w).2 held.
Proof.
  intros Hpool Hw Hp.
  assert (pool_ok sound trades (since w) any (pool, w)) as Hok.
  { apply fresh_pool_ok; [eapply Forall_impl; [exact Hpool|apply agent_handler_disciplined]|].
    split; [|by apply evolves_refl].
    constructor; [done|by intros k ?%elem_of_nil|rewrite Hp; constructor|rewrite Hp; by intros ? ? ?%elem_of_nil]. }
  destruct (interleave_invariant sound trades (since w)) with (post := any (A := answered)) (schedule := schedule) (pool := pool) (w := w)
    as (kss & _ & HI); [| | |done|by exists (concat kss)].
  - intros v held [HI _]. by eapply Inv_sound.
  - intros v held held' Hperm [HI He]. split; [by eapply Inv_perm|done].
  - intros v ks v' ks' others Ht [HI He]. split; [by eapply trades_frame|]. by eapply evolves_trans; [|eapply trades_evolve].
Qed.

(** C2: an operation of an agent is performed at most once, after its approval, and as it was asked. However
    the steps of any number of handlers interleave (requests to scale, to check a pull and to clean up;
    approvals and rejections, of the same operation or of others), whatever the database, the cluster, the
    nodes and the random draws answer: no two effects are in the name of one operation; an
    effect is in the name of a stored operation that a person approved, whose status is approved, succeeded or
    failed; and it is the effect of the parameters stored when it was requested: a write of the very revision of the
    deployment that was read then, with the requested number of replicas (0 to 50) in the requested
    namespace, or the command of one of the fixed recipes or the pull of the verification image, on a server that is
    bound to the requested node. *)
Theorem operations_execute_once schedule pool w
    (Hpool : Forall agent_handler pool) (Hsound : sound w) (Hfresh : performed w = []) :
  let w' := (interleave schedule pool w).2 in
  NoDup (performed w').*1 ∧
  ∀ id e, (id, e) ∈ performed w' →
    ∃ i o, t_rows (operations w') !! i = Some o ∧ ao_OperationID o = id ∧ is_Some (ao_ApprovedBy o) ∧
      ao_Status o ∈ executing ∧ intended o e.
Proof.
  destruct (schedules_keep_invariant schedule pool w Hpool Hsound Hfresh) as (held & [Hs _ Ho Hp] & _). split.
  - by apply NoDup_app in Ho as (_ & _ & ?).
  - intros id e Hin. destruct (Hp _ _ Hin) as (i & o & Hi & Hid & Hx & Hint).
    unfold in_execution, among in Hx. apply bool_decide_eq_true in Hx. exists i, o. split_and!; [done..| |done|done].
    pose proof (ook_approver _ (snd_ok _ Hs _ _ Hi)) as Happ. destruct (ao_ApprovedBy o); [by eexists|].
    exfalso. symmetry in Happ. apply bool_decide_eq_false in Happ. apply Happ. unfold executing, decided in *. set_solver.
Qed.

(** C5: the operations of agents stay well typed, and their status machine is respected, under every schedule of
    the handlers. Identifiers stay unique and every row is well formed: its status is one of the seven; its parameters are
    the document of the request type of its capability, with the values the handlers accept, and its hash is
    the digest of their text; an approver and a moment of approval are recorded exactly for approved,
    rejected, succeeded and failed operations, a moment of completion exactly for succeeded and failed ones; and
    the error summary has at most 512 bytes. Nothing of a request ever changes or disappears, what was approved
    stays approved or is completed, and nothing changes after a terminal status. *)
Theorem operations_stay_well_formed schedule pool w
    (Hpool : Forall agent_handler pool) (Hsound : sound w) (Hfresh : performed w = []) :
  let w' := (interleave schedule pool w).2 in
  sound w' ∧ ∀ i o, t_rows (operations w) !! i = Some o → ∃ o', t_rows (operations w') !! i = Some o' ∧ later o o'.
Proof.
  by destruct (schedules_keep_invariant schedule pool w Hpool Hsound Hfresh) as (held & _ & [Hs He]).
Qed.
End safety.

(** ** Witnesses *)

#[local] Existing Instances calm sample_library.
Definition sample_deployment : LiveDeployment :=
  {| ld_Meta := {| lm_Name := "web"; lm_Namespace := "shop"; lm_Labels := ∅; lm_Annotations := ∅; lm_ResourceVersion := "7";
                   lm_Generation := 1; lm_CreationTimestamp := 0 |};
     ld_Replicas := Some 1%Z; ld_Containers := []; ld_Annotations := ∅; ld_Selector := ""; ld_NodeSelector := ∅; ld_Claims := []; ld_Rest := JNull; ld_ObservedGeneration := 1; ld_UpdatedReplicas := 1;
     ld_ReadyReplicas := 1; ld_AvailableReplicas := 1; ld_UnavailableReplicas := 0; ld_Conditions := [] |}.
#[local] Instance agent_server : APIServer := {|
  respond _ _ q := match q return result (answer q) with
    | GetDeployment _ _ => Ok sample_deployment
    | UpdateDeployment _ => Ok tt
    | _ => Err (EText "unavailable")
    end;
  latency _ _ := 1;
  tick_first _ := true
|}.
#[local] Instance agent_nodes : Nodes := λ _ _ _ _, ("", None).
#[local] Instance agent_entropy : Entropy := λ n _, Some (dec (Z.of_nat n)).
#[local] Instance agent_digests : Digests := {| hmac_sha256 key text := text; sha256 text := text |}.
#[local] Instance agent_urls : URLParser := {| url_Parse _ := None |}.

Definition sample_scale : json :=
  encode_deploymentScaleRequest {| ds_Namespace := "shop"; ds_Name := "web"; ds_Replicas := 3 |}.
Definition sample_operation : AgentOperation :=
  {| ao_ID := 1; ao_OperationID := "op_1"; ao_RuntimeID := 1; ao_Capability := AgentCapabilityDeploymentScale;
     ao_RequestID := "r1"; ao_ChatSessionID := ""; ao_Parameters := Some sample_scale;
     ao_ParametersHash := hex_text (sha256 (print sample_scale)); ao_ResourceVersion := "7";
     ao_Status := AgentOperationPendingApproval; ao_Summary := "scale"; ao_ErrorSummary := ""; ao_ApprovedBy := None;
     ao_ApprovedAt := None; ao_ExpiresAt := 900; ao_CompletedAt := None; ao_CreatedAt := 0 |}.
Definition sample_site : World Site :=
  {| w_db := put (one_row sample_operation) empty_db; w_tick := 0;
     w_cluster := {| si_cluster := {| c_log := []; c_time := 0; c_cache := None |}; si_performed := [] |}; w_trace := [] |}.
Definition sample_browser (user : Z) : BrowserCall :=
  {| br_Identity := {| id_UserID := user; id_Username := "admin" |}; br_RequestID := ""; br_Context := None |}.
Definition sample_wired : AgentOperationHandler :=
  {| oh_client := true; oh_registryPullExecutor := true; oh_maintenanceCleanupExecutor := true |}.
(** Two persons approve the same operation at the same time, a third rejects it. *)
Definition sample_pool : list (handler (World Site) answered) :=
  [Approve sample_wired (sample_browser 1) "op_1"; Approve sample_wired (sample_browser 2) "op_1";
   Reject sample_wired (sample_browser 3) "op_1"].
Definition sample_schedule : list nat := [2; 0; 1] ++ concat (replicate 14 [0; 1]) ++ replicate 8 2.

Lemma sample_sound : sound sample_site.
Proof.
  assert (∀ i o, t_rows (operations sample_site) !! i = Some o → i = 1%Z ∧ o = sample_operation) as Hrow.
  { intros i o Hi. by apply (lookup_one_row sample_operation o i) in Hi as [-> ->]. }
  constructor.
  - apply (keyed_one_row sample_operation).
  - by intros i j a b [-> _]%Hrow [-> _]%Hrow.
  - intros i o [_ ->]%Hrow. constructor; try reflexivity; [|apply le_0_n].
    exists sample_scale. split_and!; [done| |done]. left. split; [done|]. eexists. split; [reflexivity|]. by split_and!.
Qed.
Lemma sample_handlers : Forall agent_handler sample_pool.
Proof. repeat constructor. Qed.

(** Exactly one of the two approvals performed the operation. *)
Lemma operations_execute_once_witness :
  (performed (interleave sample_schedule sample_pool sample_site).2).*1 = ["op_1"] ∧
  NoDup (performed (interleave sample_schedule sample_pool sample_site).2).*1.
Proof.
  split; [vm_compute; reflexivity|].
  destruct (operations_execute_once sample_schedule sample_pool sample_site) as [Hn _];
    [exact sample_handlers|exact sample_sound|reflexivity|exact Hn].
Defined.

Lemma operations_stay_well_formed_witness :
  (ao_Status <$> t_list (operations (interleave sample_schedule sample_pool sample_site).2)) = [AgentOperationSucceeded] ∧
  sound (interleave sample_schedule sample_pool sample_site).2.
Proof.
  split; [vm_compute; reflexivity|].
  destruct (operations_stay_well_formed sample_schedule sample_pool sample_site) as [Hn _];
    [exact sample_handlers|exact sample_sound|reflexivity|exact Hn].
Defined.
