(* ===== verification/AgentGrants.v ===== *)
(** * Capabilities that are granted to agents

    What [ReplaceAgentCapabilityGrants] leaves in the table, and that a request without a grant records
    nothing. *)
From Stdlib Require Import ZArith Ascii String Lia.
From stdpp Require Import base sorting pretty numbers gmap strings list.
From S2P Require Import Prelude GoStrings Json ReleaseSpec ReleaseValidation Models PlatformModels Cluster Store PlatformStore Api AuditTrail Tokens NodeMaintenance RegistryNodes RegistryStore Interleaving AgentRequests AgentOperations AgentSafety.

(** ** Replacing the grants of a runtime *)

#[export] Instance grant_keyed : KeyedRow AgentCapabilityGrant.
Proof. by intros id []. Qed.

(** A grant without its key *)
Definition grant_of (g : AgentCapabilityGrant) : AgentCapabilityGrant := with_id 0%Z g.
Definition grants_of (runtimeID : Z) (t : table AgentCapabilityGrant) : list AgentCapabilityGrant :=
  select (λ g, bool_decide (gr_RuntimeID g = runtimeID)) t.

Section grants.
Context `{K8sLibrary} {C : Type} `{Surroundings}.

Lemma keyed_insert (a b : AgentCapabilityGrant) t t' :
  keyed t → t_insert a t = Ok (b, t') →
  keyed t' ∧ grant_of b = grant_of a ∧ gr_RuntimeID b = gr_RuntimeID a ∧ t_rows t !! row_id b = None ∧
  t_rows t' = <[row_id b := b]> (t_rows t).
Proof.
  intros Hk. unfold t_insert. case_decide as Hid.
  - intros Hc. destruct (keyed_create _ _ _ _ Hk Hc) as (Hk' & -> & Hfresh & Hrows). rewrite row_id_with_id.
    split_and!; [done|by destruct a|by destruct a|done|done].
  - destruct (bool_decide _ || _) eqn:Hb; [done|].
    replace (with_id (row_id a) (defaults a)) with a by by destruct a. intros [= <- <-].
    apply orb_false_iff in Hb as [Hb%bool_decide_eq_false _].
    split_and!; try done.
    + destruct Hk as [Hki Hkn]. split; simpl; intros i x [[<- <-]|[_ Hx]]%lookup_insert_Some; [done|by apply Hki|lia|].
      apply Hkn in Hx. lia.
    + by destruct (t_rows t !! row_id a); [destruct Hb; eexists|].
Qed.

Lemma create_grants_Ok runtimeID grants t t' :
  keyed t → create_grants runtimeID grants t = Ok t' →
  keyed t' ∧ Forall (λ g, gr_RuntimeID g = runtimeID ∧ validAgentCapabilityGrant g = true) grants ∧
  (∀ i g, t_rows t !! i = Some g → t_rows t' !! i = Some g) ∧
  (∀ i g, t_rows t' !! i = Some g → t_rows t !! i = Some g ∨ gr_RuntimeID g = runtimeID ∧ grant_of g ∈ grant_of <$> grants) ∧
  (∀ g, g ∈ grants → ∃ i g', t_rows t' !! i = Some g' ∧ grant_of g' = grant_of g).
Proof.
  revert t. induction grants as [|g grants IH]; intros t Hk Hc; simpl in Hc.
  { injection Hc as <-. split_and!; [done|constructor|done|by left|by intros g ?%elem_of_nil]. }
  destruct (bool_decide _ || _) eqn:Hb; [done|].
  apply orb_false_iff in Hb as [Hid%bool_decide_eq_false%dec_stable Hvalid%negb_false_iff].
  apply result_bind_Ok in Hc as ([b t1] & Ht1 & Hc). destruct (keyed_insert _ _ _ _ Hk Ht1) as (Hk1 & Hbg & Hbid & Hfresh & Hrows).
  rewrite Hid in Hbid.
  destruct (IH _ Hk1 Hc) as (Hk' & Hall & Hkeep & Hback & Hthere).
  assert (t_rows t' !! row_id b = Some b) as Hnew by (apply Hkeep; by rewrite Hrows, lookup_insert_eq).
  split_and!; [done|by constructor| | |].
  - intros i x Hi. apply Hkeep. rewrite Hrows, lookup_insert_ne; [done|]. intros <-. congruence.
  - intros i x [Hi|[Hx Hin]]%Hback; [|right; split; [done|by right]].
    rewrite Hrows in Hi. apply lookup_insert_Some in Hi as [[_ <-]|[_ Hi]]; [|by left].
    right. split; [done|]. rewrite Hbg. left.
  - intros x [->|Hin]%elem_of_cons; [by exists (row_id b), b|by apply Hthere].
Qed.

(** The grants of a runtime are replaced as a whole. When the replacement fails nothing changes.
    When it succeeds, every grant that was given is of this runtime, of a known capability, for all namespaces or
    for one of a valid name, and for all of them when the capability reaches beyond a namespace; the
    grants of the runtime are then exactly those given, up to their keys; and those of other runtimes
    are untouched. *)
Theorem grants_replaced runtimeID grants (w w' : World C) r
    (Hkeyed : keyed (tbl (A := AgentCapabilityGrant) (w_db w)))
    (Hrun : ReplaceAgentCapabilityGrants runtimeID grants w = (r, w')) :
  match r with
  | Err _ => w_db w' = w_db w
  | Ok _ =>
      (∀ g, g ∈ grants → gr_RuntimeID g = runtimeID ∧ ValidAgentCapability (gr_Capability g) = true ∧
         (gr_Namespace g = "*" ∨ NamespaceValid (gr_Namespace g) = true ∧ gr_Capability g ∉ cluster_capabilities)) ∧
      (∀ g, g ∈ grant_of <$> grants ↔
         ∃ i g', t_rows (tbl (w_db w')) !! i = Some g' ∧ gr_RuntimeID g' = runtimeID ∧ grant_of g' = g) ∧
      (∀ i g, gr_RuntimeID g ≠ runtimeID →
         t_rows (tbl (w_db w')) !! i = Some g ↔ t_rows (tbl (w_db w)) !! i = Some g)
  end.
Proof.
  destruct r as [u|e].
  2:{ unfold ReplaceAgentCapabilityGrants, execute in Hrun.
      destruct (statement_cases (λ db, t ← create_grants runtimeID grants (t_delete (λ g, bool_decide (gr_RuntimeID g = runtimeID)) (tbl db)); Ok (tt, put t db)) w)
        as [(x & Hx)|(a & db & _ & Hx)]; rewrite Hx in Hrun; by simplify_eq. }
  apply execute_Ok in Hrun as (t & Ht & -> & _). rewrite tbl_put.
  apply create_grants_Ok in Ht as (Hk & Hall & Hkeep & Hback & Hthere); [|by apply keyed_delete].
  assert (∀ i g, t_rows (t_delete (λ g, bool_decide (gr_RuntimeID g = runtimeID)) (tbl (w_db w))) !! i = Some g ↔
    t_rows (tbl (w_db w)) !! i = Some g ∧ gr_RuntimeID g ≠ runtimeID) as Hdel.
  { intros i g. cbn [t_delete t_rows]. rewrite map_lookup_filter_Some, bool_decide_eq_false. done. }
  rewrite Forall_forall in Hall. split_and!.
  - intros g Hg. destruct (Hall g Hg) as [Hid Hv]. split; [done|]. unfold validAgentCapabilityGrant in Hv.
    destruct (_ || _) eqn:Hb; [done|]. apply orb_false_iff in Hb as [Hcap%negb_false_iff Hns]. split; [done|].
    apply andb_false_iff in Hns as [Hns%bool_decide_eq_false%dec_stable|Hns%negb_false_iff]; [by left|].
    case_bool_decide as Hcl; [left; by apply bool_decide_eq_true in Hv|by right].
  - intros g. split.
    + intros (x & -> & Hx)%list_elem_of_fmap. destruct (Hthere x Hx) as (i & g' & Hi & Hg'). exists i, g'. split_and!; [done| |done].
      destruct (Hback _ _ Hi) as [[_ Hne]%Hdel|[? _]]; [|done]. exfalso. apply Hne.
      destruct (Hall x Hx) as [<- _]. clear -Hg'. destruct g', x. by injection Hg' as -> _.
    + intros (i & g' & Hi & Hid & <-). destruct (Hback _ _ Hi) as [[_ Hne]%Hdel|[_ ?]]; [by destruct Hne|done].
  - intros i g Hne. split.
    + intros [[? _]%Hdel|[? _]]%Hback; [done|by destruct Hne].
    + intros Hi. apply Hkeep, Hdel. done.
Qed.
End grants.

(** ** Requests without a grant *)

Section ungranted.
Context `{K8sLibrary} `{!APIServer} `{Surroundings} `{Nodes} `{Entropy} `{Digests} `{URLParser}.
#[local] Abbreviation W := (World Site).
#[local] Abbreviation M := (M W).

Definition granted (runtimeID : Z) (capability namespace : string) (w : W) : Prop :=
  ∃ g, g ∈ t_list (tbl (w_db w)) ∧ gr_RuntimeID g = runtimeID ∧ gr_Capability g = capability ∧ gr_Enabled g = true ∧
    (gr_Namespace g = "*" ∨ gr_Namespace g = namespace ∧ namespace ≠ "").

(** A request that would record an operation, and the grant it needs. *)
Inductive asks : handler W answered → Z → string → string → Prop :=
  | asks_scale available call body request :
      body ≫= decode_deploymentScaleRequest zero_deploymentScaleRequest = Some request →
      asks (DeploymentScale available call body) (rt_ID (ag_Instance call)) AgentCapabilityDeploymentScale (ds_Namespace request)
  | asks_pull_check call body :
      asks (RegistryNodePullCheck call body) (rt_ID (ag_Instance call)) AgentCapabilityRegistryPullCheck ""
  | asks_cleanup call body :
      asks (MaintenanceCleanupRequest call body) (rt_ID (ag_Instance call)) AgentCapabilityMaintenanceCleanup "".

(** The handler fails before it touches an operation or performs anything. *)
Definition refused {A} (p : handler W A) (w : W) : Prop :=
  ∃ e w', alone p w = (Err e, w') ∧ operations w' = operations w ∧ performed w' = performed w.

Lemma refused_now {A} e (w : W) : refused (refuse (A := A) e) w.
Proof. by exists e, w. Qed.
Lemma refused_if {A} b e (f : unit → handler W A) w : (b = false → refused (f tt) w) → refused (refuse_if b e ≫= f) w.
Proof. destruct b; [intros _; by exists e, w|]. intros Hf. by apply Hf. Qed.

Lemma HasAgentCapability_true id capability namespace (w w' : W) :
  HasAgentCapability id capability namespace w = (Ok true, w') → granted id capability namespace w.
Proof.
  unfold HasAgentCapability. destruct (negb _); [done|]. intros (l & w1 & Hl & Hx)%bind_Ok.
  apply find_Ok in Hl as [-> _]. apply ret_Ok in Hx as [Hx _]. symmetry in Hx. apply bool_decide_eq_true in Hx.
  destruct (select _ _) as [|g l] eqn:Hs; [simpl in Hx; lia|].
  assert (g ∈ select (grants_capability id capability namespace) (tbl (w_db w))) as [Hg Hin]%elem_of_select by (rewrite Hs; left).
  unfold grants_capability in Hg. rewrite !andb_true_iff, !bool_decide_eq_true in Hg. destruct Hg as [[[Hid Hc] He] Hns].
  exists g. split_and!; [done..|]. case_decide as Hn; apply bool_decide_eq_true in Hns; [by left|].
  rewrite !elem_of_cons, elem_of_nil in Hns. naive_solver.
Qed.

Lemma refused_bind {A B} (p : handler W A) (f : A → handler W B) w : refused p w → refused (p ≫= f) w.
Proof.
  intros (e & w' & Hp & Ho). exists e, w'. split; [|done]. rewrite alone_bind. unfold mbind, M_bind. by rewrite Hp.
Qed.
Lemma refused_audit {A} instance action detail e (w : W) :
  refused (agent_audit instance action detail ≫= λ _, refuse (A := A) e) w.
Proof.
  unfold refused. rewrite alone_bind. unfold agent_audit, ignored, mbind, M_bind. cbn [alone].
  match goal with |- context [Service_Record ?input w] => pose proof (quiet_audit input w) as Hq; destruct (Service_Record input w) as [r w2] end.
  by exists e, w2.
Qed.
Lemma refused_capability instance capability namespace w :
  ¬ granted (rt_ID instance) capability namespace w → refused (requireCapability instance capability namespace) w.
Proof.
  intros Hno. unfold refused, requireCapability. rewrite alone_bind. unfold mbind at 1, M_bind at 1. cbn [alone step_or].
  pose proof (quiet_capability (rt_ID instance) capability namespace w) as [Hq1 Hq2].
  destruct (HasAgentCapability _ _ _ w) as [[[]|e] w1] eqn:Hh; simpl in Hq1, Hq2.
  - by apply HasAgentCapability_true in Hh.
  - cbn [map_err]. edestruct (refused_audit (A := unit)) as (e & w2 & -> & Ho & Hp). exists e, w2. split_and!; [done|congruence|congruence].
  - cbn [map_err]. by exists (InternalError "capability check failed"), w1.
Qed.

(** C24: an agent gets nothing it was not granted. A request to scale a deployment, to check a pull or to clean
    up that needs a capability which no enabled grant of the runtime gives, for all namespaces or for
    the namespace of the request, is refused: no operation is recorded or changed, and nothing is performed. *)
Theorem ungranted_requests_refused p runtimeID capability namespace w
    (Hasks : asks p runtimeID capability namespace) (Hno : ¬ granted runtimeID capability namespace w) :
  ∃ e w', alone p w = (Err e, w') ∧ operations w' = operations w ∧ performed w' = performed w.
Proof.
  change (refused p w). destruct Hasks as [available call body request Hb|call body|call body].
  - unfold DeploymentScale, replay_key. destruct (negb _ || _) eqn:Hkey; [by eexists _, w|]. cbn [refuse_if mbind handler_mbind handler_bind mret handler_ret].
    destruct body as [j|]; [|done]. cbn [mbind option_bind] in Hb |- *. destruct (only_fields _ j); [|apply refused_now]. rewrite Hb.
    apply refused_if. intros _. by apply refused_bind, refused_capability.
  - unfold RegistryNodePullCheck, replay_key. destruct (negb _ || _) eqn:Hkey; [by eexists _, w|]. cbn [refuse_if mbind handler_mbind handler_bind mret handler_ret].
    destruct (_ ≫= _); [|apply refused_now]. apply refused_if. intros _. by apply refused_bind, refused_capability.
  - by apply refused_bind, refused_capability.
Qed.
End ungranted.

(** ** Witnesses *)

#[local] Existing Instances calm sample_library agent_server agent_nodes agent_entropy agent_digests agent_urls.

Definition sample_grant : AgentCapabilityGrant :=
  {| gr_ID := 0; gr_RuntimeID := 1; gr_Capability := AgentCapabilityDeploymentScale; gr_Namespace := "shop"; gr_Enabled := true |}.
Definition sample_replaced := ReplaceAgentCapabilityGrants 1 [sample_grant] sample_site.
Lemma grants_replaced_witness :
  is_ok sample_replaced.1 = true ∧
  ∃ i g, t_rows (tbl (w_db sample_replaced.2)) !! i = Some g ∧ gr_RuntimeID g = 1%Z ∧ grant_of g = grant_of sample_grant.
Proof.
  split; [vm_compute; reflexivity|].
  pose proof (grants_replaced 1 [sample_grant] sample_site sample_replaced.2 sample_replaced.1
    ltac:(split; intros ? ? ?; done) (surjective_pairing _)) as Hr.
  destruct sample_replaced.1 as [u|e] eqn:He; [|vm_compute in He; discriminate He].
  destruct Hr as (_ & Hrows & _). apply Hrows. left.
Defined.

Definition sample_call : AgentCall :=
  {| ag_Instance := {| rt_ID := 1; rt_Name := "agent"; rt_RuntimeType := ""; rt_DeploymentMode := ""; rt_Namespace := "";
       rt_ModelName := ""; rt_EncryptedRuntimeAPIKey := "";
       rt_Status := ""; rt_HealthStatus := ""; rt_HealthDetail := ""; rt_LastHealthAt := None; rt_AgentToolEnabled := true;
       rt_CreatedBy := 1 |};
     ag_RequestID := "r2"; ag_IdempotencyKey := "r2"; ag_ChatSessionID := ""; ag_Context := None |}.
Lemma ungranted_requests_refused_witness :
  ∃ e w', alone (DeploymentScale true sample_call (Some sample_scale)) sample_site = (Err e, w') ∧
    operations w' = operations sample_site ∧ performed w' = performed sample_site.
Proof.
  apply (ungranted_requests_refused _ 1 AgentCapabilityDeploymentScale "shop").
  - apply (asks_scale true sample_call (Some sample_scale) {| ds_Namespace := "shop"; ds_Name := "web"; ds_Replicas := 3 |}).
    vm_compute. reflexivity.
  - intros (g & Hg & _). assert (t_list (tbl (A := AgentCapabilityGrant) (w_db sample_site)) = []) as Hnil by (vm_compute; reflexivity).
    rewrite Hnil in Hg. by apply elem_of_nil in Hg.
Defined.
