(* ===== verification/ReleaseExecution.v ===== *)
(** * Creating and executing releases

    [internal/service/application/release_execution.go]. A release row moves through its statuses
    while the steps are called on the cluster; every step is recorded as an operation and in the
    operation log. The cluster is behind the interface [ResourceApplier], whose implementation is
    the file KubernetesApplier. Contexts and cancellation are part of what the cluster answers. *)
From Stdlib Require Import ZArith Ascii String.
From stdpp Require Import base sorting pretty numbers gmap strings list.
From S2P Require Import Prelude GoStrings Json ReleaseSpec ReleaseSnapshot Models ReleaseValidation ReleaseRendering Store.

(** The Kubernetes capability required by release execution, over the state [C] of the cluster. *)
Class ResourceApplier `{K8sLibrary} (C : Type) := {
  VerifyImage : ReleaseSpec → M C unit;
  Preflight : ApplicationContext → ReleaseSpec → M C unit;
  Apply : RenderedResources → M C unit;
  WaitReady : ApplicationContext → ReleaseSpec → M C unit
}.

Section execution.
Context `{K8sLibrary} {C : Type} `{Surroundings}.
#[local] Abbreviation M := (M (World C)).

(** A call on the cluster. *)
Definition on_cluster {A} (call : C → result A * C) : M A := λ w,
  let '(r, c) := call (w_cluster w) in (r, set_cluster c w).

Definition applicationContext (application : Application) (sequence : Z) : ApplicationContext :=
  {| ac_ProjectID := pr_ID (app_Project application);
     ac_EnvironmentID := env_ID (app_Environment application);
     ac_ProjectName := pr_Name (app_Project application);
     ac_EnvironmentName := env_Name (app_Environment application);
     ac_ApplicationName := app_Name application;
     ac_Namespace := env_Namespace (app_Environment application);
     ac_ReleaseSequence := sequence;
     ac_WorkloadKind := app_WorkloadKind application |}.

Definition releaseSpecFromSnapshot (snapshot : json) : result ReleaseSpec :=
  match decode_ReleaseSpec zero_ReleaseSpec snapshot with
  | Some spec => Ok spec
  | None => Err (EWrap "读取发布快照: " (EText "json: cannot unmarshal") "")
  end.

(** ** [CreateRelease] *)

Definition next_sequence (releases : list Release) : Z :=
  match releases with [] => 1 | r :: _ => u64 (rel_Sequence r + 1) end.

Definition new_release (applicationID userID sequence : Z) (spec sanitized : ReleaseSpec) : Release :=
  {| rel_ID := 0; rel_ApplicationID := applicationID; rel_Sequence := sequence;
     rel_Image := rs_Image spec; rel_Version := rs_Version spec;
     rel_TemplateID := None; rel_TemplateRevision := 0;
     rel_ImageRegistryID := if decide (rs_RegistryID spec = 0%Z) then None else Some (rs_RegistryID spec);
     rel_PodTrackingEnabled := true;
     rel_DesiredSpec := encode_ReleaseSpec sanitized;
     rel_Status := ReleaseStatusDraft; rel_SourceReleaseID := None; rel_CreatedBy := userID;
     rel_StartedAt := None; rel_CompletedAt := None |}.

Definition Service_CreateRelease (applicationID userID : Z) (spec : ReleaseSpec) : M Release :=
  application ← wrapping (λ e, EWrap "读取应用: " e "") (GetApplication applicationID);
  let issues := ValidateReleaseSpec spec in
  guard_not (negb (empty_list issues)) (EText ("发布定义无效: " +:+ first_message issues)) ;;
  releases ← wrapping (λ e, EWrap "读取发布历史: " e "") (ListReleases applicationID);
  let sequence := next_sequence releases in
  resources ← lift (RenderResources (applicationContext application sequence) spec);
  wrapping (λ e, EWrap "创建发布记录: " e "")
    (CreateRelease (new_release applicationID userID sequence spec (rd_SanitizedSpec resources))).

(** ** [executeRelease] *)

(** The row with its new status and timestamps, saved; it is the row the caller keeps using. *)
Definition transition (release : Release) (status : string) : M Release :=
  guard_not (negb (IsReleaseStatusValid status)) (EText ("无效发布状态: " +:+ status)) ;;
  at_ ← now;
  let release :=
    if decide (status = ReleaseStatusValidating ∧ rel_StartedAt release = None)
    then set_rel_started (Some at_) release else release in
  let release :=
    if decide (status = ReleaseStatusSucceeded ∨ status = ReleaseStatusFailed)
    then set_rel_completed (Some at_) release else release in
  let release := set_rel_status status release in
  UpdateRelease release ;; mret release.

Definition finished (operation : ReleaseOperation) (completedAt : Z) (r : result unit) : ReleaseOperation :=
  {| op_ID := op_ID operation; op_ReleaseID := op_ReleaseID operation; op_Step := op_Step operation;
     op_Status := match r with Ok _ => ReleaseOperationSuccess | Err _ => ReleaseOperationFailed end;
     op_Detail := match r with Ok _ => op_Detail operation | Err e => err_text e end;
     op_StartedAt := op_StartedAt operation; op_CompletedAt := Some completedAt |}.

Definition runStep (releaseID : Z) (step : string) (run : M unit) : M unit :=
  at_ ← now;
  operation ← CreateReleaseOperation
    {| op_ID := 0; op_ReleaseID := releaseID; op_Step := step; op_Status := ReleaseOperationRunning;
       op_Detail := ""; op_StartedAt := Some at_; op_CompletedAt := None |};
  log ← CreateOperationLog
    {| log_ID := 0; log_ResourceType := "release"; log_ResourceID := releaseID; log_Step := step;
       log_Status := ReleaseOperationRunning; log_Detail := ""; log_CreatedAt := at_ |};
  r ← attempt run;
  note (Called step r) ;;
  completedAt ← now;
  let operation := finished operation completedAt r in
  UpdateReleaseOperation operation ;;
  UpdateOperationLog
    {| log_ID := log_ID log; log_ResourceType := log_ResourceType log; log_ResourceID := log_ResourceID log;
       log_Step := log_Step log; log_Status := op_Status operation; log_Detail := op_Detail operation;
       log_CreatedAt := log_CreatedAt log |} ;;
  lift r.

(** The error the caller returns. *)
Definition failRelease {A} (releaseID : Z) (step : string) (cause : goerr) : M A :=
  found ← attempt (GetRelease releaseID);
  match found with
  | Err _ => throw cause
  | Ok release =>
      (if decide (rel_Status release = ReleaseStatusFailed) then mret tt
       else ignore (transition release ReleaseStatusFailed)) ;;
      throw (EWrap (step +:+ ": ") cause "")
  end.

(** [if err := s.runStep(id, step, run); err != nil { return s.failRelease(id, step, err) }] *)
Definition required_step (releaseID : Z) (step : string) (run : M unit) : M unit :=
  catching (runStep releaseID step run) (failRelease releaseID step).

Definition executeRelease (applier : option (ResourceApplier C)) (releaseID : Z) (application : Application)
    (spec : ReleaseSpec) (postApply : option (M unit)) : M unit :=
  match applier with
  | None => failRelease releaseID "preflight" (EText "Kubernetes 发布器未初始化")
  | Some a =>
      release ← GetRelease releaseID;
      let context := applicationContext application (rel_Sequence release) in
      resources ← catching (lift (RenderResources context spec)) (failRelease releaseID "preflight");
      release ← transition release ReleaseStatusValidating;
      required_step releaseID "verify_image" (on_cluster (VerifyImage spec)) ;;
      required_step releaseID "preflight" (on_cluster (Preflight context spec)) ;;
      release ← transition release ReleaseStatusApplying;
      required_step releaseID "apply_resources" (on_cluster (Apply resources)) ;;
      match postApply with
      | Some run => required_step releaseID "sync_endpoints" run
      | None => mret tt
      end ;;
      release ← transition release ReleaseStatusWaitingReady;
      required_step releaseID "wait_ready" (on_cluster (WaitReady context spec)) ;;
      _ ← transition release ReleaseStatusSucceeded;
      mret tt
  end.

Definition ExecuteRelease (applier : option (ResourceApplier C)) (releaseID : Z) (application : Application)
    (spec : ReleaseSpec) : M unit := executeRelease applier releaseID application spec None.
Definition ExecuteReleaseWithPostApply (applier : option (ResourceApplier C)) (releaseID : Z)
    (application : Application) (spec : ReleaseSpec) (postApply : M unit) : M unit :=
  executeRelease applier releaseID application spec (Some postApply).

(** ** Retry and rollback *)

Definition RetryRelease (releaseID userID : Z) : M (Release * ReleaseSpec) :=
  release ← GetRelease releaseID;
  spec ← lift (releaseSpecFromSnapshot (rel_DesiredSpec release));
  let spec := with_endpoint cluster_endpoint spec in
  retry ← Service_CreateRelease (rel_ApplicationID release) userID spec;
  let retry := set_rel_template (rel_TemplateID release) (rel_TemplateRevision release) retry in
  UpdateRelease retry ;;
  mret (retry, spec).

(** The release rolled back to: the newest earlier one that succeeded. *)
Definition rollback_source (current : Release) (releases : list Release) : option Release :=
  find_first (λ candidate, bool_decide (rel_Sequence candidate < rel_Sequence current)%Z
    && bool_decide (rel_Status candidate = ReleaseStatusSucceeded)) releases.

Definition RollbackRelease (releaseID userID : Z) : M (Release * ReleaseSpec) :=
  current ← GetRelease releaseID;
  releases ← ListReleases (rel_ApplicationID current);
  match rollback_source current releases with
  | None => throw (EText "不存在可回滚的成功版本")
  | Some source =>
      spec ← lift (releaseSpecFromSnapshot (rel_DesiredSpec source));
      let spec := with_endpoint cluster_endpoint spec in
      rollback ← Service_CreateRelease (rel_ApplicationID current) userID spec;
      let rollback := set_rel_source (Some (rel_ID source))
        (set_rel_template (rel_TemplateID source) (rel_TemplateRevision source) rollback) in
      UpdateRelease rollback ;;
      mret (rollback, spec)
  end.
End execution.

(** ** What an execution leaves behind, statement by statement *)

(** The labels of a trace: a status of the release, a step that was called. *)
Inductive label := LStatus (status : string) | LCall (step : string).

Definition fits (id : Z) (l : label) (e : event) : Prop :=
  match l, e with
  | LStatus s, Wrote r => rel_ID r = id ∧ rel_Status r = s
  | LCall s, Called s' r => s = s' ∧ r = Ok tt
  | _, _ => False
  end.

(** An execution that stops early: the step it was at may have been called, and the release may have
    been written as failed; nothing else happens. *)
Definition aborted (id : Z) (rest : list label) (evs : list event) : Prop :=
  ∃ call fin, evs = call ++ fin ∧
    (call = [] ∨ ∃ step r rest', rest = LCall step :: rest' ∧ call = [Called step r]) ∧
    (fin = [] ∨ ∃ rel, fin = [Wrote rel] ∧ rel_ID rel = id ∧ rel_Status rel = ReleaseStatusFailed).

(** The events of a run of [script]: all of it on success, a prefix of it before an error. *)
Definition follows {A} (id : Z) (script : list label) (r : result A) (evs : list event) : Prop :=
  match r with
  | Ok _ => Forall2 (fits id) script evs
  | Err _ => ∃ done rest e1 e2, script = done ++ rest ∧ evs = e1 ++ e2 ∧
      Forall2 (fits id) done e1 ∧ aborted id rest e2
  end.

Definition runs {C A} (id : Z) (script : list label) (m : M (World C) A) : Prop :=
  ∀ w, ∃ evs, w_trace (m w).2 = w_trace w ++ evs ∧ follows id script (m w).1 evs.
(** Appends nothing to the trace. *)
Definition silent {C A} (m : M (World C) A) : Prop := ∀ w, w_trace (m w).2 = w_trace w.

Lemma aborted_nil id rest : aborted id rest [].
Proof. exists [], []. auto. Qed.

Lemma runs_silent {C A} id (m : M (World C) A) : silent m → runs id [] m.
Proof.
  intros Hm w. exists []. rewrite Hm, app_nil_r. split; [done|].
  destruct (m w).1; simpl; [constructor|]. exists [], [], [], []. auto using aborted_nil.
Qed.

Lemma runs_bind {C A B} id s1 s2 (m : M (World C) A) (f : A → M (World C) B) :
  runs id s1 m → (∀ a, runs id s2 (f a)) → runs id (s1 ++ s2) (m ≫= f).
Proof.
  intros Hm Hf w. unfold mbind, M_bind. destruct (Hm w) as (e1 & Ht & Hr).
  destruct (m w) as [[a|e] w1]; simpl in *.
  - destruct (Hf a w1) as (e2 & Ht2 & Hr2). exists (e1 ++ e2). rewrite Ht2, Ht, app_assoc. split; [done|].
    destruct (f a w1).1; simpl in *; [by apply Forall2_app|].
    destruct Hr2 as (d & rest & x & y & -> & -> & Hd & Hab).
    exists (s1 ++ d), rest, (e1 ++ x), y. rewrite <-!app_assoc. split_and!; [done..| |done]. by apply Forall2_app.
  - exists e1. split; [done|]. destruct Hr as (d & rest & x & y & -> & -> & Hd & call & fin & -> & Hc & Hfin).
    exists d, (rest ++ s2), x, (call ++ fin). rewrite <-app_assoc. split_and!; [done..|].
    exists call, fin. split_and!; [done| |done]. destruct Hc as [?|(st & r & rest' & -> & ->)]; [by left|].
    right. by exists st, r, (rest' ++ s2).
Qed.

Lemma runs_bind_value {C A B} id s1 s2 (P : A → Prop) (m : M (World C) A) (f : A → M (World C) B) :
  runs id s1 m → (∀ w a, (m w).1 = Ok a → P a) → (∀ a, P a → runs id s2 (f a)) → runs id (s1 ++ s2) (m ≫= f).
Proof.
  intros Hm HP Hf w. specialize (HP w). unfold mbind, M_bind. destruct (Hm w) as (e1 & Ht & Hr).
  destruct (m w) as [[a|e] w1] eqn:Hw; simpl in *.
  - specialize (HP a eq_refl).
    destruct (runs_bind id s1 s2 m (λ _, f a) Hm (λ _, Hf a HP) w) as (evs & H).
    unfold mbind, M_bind in H. rewrite Hw in H. by exists evs.
  - destruct (runs_bind (B := B) id s1 s2 m (λ _, throw e) Hm) with (w := w) as (evs & H).
    { intros _ w'. exists []. rewrite app_nil_r. split; [done|]. exists [], s2, [], []. auto using aborted_nil. }
    unfold mbind, M_bind in H. rewrite Hw in H. by exists evs.
Qed.

Lemma silent_bind {C A B} (m : M (World C) A) (f : A → M (World C) B) :
  silent m → (∀ a, silent (f a)) → silent (m ≫= f).
Proof.
  intros Hm Hf w. specialize (Hm w). unfold mbind, M_bind. destruct (m w) as [[a|e] w1]; simpl in *; [|done].
  by rewrite Hf.
Qed.
Lemma silent_ret {C A} (a : A) : silent (C := C) (mret a).
Proof. done. Qed.
Lemma silent_lift {C A} (r : result A) : silent (C := C) (lift r).
Proof. done. Qed.
Lemma silent_throw {C A} e : silent (C := C) (A := A) (throw e).
Proof. done. Qed.
Lemma silent_guard {C} c e : silent (C := C) (guard_not c e).
Proof. by destruct c. Qed.
Lemma silent_now {C} `{Surroundings} : silent (C := C) now.
Proof. done. Qed.
Lemma silent_statement {C A} `{Surroundings} (f : DB → result (A * DB)) : silent (C := C) (statement f).
Proof. intros w. unfold statement. destruct (fault _); [done|]. by destruct (f _) as [[??]|]. Qed.
Lemma silent_attempt {C A} (m : M (World C) A) : silent m → silent (attempt m).
Proof. intros Hm w. specialize (Hm w). unfold attempt. by destruct (m w). Qed.
Lemma silent_wrapping {C A} f (m : M (World C) A) : silent m → silent (wrapping f m).
Proof. intros Hm w. specialize (Hm w). unfold wrapping. by destruct (m w). Qed.
Lemma silent_on_cluster {C} (call : C → result unit * C) : silent (on_cluster call).
Proof. intros w. unfold on_cluster. by destruct (call _). Qed.

#[export] Hint Resolve silent_bind silent_ret silent_lift silent_throw silent_guard silent_now
  silent_statement silent_attempt silent_wrapping silent_on_cluster : cylism.

Lemma silent_GetRelease {C} `{Surroundings} id : silent (C := C) (GetRelease id).
Proof. apply silent_statement. Qed.
Lemma silent_ListReleases {C} `{Surroundings} id : silent (C := C) (ListReleases id).
Proof. apply silent_statement. Qed.
Lemma silent_GetApplication {C} `{Surroundings} id : silent (C := C) (GetApplication id).
Proof. apply silent_statement. Qed.
Lemma silent_CreateReleaseOperation {C} `{Surroundings} o : silent (C := C) (CreateReleaseOperation o).
Proof. apply silent_statement. Qed.
Lemma silent_UpdateReleaseOperation {C} `{Surroundings} o : silent (C := C) (UpdateReleaseOperation o).
Proof. apply silent_statement. Qed.
Lemma silent_CreateOperationLog {C} `{Surroundings} l : silent (C := C) (CreateOperationLog l).
Proof. apply silent_statement. Qed.
Lemma silent_UpdateOperationLog {C} `{Surroundings} l : silent (C := C) (UpdateOperationLog l).
Proof. apply silent_statement. Qed.
Lemma silent_ListApplicationEndpoints {C} `{Surroundings} id : silent (C := C) (ListApplicationEndpoints id).
Proof. apply silent_statement. Qed.
Lemma silent_UpdateApplicationEndpoint {C} `{Surroundings} e : silent (C := C) (UpdateApplicationEndpoint e).
Proof. apply silent_statement. Qed.

#[export] Hint Resolve silent_GetRelease silent_ListReleases silent_GetApplication silent_CreateReleaseOperation
  silent_UpdateReleaseOperation silent_CreateOperationLog silent_UpdateOperationLog silent_ListApplicationEndpoints
  silent_UpdateApplicationEndpoint : cylism.

Section execution_trace.
Context `{K8sLibrary} {C : Type} `{Surroundings}.

Definition stepped (step : string) (t0 : list event) (r : result unit) (w : World C) : Prop :=
  match r with
  | Ok _ => w_trace w = t0 ++ [Called step (Ok tt)]
  | Err _ => w_trace w = t0 ∨ ∃ o, w_trace w = t0 ++ [Called step o]
  end.

Lemma triple_silent {A} (t : list event) (m : M (World C) A) :
  silent m → triple (λ w, w_trace w = t) m (λ _ w, w_trace w = t).
Proof. intros Hm w Hw. by rewrite Hm. Qed.

Lemma runStep_stepped id step run t0 :
  silent run → triple (λ w : World C, w_trace w = t0) (runStep id step run) (stepped step t0).
Proof.
  intros Hrun. unfold runStep.
  eapply triple_bind; [apply triple_silent; auto with cylism| |by intros ? ? ?; left]. intros at_.
  eapply triple_bind; [apply triple_silent; auto with cylism| |by intros ? ? ?; left]. intros operation.
  eapply triple_bind; [apply triple_silent; auto with cylism| |by intros ? ? ?; left]. intros log.
  eapply triple_bind; [apply triple_silent; auto with cylism| |by intros ? ? ?; left]. intros r.
  eapply triple_bind with (R := λ _ w, w_trace w = t0 ++ [Called step r]).
  { intros w Hw. simpl. by rewrite Hw. }
  2: { intros e w Hw. right. by exists r. }
  intros ?.
  eapply triple_bind; [apply triple_silent; auto with cylism| |intros e w Hw; right; exists r; exact Hw]. intros completedAt.
  eapply triple_bind; [apply triple_silent; auto with cylism| |intros e w Hw; right; exists r; exact Hw]. intros ?.
  eapply triple_bind; [apply triple_silent; auto with cylism| |intros e w Hw; right; exists r; exact Hw]. intros ?.
  intros w Hw. destruct r as [[]|e]; simpl; [done|]. right. by exists (Err e).
Qed.

Lemma GetRelease_id id (w : World C) r : (GetRelease id w).1 = Ok r → rel_ID r = id.
Proof.
  unfold GetRelease, first.
  destruct (query_cases (λ db, first_row (select (λ r, bool_decide (rel_ID r = id)) (tbl db))) w)
    as [(e & ->)|(x & Hx & ->)]; [done|].
  intros [= ->]. apply first_row_select in Hx as [Hx _]. by apply bool_decide_eq_true in Hx.
Qed.

(** The row a transition saves. *)
Definition transitioned (release : Release) (status : string) (at_ : Z) : Release :=
  let release := if decide (status = ReleaseStatusValidating ∧ rel_StartedAt release = None)
    then set_rel_started (Some at_) release else release in
  let release := if decide (status = ReleaseStatusSucceeded ∨ status = ReleaseStatusFailed)
    then set_rel_completed (Some at_) release else release in
  set_rel_status status release.

Lemma transitioned_fields release status at_ :
  rel_ID (transitioned release status at_) = rel_ID release ∧
  rel_Status (transitioned release status at_) = status ∧
  rel_ApplicationID (transitioned release status at_) = rel_ApplicationID release ∧
  rel_Sequence (transitioned release status at_) = rel_Sequence release ∧
  rel_DesiredSpec (transitioned release status at_) = rel_DesiredSpec release.
Proof. unfold transitioned. destruct release. by repeat case_decide. Qed.

Lemma UpdateRelease_cases r (w : World C) :
  (∃ e, UpdateRelease r w = (Err e, tick w)) ∨
  (∃ t, t_save r (tbl (w_db w)) = Ok t ∧
    UpdateRelease r w = (Ok tt, traced (Wrote r) (set_db (put t (w_db w)) (tick w)))).
Proof.
  unfold UpdateRelease, save, execute.
  set (f := λ db : DB, t ← t_save r (tbl db); Ok ((), put t db)).
  change ((statement f ;; note (Wrote r)) w) with
    (match statement f w with (Ok _, w') => note (Wrote r) w' | (Err e, w') => (Err e, w') end).
  destruct (statement_cases f w) as [(e & ->)|(a & db & Hf & ->)]; [left; by exists e|].
  right. unfold f in Hf. destruct (t_save r (tbl (w_db w))) as [t|] eqn:Ht; simplify_eq/=.
  by exists t.
Qed.

(** A transition fails without a trace, or saves the transitioned row and returns it. *)
Lemma transition_cases release status (w : World C) :
  (∃ e w', transition release status w = (Err e, w') ∧ w_trace w' = w_trace w ∧
    w_cluster w' = w_cluster w ∧ w_db w' = w_db w) ∨
  (∃ t, let r := transitioned release status (clock (w_tick w)) in t_save r (tbl (w_db w)) = Ok t ∧
    transition release status w =
      (Ok r, traced (Wrote r) (set_db (put t (w_db w)) (tick (tick w))))).
Proof.
  set (r := transitioned release status (clock (w_tick w))).
  assert (transition release status w = if IsReleaseStatusValid status then
    match UpdateRelease r (tick w) with (Ok _, w') => (Ok r, w') | (Err e, w') => (Err e, w') end
    else (Err (EText ("无效发布状态: " +:+ status)), w)) as ->.
  { unfold transition, guard_not. by destruct (IsReleaseStatusValid status). }
  destruct (IsReleaseStatusValid status); [|left; by eexists _, w].
  destruct (UpdateRelease_cases r (tick w)) as [(e & ->)|(t & Ht & ->)]; [left; by eexists e, _|].
  right. by exists t.
Qed.

Lemma GetRelease_cases id (w : World C) :
  (∃ e, GetRelease id w = (Err e, tick w)) ∨
  (∃ r, r ∈ t_list (tbl (w_db w)) ∧ rel_ID r = id ∧ GetRelease id w = (Ok r, set_db (w_db w) (tick w))).
Proof.
  unfold GetRelease, first.
  destruct (query_cases (λ db, first_row (select (λ r, bool_decide (rel_ID r = id)) (tbl db))) w)
    as [(e & ->)|(r & Hr & ->)]; [left; by exists e|].
  apply first_row_select in Hr as [Hr%bool_decide_eq_true Hin]. right. by exists r.
Qed.

(** [failRelease] returns an error; all it may write is the release, as failed. *)
Lemma failRelease_cases {A} id step cause (w : World C) :
  ∃ e fin w', failRelease (A := A) id step cause w = (Err e, w') ∧
    w_trace w' = w_trace w ++ fin ∧ w_cluster w' = w_cluster w ∧
    (fin = [] ∨ ∃ rel, fin = [Wrote rel] ∧ rel_ID rel = id ∧ rel_Status rel = ReleaseStatusFailed).
Proof.
  assert (failRelease (A := A) id step cause w = match GetRelease id w with
    | (Err _, w1) => (Err cause, w1)
    | (Ok r, w1) => (Err (EWrap (step +:+ ": ") cause ""),
        if decide (rel_Status r = ReleaseStatusFailed) then w1 else (transition r ReleaseStatusFailed w1).2)
    end) as ->.
  { unfold failRelease, mbind, M_bind, attempt. destruct (GetRelease id w) as [[r|e] w1]; [|done].
    by case_decide. }
  destruct (GetRelease_cases id w) as [(e & ->)|(r & _ & Hid & ->)].
  - eexists _, [], _. split_and!; [done| |done|by left]. by rewrite app_nil_r.
  - case_decide.
    { eexists _, [], _. split_and!; [done| |done|by left]. by rewrite app_nil_r. }
    destruct (transition_cases r ReleaseStatusFailed (set_db (w_db w) (tick w)))
      as [(e & w' & -> & Ht & Hc & _)|(t & _ & ->)].
    + eexists _, [], _. split_and!; [done| |done|by left]. by rewrite app_nil_r.
    + eexists _, [_], _. split_and!; [done..|]. right. eexists. split; [done|].
      destruct (transitioned_fields r ReleaseStatusFailed (clock (w_tick (set_db (w_db w) (tick w))))) as (-> & -> & _).
      done.
Qed.

Lemma runs_transition id release status :
  rel_ID release = id → runs (C := C) id [LStatus status] (transition release status).
Proof.
  intros Hid w. destruct (transition_cases release status w) as [(e & w' & -> & Ht & _)|(t & _ & ->)].
  - exists []. rewrite app_nil_r. split; [done|]. exists [], [LStatus status], [], []. auto using aborted_nil.
  - eexists [_]. split; [done|]. constructor; [|constructor].
    destruct (transitioned_fields release status (clock (w_tick w))) as (H1 & H2 & _).
    split; [by rewrite H1 | exact H2].
Qed.

Lemma transition_id release status (w : World C) r :
  (transition release status w).1 = Ok r → rel_ID r = rel_ID release.
Proof.
  destruct (transition_cases release status w) as [(e & w' & -> & _)|(t & _ & ->)]; [done|].
  intros [= <-]. apply transitioned_fields.
Qed.

Lemma runs_required_step id step run :
  silent (C := C) run → runs (C := C) id [LCall step] (required_step id step run).
Proof.
  intros Hrun w. pose proof (runStep_stepped id step run (w_trace w) Hrun w eq_refl) as Hs.
  unfold required_step, catching. destruct (runStep id step run w) as [[[]|e] w1]; simpl in *.
  - exists [Called step (Ok tt)]. split; [done|]. constructor; [done|constructor].
  - destruct (failRelease_cases (A := unit) id step e w1) as (e' & fin & w' & -> & Ht & _ & Hfin). simpl.
    destruct Hs as [Hs|[o Hs]].
    + exists fin. rewrite Ht, Hs. split; [done|]. exists [], [LCall step], [], fin. split_and!; [done..|].
      exists [], fin. auto.
    + exists (Called step o :: fin). rewrite Ht, Hs, <-app_assoc. split; [done|].
      exists [], [LCall step], [], (Called step o :: fin). split_and!; [done..|].
      exists [Called step o], fin. split_and!; [done| |done]. right. by exists step, o, [].
Qed.

(** The statuses and the steps of a full execution. *)
Definition release_script (postApply : bool) : list label :=
  [LStatus ReleaseStatusValidating; LCall "verify_image"; LCall "preflight";
   LStatus ReleaseStatusApplying; LCall "apply_resources"]
  ++ (if postApply then [LCall "sync_endpoints"] else [])
  ++ [LStatus ReleaseStatusWaitingReady; LCall "wait_ready"; LStatus ReleaseStatusSucceeded].

Lemma runs_render {A} id step (r : result A) : runs (C := C) id [] (catching (lift r) (failRelease id step)).
Proof.
  intros w. unfold catching, lift. destruct r as [a|e].
  - exists []. rewrite app_nil_r. by split; [|constructor].
  - destruct (failRelease_cases (A := A) id step e w) as (e' & fin & w' & -> & Ht & _ & Hfin).
    exists fin. split; [done|]. exists [], [], [], fin. split_and!; [done..|]. exists [], fin. auto.
Qed.

Lemma runs_executeRelease (a : ResourceApplier C) id application spec post :
  (∀ run, post = Some run → silent run) →
  runs id (release_script (bool_decide (is_Some post))) (executeRelease (Some a) id application spec post).
Proof.
  intros Hpost. unfold executeRelease, release_script.
  change ([LStatus ReleaseStatusValidating; LCall "verify_image"; LCall "preflight";
    LStatus ReleaseStatusApplying; LCall "apply_resources"]) with
    ([] ++ [] ++ [LStatus ReleaseStatusValidating] ++ [LCall "verify_image"] ++ [LCall "preflight"] ++
     [LStatus ReleaseStatusApplying] ++ [LCall "apply_resources"]).
  rewrite <-!app_assoc.
  apply (runs_bind_value _ _ _ (λ r, rel_ID r = id)); [apply runs_silent; auto with cylism| |].
  { intros w r Hr. by eapply GetRelease_id. }
  intros release Hid. apply runs_bind; [apply runs_render|]. intros resources.
  apply (runs_bind_value _ _ _ (λ r, rel_ID r = id)); [by apply runs_transition| |].
  { intros w r Hr%transition_id. congruence. }
  intros release1 Hid1.
  apply runs_bind; [apply runs_required_step; auto with cylism|]. intros _.
  apply runs_bind; [apply runs_required_step; auto with cylism|]. intros _.
  apply (runs_bind_value _ _ _ (λ r, rel_ID r = id)); [by apply runs_transition| |].
  { intros w r Hr%transition_id. congruence. }
  intros release2 Hid2.
  apply runs_bind; [apply runs_required_step; auto with cylism|]. intros _.
  apply runs_bind.
  { destruct post as [run|]; [|by apply runs_silent].
    rewrite bool_decide_true by done. apply runs_required_step. by apply Hpost. }
  intros _.
  change [LStatus ReleaseStatusWaitingReady; LCall "wait_ready"; LStatus ReleaseStatusSucceeded] with
    ([LStatus ReleaseStatusWaitingReady] ++ [LCall "wait_ready"] ++ [LStatus ReleaseStatusSucceeded] ++ []).
  apply (runs_bind_value _ _ _ (λ r, rel_ID r = id)); [by apply runs_transition| |].
  { intros w r Hr%transition_id. congruence. }
  intros release3 Hid3.
  apply runs_bind; [apply runs_required_step; auto with cylism|]. intros _.
  apply runs_bind; [by apply runs_transition|]. intros _. by apply runs_silent.
Qed.

Lemma app_eq_cons_split {A} (l1 l2 k1 k2 : list A) x :
  l1 ++ l2 = k1 ++ x :: k2 →
  (∃ m, l1 = k1 ++ x :: m ∧ k2 = m ++ l2) ∨ (∃ m, k1 = l1 ++ m ∧ l2 = m ++ x :: k2).
Proof.
  revert k1. induction l1 as [|y l1 IH]; intros k1 Heq; simpl in Heq.
  - right. by exists k1.
  - destruct k1 as [|z k1]; simplify_eq/=.
    + left. by exists l1.
    + match goal with Hq : _ ++ _ = _ ++ _ |- _ => rename Hq into Heq end.
      destruct (IH k1 Heq) as [(m & -> & ->)|(m & -> & ->)]; [left|right]; by exists m.
Qed.

(** A step that was called has before it, in order, everything the script puts before it. *)
Lemma follows_called {A} id script (r : result A) evs before step o after :
  follows id script r evs → evs = before ++ Called step o :: after →
  ∃ s1 s2, script = s1 ++ LCall step :: s2 ∧ Forall2 (fits id) s1 before.
Proof.
  assert (Hfull : ∀ script evs m, Forall2 (fits id) script evs → evs = before ++ Called step o :: m →
    ∃ s1 s2, script = s1 ++ LCall step :: s2 ∧ Forall2 (fits id) s1 before).
  { intros s e m Hf ->. apply Forall2_app_inv_r in Hf as (s1 & s2 & H1 & H2 & ->).
    destruct s2 as [|l s2]; [by apply Forall2_nil_inv_l in H2|]. apply Forall2_cons in H2 as [Hl _].
    destruct l; simpl in Hl; [done|]. destruct Hl as [-> _]. by exists s1, s2. }
  intros Hr Hevs. destruct r as [a|e]; simpl in Hr; [by eapply Hfull|].
  destruct Hr as (d & rest & e1 & e2 & -> & -> & Hd & call & fin & -> & Hc & Hfin).
  destruct (app_eq_cons_split _ _ _ _ _ Hevs) as [(m & -> & _)|(m & -> & Hm)].
  - destruct (Hfull d _ m Hd eq_refl) as (s1 & s2 & -> & Hs). exists s1, (s2 ++ rest). by rewrite <-app_assoc.
  - destruct Hc as [->|(st & o' & rest' & -> & ->)].
    + destruct Hfin as [->|(rel & -> & _)]; destruct m as [|x [|y m]]; simplify_eq/=.
    + destruct m as [|x m]; simplify_eq/=.
      * exists d, rest'. by rewrite app_nil_r.
      * destruct Hfin as [Hf|(rel & Hf & _)]; destruct m as [|y [|z m]]; simplify_eq/=.
Qed.

(** ** Executions without database faults *)

Definition releases (w : World C) : gmap Z Release := t_rows (tbl (w_db w)).

Record well_formed_releases (m : gmap Z Release) : Prop := {
  wfr_keys id r : m !! id = Some r → rel_ID r = id;
  wfr_unique id1 id2 r1 r2 : m !! id1 = Some r1 → m !! id2 = Some r2 →
    rel_ApplicationID r1 = rel_ApplicationID r2 → rel_Sequence r1 = rel_Sequence r2 → id1 = id2
}.

(** The release is stored as the row. *)
Definition stored (id : Z) (release : Release) (w : World C) : Prop :=
  well_formed_releases (releases w) ∧ releases w !! id = Some release.

Lemma clashes_false (t : table Release) id r r0 :
  well_formed_releases (t_rows t) → t_rows t !! id = Some r0 →
  rel_ApplicationID r = rel_ApplicationID r0 → rel_Sequence r = rel_Sequence r0 → clashes id r t = false.
Proof.
  intros Hwf Hid Ha Hs. apply not_true_iff_false. unfold clashes. rewrite existsb_exists.
  intros ([id' r'] & Hin%list_elem_of_In & Hc). apply elem_of_map_to_list in Hin. simpl in Hc.
  apply andb_prop in Hc as [Hne Hc]. apply negb_true_iff, bool_decide_eq_false in Hne.
  apply bool_decide_eq_true in Hc as [Ha' Hs']. apply Hne.
  eapply (wfr_unique _ Hwf); [exact Hin | exact Hid | congruence | congruence].
Qed.

Lemma well_formed_insert m id r r0 :
  well_formed_releases m → m !! id = Some r0 → rel_ID r = id →
  rel_ApplicationID r = rel_ApplicationID r0 → rel_Sequence r = rel_Sequence r0 →
  well_formed_releases (<[id := r]> m).
Proof.
  intros [Hk Hu] Hid Hr Ha Hs. split.
  - intros i x Hx. apply lookup_insert_Some in Hx as [[<- <-]|[_ Hx]]; [done | by apply Hk].
  - intros i j x y Hx Hy Hxy Hxs.
    apply lookup_insert_Some in Hx as [[<- <-]|[Hix Hx]], Hy as [[<- <-]|[Hiy Hy]]; [done| | |by eapply Hu].
    + eapply (Hu _ _ r0 y); [done..|congruence|congruence].
    + eapply (Hu _ _ x r0); [done..|congruence|congruence].
Qed.

(** The release is marked as failed at a step that returned [cause]. *)
Definition failed_at (id : Z) (script : list label) (evs : list event) (e : goerr) (w : World C) : Prop :=
  ∃ s1 step s2 e1 cause rel, script = s1 ++ LCall step :: s2 ∧
    evs = e1 ++ [Called step (Err cause); Wrote rel] ∧ Forall2 (fits id) s1 e1 ∧
    e = EWrap (step +:+ ": ") cause "" ∧ rel_Status rel = ReleaseStatusFailed ∧
    is_Some (rel_CompletedAt rel) ∧ stored id rel w.

Definition executes {A} (id : Z) (script : list label) (Pre : World C → Prop) (m : M (World C) A)
    (Post : A → World C → Prop) : Prop :=
  ∀ w, Pre w → ∃ evs, w_trace (m w).2 = w_trace w ++ evs ∧
    match (m w).1 with
    | Ok a => Forall2 (fits id) script evs ∧ Post a (m w).2
    | Err e => failed_at id script evs e (m w).2
    end.

Lemma executes_bind {A B} id s1 s2 Pre (m : M (World C) A) (f : A → M (World C) B) Mid Post :
  executes id s1 Pre m Mid → (∀ a, executes id s2 (Mid a) (f a) Post) →
  executes id (s1 ++ s2) Pre (m ≫= f) Post.
Proof.
  intros Hm Hf w Hw. destruct (Hm w Hw) as (e1 & Ht & Hr). unfold mbind, M_bind.
  destruct (m w) as [[a|e] w1]; simpl in *.
  - destruct Hr as [H1 Hmid]. destruct (Hf a w1 Hmid) as (e2 & Ht2 & Hr2).
    exists (e1 ++ e2). rewrite Ht2, Ht, app_assoc. split; [done|].
    destruct (f a w1) as [[b|e] w2]; simpl in *.
    + destruct Hr2 as [H2 HP]. split; [by apply Forall2_app | done].
    + destruct Hr2 as (x1 & step & x2 & y & cause & rel & -> & -> & Hx & ? & ? & ? & ?).
      exists (s1 ++ x1), step, x2, (e1 ++ y), cause, rel. rewrite <-!app_assoc.
      split_and!; try done. by apply Forall2_app.
  - exists e1. split; [done|].
    destruct Hr as (x1 & step & x2 & y & cause & rel & -> & -> & Hx & ? & ? & ? & ?).
    exists x1, step, (x2 ++ s2), y, cause, rel. rewrite <-app_assoc. split_and!; done.
Qed.

Section no_faults.
Hypothesis no_faults : ∀ n, fault n = None.

Lemma create_no_fault {A} `{HasTable A, Row A} (a : A) (w : World C) :
  clashes (t_next (tbl (w_db w))) a (tbl (w_db w)) = false →
  create a w = (Ok (with_id (t_next (tbl (w_db w))) (defaults a)),
    set_db (put {| t_rows := <[t_next (tbl (w_db w)) := with_id (t_next (tbl (w_db w))) (defaults a)]> (t_rows (tbl (w_db w)));
                   t_next := t_next (tbl (w_db w)) + 1 |} (w_db w)) (tick w)).
Proof. intros Hc. unfold create. rewrite statement_no_fault by done. unfold t_create. by rewrite Hc. Qed.

Lemma save_no_fault {A} `{HasTable A, Row A} (a : A) (w : World C) :
  clashes (row_id a) a (tbl (w_db w)) = false →
  ∃ t, t_rows t = <[row_id a := a]> (t_rows (tbl (w_db w))) ∧
    save a w = (Ok tt, set_db (put t (w_db w)) (tick w)).
Proof.
  intros Hc. unfold save, execute. rewrite statement_no_fault by done. unfold t_save. rewrite Hc.
  eexists. split; [|reflexivity]. reflexivity.
Qed.

Lemma clashes_never {A} `{Row A} id (a : A) t : (∀ x y : A, clash x y = false) → clashes id a t = false.
Proof.
  intros Hc. apply not_true_iff_false. unfold clashes. rewrite existsb_exists.
  intros (x & _ & Hx). by rewrite Hc, andb_false_r in Hx.
Qed.

Lemma clashes_operation id (o : ReleaseOperation) t : clashes id o t = false.
Proof. by apply clashes_never. Qed.
Lemma clashes_log id (l : OperationLog) t : clashes id l t = false.
Proof. by apply clashes_never. Qed.

Lemma releases_put_operations (t : table ReleaseOperation) db : tbl (A := Release) (put t db) = tbl db.
Proof. by destruct db. Qed.
Lemma releases_put_logs (t : table OperationLog) db : tbl (A := Release) (put t db) = tbl db.
Proof. by destruct db. Qed.
Lemma operations_put_logs (t : table OperationLog) db : tbl (A := ReleaseOperation) (put t db) = tbl db.
Proof. by destruct db. Qed.

Definition started_operation (id : Z) (step : string) (w : World C) : ReleaseOperation :=
  {| op_ID := t_next (tbl (A := ReleaseOperation) (w_db w)); op_ReleaseID := id; op_Step := step;
     op_Status := ReleaseOperationRunning; op_Detail := ""; op_StartedAt := Some (clock (w_tick w));
     op_CompletedAt := None |}.
Definition operations (w : World C) : gmap Z ReleaseOperation := t_rows (tbl (w_db w)).
Definition logs (w : World C) : gmap Z OperationLog := t_rows (tbl (w_db w)).

(** A step without faults: it runs in a world where only the running operation and log rows are new,
    and afterwards both rows carry its outcome. *)
Lemma runStep_no_fault id step run (w : World C) :
  ∃ w1, w_trace w1 = w_trace w ∧ releases w1 = releases w ∧ w_cluster w1 = w_cluster w ∧
    operations w1 = <[op_ID (started_operation id step w) := started_operation id step w]> (operations w) ∧
    ∃ w3, runStep id step run w = ((run w1).1, w3) ∧
      w_trace w3 = w_trace (run w1).2 ++ [Called step (run w1).1] ∧
      releases w3 = releases (run w1).2 ∧ w_cluster w3 = w_cluster (run w1).2 ∧
      (∃ t, operations w3 = <[op_ID (started_operation id step w) :=
        finished (started_operation id step w) t (run w1).1]> (operations (run w1).2)) ∧
      (∃ logID l, logs w3 !! logID = Some l ∧ log_ResourceType l = "release" ∧ log_ResourceID l = id ∧
        log_Step l = step ∧
        log_Status l = op_Status (finished (started_operation id step w) 0 (run w1).1) ∧
        log_Detail l = op_Detail (finished (started_operation id step w) 0 (run w1).1)).
Proof.
  set (op := started_operation id step w).
  pose proof (create_no_fault (set_op_id 0 op) (tick w) (clashes_operation _ _ _)) as Hop.
  set (wa := set_db _ _) in Hop.
  set (log := {| log_ID := 0; log_ResourceType := "release"; log_ResourceID := id; log_Step := step;
    log_Status := ReleaseOperationRunning; log_Detail := ""; log_CreatedAt := clock (w_tick w) |}).
  pose proof (create_no_fault log wa (clashes_log _ _ _)) as Hlog.
  set (w1 := set_db _ _) in Hlog.
  exists w1. split_and!; [done| |done| |].
  { unfold releases, w1. cbn [set_db w_db]. rewrite releases_put_logs. unfold wa. cbn [set_db w_db].
    by rewrite releases_put_operations. }
  { unfold operations, w1. cbn [set_db w_db]. rewrite operations_put_logs. unfold wa. cbn [set_db w_db].
    by rewrite tbl_put. }
  destruct (run w1) as [r w2] eqn:Hrun. cbn [fst snd].
  set (op' := finished op (clock (w_tick w2)) r).
  destruct (save_no_fault op' (tick (traced (Called step r) w2)) (clashes_operation _ _ _))
    as (t1 & Ht1 & Hs1). set (wb := set_db _ _) in Hs1.
  set (log' := {| log_ID := t_next (tbl (A := OperationLog) (w_db wa)); log_ResourceType := "release";
    log_ResourceID := id; log_Step := step; log_Status := op_Status op'; log_Detail := op_Detail op';
    log_CreatedAt := clock (w_tick w) |}).
  destruct (save_no_fault log' wb (clashes_log _ _ _)) as (t2 & Ht2 & Hs2).
  eexists. split.
  { unfold runStep, mbind, M_bind, now at 1. cbn [fst snd].
    change (CreateReleaseOperation _ (tick w)) with (create (set_op_id 0 op) (tick w)). rewrite Hop.
    change (CreateOperationLog _ wa) with (create log wa). rewrite Hlog.
    unfold attempt at 1. rewrite Hrun. unfold note, modify, now.
    change (UpdateReleaseOperation _ _) with (save op' (tick (traced (Called step r) w2))). rewrite Hs1.
    change (UpdateOperationLog _ wb) with (save log' wb). rewrite Hs2. reflexivity. }
  split_and!.
  - done.
  - unfold releases. cbn [set_db w_db]. rewrite releases_put_logs. unfold wb. cbn [set_db w_db].
    by rewrite releases_put_operations.
  - done.
  - exists (clock (w_tick w2)). unfold operations. cbn [set_db w_db]. rewrite operations_put_logs. unfold wb.
    cbn [set_db w_db]. by rewrite tbl_put, Ht1.
  - exists (log_ID log'), log'. split_and!; try done.
    unfold logs. cbn [set_db w_db]. rewrite tbl_put, Ht2. apply lookup_insert_eq.
Qed.

Definition keeps_releases {A} (run : M (World C) A) : Prop := ∀ w, releases (run w).2 = releases w.

Lemma transition_no_fault id release status (w : World C) :
  stored id release w → IsReleaseStatusValid status = true →
  ∃ w', transition release status w = (Ok (transitioned release status (clock (w_tick w))), w') ∧
    w_trace w' = w_trace w ++ [Wrote (transitioned release status (clock (w_tick w)))] ∧
    stored id (transitioned release status (clock (w_tick w))) w'.
Proof.
  intros [Hwf Hid] Hv. set (r := transitioned release status (clock (w_tick w))).
  destruct (transitioned_fields release status (clock (w_tick w))) as (H1 & _ & H3 & H4 & _).
  fold r in H1, H3, H4. pose proof (wfr_keys _ Hwf _ _ Hid) as Hrid.
  destruct (save_no_fault r (tick w)) as (t & Ht & Hs).
  { apply (clashes_false _ _ _ release); [done | change (row_id r) with (rel_ID r); by rewrite H1, Hrid | done | done]. }
  exists (traced (Wrote r) (set_db (put t (w_db (tick w))) (tick (tick w)))). split; [|split].
  - assert (transition release status w = match UpdateRelease r (tick w) with
      (Ok _, w') => (Ok r, w') | (Err e, w') => (Err e, w') end) as ->.
    { unfold transition, guard_not. by rewrite Hv. }
    unfold UpdateRelease, mbind, M_bind. by rewrite Hs.
  - done.
  - unfold stored, releases. cbn [traced set_db w_db]. rewrite tbl_put, Ht. cbn [row_id release_row].
    rewrite H1, Hrid. split; [|by apply lookup_insert_eq].
    apply (well_formed_insert _ _ _ release); [done|done|by rewrite H1|done|done].
Qed.

Lemma transitioned_completed release status at_ :
  status = ReleaseStatusSucceeded ∨ status = ReleaseStatusFailed →
  is_Some (rel_CompletedAt (transitioned release status at_)).
Proof.
  intros Hs. unfold transitioned. destruct release. rewrite (decide_True _ _ Hs). by repeat case_decide.
Qed.

Lemma executes_transition id release status :
  IsReleaseStatusValid status = true →
  executes id [LStatus status] (stored id release) (transition release status)
    (λ r w, stored id r w ∧ rel_Status r = status ∧
      (status = ReleaseStatusSucceeded ∨ status = ReleaseStatusFailed → is_Some (rel_CompletedAt r))).
Proof.
  intros Hv w Hw. destruct (transition_no_fault id release status w Hw Hv) as (w' & -> & Ht & Hst).
  set (r := transitioned release status (clock (w_tick w))) in *.
  destruct (transitioned_fields release status (clock (w_tick w))) as (H1 & H2 & _). fold r in H1, H2.
  exists [Wrote r]. split; [done|]. cbn [fst snd]. split.
  - constructor; [|constructor]. split; [|done]. rewrite H1. apply (wfr_keys _ (proj1 Hw)), Hw.
  - split_and!; [done..|]. intros Hs. by apply transitioned_completed.
Qed.

Lemma GetRelease_stored id release (w : World C) :
  stored id release w → GetRelease id w = (Ok release, set_db (w_db w) (tick w)).
Proof.
  intros [Hwf Hid]. unfold GetRelease, first, query. rewrite statement_no_fault by done.
  destruct (first_row (select (λ r, bool_decide (rel_ID r = id)) (tbl (w_db w)))) as [r|e] eqn:Hf; simpl.
  - apply first_row_select in Hf as [Hr%bool_decide_eq_true Hin].
    apply elem_of_t_list in Hin as [id' Hin]. pose proof (wfr_keys _ Hwf _ _ Hin) as Hid'.
    unfold releases in Hid. assert (id' = id) as -> by congruence. congruence.
  - apply first_row_None in Hf as [_ Hno]. specialize (Hno release).
    rewrite bool_decide_eq_false in Hno. destruct Hno; [|by apply (wfr_keys _ Hwf)].
    apply elem_of_t_list. by exists id.
Qed.

Lemma executes_step id step release run :
  silent (C := C) run → keeps_releases run → rel_Status release ≠ ReleaseStatusFailed →
  executes id [LCall step] (stored id release) (required_step id step run) (λ _, stored id release).
Proof.
  intros Hsilent Hkeep Hnf w Hw.
  destruct (runStep_no_fault id step run w) as (w1 & Ht1 & Hr1 & _ & _ & w3 & Hrun & Ht3 & Hr3 & _).
  unfold required_step, catching. rewrite Hrun. rewrite Hsilent, Ht1 in Ht3. rewrite Hkeep, Hr1 in Hr3.
  assert (Hw3 : stored id release w3) by (unfold stored; by rewrite Hr3).
  destruct ((run w1).1) as [[]|cause] eqn:Hres; cbn [fst snd].
  - exists [Called step (Ok tt)]. split; [done|]. split; [|done]. by constructor; [|constructor].
  - unfold failRelease, mbind, M_bind, attempt. rewrite (GetRelease_stored id release) by done.
    rewrite decide_False by done. unfold ignore.
    destruct (transition_no_fault id release ReleaseStatusFailed (set_db (w_db w3) (tick w3)))
      as (w' & Htr & Ht & Hst); [done|done|].
    rewrite Htr. cbn [fst snd]. eexists [_; _]. split.
    { cbn [throw snd]. rewrite Ht. cbn [set_db tick w_trace]. rewrite Ht3, <-app_assoc. reflexivity. }
    eexists [], step, [], [], cause, _. split_and!; [reflexivity..|constructor|reflexivity| | |exact Hst].
    + apply transitioned_fields.
    + apply transitioned_completed. by right.
Qed.

Lemma executes_assume {A} (φ : Prop) id script Pre (m : M (World C) A) Post :
  (∀ w, Pre w → φ) → (φ → executes id script Pre m Post) → executes id script Pre m Post.
Proof. intros H1 H2 w Hw. exact (H2 (H1 w Hw) w Hw). Qed.

Lemma executes_weaken {A} id script (Pre Pre' : World C → Prop) (m : M (World C) A) Post :
  executes id script Pre' m Post → (∀ w, Pre w → Pre' w) → executes id script Pre m Post.
Proof. intros Hm Hp w Hw. exact (Hm w (Hp w Hw)). Qed.

Lemma executes_query {A} id (Pre : World C → Prop) (m : M (World C) A) (Post : A → World C → Prop) :
  silent m → (∀ w, Pre w → ∃ a, (m w).1 = Ok a ∧ Post a (m w).2) → executes id [] Pre m Post.
Proof.
  intros Hs Hm w Hw. exists []. rewrite Hs, app_nil_r. split; [done|].
  destruct (Hm w Hw) as (a & -> & HP). by split; [constructor|].
Qed.

(** A transition followed by what it leads to. *)
Lemma executes_to {B} id release status script (f : Release → M (World C) B) Post :
  IsReleaseStatusValid status = true →
  (∀ r, rel_Status r = status → executes id script (stored id r) (f r) Post) →
  executes id ([LStatus status] ++ script) (stored id release) (transition release status ≫= f) Post.
Proof.
  intros Hv Hf. eapply executes_bind; [by apply executes_transition|]. intros r.
  apply (executes_assume (rel_Status r = status)); [by intros w (_ & ? & _)|]. intros Hr.
  eapply executes_weaken; [by apply Hf|]. by intros w (? & _).
Qed.

Lemma executes_step_then {B} id step release run script (f : M (World C) B) Post :
  silent (C := C) run → keeps_releases run → rel_Status release ≠ ReleaseStatusFailed →
  executes id script (stored id release) f Post →
  executes id ([LCall step] ++ script) (stored id release) (required_step id step run ;; f) Post.
Proof. intros ????. eapply executes_bind; [by apply executes_step | by intros]. Qed.

Lemma keeps_on_cluster (call : C → result unit * C) : keeps_releases (on_cluster call).
Proof. intros w. unfold on_cluster. by destruct (call _). Qed.

Lemma executes_executeRelease (a : ResourceApplier C) id application spec post release resources :
  (∀ run, post = Some run → silent run ∧ keeps_releases run) →
  RenderResources (applicationContext application (rel_Sequence release)) spec = Ok resources →
  executes id (release_script (bool_decide (is_Some post))) (stored id release)
    (executeRelease (Some a) id application spec post)
    (λ _ w, ∃ r, stored id r w ∧ rel_Status r = ReleaseStatusSucceeded ∧ is_Some (rel_CompletedAt r)).
Proof.
  intros Hpost Hrender. unfold executeRelease, release_script.
  change ([LStatus ReleaseStatusValidating; LCall "verify_image"; LCall "preflight";
    LStatus ReleaseStatusApplying; LCall "apply_resources"]) with
    ([] ++ [] ++ [LStatus ReleaseStatusValidating] ++ [LCall "verify_image"] ++ [LCall "preflight"] ++
     [LStatus ReleaseStatusApplying] ++ [LCall "apply_resources"]).
  rewrite <-!app_assoc.
  eapply (executes_bind _ _ _ _ _ _ (λ r w, r = release ∧ stored id release w)).
  { apply executes_query; [auto with cylism|]. intros w Hw. rewrite (GetRelease_stored id release) by done.
    by exists release. }
  intros r0. apply (executes_assume (r0 = release)); [by intros w [-> _]|]. intros ->.
  eapply (executes_bind _ _ _ _ _ _ (λ r w, stored id release w)).
  { rewrite Hrender. apply executes_query; [done|]. intros w [_ Hw]. by exists resources. }
  intros resources'.
  apply executes_to; [done|]. intros r1 H1.
  apply executes_step_then; [auto with cylism|apply keeps_on_cluster|by rewrite H1|].
  apply executes_step_then; [auto with cylism|apply keeps_on_cluster|by rewrite H1|].
  apply executes_to; [done|]. intros r2 H2.
  apply executes_step_then; [auto with cylism|apply keeps_on_cluster|by rewrite H2|].
  eapply (executes_bind _ _ _ _ _ _ (λ _, stored id r2)).
  { destruct post as [run|]; [|by apply executes_query; [done|]; intros w Hw; exists tt].
    rewrite bool_decide_true by done. destruct (Hpost run eq_refl). apply executes_step; [done..|by rewrite H2]. }
  intros _.
  change [LStatus ReleaseStatusWaitingReady; LCall "wait_ready"; LStatus ReleaseStatusSucceeded] with
    ([LStatus ReleaseStatusWaitingReady] ++ [LCall "wait_ready"] ++ [LStatus ReleaseStatusSucceeded] ++ []).
  apply executes_to; [done|]. intros r3 H3.
  apply executes_step_then; [auto with cylism|apply keeps_on_cluster|by rewrite H3|].
  eapply executes_bind; [by apply executes_transition|]. intros r4.
  apply executes_query; [done|]. intros w (Hst & Hs & Hc). exists tt. split; [done|]. exists r4. auto.
Qed.
End no_faults.
End execution_trace.

(** ** Creating releases *)

Lemma next_sequence_newest applicationID db r :
  r ∈ releases_of applicationID db → (∀ x, x ∈ releases_of applicationID db → 0 ≤ rel_Sequence x < 2 ^ 64 - 1)%Z →
  (rel_Sequence r < next_sequence (releases_of applicationID db) < 2 ^ 64)%Z.
Proof.
  pose proof (releases_of_sorted applicationID db) as Hs. intros Hr Hb.
  destruct (releases_of applicationID db) as [|x l]; [by apply not_elem_of_nil in Hr|].
  apply StronglySorted_inv in Hs as [_ Hx]. rewrite Forall_forall in Hx. simpl.
  pose proof (Hb x ltac:(left)). rewrite u64_small by (unfold is_u64; lia).
  apply elem_of_cons in Hr as [->|Hr]; [lia|]. specialize (Hx r Hr). unfold newest_first in Hx. lia.
Qed.

Lemma Service_CreateRelease_Ok `{K8sLibrary} {C} `{Surroundings} applicationID userID spec (w w' : World C) r :
  Service_CreateRelease applicationID userID spec w = (Ok r, w') →
  ∃ application resources,
    get_application (w_db w) applicationID = Ok application ∧ ValidateReleaseSpec spec = [] ∧
    let sequence := next_sequence (releases_of applicationID (w_db w)) in
    let t := tbl (w_db w) in
    RenderResources (applicationContext application sequence) spec = Ok resources ∧
    r = with_id (t_next t) (new_release applicationID userID sequence spec (SanitizeReleaseSpec spec)) ∧
    clashes (t_next t) r t = false ∧
    w_db w' = put {| t_rows := <[t_next t := r]> (t_rows t); t_next := t_next t + 1 |} (w_db w) ∧
    w_cluster w' = w_cluster w ∧ w_trace w' = w_trace w ++ [Wrote r].
Proof.
  unfold Service_CreateRelease.
  intros (app & w1 & Happ%wrapping_Ok & Hx)%bind_Ok. apply query_Ok in Happ as (Happ & Hd1 & Hc1 & Ht1).
  apply bind_Ok in Hx as (u & w2 & [Hv ->]%guard_not_Ok & Hx).
  apply bind_Ok in Hx as (rels & w3 & Hl%wrapping_Ok & Hx). apply query_Ok in Hl as ([= <-] & Hd3 & Hc3 & Ht3).
  apply bind_Ok in Hx as (res & w4 & [Hres ->]%lift_Ok & Hx%wrapping_Ok).
  apply CreateRelease_Ok in Hx as (Hcl & Hr & Hdb & Hc & Ht).
  rewrite Hd1 in *. rewrite Hd3 in *. exists app, res.
  assert (rd_SanitizedSpec res = SanitizeReleaseSpec spec) as Hsan.
  { by apply RenderResources_inv in Hres as (_ & _ & _ & _ & pull & c & _ & _ & ->). }
  rewrite Hsan in Hr, Hcl. split_and!; try done; try congruence.
  - by destruct (ValidateReleaseSpec spec).
  - rewrite Hr. exact Hcl.
Qed.

Lemma releaseSpecFromSnapshot_sanitised spec :
  valid_ReleaseSpec spec →
  releaseSpecFromSnapshot (encode_ReleaseSpec (SanitizeReleaseSpec spec)) = Ok (SanitizeReleaseSpec spec).
Proof.
  intros Hv. unfold releaseSpecFromSnapshot.
  rewrite decode_encode_ReleaseSpec by by apply valid_SanitizeReleaseSpec. by destruct spec.
Qed.

(** Every stored snapshot is the document of a sanitised specification. *)
Definition snapshots_sanitised (db : DB) : Prop :=
  ∀ r, r ∈ t_list (tbl db) → ∃ s, valid_ReleaseSpec s ∧ rel_DesiredSpec r = encode_ReleaseSpec (SanitizeReleaseSpec s).

(** A specification read from a snapshot, with the endpoint of a cluster-only release, renders neither
    a Secret nor an Ingress nor a pull secret. *)
Definition touches_no_secret `{K8sLibrary} (spec : ReleaseSpec) : Prop :=
  ∀ context resources, RenderResources context spec = Ok resources →
    rd_Secret resources = None ∧ rd_ImagePullSecret resources = None ∧ rd_Ingress resources = None.

Lemma hasSecretValues_blank (m : gmap string string) disabled :
  hasSecretValues (enabledStringMap ((λ _, "") <$> m) disabled) = false.
Proof.
  apply not_true_iff_false. rewrite hasSecretValues_spec. intros (k & v & Hk & Hv).
  apply enabledStringMap_lookup in Hk as [Hk _]. rewrite lookup_fmap in Hk.
  apply fmap_Some in Hk as (? & _ & ->). done.
Qed.

Lemma sanitised_touches_no_secret `{K8sLibrary} s :
  touches_no_secret (with_endpoint cluster_endpoint (SanitizeReleaseSpec s)).
Proof.
  intros context resources (_ & _ & _ & _ & pull & c & Hp & _ & ->)%RenderResources_inv.
  destruct s. unfold assemble, enabled_secrets. simpl. rewrite hasSecretValues_blank. split_and!; [done| |done].
  unfold pull_secret, private_registry in Hp. simpl in Hp. rewrite andb_false_r in Hp. by injection Hp.
Qed.

(** ** Properties *)

Section properties.
Context `{K8sLibrary} {C : Type} `{Surroundings}.

(** C9: the order of an execution. Whatever the cluster answers and whichever database statements
    fail, the statuses written and the steps called are a prefix of validating, verify_image,
    preflight, applying, apply_resources, (sync_endpoints,) waiting_ready, wait_ready, succeeded, with
    every step of the prefix successful, followed on error by at most the step that was reached and
    the failed status; a nil error means the whole sequence. In particular resources are applied only
    after the image verification and the preflight have both returned nil and the release was written
    as applying. *)
Theorem execution_order (applier : ResourceApplier C) id application spec post (w : World C)
    (Hpost : ∀ run, post = Some run → silent run) :
  let run := executeRelease (Some applier) id application spec post in
  let script := release_script (bool_decide (is_Some post)) in
  ∃ evs, w_trace (run w).2 = w_trace w ++ evs ∧ follows id script (run w).1 evs ∧
    ∀ before o after, evs = before ++ Called "apply_resources" o :: after →
      ∃ validating applying, before =
        [Wrote validating; Called "verify_image" (Ok tt); Called "preflight" (Ok tt); Wrote applying] ∧
        rel_ID applying = id ∧ rel_Status applying = ReleaseStatusApplying.
Proof.
  destruct (runs_executeRelease applier id application spec post Hpost w) as (evs & Ht & Hf).
  exists evs. split_and!; [done..|]. intros before o after ->.
  destruct (follows_called _ _ _ _ before "apply_resources" o after Hf eq_refl) as (s1 & s2 & Hs & Hb).
  assert (s1 = [LStatus ReleaseStatusValidating; LCall "verify_image"; LCall "preflight";
    LStatus ReleaseStatusApplying]) as ->.
  { clear Hf Hb. unfold release_script in Hs.
    destruct (bool_decide _); repeat (destruct s1 as [|? s1]; simplify_eq/=; try done). }
  repeat match goal with
  | Hx : Forall2 _ (_ :: _) _ |- _ => apply Forall2_cons_inv_l in Hx as (? & ? & ? & Hx & ->)
  | Hx : Forall2 _ [] _ |- _ => apply Forall2_nil_inv_l in Hx as ->
  end.
  repeat match goal with Hx : fits _ _ ?e |- _ => destruct e; simpl in Hx; try done; destruct Hx as [? ?]; subst end.
  by eexists _, _.
Qed.

(** C12: the outcome of an execution, without database faults, for a stored release whose resources
    render. Either every step succeeds, the error is nil and the stored release has succeeded and is
    completed; or exactly one step fails, the steps and statuses before it went through, the error
    names the step and wraps its cause, and the stored release has failed and is completed. Either
    way the release ends in a terminal status. *)
Theorem execution_outcome (no_faults : ∀ n, fault n = None) (applier : ResourceApplier C)
    id application spec post (w : World C) release resources
    (Hpost : ∀ run, post = Some run → silent run ∧ keeps_releases run)
    (Hstored : stored id release w)
    (Hrender : RenderResources (applicationContext application (rel_Sequence release)) spec = Ok resources) :
  let run := executeRelease (Some applier) id application spec post in
  let script := release_script (bool_decide (is_Some post)) in
  ∃ evs final, w_trace (run w).2 = w_trace w ++ evs ∧ stored id final (run w).2 ∧
    is_Some (rel_CompletedAt final) ∧
    match (run w).1 with
    | Ok _ => Forall2 (fits id) script evs ∧ rel_Status final = ReleaseStatusSucceeded
    | Err e => failed_at id script evs e (run w).2 ∧ rel_Status final = ReleaseStatusFailed
    end.
Proof.
  destruct (executes_executeRelease no_faults applier id application spec post release resources
    Hpost Hrender w Hstored) as (evs & Ht & Hr). exists evs.
  destruct ((executeRelease (Some applier) id application spec post w).1) as [u|e].
  - destruct Hr as (Hf & r & Hst & Hs & Hc). exists r. split_and!; done.
  - pose proof Hr as (s1 & step & s2 & e1 & cause & rel & _ & _ & _ & _ & Hs & Hc & Hst).
    exists rel. split_and!; done.
Qed.

(** Every step is on record. Without database faults [runStep] returns what the step returned and
    leaves, besides what the step did, one operation row of the release and one log row, both with
    the step's name, "success" or "failed" as the step ended, and the text of its error. *)
Theorem step_recorded (no_faults : ∀ n, fault n = None) id step run (w : World C) :
  ∃ w1 w3 opID op logID log, runStep id step run w = ((run w1).1, w3) ∧
    releases w1 = releases w ∧ w_cluster w1 = w_cluster w ∧ w_cluster w3 = w_cluster (run w1).2 ∧
    operations w3 = <[opID := op]> (operations (run w1).2) ∧ op_ReleaseID op = id ∧ op_Step op = step ∧
    is_Some (op_CompletedAt op) ∧
    logs w3 !! logID = Some log ∧ log_ResourceType log = "release" ∧ log_ResourceID log = id ∧ log_Step log = step ∧
    log_Status log = op_Status op ∧ log_Detail log = op_Detail op ∧
    match (run w1).1 with
    | Ok _ => op_Status op = ReleaseOperationSuccess ∧ op_Detail op = ""
    | Err e => op_Status op = ReleaseOperationFailed ∧ op_Detail op = err_text e
    end.
Proof.
  destruct (runStep_no_fault no_faults id step run w) as (w1 & _ & Hr & Hc & _ & w3 & Hrun & _ & _ & Hc3 & (t & Ho) & Hlog).
  destruct Hlog as (logID & l & Hl & H1 & H2 & H3 & H4 & H5).
  exists w1, w3, (op_ID (started_operation id step w)), (finished (started_operation id step w) t (run w1).1), logID, l.
  split_and!; try done. by destruct (run w1).1.
Qed.

(** A release is created under the next number. When [CreateRelease] succeeds, the specification
    validated and rendered for that number, the application existed, one row was added under a fresh
    key and nothing else changed: a draft of the application with the sanitised snapshot, which reads
    back as the sanitised specification, and a sequence number above every earlier one. The rows stay
    consistent and every stored snapshot sanitised. *)
Theorem create_release_next applicationID userID spec (w w' : World C) r
    (Hcreate : Service_CreateRelease applicationID userID spec w = (Ok r, w'))
    (Hvalid : valid_ReleaseSpec spec)
    (Hwf : well_formed_releases (releases w)) (Hfresh : releases w !! t_next (tbl (A := Release) (w_db w)) = None)
    (Hbound : ∀ x, x ∈ releases_of applicationID (w_db w) → (0 ≤ rel_Sequence x < 2 ^ 64 - 1)%Z) :
  ValidateReleaseSpec spec = [] ∧
  rel_ApplicationID r = applicationID ∧ rel_Status r = ReleaseStatusDraft ∧ rel_CreatedBy r = userID ∧
  releaseSpecFromSnapshot (rel_DesiredSpec r) = Ok (SanitizeReleaseSpec spec) ∧
  (∀ x, x ∈ releases_of applicationID (w_db w) → rel_Sequence x < rel_Sequence r)%Z ∧
  releases w' = <[rel_ID r := r]> (releases w) ∧ well_formed_releases (releases w') ∧
  (snapshots_sanitised (w_db w) → snapshots_sanitised (w_db w')).
Proof.
  destruct (Service_CreateRelease_Ok _ _ _ _ _ _ Hcreate) as (app & res & _ & Hv & _ & Hr & Hcl & Hdb & _).
  assert (Hrel : releases w' = <[rel_ID r := r]> (releases w)).
  { unfold releases. rewrite Hdb, tbl_put, Hr. done. }
  assert (Hid : rel_ID r = t_next (tbl (A := Release) (w_db w))) by by rewrite Hr.
  assert (Happ : rel_ApplicationID r = applicationID) by by rewrite Hr.
  assert (Hseq : rel_Sequence r = next_sequence (releases_of applicationID (w_db w))) by by rewrite Hr.
  assert (Hsnap : rel_DesiredSpec r = encode_ReleaseSpec (SanitizeReleaseSpec spec)) by by rewrite Hr.
  split_and!; try done.
  - by rewrite Hr.
  - by rewrite Hr.
  - rewrite Hsnap. by apply releaseSpecFromSnapshot_sanitised.
  - intros x Hx. rewrite Hseq. by apply next_sequence_newest.
  - rewrite Hrel. destruct Hwf as [Hk Hu]. split.
    + intros i x [[<- <-]|[_ Hx]]%lookup_insert_Some; [done | by apply Hk].
    + assert (Hother : ∀ j y, releases w !! j = Some y → rel_ApplicationID y = rel_ApplicationID r →
        rel_Sequence y = rel_Sequence r → rel_ID r = j).
      { intros j y Hj Ha Hs. exfalso.
        assert (y ∈ releases_of applicationID (w_db w)) as Hy.
        { apply elem_of_releases_of. split; [congruence|]. apply elem_of_t_list. by exists j. }
        pose proof (next_sequence_newest _ _ _ Hy Hbound). lia. }
      intros i j x y [[<- <-]|[_ Hx]]%lookup_insert_Some [[<- <-]|[_ Hy]]%lookup_insert_Some Ha Hs; [done| | |by eapply Hu].
      * by eapply Hother.
      * symmetry. by eapply Hother.
  - intros Hall x Hx. rewrite Hdb, tbl_put in Hx. apply elem_of_t_list in Hx as [i Hx]. simpl in Hx.
    apply lookup_insert_Some in Hx as [[_ <-]|[_ Hx]]; [by exists spec|].
    apply Hall, elem_of_t_list. by exists i.
Qed.

Lemma rollback_source_spec current l source :
  StronglySorted newest_first l → rollback_source current l = Some source →
  source ∈ l ∧ (rel_Sequence source < rel_Sequence current)%Z ∧ rel_Status source = ReleaseStatusSucceeded ∧
  ∀ x, x ∈ l → (rel_Sequence x < rel_Sequence current)%Z → rel_Status x = ReleaseStatusSucceeded →
    (rel_Sequence x ≤ rel_Sequence source)%Z.
Proof.
  intros Hs Hf. unfold rollback_source in Hf. apply find_first_split in Hf as (l1 & l2 & -> & Ht & Hno).
  apply andb_prop in Ht as [H1%bool_decide_eq_true H2%bool_decide_eq_true]. split_and!; try done; [set_solver|].
  intros x [Hx|[->|Hx]%elem_of_cons]%elem_of_app Hlt Hst; [|lia|].
  - specialize (Hno x Hx). apply andb_false_iff in Hno as [Hno|Hno]; by apply bool_decide_eq_false in Hno.
  - apply StronglySorted_app_1_r in Hs. apply StronglySorted_inv in Hs as [_ Hs].
    rewrite Forall_forall in Hs. apply (Hs x Hx).
Qed.

(** Rolling back replays the right release. When [RollbackRelease] succeeds, its source is the
    release of the same application with the highest number among those below the current one that
    succeeded; the specification is the source's snapshot with a cluster-only endpoint; the new row is
    a draft that names the source and its template; and whatever that specification renders contains
    neither a Secret, nor a pull secret, nor an Ingress, so the rollback leaves the secrets and the
    domain bindings of the cluster as they are. *)
Theorem rollback_replays_last_success id userID (w w' : World C) r spec
    (Hroll : RollbackRelease id userID w = (Ok (r, spec), w'))
    (Hsnap : snapshots_sanitised (w_db w)) :
  ∃ current source s, current ∈ t_list (tbl (w_db w)) ∧ rel_ID current = id ∧
    source ∈ releases_of (rel_ApplicationID current) (w_db w) ∧
    (rel_Sequence source < rel_Sequence current)%Z ∧ rel_Status source = ReleaseStatusSucceeded ∧
    (∀ x, x ∈ releases_of (rel_ApplicationID current) (w_db w) → (rel_Sequence x < rel_Sequence current)%Z →
      rel_Status x = ReleaseStatusSucceeded → (rel_Sequence x ≤ rel_Sequence source)%Z) ∧
    rel_DesiredSpec source = encode_ReleaseSpec (SanitizeReleaseSpec s) ∧
    spec = with_endpoint cluster_endpoint (SanitizeReleaseSpec s) ∧
    rel_Status r = ReleaseStatusDraft ∧ rel_ApplicationID r = rel_ApplicationID current ∧
    rel_SourceReleaseID r = Some (rel_ID source) ∧ rel_TemplateID r = rel_TemplateID source ∧
    rel_TemplateRevision r = rel_TemplateRevision source ∧
    touches_no_secret spec.
Proof.
  unfold RollbackRelease in Hroll.
  apply bind_Ok in Hroll as (current & w1 & Hc & Hx). apply query_Ok in Hc as (Hc & Hd1 & _).
  apply first_row_select in Hc as [Hc%bool_decide_eq_true Hin].
  apply bind_Ok in Hx as (l & w2 & Hl & Hx). apply query_Ok in Hl as ([= <-] & Hd2 & _). rewrite Hd1 in *.
  destruct (rollback_source current _) as [source|] eqn:Hsrc; [|done].
  apply rollback_source_spec in Hsrc as (Hs1 & Hs2 & Hs3 & Hs4); [|apply releases_of_sorted].
  apply bind_Ok in Hx as (spec' & w3 & [Hspec ->]%lift_Ok & Hx).
  apply bind_Ok in Hx as (r0 & w4 & Hcr & Hx). apply bind_Ok in Hx as (u & w5 & Hu & [[= -> ->] ->]%ret_Ok).
  apply Service_CreateRelease_Ok in Hcr as (app & res & _ & _ & _ & Hr0 & _).
  destruct (Hsnap source) as (s & Hv & Hdoc); [by apply elem_of_releases_of in Hs1 as [_ ?]|].
  rewrite Hdoc, releaseSpecFromSnapshot_sanitised in Hspec by done. injection Hspec as <-.
  exists current, source, s. rewrite Hr0. split_and!; try done. apply sanitised_touches_no_secret.
Qed.

(** A retry replays the release itself, with the same guarantees: the specification is its
    snapshot with a cluster-only endpoint, the new row is a draft of the same application that keeps
    the template of the release retried, and no secret, pull secret or ingress is rendered from it. *)
Theorem retry_replays_snapshot id userID (w w' : World C) r spec
    (Hretry : RetryRelease id userID w = (Ok (r, spec), w'))
    (Hsnap : snapshots_sanitised (w_db w)) :
  ∃ release s, release ∈ t_list (tbl (w_db w)) ∧ rel_ID release = id ∧
    rel_DesiredSpec release = encode_ReleaseSpec (SanitizeReleaseSpec s) ∧
    spec = with_endpoint cluster_endpoint (SanitizeReleaseSpec s) ∧
    rel_Status r = ReleaseStatusDraft ∧ rel_ApplicationID r = rel_ApplicationID release ∧
    rel_TemplateID r = rel_TemplateID release ∧ rel_TemplateRevision r = rel_TemplateRevision release ∧
    rel_Sequence r = next_sequence (releases_of (rel_ApplicationID release) (w_db w)) ∧
    touches_no_secret spec.
Proof.
  unfold RetryRelease in Hretry.
  apply bind_Ok in Hretry as (release & w1 & Hc & Hx). apply query_Ok in Hc as (Hc & Hd1 & _).
  apply first_row_select in Hc as [Hc%bool_decide_eq_true Hin].
  apply bind_Ok in Hx as (spec' & w3 & [Hspec ->]%lift_Ok & Hx).
  apply bind_Ok in Hx as (r0 & w4 & Hcr & Hx). apply bind_Ok in Hx as (u & w5 & Hu & [[= -> ->] ->]%ret_Ok).
  apply Service_CreateRelease_Ok in Hcr as (app & res & _ & _ & _ & Hr0 & _). rewrite Hd1 in Hr0.
  destruct (Hsnap release Hin) as (s & Hv & Hdoc).
  rewrite Hdoc, releaseSpecFromSnapshot_sanitised in Hspec by done. injection Hspec as <-.
  exists release, s. rewrite Hr0. split_and!; try done. apply sanitised_touches_no_secret.
Qed.
End properties.

(** ** A concrete run *)

#[local] Existing Instance calm.
#[local] Existing Instance sample_library.

Definition sample_release (id sequence : Z) (status : string) : Release :=
  set_rel_id id (set_rel_status status
    (new_release 7 1 sequence sample_spec (SanitizeReleaseSpec sample_spec))).
Definition sample_db : DB :=
  {| db_projects := {| t_rows := {[1%Z := app_Project sample_application]}; t_next := 2 |};
     db_environments := {| t_rows := {[2%Z := app_Environment sample_application]}; t_next := 3 |};
     db_applications := {| t_rows := {[7%Z := sample_application]}; t_next := 8 |};
     db_endpoints := empty_table; db_templates := empty_table; db_managed_files := empty_table;
     db_releases := {| t_rows := {[1%Z := sample_release 1 1 ReleaseStatusSucceeded;
                                   2%Z := sample_release 2 2 ReleaseStatusDraft]}; t_next := 3 |};
     db_operations := empty_table; db_logs := empty_table;
     db_registries := empty_table; db_mirrors := empty_table; db_mirror_nodes := empty_table;
     db_servers := empty_table; db_platform := empty_platform; db_namespace_index := true |}.
Definition sample_world : World unit :=
  {| w_db := sample_db; w_tick := 0; w_cluster := tt; w_trace := [] |}.
(** A cluster on which the workload never becomes ready. *)
Definition sample_applier : ResourceApplier unit := {|
  VerifyImage _ := mret tt; Preflight _ _ := mret tt; Apply _ := mret tt;
  WaitReady _ _ := throw (EText "timeout")
|}.

Lemma sample_valid : valid_ReleaseSpec sample_spec.
Proof.
  unfold valid_ReleaseSpec, valid_VolumeMountSpec, valid_FileMountSpec. split_and!; try done;
    repeat constructor; unfold is_u64, is_i32; simpl; lia.
Qed.

Lemma sample_snapshots : snapshots_sanitised sample_db.
Proof.
  intros r [i Hr]%elem_of_t_list. simpl in Hr. exists sample_spec. split; [exact sample_valid|].
  apply lookup_insert_Some in Hr as [[_ <-]|[_ Hr]]; [reflexivity|].
  apply lookup_singleton_Some in Hr as [_ <-]. reflexivity.
Qed.

Lemma sample_well_formed : well_formed_releases (releases sample_world).
Proof.
  split.
  - intros i r Hr. cbv [releases tbl releases_table] in Hr. cbn in Hr.
    apply lookup_insert_Some in Hr as [[<- <-]|[_ [<- <-]%lookup_singleton_Some]]; done.
  - intros i j x y Hx Hy _ Hs. cbv [releases tbl releases_table] in Hx, Hy. cbn in Hx, Hy.
    apply lookup_insert_Some in Hx as [[<- <-]|[_ [<- <-]%lookup_singleton_Some]];
    apply lookup_insert_Some in Hy as [[<- <-]|[_ [<- <-]%lookup_singleton_Some]]; done.
Qed.

Lemma execution_order_witness :
  ∃ evs, w_trace (executeRelease (Some sample_applier) 2 sample_application sample_spec None sample_world).2 = evs ∧
    follows 2 (release_script false)
      (executeRelease (Some sample_applier) 2 sample_application sample_spec None sample_world).1 evs.
Proof.
  destruct (execution_order sample_applier 2 sample_application sample_spec None sample_world
    ltac:(intros run Hrun; discriminate Hrun)) as (evs & Ht & Hf & _).
  exists evs. exact (conj Ht Hf).
Defined.

Lemma execution_outcome_witness :
  ∃ final, stored 2 final (executeRelease (Some sample_applier) 2 sample_application sample_spec None sample_world).2 ∧
    is_Some (rel_CompletedAt final).
Proof.
  assert (Hs : stored 2 (sample_release 2 2 ReleaseStatusDraft) sample_world).
  { exact (conj sample_well_formed eq_refl). }
  destruct (execution_outcome calm_faults sample_applier 2 sample_application sample_spec None sample_world
    (sample_release 2 2 ReleaseStatusDraft)
    (from_ok sample_rendered (RenderResources (applicationContext sample_application 2) sample_spec))
    ltac:(intros run Hrun; discriminate Hrun) Hs
    ltac:(apply from_ok_spec; vm_compute; reflexivity)) as (evs & final & _ & Hf & Hc & _).
  exists final. exact (conj Hf Hc).
Defined.

Lemma step_recorded_witness :
  ∃ w3 opID op, runStep 2 "preflight" (throw (EText "denied")) sample_world = (Err (EText "denied"), w3) ∧
    op_Detail op = "denied" ∧ operations w3 !! opID = Some op.
Proof.
  destruct (step_recorded calm_faults 2 "preflight" (throw (EText "denied")) sample_world)
    as (w1 & w3 & opID & op & logID & log & Hrun & _ & _ & _ & Ho & _ & _ & _ & _ & _ & _ & _ & _ & _ & Hs).
  exists w3, opID, op. refine (conj Hrun (conj (proj2 Hs) _)). rewrite Ho. apply lookup_insert_eq.
Defined.

Definition sample_created := Service_CreateRelease 7 1 sample_spec sample_world.
Lemma create_release_next_witness :
  rel_Sequence (from_ok (sample_release 0 0 "") sample_created.1) = 3%Z ∧
  releaseSpecFromSnapshot (rel_DesiredSpec (from_ok (sample_release 0 0 "") sample_created.1)) =
    Ok (SanitizeReleaseSpec sample_spec).
Proof.
  split; [vm_compute; reflexivity|].
  apply (create_release_next 7 1 sample_spec sample_world sample_created.2
    (from_ok (sample_release 0 0 "") sample_created.1)).
  - apply ran_Ok. vm_compute. reflexivity.
  - exact sample_valid.
  - exact sample_well_formed.
  - reflexivity.
  - intros x [_ [i Hx]%elem_of_t_list]%elem_of_releases_of. simpl in Hx.
    apply lookup_insert_Some in Hx as [[<- <-]|[_ [<- <-]%lookup_singleton_Some]]; simpl; lia.
Defined.

Definition sample_rollback := RollbackRelease 2 1 sample_world.
Lemma rollback_replays_last_success_witness :
  touches_no_secret (from_ok (sample_release 0 0 "", sample_spec) sample_rollback.1).2.
Proof.
  destruct (rollback_replays_last_success 2 1 sample_world sample_rollback.2
    (from_ok (sample_release 0 0 "", sample_spec) sample_rollback.1).1
    (from_ok (sample_release 0 0 "", sample_spec) sample_rollback.1).2)
    as (current & source & s & _ & _ & _ & _ & _ & _ & _ & _ & _ & _ & _ & _ & _ & Ht).
  - rewrite <-surjective_pairing. apply ran_Ok. vm_compute. reflexivity.
  - exact sample_snapshots.
  - exact Ht.
Defined.

Definition sample_retry := RetryRelease 2 1 sample_world.
Lemma retry_replays_snapshot_witness :
  touches_no_secret (from_ok (sample_release 0 0 "", sample_spec) sample_retry.1).2.
Proof.
  destruct (retry_replays_snapshot 2 1 sample_world sample_retry.2
    (from_ok (sample_release 0 0 "", sample_spec) sample_retry.1).1
    (from_ok (sample_release 0 0 "", sample_spec) sample_retry.1).2)
    as (release & s & _ & _ & _ & _ & _ & _ & _ & _ & _ & Ht).
  - rewrite <-surjective_pairing. apply ran_Ok. vm_compute. reflexivity.
  - exact sample_snapshots.
  - exact Ht.
Defined.
