(* ===== verification/ReleaseWorkflow.v ===== *)
(** * The release use cases

    [internal/service/application/release_workflow.go] and the registry aliases of
    [internal/service/registry/image_reference.go]: from a template, a restart, a retry or a rollback to a
    release with its runtime specification (decrypted secrets, registry credential, the mirror that
    verifies the image), the reconciliation of the endpoints that runs after the resources are
    applied, and the managed files of a template. Image references are parsed by a library. *)
From Stdlib Require Import ZArith Ascii String.
From stdpp Require Import base sorting pretty numbers gmap strings list.
From S2P Require Import Prelude GoStrings Json JsonText ReleaseSpec ReleaseSnapshot Models Security ReleaseValidation ReleaseRendering Store RegistryStore ReleaseExecution.

Definition AuthTypeAnonymous := "anonymous".
Definition AuthTypeBasic := "basic".
Definition AuthTypeToken := "token".

(** [name.ParseReference(image)], then [ref.Context().RegistryStr()] *)
Class ImageReferences := { ParseReference : string → result string }.

Definition ErrReleaseTemplateRead : goerr := ESent "ErrReleaseTemplateRead" "release template read".
Definition ErrReleaseSecretRead : goerr := ESent "ErrReleaseSecretRead" "release secret read".

(** ** Image references *)

Definition white_space : string := String " " (String "009" (String "013" (String "010" ""))).

Definition tag_first_char (c : ascii) : bool :=
  is_upper c || is_lower c || ((48 <=? code c)%N && (code c <=? 57)%N) || bool_decide (c = "_"%char).
Definition tag_char (c : ascii) : bool :=
  tag_first_char c || bool_decide (c = "."%char) || bool_decide (c = "-"%char).
(** [^[A-Za-z0-9_][A-Za-z0-9_.-]{0,127}$] *)
Definition releaseImageTagPattern (s : string) : bool :=
  match chars s with
  | [] => false
  | c :: l => tag_first_char c && forallb tag_char l && (length l <=? 127)
  end.

(** The path of an image as both functions trim it. *)
Definition image_path (s : string) : string := trim_char "/" (trim_space s).

Definition imageWithVersion (repository version : string) : result string :=
  let repository := image_path repository in
  if bool_decide (repository = "") || contains_any repository white_space || contains repository "@"
  then Err (EText "镜像路径无效")
  else if contains (drop_str (after_last "/" repository) repository) ":"
  then Err (EText "上线模板镜像路径不应包含 Tag，请在发布时填写版本号")
  else
    let version := trim_space version in
    if negb (releaseImageTagPattern version) then Err (EText "版本号必须是合法的镜像 Tag")
    else Ok (repository +:+ (":" +:+ version)).

Definition registryImageReference (endpoint image : string) : result string :=
  let image := image_path image in
  if bool_decide (image = "") || contains_any image white_space
  then Err (EText "镜像路径不能为空且不能包含空格")
  else
    let prefix := image_path endpoint +:+ "/" in
    if has_prefix prefix image then Ok image else Ok (prefix +:+ image).

(** The host names of Docker Hub are one registry. *)
Definition normalize_registry (value : string) : string :=
  let value := to_lower (trim_space value) in
  if decide (value = "index.docker.io" ∨ value = "registry-1.docker.io") then "docker.io" else value.
Definition SameRegistry (left right : string) : bool :=
  bool_decide (normalize_registry left = normalize_registry right).

Definition mirrorAppliedToNode (mirror : NodeRegistryMirror) (nodeName : string) : bool :=
  existsb (λ status, bool_decide (mn_Status status = "success")
    && bool_decide (sv_K8sNodeName (mn_Server status) = nodeName)) (nm_NodeStatuses mirror).

(** ** Service ports *)

(** [strings.ToUpper(strings.TrimSpace(p))], empty meaning TCP *)
Definition actual_protocol (protocol : string) : string :=
  let p := to_upper (trim_space protocol) in if decide (p = "") then ServiceProtocolTCP else p.

Definition set_protocol (protocol : string) (p : ServicePortSpec) : ServicePortSpec :=
  {| port_Name := port_Name p; port_Port := port_Port p; port_TargetPort := port_TargetPort p;
     port_Protocol := protocol; port_NodePort := port_NodePort p |}.

(** The port and protocol asked for, after the defaults. *)
Definition requested (spec : ServiceSpec) (requestedPort : Z) (protocol : string) : Z * string :=
  if decide (requestedPort = 0%Z) then
    match PrimaryTCPPort spec with
    | Some primary => (port_Port primary, if decide (protocol = "") then ServiceProtocolTCP else protocol)
    | None => (match PortSpecs spec with p :: _ => port_Port p | [] => 0%Z end, protocol)
    end
  else (requestedPort, protocol).

Definition ResolveEndpointServicePort (spec : ServiceSpec) (requestedPort : Z) (requestedProtocol : string)
    (ingress : bool) : result ServicePortSpec :=
  let ports := PortSpecs spec in
  if empty_list ports then Err (EText "应用没有可绑定的 Service 端口") else
  let protocol := to_upper (trim_space requestedProtocol) in
  if decide (protocol ≠ "" ∧ protocol ≠ ServiceProtocolTCP ∧ protocol ≠ ServiceProtocolUDP)
  then Err (EText "Service 协议必须为 TCP 或 UDP") else
  let '(requestedPort, protocol) := requested spec requestedPort protocol in
  match find_first (λ port, bool_decide (port_Port port = requestedPort)) ports with
  | None => Err (EText ("Service 端口 " +:+ (dec requestedPort +:+ " 不存在，请选择模板中已声明的端口")))
  | Some port =>
      let actualProtocol := actual_protocol (port_Protocol port) in
      if decide (protocol ≠ "" ∧ protocol ≠ actualProtocol)
      then Err (EText ("Service 端口 " +:+ (dec requestedPort +:+ (" 的协议为 " +:+ (actualProtocol +:+ ("，不是 " +:+ protocol))))))
      else if ingress && bool_decide (actualProtocol ≠ ServiceProtocolTCP)
      then Err (EText "UDP Service 不支持 HTTP Ingress 域名绑定")
      else Ok (set_protocol actualProtocol port)
  end.

Definition endpointUsesIngress (endpoint : ApplicationEndpoint) : bool :=
  bool_decide (to_lower (trim_space (ae_IngressMode endpoint)) ≠ "metadata").

Definition servicePortExists (spec : ServiceSpec) (requestedPort : Z) (requestedProtocol : string) : bool :=
  existsb (λ port, bool_decide (port_Port port = requestedPort)
    && bool_decide (actual_protocol (port_Protocol port) = requestedProtocol)) (PortSpecs spec).

Definition set_endpoint_port (port : Z) (protocol : string) (e : ApplicationEndpoint) : ApplicationEndpoint :=
  let '(Build_ApplicationEndpoint i a d x dm p _ _ t ie im ts ir am) := e in
  Build_ApplicationEndpoint i a d x dm p port protocol t ie im ts ir am.

Definition releaseApplicationContextFor (app : Application) : ApplicationContext :=
  {| ac_ProjectID := app_ProjectID app; ac_EnvironmentID := app_EnvironmentID app;
     ac_ProjectName := pr_Name (app_Project app); ac_EnvironmentName := env_Name (app_Environment app);
     ac_ApplicationName := app_Name app; ac_Namespace := env_Namespace (app_Environment app);
     ac_ReleaseSequence := 0; ac_WorkloadKind := app_WorkloadKind app |}.

(** ** Managed files *)

Definition managedMountPath (spec : ReleaseSpec) (secret : bool) (key : string) : string :=
  let wantSource := if secret then FileMountSourceApplicationSecret else FileMountSourceApplicationConfig in
  match find_first (λ mount, bool_decide (fm_SourceType mount = wantSource) && bool_decide (fm_Key mount = key))
          (rs_FileMounts spec) with
  | Some mount => fm_MountPath mount
  | None => ""
  end.

Section workflow.
Context `{K8sLibrary} {C : Type} `{Surroundings} `{AesGcm} `{ImageReferences}.
#[local] Abbreviation M := (M (World C)).

(** The capability of an applier to reconcile endpoints. *)
Class endpointSynchronizer := {
  SyncApplicationEndpoints : ApplicationContext → list ApplicationEndpoint → Z → Prelude.M C unit
}.

Record PreparedRelease := { prep_Release : Release; prep_Spec : ReleaseSpec }.

(** The synchronizer is the applier, when it has that capability. *)
Record ReleaseWorkflow := {
  wf_encKey : string;
  wf_applier : option (ResourceApplier C);
  wf_synchronizer : option endpointSynchronizer
}.

Section use_cases.
Context (w : ReleaseWorkflow).

Definition parseImageReference (image : string) : result string := ParseReference (trim_space image).

Definition decryptTemplateSecrets (encrypted : string) : result (gmap string string) :=
  if decide (trim_space encrypted = "") then Ok ∅
  else if decide (wf_encKey w = "") then Err (EText "平台加密密钥未配置")
  else
    plaintext ← DecryptCredential (wf_encKey w) encrypted;
    match parse plaintext ≫= decode map_codec ∅ with
    | Some values => Ok values
    | None => Err (EText "json: cannot unmarshal")
    end.

(** The credential of a registry that has one. *)
Definition registry_credential (registry : ImageRegistry) : result (string * string) :=
  credential ← map_err (λ _, EText "读取镜像仓库凭据失败") (DecryptCredential (wf_encKey w) (ireg_Credential registry));
  Ok (if decide (ireg_AuthType registry = AuthTypeToken ∧ ireg_Username registry = "")
      then "token" else ireg_Username registry, credential).

Definition PrepareRegistrySpec (app : option Application) (spec : ReleaseSpec) : M ReleaseSpec :=
  if decide (rs_RegistryID spec = 0%Z) then mret spec else
  match app with
  | None => throw (EText "应用不存在")
  | Some app =>
      found ← attempt (GetImageRegistryForProject (rs_RegistryID spec) (app_ProjectID app));
      match found with
      | Err _ => throw (EText "镜像仓库不存在、未授权当前项目或已禁用")
      | Ok registry =>
          guard_not (negb (ireg_Enabled registry)) (EText "镜像仓库不存在、未授权当前项目或已禁用") ;;
          image ← lift (registryImageReference (ireg_Endpoint registry) (rs_Image spec));
          let spec := with_image image (rs_Version spec) spec in
          if decide (ireg_AuthType registry = AuthTypeAnonymous)
          then mret (with_registry (ireg_Endpoint registry) (ireg_AuthType registry)
                       (rs_RegistryUsername spec) (rs_RegistryCredential spec) spec)
          else
            login ← lift (registry_credential registry);
            mret (with_registry (ireg_Endpoint registry) (ireg_AuthType registry) login.1 login.2 spec)
      end
  end.

(** The mirror that verifies an image of the registry [ref] on the node. *)
Definition verification_mirror (ref nodeName : string) (mirrors : list NodeRegistryMirror) : option NodeRegistryMirror :=
  find_first (λ mirror, nm_Enabled mirror && SameRegistry (nm_Registry mirror) ref
    && mirrorAppliedToNode mirror nodeName) mirrors.

Definition use_mirror (mirror : NodeRegistryMirror) (spec : ReleaseSpec) : result ReleaseSpec :=
  match nm_Endpoints mirror ≫= decode (list_codec string_codec) [] with
  | None | Some [] => Err (EText ("节点镜像源 " +:+ (quote (nm_Name mirror) +:+ " 配置损坏")))
  | Some (first :: _) =>
      let endpoint := trim_space first in
      if decide (endpoint = "") then Err (EText ("节点镜像源 " +:+ (quote (nm_Name mirror) +:+ " 未配置可用地址"))) else
      credential ← (if decide (nm_Username mirror = "") then Ok ""
        else map_err (λ _, EText ("读取节点镜像源 " +:+ (quote (nm_Name mirror) +:+ " 凭据失败")))
               (DecryptCredential (wf_encKey w) (nm_Credential mirror)));
      Ok (with_verification endpoint (nm_Username mirror) credential (nm_InsecureSkipVerify mirror) spec)
  end.

Definition prepareMirrorSpec (spec : ReleaseSpec) : M ReleaseSpec :=
  let spec := with_verification "" "" "" false spec in
  if decide (trim_space (rs_NodeName spec) = "") then mret spec else
  ref ← wrapping (λ e, EWrap "镜像地址无效: " e "") (lift (parseImageReference (rs_Image spec)));
  mirrors ← wrapping (λ e, EWrap "读取节点镜像源失败: " e "") ListNodeRegistryMirrors;
  match verification_mirror ref (rs_NodeName spec) mirrors with
  | None => mret spec
  | Some mirror => lift (use_mirror mirror spec)
  end.

Definition PrepareRuntimeSpec (app : option Application) (spec : ReleaseSpec) : M ReleaseSpec :=
  spec ← PrepareRegistrySpec app spec;
  prepareMirrorSpec spec.

Definition workflow_create (app : Application) (template : ApplicationDeploymentTemplate) (userID : Z)
    (spec : ReleaseSpec) : M PreparedRelease :=
  release ← Service_CreateRelease (app_ID app) userID spec;
  let release := set_rel_template (Some (tpl_ID template)) (tpl_Revision template) release in
  UpdateRelease release ;;
  mret {| prep_Release := release; prep_Spec := spec |}.

Definition CreateFromTemplate (app : option Application) (template : option ApplicationDeploymentTemplate)
    (version : string) (userID : Z) : M PreparedRelease :=
  match app, template with
  | Some app, Some template =>
      guard_not (negb (tpl_Enabled template)) (EText "上线模板不存在或已停用") ;;
      spec ← lift (match decode_ReleaseSpec zero_ReleaseSpec (tpl_Spec template) with
                   | Some spec => Ok spec
                   | None => Err (EWrap "" ErrReleaseTemplateRead ": json: cannot unmarshal")
                   end);
      secrets ← lift (map_err (λ e, EWrap "" ErrReleaseSecretRead (": " +:+ err_text e))
                        (decryptTemplateSecrets (tpl_EncryptedSecrets template)));
      guard_not (negb (empty_map (rs_Secrets spec)) && empty_map secrets) (EText "模板中的 Secret 尚未配置明文值") ;;
      let version := trim_space version in
      image ← lift (imageWithVersion (rs_Image spec) version);
      spec ← PrepareRuntimeSpec (Some app) (with_image image version (with_secrets secrets spec));
      workflow_create app template userID (with_endpoint cluster_endpoint spec)
  | _, _ => throw (EText "上线模板不存在或已停用")
  end.

Definition Restart (app : Application) (userID : Z) : M PreparedRelease :=
  found ← attempt (GetDefaultApplicationDeploymentTemplate (app_ID app));
  template ← lift (match found with
    | Ok template => if tpl_Enabled template then Ok template else Err (EText "应用没有可用的默认上线模板")
    | Err _ => Err (EText "应用没有可用的默认上线模板")
    end);
  active ← wrapping (λ _, EText "应用尚无可重启的成功发布") (GetLatestSuccessfulRelease (app_ID app));
  spec ← lift (match decode_ReleaseSpec zero_ReleaseSpec (tpl_Spec template) with
               | Some spec => Ok spec
               | None => Err (EText "读取上线模板失败")
               end);
  secrets ← lift (map_err (λ _, EText "读取模板 Secret 失败") (decryptTemplateSecrets (tpl_EncryptedSecrets template)));
  spec ← PrepareRuntimeSpec (Some app) (with_image (rel_Image active) (rel_Version active) (with_secrets secrets spec));
  workflow_create app template userID (with_endpoint cluster_endpoint spec).

(** The end of [Retry] and [Rollback]. *)
Definition prepare_stored (p : Release * ReleaseSpec) : M PreparedRelease :=
  let '(release, spec) := p in
  app ← GetApplication (rel_ApplicationID release);
  spec ← PrepareRuntimeSpec (Some app) spec;
  mret {| prep_Release := release; prep_Spec := with_endpoint cluster_endpoint spec |}.
Definition Retry (releaseID userID : Z) : M PreparedRelease := RetryRelease releaseID userID ≫= prepare_stored.
Definition Rollback (releaseID userID : Z) : M PreparedRelease := RollbackRelease releaseID userID ≫= prepare_stored.

(** *** Endpoints *)

(** One iteration of the loop: the endpoint as it is then. *)
Definition sync_endpoint (service : ServiceSpec) (primary : ServicePortSpec) (endpoint : ApplicationEndpoint) :
    M ApplicationEndpoint :=
  endpoint ←
    (if decide (ae_Protocol endpoint = ServiceProtocolTCP ∧
                servicePortExists service (ae_ServicePort endpoint) ServiceProtocolTCP = false)
     then let endpoint := set_endpoint_port (port_Port primary) (ae_Protocol endpoint) endpoint in
          wrapping (λ e, EWrap "更新应用入口端口: " e "") (UpdateApplicationEndpoint endpoint) ;; mret endpoint
     else mret endpoint);
  endpoint ←
    (if decide (ae_Protocol endpoint = "") then
       resolved ← lift (map_err (λ e, EWrap "校验应用入口端口: " e "")
         (ResolveEndpointServicePort service (ae_ServicePort endpoint) "" (endpointUsesIngress endpoint)));
       let endpoint := set_endpoint_port (port_Port resolved) (port_Protocol resolved) endpoint in
       wrapping (λ e, EWrap "更新应用入口协议: " e "") (UpdateApplicationEndpoint endpoint) ;; mret endpoint
     else mret endpoint);
  guard_not (endpointUsesIngress endpoint && bool_decide (to_upper (ae_Protocol endpoint) ≠ ServiceProtocolTCP))
    (EText ("入口 " +:+ (ae_Domain endpoint +:+ " 使用 UDP 端口但启用了 HTTP Ingress"))) ;;
  mret endpoint.

Fixpoint sync_endpoints (service : ServiceSpec) (primary : ServicePortSpec) (endpoints : list ApplicationEndpoint) :
    M (list ApplicationEndpoint) :=
  match endpoints with
  | [] => mret []
  | endpoint :: endpoints =>
      endpoint ← sync_endpoint service primary endpoint;
      endpoints ← sync_endpoints service primary endpoints;
      mret (endpoint :: endpoints)
  end.

Definition syncApplicationEndpoints (app : Application) (service : ServiceSpec) : M unit :=
  match wf_synchronizer w with
  | None => throw (EText "Kubernetes 入口同步器未初始化")
  | Some synchronizer =>
      endpoints ← wrapping (λ e, EWrap "读取应用入口: " e "") (ListApplicationEndpoints (app_ID app));
      let context := releaseApplicationContextFor app in
      match PrimaryTCPPort service with
      | None =>
          match PortSpecs service with
          | [] => throw (EText "应用没有可绑定的 Service 端口")
          | port :: _ =>
              wrapping (λ e, EWrap "移除 UDP Service 的 HTTP Ingress: " e "")
                (on_cluster (SyncApplicationEndpoints context [] (port_Port port)))
          end
      | Some primary =>
          endpoints ← sync_endpoints service primary endpoints;
          wrapping (λ e, EWrap "同步应用入口: " e "")
            (on_cluster (SyncApplicationEndpoints context endpoints (port_Port primary)))
      end
  end.

(** The goroutine of [ExecuteAsync], whose error is dropped. *)
Definition ExecuteAsync (app : Application) (prepared : PreparedRelease) : M unit :=
  ignore (ExecuteReleaseWithPostApply (wf_applier w) (rel_ID (prep_Release prepared)) app (prep_Spec prepared)
    (syncApplicationEndpoints app (rs_Service (prep_Spec prepared)))).
End use_cases.

(** *** Managed files *)

Definition managed_file (app : Application) (spec : ReleaseSpec) (userID : Z) (kind name : string) (secret : bool)
    (key : string) : ApplicationManagedFile :=
  {| mf_ID := 0; mf_ApplicationID := app_ID app; mf_ResourceKind := kind; mf_ResourceName := name; mf_Key := key;
     mf_MountPath := managedMountPath spec secret key; mf_Format := "text"; mf_Version := 0; mf_Enabled := true;
     mf_CreatedBy := userID |}.

Definition sync_key (app : Application) (spec : ReleaseSpec) (userID : Z) (kind name : string) (secret : bool)
    (bindings : gset string) (key : string) : M (gset string) :=
  let key := trim_space key in
  if decide (key = "") then mret bindings else
  _ ← UpsertApplicationManagedFile (managed_file app spec userID kind name secret key);
  mret ({[managedFileBinding kind name key]} ∪ bindings).

Fixpoint sync_keys (app : Application) (spec : ReleaseSpec) (userID : Z) (kind name : string) (secret : bool)
    (keys : list string) (bindings : gset string) : M (gset string) :=
  match keys with
  | [] => mret bindings
  | key :: keys =>
      bindings ← sync_key app spec userID kind name secret bindings key;
      sync_keys app spec userID kind name secret keys bindings
  end.

Definition SyncManagedFiles (app : Application) (spec : ReleaseSpec) (userID : Z) : M unit :=
  let spec := NormalizeManagedKeys spec in
  bindings ← sync_keys app spec userID FileMountSourceConfigMap (app_Name app +:+ "-config") false
    (rs_ConfigManagedKeys spec) ∅;
  bindings ← sync_keys app spec userID FileMountSourceSecret (app_Name app +:+ "-secret") true
    (rs_SecretManagedKeys spec) bindings;
  DisableApplicationManagedFilesNotIn (app_ID app) bindings.
End workflow.

(** ** Service ports, proved *)

Lemma normalize_actual_protocol protocol :
  normalizeServiceProtocol protocol = ServiceProtocolTCP ↔ actual_protocol protocol = ServiceProtocolTCP.
Proof.
  unfold normalizeServiceProtocol, actual_protocol. set (p := to_upper _).
  destruct (decide (p = "")) as [->|Hne]; [done|].
  destruct (decide (p = "" ∨ p = ServiceProtocolTCP)) as [[?|?]|Hn]; [done|done|].
  split; [|tauto]. by case_decide.
Qed.

(** The port that is meant when none is named: the primary TCP port, else the first one. *)
Definition default_port (spec : ServiceSpec) : option ServicePortSpec :=
  match PrimaryTCPPort spec with Some p => Some p | None => head (PortSpecs spec) end.

Lemma default_port_elem spec q : default_port spec = Some q → q ∈ PortSpecs spec.
Proof.
  unfold default_port, PrimaryTCPPort. destruct (find_first _ _) as [p|] eqn:Hp.
  - intros [= <-]. by apply find_first_Some in Hp as [? _].
  - destruct (PortSpecs spec); [done|]. intros [= <-]. left.
Qed.

(** With distinct numbers, looking a number up finds the port it was taken from. *)
Lemma find_port l q :
  NoDup (port_Port <$> l) → q ∈ l → find_first (λ port, bool_decide (port_Port port = port_Port q)) l = Some q.
Proof.
  intros Hnd Hq. destruct (find_first _ l) as [q'|] eqn:Hf.
  - apply find_first_Some in Hf as [Hq' Heq%bool_decide_eq_true]. f_equal.
    apply list_elem_of_lookup in Hq as [i Hi]. apply list_elem_of_lookup in Hq' as [j Hj].
    assert (i = j) as ->; [|congruence].
    eapply (NoDup_lookup _ i j (port_Port q) Hnd); rewrite list_lookup_fmap; [by rewrite Hi | by rewrite Hj; simpl; rewrite Heq].
  - eapply find_first_None in Hf; [|exact Hq]. by apply bool_decide_eq_false in Hf.
Qed.

(** The answer once the number and the protocol are known. *)
Definition port_answer (ingress : bool) (protocol : string) (port : ServicePortSpec) : Prop :=
  (protocol = "" ∨ protocol = actual_protocol (port_Protocol port)) ∧
  (ingress = true → actual_protocol (port_Protocol port) = ServiceProtocolTCP).

Lemma resolve_found spec number protocol ingress p :
  NoDup (port_Port <$> PortSpecs spec) →
  match find_first (λ port, bool_decide (port_Port port = number)) (PortSpecs spec) with
  | None => Err (EText ("Service 端口 " +:+ (dec number +:+ " 不存在，请选择模板中已声明的端口")))
  | Some port =>
      let actualProtocol := actual_protocol (port_Protocol port) in
      if decide (protocol ≠ "" ∧ protocol ≠ actualProtocol)
      then Err (EText ("Service 端口 " +:+ (dec number +:+ (" 的协议为 " +:+ (actualProtocol +:+ ("，不是 " +:+ protocol))))))
      else if ingress && bool_decide (actualProtocol ≠ ServiceProtocolTCP)
      then Err (EText "UDP Service 不支持 HTTP Ingress 域名绑定")
      else Ok (set_protocol actualProtocol port)
  end = Ok p ↔
  ∃ q, q ∈ PortSpecs spec ∧ port_Port q = number ∧ port_answer ingress protocol q ∧
    p = set_protocol (actual_protocol (port_Protocol q)) q.
Proof.
  intros Hnd. split.
  - destruct (find_first _ _) as [q|] eqn:Hf; [|done]. apply find_first_Some in Hf as [Hq Heq%bool_decide_eq_true].
    cbn zeta. case_decide as Hp; [done|]. destruct (_ && _) eqn:Hi; [done|]. intros [= <-].
    exists q. split_and!; [done..| |done]. split.
    + destruct (decide (protocol = "")); [by left|]. right. apply dec_stable. tauto.
    + intros ->. apply andb_false_iff in Hi as [?|Hi%bool_decide_eq_false]; [done|]. by apply dec_stable.
  - intros (q & Hq & <- & [Hp Hi] & ->). rewrite (find_port _ q Hnd Hq). cbn zeta.
    rewrite decide_False by tauto. destruct (ingress && _) eqn:He; [|done].
    apply andb_prop in He as [He Hne%bool_decide_eq_true]. by apply Hi in He.
Qed.

Lemma same_port l q q' : NoDup (port_Port <$> l) → q ∈ l → q' ∈ l → port_Port q = port_Port q' → q = q'.
Proof.
  intros Hnd Hq Hq' Heq. pose proof (find_port l q Hnd Hq) as H1. pose proof (find_port l q' Hnd Hq') as H2.
  rewrite Heq in H1. congruence.
Qed.

(** The defaults, against what was asked for. *)
Lemma requested_answer spec port asked number protocol ingress q :
  NoDup (port_Port <$> PortSpecs spec) → requested spec port asked = (number, protocol) → q ∈ PortSpecs spec →
  (port_Port q = number ∧ port_answer ingress protocol q ↔
   (if decide (port = 0%Z) then default_port spec = Some q else port_Port q = port) ∧
   (asked = "" ∨ asked = actual_protocol (port_Protocol q)) ∧
   (ingress = true → actual_protocol (port_Protocol q) = ServiceProtocolTCP)).
Proof.
  intros Hnd Hreq Hq. unfold requested, default_port, port_answer in *. case_decide as Hz; [|by simplify_eq].
  destruct (PrimaryTCPPort spec) as [primary|] eqn:Hp.
  - assert (Hprimary : primary ∈ PortSpecs spec ∧ actual_protocol (port_Protocol primary) = ServiceProtocolTCP).
    { unfold PrimaryTCPPort in Hp. apply find_first_Some in Hp as [? Ht%bool_decide_eq_true].
      by rewrite <-normalize_actual_protocol. }
    destruct Hprimary as [Hin Htcp]. simplify_eq. split.
    + intros (Hn & Hpr & Hi). assert (q = primary) as -> by by eapply same_port. split_and!; [done| |done].
      case_decide; tauto.
    + intros ([= ->] & Ha & Hi). split_and!; [done| |done]. case_decide; [by right|tauto].
  - destruct (PortSpecs spec) as [|q0 l] eqn:Hl; [by apply not_elem_of_nil in Hq|]. simplify_eq/=. split.
    + intros (Hn & ? & ?). assert (q = q0) as -> by (apply (same_port (q0 :: l)); [done|done|left|done]). done.
    + intros ([= ->] & ? & ?). done.
Qed.

(** An endpoint is bound to a port the service declares. For a service whose port numbers are
    distinct (which validation demands), [ResolveEndpointServicePort] returns a port exactly when it
    is a declared one, with its protocol spelled out, such that: its number is the one asked for, or,
    when none is, it is the primary TCP port or else the first port; the protocol asked for is empty
    or that of the port, and one of the two known ones; and an ingress gets a TCP port. *)
Theorem endpoint_port_resolved spec requestedPort requestedProtocol ingress p
    (Hnd : NoDup (port_Port <$> PortSpecs spec)) :
  let asked := to_upper (trim_space requestedProtocol) in
  ResolveEndpointServicePort spec requestedPort requestedProtocol ingress = Ok p ↔
  (asked = "" ∨ asked = ServiceProtocolTCP ∨ asked = ServiceProtocolUDP) ∧
  ∃ q, q ∈ PortSpecs spec ∧ p = set_protocol (actual_protocol (port_Protocol q)) q ∧
    (if decide (requestedPort = 0%Z) then default_port spec = Some q else port_Port q = requestedPort) ∧
    (asked = "" ∨ asked = port_Protocol p) ∧ (ingress = true → port_Protocol p = ServiceProtocolTCP).
Proof.
  intros asked. unfold ResolveEndpointServicePort. fold asked.
  assert (empty_list (PortSpecs spec) = false) as -> by (unfold PortSpecs; by destruct (svc_Ports spec)).
  cbn zeta. case_decide as Hasked.
  { split; [done|]. intros [Ha _]. tauto. }
  assert (Hok : asked = "" ∨ asked = ServiceProtocolTCP ∨ asked = ServiceProtocolUDP).
  { destruct (decide (asked = "")); [by left|]. destruct (decide (asked = ServiceProtocolTCP)); [by right; left|].
    right. right. apply dec_stable. tauto. }
  destruct (requested spec requestedPort asked) as [number protocol] eqn:Hreq.
  rewrite resolve_found by done. split.
  - intros (q & Hq & Hn & Ha & ->). split; [done|]. exists q.
    destruct (requested_answer _ _ _ _ _ ingress _ Hnd Hreq Hq) as [Hto _]. destruct (Hto (conj Hn Ha)) as (? & ? & ?). done.
  - intros (_ & q & Hq & -> & Hrest). exists q.
    destruct (requested_answer _ _ _ _ _ ingress _ Hnd Hreq Hq) as [_ Hfrom]. destruct (Hfrom Hrest) as [? ?]. done.
Qed.

(** ** Image references, proved *)

Lemma image_path_bare s : bare "/" (chars (image_path s)).
Proof. apply trim_char_bare. Qed.

Lemma image_path_id s : Forall (λ c, visible c = true) (chars s) → bare "/" (chars s) → image_path s = s.
Proof. intros Hv Hb. unfold image_path. rewrite trim_space_visible by done. by apply trim_char_id. Qed.

Lemma no_white_space s : Forall (λ c, visible c = true) (chars s) → contains_any s white_space = false.
Proof.
  intros Hv. apply not_true_iff_false. rewrite contains_any_spec. intros (c & Hc & Hw).
  rewrite Forall_forall in Hv. specialize (Hv c Hc).
  repeat (apply elem_of_cons in Hw as [->|Hw]; [done|]). by apply not_elem_of_nil in Hw.
Qed.

Lemma trim_char_Forall (P : ascii → Prop) c s : Forall P (chars s) → Forall P (chars (trim_char c s)).
Proof.
  intros Hs. unfold trim_char. rewrite list_ascii_of_string_of_list_ascii. apply Forall_reverse.
  destruct (trim_left_char_suffix c (reverse (trim_left_char c (chars s)))) as [k Hk].
  assert (Forall P (reverse (trim_left_char c (chars s)))) as Hr.
  { apply Forall_reverse. destruct (trim_left_char_suffix c (chars s)) as [k' Hk'].
    rewrite Hk' in Hs. by apply Forall_app in Hs as [_ ?]. }
  rewrite Hk in Hr. by apply Forall_app in Hr as [_ ?].
Qed.

Lemma registryImageReference_Ok endpoint image r :
  registryImageReference endpoint image = Ok r ↔
  image_path image ≠ "" ∧ contains_any (image_path image) white_space = false ∧
  r = (if has_prefix (image_path endpoint +:+ "/") (image_path image) then image_path image
       else (image_path endpoint +:+ "/") +:+ image_path image).
Proof.
  unfold registryImageReference. destruct (bool_decide_reflect (image_path image = "")) as [?|Hne]; simpl.
  - split; [done|]. intros [? _]. done.
  - destruct (contains_any _ _); [split; [done|]; by intros (_ & ? & _)|].
    destruct (has_prefix _ _); split; try (by intros [= <-]); by intros (_ & _ & ->).
Qed.

(** The image of a release has one tag and one registry. [imageWithVersion] returns the trimmed
    path, ":" and the trimmed version, where the path is not empty, has no blank, no digest and no tag
    of its own, and the version is a legal tag. Putting it under a registry leaves it below that
    registry's host, and doing it again changes nothing, so a restart, which starts from the stored
    image, uses the very image that was released. *)
Theorem image_reference_stable repository version image endpoint r
    (Himage : imageWithVersion repository version = Ok image)
    (Hregistry : registryImageReference endpoint image = Ok r)
    (Hvisible : Forall (λ c, visible c = true) (chars (image_path endpoint +:+ image)))
    (Hendpoint : image_path endpoint ≠ "") :
  (let path := image_path repository in
   image = path +:+ (":" +:+ trim_space version) ∧ releaseImageTagPattern (trim_space version) = true ∧
   path ≠ "" ∧ contains_any path white_space = false ∧ contains path "@" = false ∧
   contains (drop_str (after_last "/" path) path) ":" = false) ∧
  (∃ rest, r = image_path endpoint +:+ ("/" +:+ rest)) ∧
  registryImageReference endpoint r = Ok r.
Proof.
  assert (Hshape : let path := image_path repository in
    image = path +:+ (":" +:+ trim_space version) ∧ releaseImageTagPattern (trim_space version) = true ∧
    path ≠ "" ∧ contains_any path white_space = false ∧ contains path "@" = false ∧
    contains (drop_str (after_last "/" path) path) ":" = false).
  { unfold imageWithVersion in Himage. cbn zeta.
    destruct (bool_decide_reflect (image_path repository = "")) as [?|Hne]; [done|].
    destruct (contains_any _ _); [done|]. destruct (contains (image_path repository) "@"); [done|]. simpl in Himage.
    destruct (contains _ ":"); [done|]. destruct (releaseImageTagPattern _); [|done]. by injection Himage as <-. }
  split; [exact Hshape|]. rewrite chars_app, Forall_app in Hvisible. destruct Hvisible as [Hve Hvi].
  apply registryImageReference_Ok in Hregistry as (Hine & _ & ->).
  set (i := image_path image) in *. set (e := image_path endpoint) in *.
  assert (Hvi' : Forall (λ c, visible c = true) (chars i)).
  { unfold i, image_path. rewrite trim_space_visible by done. by apply trim_char_Forall. }
  assert (Hslash : Forall (λ c, visible c = true) (chars "/")) by by repeat constructor.
  destruct (has_prefix (e +:+ "/") i) eqn:Hpre.
  - split; [apply has_prefix_spec in Hpre as [rest ->]; exists rest; by rewrite app_str_assoc|].
    apply registryImageReference_Ok. rewrite (image_path_id i) by (done || apply image_path_bare).
    split_and!; [done|by apply no_white_space|]. fold e. by rewrite Hpre.
  - split; [exists i; by rewrite app_str_assoc|].
    assert (Hr : Forall (λ c, visible c = true) (chars ((e +:+ "/") +:+ i))) by by rewrite !chars_app, !Forall_app.
    assert (Hpath : image_path ((e +:+ "/") +:+ i) = (e +:+ "/") +:+ i).
    { apply image_path_id; [done|]. rewrite <-app_str_assoc, !chars_app.
      destruct (image_path_bare endpoint) as [He _], (image_path_bare image) as [_ Hl]. fold e in He. fold i in Hl.
      split; [by destruct e|]. rewrite last_app, last_app. destruct (last (chars i)) as [c|] eqn:Hc; [exact Hl|].
      apply last_None in Hc. by destruct i. }
    apply registryImageReference_Ok. rewrite Hpath. split_and!; [by destruct e|by apply no_white_space|].
    fold e. by rewrite has_prefix_app.
Qed.

Lemma image_reference_stable_witness :
  registryImageReference "registry.local" "registry.local/shop/web:1.2.0" = Ok "registry.local/shop/web:1.2.0".
Proof.
  apply (image_reference_stable "/shop/web/" " 1.2.0" "shop/web:1.2.0" "registry.local" "registry.local/shop/web:1.2.0").
  - reflexivity.
  - reflexivity.
  - repeat constructor.
  - discriminate.
Defined.

(** ** Endpoints, proved *)

#[export] Instance endpoint_keyed : KeyedRow ApplicationEndpoint.
Proof. by intros id []. Qed.

Lemma set_endpoint_port_fields port protocol e :
  ae_ID (set_endpoint_port port protocol e) = ae_ID e ∧
  ae_ApplicationID (set_endpoint_port port protocol e) = ae_ApplicationID e ∧
  ae_ServicePort (set_endpoint_port port protocol e) = port ∧
  ae_Protocol (set_endpoint_port port protocol e) = protocol ∧
  set_endpoint_port port protocol e = set_endpoint_port port protocol e ∧
  set_endpoint_port (ae_ServicePort e) (ae_Protocol e) e = e.
Proof. by destruct e. Qed.

(** An endpoint and what the reconciliation makes of it: the same binding, on a port of the service. *)
Record synced (service : ServiceSpec) (e e' : ApplicationEndpoint) : Prop := {
  synced_same : e' = set_endpoint_port (ae_ServicePort e') (ae_Protocol e') e;
  synced_protocol : ae_Protocol e' ≠ "";
  synced_port : ae_Protocol e' = ServiceProtocolTCP → servicePortExists service (ae_ServicePort e') ServiceProtocolTCP = true;
  synced_ingress : endpointUsesIngress e' = true → to_upper (ae_Protocol e') = ServiceProtocolTCP;
  synced_kept : ae_Protocol e ≠ "" →
    (ae_Protocol e = ServiceProtocolTCP → servicePortExists service (ae_ServicePort e) ServiceProtocolTCP = true) → e' = e
}.

Lemma servicePortExists_spec service port protocol :
  servicePortExists service port protocol = true ↔
  ∃ q, q ∈ PortSpecs service ∧ port_Port q = port ∧ actual_protocol (port_Protocol q) = protocol.
Proof.
  unfold servicePortExists. rewrite existsb_exists. setoid_rewrite <-list_elem_of_In.
  setoid_rewrite andb_true_iff. by setoid_rewrite bool_decide_eq_true.
Qed.

Lemma primary_exists service primary :
  PrimaryTCPPort service = Some primary → servicePortExists service (port_Port primary) ServiceProtocolTCP = true.
Proof.
  intros [Hp Ht%bool_decide_eq_true]%find_first_Some. apply servicePortExists_spec.
  exists primary. by rewrite <-normalize_actual_protocol.
Qed.

Lemma actual_protocol_nonempty protocol : actual_protocol protocol ≠ "".
Proof. unfold actual_protocol. by case_decide. Qed.

(** A resolved port is declared, whatever the numbers. *)
Lemma resolve_declared service port protocol ingress p :
  ResolveEndpointServicePort service port protocol ingress = Ok p →
  (∃ q, q ∈ PortSpecs service ∧ port_Port q = port_Port p ∧ actual_protocol (port_Protocol q) = port_Protocol p) ∧
  (ingress = true → port_Protocol p = ServiceProtocolTCP) ∧ port_Protocol p ≠ "".
Proof.
  unfold ResolveEndpointServicePort. destruct (empty_list _); [done|]. cbn zeta. case_decide; [done|].
  destruct (requested _ _ _) as [number pr]. destruct (find_first _ _) as [q|] eqn:Hf; [|done].
  apply find_first_Some in Hf as [Hq _]. case_decide; [done|]. destruct (_ && _) eqn:Hi; [done|]. intros [= <-].
  split_and!.
  - by exists q.
  - intros ->. apply andb_false_iff in Hi as [?|Hi%bool_decide_eq_false]; [done|]. by apply dec_stable.
  - apply actual_protocol_nonempty.
Qed.

Section endpoint_proofs.
Context {C : Type} `{Surroundings}.
Definition endpoints (w : World C) : gmap Z ApplicationEndpoint := t_rows (tbl (w_db w)).

(** The effect of a step on the world: the endpoint at its key, and nothing else. *)
Definition stores (e : ApplicationEndpoint) (w w' : World C) : Prop :=
  endpoints w' = <[ae_ID e := e]> (endpoints w) ∧ w_cluster w' = w_cluster w ∧ w_trace w' = w_trace w ∧
  releases w' = releases w.

Lemma releases_put_endpoints (t : table ApplicationEndpoint) db : tbl (A := Release) (put t db) = tbl db.
Proof. by destruct db. Qed.

Lemma UpdateApplicationEndpoint_Ok e u (w w' : World C) : UpdateApplicationEndpoint e w = (Ok u, w') → stores e w w'.
Proof.
  intros (Hf & Hc & Ht)%statement_Ok. apply result_bind_Ok in Hf as (t & Hs & Hdb).
  assert (w_db w' = put t (w_db w)) as Hw by congruence.
  unfold t_save in Hs. destruct (clashes _ _ _); [done|]. injection Hs as <-.
  unfold stores, endpoints, releases. rewrite Hw, tbl_put, releases_put_endpoints. done.
Qed.

Lemma stores_kept e w : endpoints w !! ae_ID e = Some e → stores e w w.
Proof. intros He. split_and!; [|done..]. by rewrite insert_id. Qed.

Lemma sync_endpoint_Ok service primary e e' (w w' : World C) :
  PrimaryTCPPort service = Some primary → endpoints w !! ae_ID e = Some e →
  sync_endpoint service primary e w = (Ok e', w') → synced service e e' ∧ stores e' w w'.
Proof.
  intros Hp Hrow. unfold sync_endpoint. pose proof (primary_exists _ _ Hp) as Hex.
  intros (e1 & w1 & H1 & (e2 & w2 & H2 & (u & w3 & [Hg ->]%guard_not_Ok & [-> ->]%ret_Ok)%bind_Ok)%bind_Ok)%bind_Ok.
  assert (Hing : endpointUsesIngress e2 = true → to_upper (ae_Protocol e2) = ServiceProtocolTCP).
  { intros Hi. rewrite Hi in Hg. apply bool_decide_eq_false in Hg. by apply dec_stable. }
  destruct (decide (ae_Protocol e = ServiceProtocolTCP ∧ servicePortExists service (ae_ServicePort e) ServiceProtocolTCP = false))
    as [[Htcp Hno]|Hkeep].
  - apply bind_Ok in H1 as (u1 & w1' & Hs%wrapping_Ok%UpdateApplicationEndpoint_Ok & [-> ->]%ret_Ok).
    destruct (set_endpoint_port_fields (port_Port primary) (ae_Protocol e) e) as (Hid & _ & Hport & Hproto & _ & _).
    rewrite Hproto, decide_False in H2 by by rewrite Htcp. apply ret_Ok in H2 as [-> ->]. split; [|done].
    rewrite Hproto in Hing. split; rewrite ?Hport, ?Hproto; try done; [by rewrite Htcp|]. intros _ Hk. rewrite Hk in Hno by done. done.
  - apply ret_Ok in H1 as [-> ->]. destruct (decide (ae_Protocol e = "")) as [Hempty|Hne].
    + apply bind_Ok in H2 as (p & w1' & [Hres ->]%lift_Ok & H2).
      destruct (ResolveEndpointServicePort _ _ _ _) as [p'|] eqn:Hr; [|done]. injection Hres as ->.
      apply resolve_declared in Hr as (Hdecl & _ & Hnep).
      apply bind_Ok in H2 as (u1 & w1' & Hs%wrapping_Ok%UpdateApplicationEndpoint_Ok & [-> ->]%ret_Ok).
      destruct (set_endpoint_port_fields (port_Port p) (port_Protocol p) e) as (Hid & _ & Hport & Hproto & _ & _).
      rewrite Hproto in Hing. split; [|done]. split; rewrite ?Hport, ?Hproto; try done.
      intros Ht. apply servicePortExists_spec. by rewrite <-Ht.
    + apply ret_Ok in H2 as [-> ->]. split; [|by apply stores_kept].
      destruct (set_endpoint_port_fields 0 "" e) as (_ & _ & _ & _ & _ & Hsame).
      split; try done. intros Htcp. apply not_false_iff_true. intros Hno. by apply Hkeep.
Qed.

Lemma sync_endpoints_Ok service primary es es' (w w' : World C) :
  PrimaryTCPPort service = Some primary → NoDup (ae_ID <$> es) →
  (∀ e, e ∈ es → endpoints w !! ae_ID e = Some e) →
  sync_endpoints service primary es w = (Ok es', w') →
  Forall2 (synced service) es es' ∧ (∀ e', e' ∈ es' → endpoints w' !! ae_ID e' = Some e') ∧
  (∀ i, i ∉ ae_ID <$> es → endpoints w' !! i = endpoints w !! i) ∧
  w_cluster w' = w_cluster w ∧ w_trace w' = w_trace w ∧ releases w' = releases w.
Proof.
  intros Hp. revert es' w. induction es as [|e es IH]; intros es' w Hnd Hrows; simpl.
  - intros [-> ->]%ret_Ok. split_and!; try done; by intros ? ?%not_elem_of_nil.
  - intros (e1 & w1 & H1 & (es1 & w2 & H2 & [-> ->]%ret_Ok)%bind_Ok)%bind_Ok.
    rewrite fmap_cons in Hnd. apply NoDup_cons in Hnd as [Hnot Hnd].
    apply (sync_endpoint_Ok _ _ _ _ _ _ Hp) in H1 as [Hsync (Hend & Hc & Ht & Hr)]; [|apply Hrows; left].
    assert (Hid : ae_ID e1 = ae_ID e).
    { rewrite (synced_same _ _ _ Hsync). apply set_endpoint_port_fields. }
    apply IH in H2 as (Hall & Hst & Hother & Hc2 & Ht2 & Hr2); [|done|].
    2: { intros x Hx. rewrite Hend, Hid, lookup_insert_ne; [apply Hrows; by right|].
      intros Heq. apply Hnot. rewrite Heq. by apply list_elem_of_fmap_2. }
    split_and!; [by constructor| | |congruence..].
    + intros x [->|Hx]%elem_of_cons; [|by apply Hst]. rewrite Hid, Hother by done. by rewrite Hend, Hid, lookup_insert_eq.
    + intros i Hi. rewrite not_elem_of_cons in Hi. destruct Hi as [Hi1 Hi2]. rewrite Hother by done.
      by rewrite Hend, Hid, lookup_insert_ne.
Qed.

Lemma t_list_NoDup_ids `{Row A} (t : table A) : keyed t → NoDup (row_id <$> t_list t).
Proof.
  intros Hk. unfold t_list. rewrite merge_sort_Permutation. rewrite <-list_fmap_compose.
  apply NoDup_fmap_2_strong; [|apply NoDup_map_to_list].
  intros [i a] [j b] Ha%elem_of_map_to_list Hb%elem_of_map_to_list Hab. simpl in Hab.
  rewrite (keyed_id _ Hk _ _ Ha), (keyed_id _ Hk _ _ Hb) in Hab. congruence.
Qed.

Lemma NoDup_select `{Row A} (test : A → bool) (t : table A) : keyed t → NoDup (row_id <$> select test t).
Proof.
  intros Hk%t_list_NoDup_ids. unfold select. induction (t_list t) as [|a l IH]; [constructor|].
  rewrite fmap_cons in Hk. apply NoDup_cons in Hk as [Ha Hk]. simpl. destruct (test a); [|by apply IH].
  rewrite fmap_cons. constructor; [|by apply IH]. intros (b & Hb & Hin)%list_elem_of_fmap. apply Ha.
  rewrite Hb. apply list_elem_of_fmap_2. apply list_elem_of_In, List.filter_In in Hin as [Hin _]. by apply list_elem_of_In.
Qed.

(** The endpoints of an application follow its service. When [syncApplicationEndpoints] succeeds,
    the cluster was called once, and successfully. With a TCP port in the service it was called with
    all the endpoints of the application, each of them, as stored now, with its binding unchanged and
    a protocol; an endpoint on TCP points to a TCP port of the service, an endpoint with an ingress
    is on TCP, and one that was right already is untouched. Without a TCP port it was called with no
    endpoint at all, which removes the ingress, and no row changed. Rows of other applications, the
    releases and the trace are as before in both cases. *)
Theorem endpoints_synchronised `{K8sLibrary} (workflow : ReleaseWorkflow) app service (w w' : World C)
    (Hsync : syncApplicationEndpoints workflow app service w = (Ok tt, w'))
    (Hkeyed : keyed (tbl (A := ApplicationEndpoint) (w_db w))) :
  let mine := select (λ e, bool_decide (ae_ApplicationID e = app_ID app)) (tbl (w_db w)) in
  ∃ synchronizer called port, wf_synchronizer workflow = Some synchronizer ∧
    SyncApplicationEndpoints (endpointSynchronizer := synchronizer) (releaseApplicationContextFor app) called port (w_cluster w)
      = (Ok tt, w_cluster w') ∧
    match PrimaryTCPPort service with
    | Some primary => port = port_Port primary ∧ Forall2 (synced service) mine called ∧
        ∀ e, e ∈ called → endpoints w' !! ae_ID e = Some e
    | None => called = [] ∧ endpoints w' = endpoints w
    end ∧
    (∀ i e, endpoints w !! i = Some e → ae_ApplicationID e ≠ app_ID app → endpoints w' !! i = Some e) ∧
    w_trace w' = w_trace w ∧ releases w' = releases w.
Proof.
  intros mine. unfold syncApplicationEndpoints in Hsync.
  destruct (wf_synchronizer workflow) as [synchronizer|]; [|done].
  apply bind_Ok in Hsync as (es & w1 & Hl%wrapping_Ok & Hx). apply query_Ok in Hl as ([= <-] & Hdb & Hc & Ht).
  assert (He : endpoints w1 = endpoints w) by (unfold endpoints; by rewrite Hdb).
  assert (Hr : releases w1 = releases w) by (unfold releases; by rewrite Hdb).
  assert (Hcluster : ∀ es p (wa wb : World C) f, wrapping f (on_cluster (SyncApplicationEndpoints
      (endpointSynchronizer := synchronizer) (releaseApplicationContextFor app) es p)) wa = (Ok tt, wb) →
    SyncApplicationEndpoints (endpointSynchronizer := synchronizer) (releaseApplicationContextFor app) es p (w_cluster wa)
      = (Ok tt, w_cluster wb) ∧ w_db wb = w_db wa ∧ w_trace wb = w_trace wa).
  { intros es p wa wb f Hw%wrapping_Ok. unfold on_cluster in Hw.
    destruct (SyncApplicationEndpoints _ _ _ _) as [r c] eqn:Hcall. by injection Hw as -> <-. }
  destruct (PrimaryTCPPort service) as [primary|] eqn:Hp.
  - apply bind_Ok in Hx as (es' & w2 & Hes & Hx). apply Hcluster in Hx as (Hcall & Hdb2 & Ht2).
    apply (sync_endpoints_Ok _ _ _ _ _ _ Hp) in Hes as (Hall & Hst & Hother & Hc2 & Ht3 & Hr2).
    2: { exact (NoDup_select (A := ApplicationEndpoint) _ _ Hkeyed). }
    2: { intros e [_ Hin]%elem_of_select. rewrite He. exact (keyed_elem (A := ApplicationEndpoint) _ _ Hkeyed Hin). }
    assert (He' : endpoints w' = endpoints w2) by (unfold endpoints; by rewrite Hdb2).
    assert (Hr' : releases w' = releases w2) by (unfold releases; by rewrite Hdb2).
    exists synchronizer, es', (port_Port primary). rewrite He', Hr'. split_and!; try done; try congruence.
    intros i e Hi Hne. rewrite Hother, He; [done|]. intros (x & Hid & [Happ%bool_decide_eq_true Hin]%elem_of_select)%list_elem_of_fmap.
    apply keyed_elem in Hin; [|done]. cbn in Hin. unfold endpoints in Hi. subst i. congruence.
  - destruct (PortSpecs service) as [|p l]; [done|]. apply Hcluster in Hx as (Hcall & Hdb2 & Ht2).
    exists synchronizer, [], (port_Port p).
    assert (He' : endpoints w' = endpoints w) by (unfold endpoints; by rewrite Hdb2, Hdb).
    assert (Hr' : releases w' = releases w) by (unfold releases; by rewrite Hdb2, Hdb).
    rewrite He'. split_and!; try done; congruence.
Qed.
End endpoint_proofs.

(** ** Executions in the background, proved *)

Section async.
Context `{K8sLibrary} {C : Type} `{Surroundings}.

Lemma silent_sync_endpoint service primary e : silent (C := C) (sync_endpoint service primary e).
Proof.
  unfold sync_endpoint. apply silent_bind; [case_decide; auto with cylism|]. intros e1.
  apply silent_bind; [case_decide; auto 6 with cylism|]. intros e2. auto with cylism.
Qed.
Lemma silent_sync_endpoints service primary es : silent (C := C) (sync_endpoints service primary es).
Proof.
  induction es as [|e es IH]; simpl; [auto with cylism|].
  apply silent_bind; [apply silent_sync_endpoint|]. intros e1. auto with cylism.
Qed.
Lemma silent_syncApplicationEndpoints workflow app service :
  silent (C := C) (syncApplicationEndpoints workflow app service).
Proof.
  unfold syncApplicationEndpoints. destruct (wf_synchronizer workflow); [|auto with cylism].
  apply silent_bind; [auto with cylism|]. intros es. destruct (PrimaryTCPPort service).
  - apply silent_bind; [apply silent_sync_endpoints|]. auto with cylism.
  - destruct (PortSpecs service); auto with cylism.
Qed.

(** What leaves the releases alone. *)
Lemma kr_bind {A B} (m : M (World C) A) (f : A → M (World C) B) :
  keeps_releases m → (∀ a, keeps_releases (f a)) → keeps_releases (m ≫= f).
Proof.
  intros Hm Hf w. specialize (Hm w). unfold mbind, M_bind. destruct (m w) as [[a|e] w1]; [|done].
  by rewrite Hf.
Qed.
Lemma kr_wrapping {A} g (m : M (World C) A) : keeps_releases m → keeps_releases (wrapping g m).
Proof. intros Hm w. specialize (Hm w). unfold wrapping. by destruct (m w). Qed.
Lemma kr_pure {A} (r : result A) : keeps_releases (C := C) (lift r).
Proof. done. Qed.
Lemma kr_ret {A} (a : A) : keeps_releases (C := C) (mret a).
Proof. done. Qed.
Lemma kr_throw {A} e : keeps_releases (C := C) (A := A) (throw e).
Proof. done. Qed.
Lemma kr_guard c e : keeps_releases (C := C) (guard_not c e).
Proof. by destruct c. Qed.
Lemma kr_query {A} (f : DB → result A) : keeps_releases (C := C) (query f).
Proof. intros w. by destruct (query_cases f w) as [(e & ->)|(a & _ & ->)]. Qed.
Lemma kr_UpdateApplicationEndpoint e : keeps_releases (C := C) (UpdateApplicationEndpoint e).
Proof.
  intros w. unfold UpdateApplicationEndpoint, save, execute.
  destruct (statement_cases (λ db, t ← t_save e (tbl db); Ok (tt, put t db)) w) as [(err & ->)|(u & db & Hf & ->)]; [done|].
  apply result_bind_Ok in Hf as (t & _ & Hdb). assert (db = put t (w_db w)) as -> by congruence.
  unfold releases. cbn [snd set_db w_db]. by rewrite releases_put_endpoints.
Qed.
#[local] Hint Resolve kr_bind kr_wrapping kr_pure kr_ret kr_throw kr_guard kr_query kr_UpdateApplicationEndpoint
  keeps_on_cluster : cylism.

Lemma keeps_releases_sync workflow app service : keeps_releases (C := C) (syncApplicationEndpoints workflow app service).
Proof.
  assert (Hone : ∀ primary e, keeps_releases (C := C) (sync_endpoint service primary e)).
  { intros primary e. unfold sync_endpoint. apply kr_bind; [case_decide; auto with cylism|]. intros e1.
    apply kr_bind; [case_decide; auto 6 with cylism|]. intros e2. auto with cylism. }
  unfold syncApplicationEndpoints. destruct (wf_synchronizer workflow); [|auto with cylism].
  apply kr_bind; [apply kr_wrapping, kr_query|]. intros es. destruct (PrimaryTCPPort service) as [primary|].
  - apply kr_bind; [|auto with cylism]. induction es as [|x l IH]; simpl; [auto with cylism|].
    apply kr_bind; [apply Hone|]. intros y. auto with cylism.
  - destruct (PortSpecs service); auto with cylism.
Qed.

Lemma failRelease_no_fault {A} id step cause release (w : World C) :
  (∀ n, fault n = None) → stored id release w → rel_Status release ≠ ReleaseStatusFailed →
  ∃ final, stored id final (failRelease (A := A) id step cause w).2 ∧ rel_Status final = ReleaseStatusFailed ∧
    is_Some (rel_CompletedAt final).
Proof.
  intros Hnf Hst Hs. unfold failRelease, mbind, M_bind, attempt. rewrite (GetRelease_stored Hnf id release) by done.
  rewrite decide_False by done. unfold ignore.
  destruct (transition_no_fault Hnf id release ReleaseStatusFailed (set_db (w_db w) (tick w))) as (w' & -> & _ & Hst');
    [done|done|].
  eexists. split; [exact Hst'|]. split; [apply transitioned_fields | apply transitioned_completed; by right].
Qed.

(** A background execution always ends. Without database faults, whatever the cluster answers,
    whatever the endpoints are, whether or not the specification renders and even without a cluster,
    the release of a prepared draft ends as succeeded or failed, with its completion time, and the
    other rows of releases stay consistent. *)
Theorem async_execution_terminates (no_faults : ∀ n, fault n = None) (workflow : ReleaseWorkflow) app prepared release
    (w : World C) (Hstored : stored (rel_ID (prep_Release prepared)) release w)
    (Hdraft : rel_Status release = ReleaseStatusDraft) :
  ∃ final w', ExecuteAsync workflow app prepared w = (Ok tt, w') ∧
    stored (rel_ID (prep_Release prepared)) final w' ∧ is_Some (rel_CompletedAt final) ∧
    (rel_Status final = ReleaseStatusSucceeded ∨ rel_Status final = ReleaseStatusFailed).
Proof.
  unfold ExecuteAsync, ignore, ExecuteReleaseWithPostApply.
  set (id := rel_ID (prep_Release prepared)) in *. set (spec := prep_Spec prepared).
  set (post := syncApplicationEndpoints workflow app (rs_Service spec)).
  assert (Hs : rel_Status release ≠ ReleaseStatusFailed) by by rewrite Hdraft.
  assert (∃ final, stored id final (executeRelease (wf_applier workflow) id app spec (Some post) w).2 ∧
    is_Some (rel_CompletedAt final) ∧ (rel_Status final = ReleaseStatusSucceeded ∨ rel_Status final = ReleaseStatusFailed))
    as (final & ?); [|by eexists final, _].
  destruct (wf_applier workflow) as [a|].
  2: { destruct (failRelease_no_fault (A := unit) id "preflight" (EText "Kubernetes 发布器未初始化") release w no_faults Hstored Hs)
         as (f & ? & ? & ?). exists f. auto. }
  destruct (RenderResources (applicationContext app (rel_Sequence release)) spec) as [resources|cause] eqn:Hr.
  - destruct (executes_executeRelease no_faults a id app spec (Some post) release resources) with (w := w)
      as (evs & _ & Hrun); [|done|done|].
    { intros run [= <-]. split; [apply silent_syncApplicationEndpoints | apply keeps_releases_sync]. }
    destruct ((executeRelease (Some a) id app spec (Some post) w).1).
    + destruct Hrun as (_ & f & ? & ? & ?). exists f. auto.
    + destruct Hrun as (s1 & st & s2 & e1 & c & f & _ & _ & _ & _ & ? & ? & ?). exists f. auto.
  - unfold executeRelease. unfold mbind at 1, M_bind at 1. rewrite (GetRelease_stored no_faults id release) by done.
    rewrite Hr. unfold mbind at 1, M_bind at 1, catching at 1, lift at 1.
    destruct (failRelease_no_fault (A := RenderedResources) id "preflight" cause release (set_db (w_db w) (tick w)) no_faults Hstored Hs)
      as (f & Hf & ? & ?). exists f.
    destruct (failRelease_cases (A := RenderedResources) id "preflight" cause (set_db (w_db w) (tick w)))
      as (e & fin & w' & Hfail & _). rewrite Hfail in Hf |- *. cbn [snd] in *. auto.
Qed.
End async.

(** ** Preparing releases, proved *)

Section prepare.
Context `{K8sLibrary} {C : Type} `{Surroundings} `{AesGcm} `{ImageReferences}.

(** Two specifications that differ in the image, the registry login and the verification at most. *)
Definition same_workload (s s' : ReleaseSpec) : Prop :=
  ∃ image e a u c ve vu vc vi,
    s' = with_verification ve vu vc vi (with_registry e a u c (with_image image (rs_Version s) s)).

Lemma same_workload_refl s : same_workload s s.
Proof.
  destruct s. unfold same_workload. simpl. by repeat eexists.
Qed.
Lemma same_workload_trans s1 s2 s3 : same_workload s1 s2 → same_workload s2 s3 → same_workload s1 s3.
Proof.
  intros (? & ? & ? & ? & ? & ? & ? & ? & ? & ->) (? & ? & ? & ? & ? & ? & ? & ? & ? & ->).
  destruct s1. unfold same_workload. simpl. by repeat eexists.
Qed.
Lemma same_workload_fields s s' : same_workload s s' →
  rs_Version s' = rs_Version s ∧ rs_Secrets s' = rs_Secrets s ∧ rs_Config s' = rs_Config s ∧
  rs_Service s' = rs_Service s ∧ rs_NodeName s' = rs_NodeName s.
Proof. intros (? & ? & ? & ? & ? & ? & ? & ? & ? & ->). by destruct s. Qed.
Lemma same_workload_image s image : same_workload s (with_image image (rs_Version s) s).
Proof. destruct s. unfold same_workload. simpl. by repeat eexists. Qed.
Lemma same_workload_registry s e a u c : same_workload s (with_registry e a u c s).
Proof. destruct s. unfold same_workload. simpl. by repeat eexists. Qed.
Lemma same_workload_verification s e u c i : same_workload s (with_verification e u c i s).
Proof. destruct s. unfold same_workload. simpl. by repeat eexists. Qed.
Hint Resolve same_workload_refl same_workload_image same_workload_registry same_workload_verification : cylism.

(** Nothing but the clock moves. *)
Definition reads_only {A} (m : M (World C) A) : Prop :=
  ∀ w, w_db (m w).2 = w_db w ∧ w_cluster (m w).2 = w_cluster w ∧ w_trace (m w).2 = w_trace w.

Lemma PrepareRegistrySpec_Ok workflow app spec spec' (w w' : World C) :
  PrepareRegistrySpec workflow app spec w = (Ok spec', w') →
  w_db w' = w_db w ∧ same_workload spec spec' ∧
  (rs_RegistryID spec = 0%Z ∧ spec' = spec ∨
   ∃ a registry, app = Some a ∧ rs_RegistryID spec ≠ 0%Z ∧ registry ∈ t_list (tbl (w_db w)) ∧
     ireg_ID registry = rs_RegistryID spec ∧ app_ProjectID a ∈ ireg_Projects registry ∧ ireg_Enabled registry = true ∧
     registryImageReference (ireg_Endpoint registry) (rs_Image spec) = Ok (rs_Image spec') ∧
     rs_RegistryEndpoint spec' = ireg_Endpoint registry ∧ rs_RegistryAuthType spec' = ireg_AuthType registry).
Proof.
  unfold PrepareRegistrySpec. case_decide as Hid; [intros [-> ->]%ret_Ok; auto 6 with cylism|].
  destruct app as [a|]; [|done]. intros (found & w1 & Hf & Hx)%bind_Ok.
  unfold attempt in Hf. destruct (GetImageRegistryForProject (rs_RegistryID spec) (app_ProjectID a) w) as [r w2] eqn:Hg.
  injection Hf as <- <-. destruct r as [registry|]; [|done].
  apply query_Ok in Hg as ([[Hri%bool_decide_eq_true Hrp%bool_decide_eq_true]%andb_prop Hin]%first_row_select & Hdb & _).
  apply bind_Ok in Hx as (u & w3 & [Hen ->]%guard_not_Ok & (image & w4 & [Himg ->]%lift_Ok & Hx)%bind_Ok).
  apply negb_false_iff in Hen.
  assert (Hres : ∃ us cr, spec' = with_registry (ireg_Endpoint registry) (ireg_AuthType registry) us cr (with_image image (rs_Version spec) spec)
    ∧ w' = w2).
  { case_decide.
    - apply ret_Ok in Hx as [-> ->]. by eexists _, _.
    - apply bind_Ok in Hx as (login & w5 & [_ ->]%lift_Ok & [-> ->]%ret_Ok). by eexists _, _. }
  destruct Hres as (us & cr & -> & ->). split_and!; [done| |].
  - apply (same_workload_trans _ (with_image image (rs_Version spec) spec)); auto with cylism.
  - right. exists a, registry. split_and!; try done; by destruct spec.
Qed.

Lemma prepareMirrorSpec_Ok workflow spec spec' (w w' : World C) :
  prepareMirrorSpec workflow spec w = (Ok spec', w') →
  w_db w' = w_db w ∧ same_workload spec spec' ∧ rs_Image spec' = rs_Image spec.
Proof.
  unfold prepareMirrorSpec. set (s := with_verification "" "" "" false spec).
  assert (Hs : same_workload spec s ∧ rs_Image s = rs_Image spec) 
    by (split; [apply same_workload_verification | by destruct spec]).
  case_decide; [intros [-> ->]%ret_Ok; tauto|].
  intros (ref & w1 & [_ ->]%wrapping_Ok%lift_Ok & (mirrors & w2 & Hl%wrapping_Ok & Hx)%bind_Ok)%bind_Ok.
  apply query_Ok in Hl as (_ & Hdb & _). destruct (verification_mirror _ _ _) as [mirror|].
  - apply lift_Ok in Hx as [Hx ->]. split; [done|]. unfold use_mirror in Hx.
    destruct (nm_Endpoints mirror ≫= _) as [[|f l]|]; try done. cbn zeta in Hx. case_decide; [done|].
    apply result_bind_Ok in Hx as (cr & _ & [= <-]). destruct Hs as [Hs Hi]. split.
    + apply (same_workload_trans _ s); [exact Hs | apply same_workload_verification].
    + rewrite <-Hi. by destruct s.
  - apply ret_Ok in Hx as [-> ->]. by destruct Hs.
Qed.

Lemma PrepareRuntimeSpec_Ok workflow app spec spec' (w w' : World C) :
  PrepareRuntimeSpec workflow app spec w = (Ok spec', w') →
  w_db w' = w_db w ∧ same_workload spec spec' ∧
  (rs_RegistryID spec = 0%Z ∧ rs_Image spec' = rs_Image spec ∨
   ∃ a registry, app = Some a ∧ registry ∈ t_list (tbl (w_db w)) ∧ ireg_ID registry = rs_RegistryID spec ∧
     app_ProjectID a ∈ ireg_Projects registry ∧ ireg_Enabled registry = true ∧
     registryImageReference (ireg_Endpoint registry) (rs_Image spec) = Ok (rs_Image spec')).
Proof.
  intros (s & w1 & (Hdb1 & Hs1 & Hreg)%PrepareRegistrySpec_Ok & (Hdb2 & Hs2 & Hi)%prepareMirrorSpec_Ok)%bind_Ok.
  split; [congruence|]. split; [by eapply same_workload_trans|]. rewrite Hi.
  destruct Hreg as [[? ->]|(a & registry & ? & _ & ? & ? & ? & ? & ? & _)]; [by left|]. right. by exists a, registry.
Qed.

Lemma workflow_create_Ok app template userID spec p (w w' : World C) :
  workflow_create app template userID spec w = (Ok p, w') →
  ValidateReleaseSpec spec = [] ∧ prep_Spec p = spec ∧
  rel_ApplicationID (prep_Release p) = app_ID app ∧ rel_Status (prep_Release p) = ReleaseStatusDraft ∧
  rel_TemplateID (prep_Release p) = Some (tpl_ID template) ∧ rel_TemplateRevision (prep_Release p) = tpl_Revision template ∧
  rel_Image (prep_Release p) = rs_Image spec ∧ rel_Version (prep_Release p) = rs_Version spec ∧
  rel_DesiredSpec (prep_Release p) = encode_ReleaseSpec (SanitizeReleaseSpec spec) ∧
  releases w' !! rel_ID (prep_Release p) = Some (prep_Release p).
Proof.
  intros (r & w1 & (a & res & _ & Hv & _ & Hr & _)%Service_CreateRelease_Ok & Hx)%bind_Ok.
  apply bind_Ok in Hx as (u & w2 & (t & Ht & Hdb & _)%UpdateRelease_Ok & [-> ->]%ret_Ok). simpl.
  rewrite Hr in *. split_and!; try done.
  unfold releases. rewrite Hdb, tbl_put. unfold t_save in Ht. destruct (clashes _ _ _); [done|]. injection Ht as <-.
  cbn [t_rows]. apply lookup_insert_eq.
Qed.

(** C14: what a release from a template is. When [CreateFromTemplate] succeeds the template was enabled;
    the runtime specification is the template's with the decrypted secrets, the trimmed version, a
    cluster-only endpoint and the template's image with that version as its tag, under an enabled
    registry that is authorised for the project when one is selected, and it validates; the release
    is a stored draft of the application that names the template and its revision, and its snapshot
    is the sanitised specification, in which no secret value is left. *)
Theorem template_release_prepared workflow app template version userID p (w w' : World C)
    (Hcreate : CreateFromTemplate workflow (Some app) (Some template) version userID w = (Ok p, w')) :
  tpl_Enabled template = true ∧ ValidateReleaseSpec (prep_Spec p) = [] ∧
  (∃ spec secrets image,
    decode_ReleaseSpec zero_ReleaseSpec (tpl_Spec template) = Some spec ∧
    decryptTemplateSecrets workflow (tpl_EncryptedSecrets template) = Ok secrets ∧
    (rs_Secrets spec ≠ ∅ → secrets ≠ ∅) ∧ rs_Secrets (prep_Spec p) = secrets ∧
    rs_Version (prep_Spec p) = trim_space version ∧ rs_Endpoint (prep_Spec p) = cluster_endpoint ∧
    rs_Config (prep_Spec p) = rs_Config spec ∧ rs_Service (prep_Spec p) = rs_Service spec ∧
    imageWithVersion (rs_Image spec) (trim_space version) = Ok image ∧
    (rs_RegistryID spec = 0%Z ∧ rs_Image (prep_Spec p) = image ∨
     ∃ registry, registry ∈ t_list (tbl (w_db w)) ∧ ireg_ID registry = rs_RegistryID spec ∧
       app_ProjectID app ∈ ireg_Projects registry ∧ ireg_Enabled registry = true ∧
       registryImageReference (ireg_Endpoint registry) image = Ok (rs_Image (prep_Spec p)))) ∧
  (let r := prep_Release p in
   releases w' !! rel_ID r = Some r ∧ rel_ApplicationID r = app_ID app ∧ rel_Status r = ReleaseStatusDraft ∧
   rel_TemplateID r = Some (tpl_ID template) ∧ rel_TemplateRevision r = tpl_Revision template ∧
   rel_Image r = rs_Image (prep_Spec p) ∧ rel_Version r = trim_space version ∧
   rel_DesiredSpec r = encode_ReleaseSpec (SanitizeReleaseSpec (prep_Spec p)) ∧
   hasSecretValues (rs_Secrets (SanitizeReleaseSpec (prep_Spec p))) = false).
Proof.
  apply bind_Ok in Hcreate as (u & w1 & [Hen ->]%guard_not_Ok & Hx). apply negb_false_iff in Hen.
  apply bind_Ok in Hx as (spec & w2 & [Hspec ->]%lift_Ok & Hx).
  destruct (decode_ReleaseSpec zero_ReleaseSpec (tpl_Spec template)) as [spec'|] eqn:Hdec; [|done].
  injection Hspec as ->. apply bind_Ok in Hx as (secrets & w3 & [Hsec ->]%lift_Ok & Hx).
  destruct (decryptTemplateSecrets workflow (tpl_EncryptedSecrets template)) as [secrets'|] eqn:Hdecr; [|done].
  injection Hsec as ->. apply bind_Ok in Hx as (u2 & w4 & [Hg ->]%guard_not_Ok & Hx).
  apply bind_Ok in Hx as (image & w5 & [Himg ->]%lift_Ok & Hx).
  apply bind_Ok in Hx as (ready & w6 & (Hdb & Hsame & Hreg)%PrepareRuntimeSpec_Ok & Hx).
  apply workflow_create_Ok in Hx as (Hv & Hp & Happ & Hst & Htid & Hrev & Hri & Hrv & Hdes & Hrow).
  apply same_workload_fields in Hsame as (Hver & Hss & Hcfg & Hsv & _).
  set (base := with_image image (trim_space version) (with_secrets secrets spec)) in *.
  assert (Hb : rs_Image base = image ∧ rs_RegistryID base = rs_RegistryID spec ∧ rs_Version base = trim_space version ∧
    rs_Secrets base = secrets ∧ rs_Config base = rs_Config spec ∧ rs_Service base = rs_Service spec)
    by (unfold base; by destruct spec).
  destruct Hb as (Hb1 & Hb2 & Hb3 & Hb4 & Hb5 & Hb6). rewrite Hb1, Hb2 in Hreg.
  assert (Hf : rs_Image (prep_Spec p) = rs_Image ready ∧ rs_Version (prep_Spec p) = rs_Version ready ∧
    rs_Secrets (prep_Spec p) = rs_Secrets ready ∧ rs_Config (prep_Spec p) = rs_Config ready ∧
    rs_Service (prep_Spec p) = rs_Service ready ∧ rs_Endpoint (prep_Spec p) = cluster_endpoint)
    by (rewrite Hp; by destruct ready).
  destruct Hf as (Hf1 & Hf2 & Hf3 & Hf4 & Hf5 & Hf6). rewrite <-Hp in *.
  split; [done|]. split; [done|]. split.
  - exists spec, secrets, image. split_and!; try done; try congruence.
    + intros Hne ->. apply andb_false_iff in Hg as [Hg|Hg]; [|done].
      apply negb_false_iff, bool_decide_eq_true in Hg. done.
    + rewrite Hf1. destruct Hreg as [[? ->]|(a & registry & [= <-] & ? & ? & ? & ? & ?)]; [by left|].
      right. by exists registry.
  - split_and!; try done; try congruence. apply not_true_iff_false. rewrite hasSecretValues_spec.
    intros (k & v & Hk & Hv'). destruct (prep_Spec p). simpl in Hk. rewrite lookup_fmap in Hk.
    apply fmap_Some in Hk as (? & _ & ->). done.
Qed.
End prepare.

(** ** Managed files, proved *)

Section managed_files.
Context {C : Type} `{Surroundings}.
Definition files (w : World C) : gmap Z ApplicationManagedFile := t_rows (tbl (w_db w)).
Definition files_keyed (w : World C) : Prop := keyed (tbl (A := ApplicationManagedFile) (w_db w)).

(** A row after changes to an application: same file, same version, still enabled if it was, and
    untouched when it belongs to another one. *)
Definition file_later (applicationID : Z) (f f' : ApplicationManagedFile) : Prop :=
  (mf_ApplicationID f ≠ applicationID → f' = f) ∧ mf_ApplicationID f' = mf_ApplicationID f ∧ file_binding f' = file_binding f ∧ mf_Version f' = mf_Version f ∧
  (mf_Enabled f = true → mf_Enabled f' = true).
Definition files_later (applicationID : Z) (w w' : World C) : Prop :=
  ∀ i f, files w !! i = Some f → ∃ f', files w' !! i = Some f' ∧ file_later applicationID f f'.

(** The application has the binding, enabled. *)
Definition bound (applicationID : Z) (binding : string) (w : World C) : Prop :=
  ∃ i f, files w !! i = Some f ∧ mf_ApplicationID f = applicationID ∧ file_binding f = binding ∧ mf_Enabled f = true.

Lemma files_later_refl a w : files_later a w w.
Proof. intros i f Hf. exists f. done. Qed.
Lemma files_later_trans a w1 w2 w3 : files_later a w1 w2 → files_later a w2 w3 → files_later a w1 w3.
Proof.
  intros H1 H2 i f Hf. destruct (H1 i f Hf) as (g & Hg & Hg1 & ? & ? & ? & ?).
  destruct (H2 i g Hg) as (h & ? & Hh1 & ? & ? & ? & ?).
  exists h. split; [done|]. unfold file_later. split_and!; try congruence; [|auto].
  intros Hne. rewrite Hh1 by congruence. by apply Hg1.
Qed.
Lemma bound_later a b w w' : files_later a w w' → bound a b w → bound a b w'.
Proof.
  intros Hl (i & f & Hf & Ha & Hb & He). destruct (Hl i f Hf) as (f' & Hf' & _ & Ha' & Hb' & _ & He').
  exists i, f'. split_and!; [done|congruence|congruence|auto].
Qed.
Lemma files_later_same a w w' : w_db w' = w_db w → files_later a w w'.
Proof. intros Hdb i f. unfold files. rewrite Hdb. intros Hf. by exists f. Qed.

Lemma create_file_Ok f r (w w' : World C) :
  files_keyed w → CreateApplicationManagedFile f w = (Ok r, w') →
  files_keyed w' ∧ files_later (mf_ApplicationID f) w w' ∧ bound (mf_ApplicationID f) (file_binding f) w' ∧ mf_Version r ≠ 0%Z.
Proof.
  intros Hk. unfold CreateApplicationManagedFile.
  set (f1 := if decide (mf_Version f = 0%Z) then _ else _). set (f2 := if decide _ then _ else f1).
  assert (Hf2 : mf_ApplicationID f2 = mf_ApplicationID f ∧ file_binding f2 = file_binding f ∧ mf_Version f2 ≠ 0%Z).
  { unfold f2, f1. destruct f. by repeat (case_decide; simpl in * ). }
  clearbody f2. clear f1. destruct Hf2 as (Ha & Hb & Hv). intros (Hc & -> & Hdb & _)%create_Ok.
  assert (Hk' : files_keyed w' ∧ files w !! t_next (tbl (A := ApplicationManagedFile) (w_db w)) = None).
  { set (tb := tbl (w_db w)) in *.
    assert (Ht : t_create f2 tb = Ok (with_id (t_next tb) (defaults f2),
      {| t_rows := <[t_next tb := with_id (t_next tb) (defaults f2)]> (t_rows tb); t_next := t_next tb + 1 |})).
    { unfold t_create. by rewrite Hc. }
    destruct (keyed_create _ _ _ _ Hk Ht) as (? & _ & ? & _). unfold files_keyed, files. by rewrite Hdb, tbl_put. }
  destruct Hk' as [Hk' Hfree]. split; [done|].
  assert (Hrows : files w' = <[t_next (tbl (A := ApplicationManagedFile) (w_db w)) :=
    with_id (t_next (tbl (A := ApplicationManagedFile) (w_db w))) (defaults f2)]> (files w)).
  { unfold files. by rewrite Hdb, tbl_put. }
  split_and!.
  - intros i g Hg. exists g. rewrite Hrows, lookup_insert_ne; [done|]. intros <-. congruence.
  - rewrite <-Ha, <-Hb. eexists _, _. rewrite Hrows, lookup_insert_eq. split; [reflexivity|]. by destruct f2.
  - destruct f2. simpl in *. case_decide; [done|exact Hv].
Qed.

Lemma upsert_file_Ok f r (w w' : World C) :
  files_keyed w → mf_Enabled f = true → UpsertApplicationManagedFile f w = (Ok r, w') →
  files_keyed w' ∧ files_later (mf_ApplicationID f) w w' ∧ bound (mf_ApplicationID f) (file_binding f) w'.
Proof.
  intros Hk Hen. unfold UpsertApplicationManagedFile. intros (found & w1 & Hf & Hx)%bind_Ok.
  unfold attempt in Hf. destruct (first (λ g, clash g f) w) as [res w2] eqn:Hq. injection Hf as <- <-.
  destruct res as [existing|e].
  - apply query_Ok in Hq as ([Hclash Hin]%first_row_select & Hdb & _).
    apply bind_Ok in Hx as (u & w3 & Hu & [_ ->]%ret_Ok). apply statement_Ok in Hu as (Hu & _).
    apply result_bind_Ok in Hu as (t & [= <-] & Hdb3).
    assert (Hw3 : w_db w3 = put (t_update (λ g, bool_decide (mf_ID g = mf_ID existing)) (set_file_columns f) (tbl (w_db w2))) (w_db w2))
      by congruence. clear Hdb3.
    apply keyed_elem in Hin; [|done]. simpl in Hin.
    apply bool_decide_eq_true in Hclash as (Ha & Hb1 & Hb2 & Hb3).
    assert (Hrow : files w3 = (λ g, if bool_decide (mf_ID g = mf_ID existing) then set_file_columns f g else g) <$> files w).
    { unfold files. rewrite Hw3, tbl_put. simpl. by rewrite Hdb. }
    split_and!.
    + unfold files_keyed. rewrite Hw3, tbl_put, Hdb. apply keyed_update; [by intros []|done].
    + intros i g Hg. rewrite Hrow, lookup_fmap, Hg. eexists. split; [reflexivity|].
      case_bool_decide as Hid; [|done].
      assert (g = existing) as ->.
      { pose proof (keyed_id _ Hk _ _ Hg) as Hgi. cbn in Hgi. unfold files in Hg. congruence. }
      unfold file_later, file_binding. rewrite Ha. by destruct existing.
    + exists (mf_ID existing), (set_file_columns f existing). rewrite Hrow, lookup_fmap. unfold files. rewrite Hin. simpl.
      rewrite bool_decide_true by done. destruct existing. unfold file_binding. simpl in *. rewrite Ha, Hb1, Hb2, Hb3. done.
  - destruct (err_is _ e); [|done].
    assert (Hdb : w_db w2 = w_db w).
    { unfold first in Hq. destruct (query_cases (λ db, first_row (select (λ g, clash g f) (tbl db))) w) as [(x & Hc)|(x & _ & Hc)];
        rewrite Hc in Hq; by injection Hq as _ <-. }
    apply create_file_Ok in Hx as (Hk' & Hl & Hb & _); [|unfold files_keyed; by rewrite Hdb].
    split_and!; [done| |done]. eapply files_later_trans; [by apply files_later_same|done].
Qed.

Definition key_bindings (kind name : string) (keys : list string) : gset string :=
  list_to_set (managedFileBinding kind name <$> List.filter (λ key, negb (empty_str key)) (trim_space <$> keys)).

Lemma sync_keys_Ok app spec userID kind name secret keys bindings bindings' (w w' : World C) :
  files_keyed w → (∀ b, b ∈ bindings → bound (app_ID app) b w) →
  sync_keys app spec userID kind name secret keys bindings w = (Ok bindings', w') →
  files_keyed w' ∧ files_later (app_ID app) w w' ∧ bindings' = key_bindings kind name keys ∪ bindings ∧
  (∀ b, b ∈ bindings' → bound (app_ID app) b w').
Proof.
  revert bindings w. induction keys as [|key keys IH]; intros bindings w Hk Hb; simpl.
  - intros [-> ->]%ret_Ok. split_and!; [done|apply files_later_refl| |done]. unfold key_bindings. set_solver.
  - intros (b1 & w1 & H1 & H2)%bind_Ok. unfold sync_key in H1. cbn zeta in H1.
    assert (Hstep : files_keyed w1 ∧ files_later (app_ID app) w w1 ∧ (∀ b, b ∈ b1 → bound (app_ID app) b w1) ∧
      b1 = (if empty_str (trim_space key) then ∅ else {[managedFileBinding kind name (trim_space key)]}) ∪ bindings).
    { unfold empty_str. case_decide as He.
      - apply ret_Ok in H1 as [-> ->]. rewrite bool_decide_true by done.
        split_and!; [done|apply files_later_refl|done|set_solver].
      - apply bind_Ok in H1 as (f & w2 & Hf & [-> ->]%ret_Ok). rewrite bool_decide_false by done.
        apply upsert_file_Ok in Hf as (Hk1 & Hl1 & Hb1); [|done|done]. split_and!; [done|done| |done].
        intros b [->%elem_of_singleton|Hin]%elem_of_union; [exact Hb1|]. eapply bound_later; [done|by apply Hb]. }
    destruct Hstep as (Hk1 & Hl1 & Hb1 & Heq). apply IH in H2 as (Hk2 & Hl2 & Heq2 & Hb2); [|done|done].
    split_and!; [done|by eapply files_later_trans| |done]. rewrite Heq2, Heq. unfold key_bindings. rewrite fmap_cons.
    simpl. destruct (empty_str (trim_space key)); simpl; set_solver.
Qed.

(** The rows that lose their binding. *)
Definition unbound (applicationID : Z) (bindings : gset string) (f : ApplicationManagedFile) : bool :=
  bool_decide (mf_ApplicationID f = applicationID) && mf_Enabled f && negb (bool_decide (file_binding f ∈ bindings)).

Lemma disable_each (bindings : gset string) l u (w w' : World C) :
  for_each (λ file, if decide (file_binding file ∈ bindings) then mret tt
    else execute (λ t, Ok (t_update (λ f, bool_decide (mf_ID f = mf_ID file)) (set_file_enabled false) t))) l w = (Ok u, w') →
  files w' = (λ f, if existsb (λ g, bool_decide (mf_ID g = mf_ID f) && negb (bool_decide (file_binding g ∈ bindings))) l
                   then set_file_enabled false f else f) <$> files w.
Proof.
  revert w. induction l as [|g l IH]; intros w; simpl.
  - intros [_ ->]%ret_Ok. by rewrite map_fmap_id.
  - intros (u1 & w1 & H1 & H2)%bind_Ok. rewrite (IH _ H2). clear IH H2.
    assert (Hone : files w1 = (λ f, if bool_decide (mf_ID g = mf_ID f) && negb (bool_decide (file_binding g ∈ bindings))
      then set_file_enabled false f else f) <$> files w).
    { case_decide as Hin.
      - apply ret_Ok in H1 as [_ ->]. rewrite (map_fmap_ext _ id) by (intros; by rewrite (bool_decide_true _ Hin), andb_false_r).
        by rewrite map_fmap_id.
      - apply statement_Ok in H1 as (Hf & _). apply result_bind_Ok in Hf as (t & [= <-] & Hdb).
        assert (Hw : w_db w1 = put (t_update (λ f, bool_decide (mf_ID f = mf_ID g)) (set_file_enabled false) (tbl (w_db w))) (w_db w))
          by congruence.
        unfold files. rewrite Hw, tbl_put. simpl. apply map_fmap_ext. intros i f _.
        rewrite (bool_decide_false _ Hin), andb_true_r. by rewrite (bool_decide_ext (mf_ID f = mf_ID g) (mf_ID g = mf_ID f)). }
    rewrite Hone, <-map_fmap_compose. apply map_fmap_ext. intros i f _. simpl.
    assert (Hid : mf_ID (set_file_enabled false f) = mf_ID f) by by destruct f.
    destruct (bool_decide (mf_ID g = mf_ID f) && negb (bool_decide (file_binding g ∈ bindings))); simpl; [|done].
    rewrite Hid. by destruct (existsb _ l), f.
Qed.

Lemma disable_Ok applicationID bindings u (w w' : World C) :
  files_keyed w → DisableApplicationManagedFilesNotIn applicationID bindings w = (Ok u, w') →
  files w' = (λ f, if unbound applicationID bindings f then set_file_enabled false f else f) <$> files w.
Proof.
  intros Hk (l & w1 & Hl & He)%bind_Ok. apply query_Ok in Hl as ([= <-] & Hdb & _). apply disable_each in He.
  assert (Hf : files w1 = files w) by (unfold files; by rewrite Hdb). rewrite He, Hf. apply map_fmap_ext. intros i f Hi.
  assert (existsb (λ g, bool_decide (mf_ID g = mf_ID f) && negb (bool_decide (file_binding g ∈ bindings)))
    (select (λ f, bool_decide (mf_ApplicationID f = applicationID) && mf_Enabled f) (tbl (w_db w)))
    = unbound applicationID bindings f) as ->; [|done].
  apply eq_true_iff_eq. rewrite existsb_exists. unfold unbound. split.
  - intros (g & [Hg1 Hg]%list_elem_of_In%elem_of_select & [Hid%bool_decide_eq_true Hb]%andb_prop).
    apply keyed_elem in Hg; [|done]. cbn in Hg. rewrite Hid in Hg.
    pose proof (keyed_id _ Hk _ _ Hi) as Hfi. cbn in Hfi. unfold files in Hi. assert (g = f) as -> by congruence.
    by rewrite Hg1, Hb.
  - intros [Hf1 Hb]%andb_prop. exists f. split; [|by rewrite bool_decide_true, Hb by done].
    apply list_elem_of_In, elem_of_select. split; [done|]. apply elem_of_t_list. by exists i.
Qed.

(** C35: the managed files follow the template. When [SyncManagedFiles] succeeds, the enabled managed
    files of the application are exactly those of the managed keys of its configuration and of its
    secrets; every file there was is still there with the same binding and the same version, so the
    optimistic locks of an integration stay valid across a republish and a disabled file keeps its
    history; and the files of other applications are untouched. *)
Theorem managed_files_follow_template app spec userID (w w' : World C)
    (Hsync : SyncManagedFiles app spec userID w = (Ok tt, w')) (Hkeyed : files_keyed w) :
  let normal := NormalizeManagedKeys spec in
  (∀ binding, bound (app_ID app) binding w' ↔
    binding ∈ key_bindings FileMountSourceConfigMap (app_Name app +:+ "-config") (rs_ConfigManagedKeys normal) ∪
              key_bindings FileMountSourceSecret (app_Name app +:+ "-secret") (rs_SecretManagedKeys normal)) ∧
  (∀ i f, files w !! i = Some f → ∃ f', files w' !! i = Some f' ∧ file_binding f' = file_binding f ∧
    mf_Version f' = mf_Version f ∧ mf_ApplicationID f' = mf_ApplicationID f ∧
    (mf_ApplicationID f ≠ app_ID app → f' = f)).
Proof.
  intros normal. apply bind_Ok in Hsync as (b1 & w1 & H1 & (b2 & w2 & H2 & H3)%bind_Ok). fold normal in H1, H2.
  apply sync_keys_Ok in H1 as (Hk1 & Hl1 & Heq1 & Hb1); [|done|set_solver].
  apply sync_keys_Ok in H2 as (Hk2 & Hl2 & Heq2 & Hb2); [|done|done].
  pose proof (files_later_trans _ _ _ _ Hl1 Hl2) as Hl. apply disable_Ok in H3; [|done].
  assert (Heq : ∀ b, b ∈ b2 ↔ b ∈ key_bindings FileMountSourceConfigMap (app_Name app +:+ "-config") (rs_ConfigManagedKeys normal) ∪
    key_bindings FileMountSourceSecret (app_Name app +:+ "-secret") (rs_SecretManagedKeys normal))
    by (intros b; rewrite Heq2, Heq1; set_solver).
  split.
  - intros b. rewrite <-Heq. split.
    + intros (i & f' & Hf' & Ha & Hb & He). rewrite H3, lookup_fmap in Hf'. apply fmap_Some in Hf' as (f & Hf & ->).
      unfold unbound in *. destruct (bool_decide (mf_ApplicationID f = app_ID app) && mf_Enabled f) eqn:Hfe; simpl in *.
      * case_bool_decide as Hin; simpl in *; [congruence|]. by destruct f.
      * rewrite bool_decide_true, He in Hfe by done. done.
    + intros Hb. destruct (Hb2 b Hb) as (i & f & Hf & Ha & Hfb & He). exists i, f. rewrite H3, lookup_fmap, Hf. simpl.
      unfold unbound. rewrite Hfb, (bool_decide_true (b ∈ b2)), andb_false_r by done. done.
  - intros i f Hf. destruct (Hl i f Hf) as (g & Hg & Hother & Ha & Hb & Hv & _).
    rewrite H3, lookup_fmap, Hg. eexists. split; [reflexivity|]. unfold unbound.
    destruct (_ && _) eqn:Hu; [|by split_and!].
    apply andb_prop in Hu as [[Hu%bool_decide_eq_true _]%andb_prop _].
    assert (H' : file_binding (set_file_enabled false g) = file_binding g ∧ mf_Version (set_file_enabled false g) = mf_Version g ∧
      mf_ApplicationID (set_file_enabled false g) = mf_ApplicationID g) by by destruct g.
    destruct H' as (-> & -> & ->). split_and!; [done..|]. intros Hne. congruence.
Qed.
End managed_files.

(** ** A concrete workflow *)

#[local] Existing Instances calm sample_library toy_cipher.
#[local] Instance sample_references : ImageReferences := { ParseReference _ := Ok "registry.local" }.

(** A cluster that records the endpoints it was given. *)
#[local] Instance sample_synchronizer : endpointSynchronizer (C := list string) :=
  { SyncApplicationEndpoints _ endpoints _ _ := (Ok tt, ae_Domain <$> endpoints) }.
Definition sample_workflow : ReleaseWorkflow (C := list string) :=
  {| wf_encKey := "abcd"; wf_applier := None; wf_synchronizer := Some sample_synchronizer |}.

Definition workflow_spec : ReleaseSpec := with_image "shop/web" "" sample_spec.
Definition workflow_template : ApplicationDeploymentTemplate :=
  Build_ApplicationDeploymentTemplate 1 7 "default" "" true (encode_ReleaseSpec (SanitizeReleaseSpec workflow_spec))
    (from_ok "" (Encrypt "abcd" "01" (print (JObj [("PASSWORD", JStr "s3cret")])))) 4 1.
Definition workflow_endpoint : ApplicationEndpoint :=
  Build_ApplicationEndpoint 1 7 1 "public" "shop.example.org" "/" 8443 "TCP" false true "ingress" "" "" "public".
Definition anonymous_registry : ImageRegistry :=
  let '(Build_ImageRegistry i n ep vi _ u cr e lv ls le cb mr ps) := sample_registry in
  Build_ImageRegistry i n ep vi AuthTypeAnonymous "" "" e lv ls le cb mr ps.
Definition workflow_world : World (list string) :=
  {| w_db := put (one_row workflow_endpoint) (put (one_row anonymous_registry) (put (one_row workflow_template) sample_store));
     w_tick := 0; w_cluster := []; w_trace := [] |}.

Lemma endpoint_port_resolved_witness :
  ∃ q, q ∈ PortSpecs (rs_Service sample_spec) ∧ port_Port q = 80%Z.
Proof.
  destruct (proj1 (endpoint_port_resolved (rs_Service sample_spec) 80 "tcp" true
    (set_protocol "TCP" {| port_Name := "service"; port_Port := 80; port_TargetPort := 8080; port_Protocol := "tcp"; port_NodePort := 0 |})
    ltac:(vm_compute; apply NoDup_singleton)) eq_refl) as (_ & q & Hq & _ & Hport & _).
  exists q. exact (conj Hq Hport).
Defined.

Definition synchronised := syncApplicationEndpoints sample_workflow sample_application (rs_Service sample_spec) workflow_world.
Lemma endpoints_synchronised_witness :
  ∃ e, endpoints synchronised.2 !! 1%Z = Some e ∧ ae_ServicePort e = 80%Z.
Proof.
  destruct (endpoints_synchronised sample_workflow sample_application (rs_Service sample_spec) workflow_world synchronised.2)
    as (synchronizer & called & port & _ & _ & Hm & _).
  - vm_compute. reflexivity.
  - apply keyed_one_row.
  - destruct (PrimaryTCPPort (rs_Service sample_spec)) as [primary|] eqn:Hp; [|discriminate Hp].
    destruct Hm as (_ & Hall & _). exists (set_endpoint_port 80 "TCP" workflow_endpoint). split; vm_compute; reflexivity.
Defined.

Definition sample_draft : Release := set_rel_id 2 (new_release 7 1 2 sample_spec (SanitizeReleaseSpec sample_spec)).
Definition draft_world : World (list string) :=
  {| w_db := put (one_row sample_draft) (w_db workflow_world); w_tick := 0; w_cluster := []; w_trace := [] |}.
Lemma async_execution_terminates_witness :
  ∃ final w', ExecuteAsync sample_workflow sample_application {| prep_Release := sample_draft; prep_Spec := sample_spec |} draft_world
    = (Ok tt, w') ∧ stored 2 final w'.
Proof.
  assert (Hst : stored 2 sample_draft draft_world).
  { split; [|vm_compute; reflexivity]. split.
    - intros id r [-> ->]%lookup_one_row. reflexivity.
    - intros i j r r' [-> ->]%lookup_one_row [-> ->]%lookup_one_row _ _. reflexivity. }
  destruct (async_execution_terminates calm_faults sample_workflow sample_application
    {| prep_Release := sample_draft; prep_Spec := sample_spec |} sample_draft draft_world Hst eq_refl) as (final & w' & Hrun & Hs & _).
  exists final, w'. exact (conj Hrun Hs).
Defined.

Definition prepared_run :=
  CreateFromTemplate sample_workflow (Some sample_application) (Some workflow_template) "1.3.0" 1 workflow_world.
Definition prepared_sample : PreparedRelease :=
  from_ok {| prep_Release := sample_draft; prep_Spec := sample_spec |} prepared_run.1.
Lemma template_release_prepared_witness :
  rs_Image (prep_Spec prepared_sample) = "registry.local/shop/web:1.3.0" ∧
  ValidateReleaseSpec (prep_Spec prepared_sample) = [].
Proof.
  split; [vm_compute; reflexivity|].
  refine (proj1 (proj2 (template_release_prepared sample_workflow sample_application workflow_template "1.3.0" 1
    prepared_sample workflow_world prepared_run.2 _))).
  apply ran_Ok. vm_compute. reflexivity.
Defined.

Lemma managed_files_follow_template_witness :
  bound 7 (managedFileBinding "configmap" "web-config" "app.toml")
    (SyncManagedFiles sample_application sample_spec 1 workflow_world).2.
Proof.
  refine (proj2 (proj1 (managed_files_follow_template sample_application sample_spec 1 workflow_world
    (SyncManagedFiles sample_application sample_spec 1 workflow_world).2 _ _) _) _).
  - vm_compute. reflexivity.
  - apply keyed_one_row.
  - vm_compute. set_solver.
Defined.
