(* ===== verification/Templates.v ===== *)
(** * Deployment templates

    [internal/api/application/application_handler.go] and [kubernetes_adapter.go]: what the handlers of
    applications share; [template_handler.go]: the handlers that create, change and delete deployment
    templates. The adapter of Kubernetes is the interface [KubernetesAdapter]; its implementation over the
    API server is in the file ApplicationHandlers. A stored specification holds no secret value: the values are in
    a column of their own, sealed. *)
From Stdlib Require Import ZArith Ascii String Lia.
From stdpp Require Import base sorting pretty numbers gmap strings list.
From S2P Require Import Prelude GoStrings GoBase64 Json JsonText ReleaseSpec ReleaseSnapshot Models PlatformModels Security ReleaseValidation ReleaseRendering Cluster Store PlatformStore Api Tokens IntegrationSessions RegistryStore ReleaseExecution ReleaseWorkflow.

(** What the handlers read of a certificate. *)
Record CertInfo := { ci_Status : string; ci_Reason : string }.

(** [KubernetesAdapter]: the calls of the handlers that are not calls of the workflow. *)
Record KubernetesAdapter (C : Type) := {
  KubernetesAvailable : bool;
  adapter_ValidatePersistentVolumeClaims : ApplicationContext → ReleaseSpec → M C unit;
  adapter_SyncApplicationEndpoints : ApplicationContext → list ApplicationEndpoint → Z → M C unit;
  adapter_GetCertificateContext : string → string → M C CertInfo;
  adapter_GetNamespace : string → M C LiveNamespace;
  adapter_UpdateNamespace : LiveNamespace → M C LiveNamespace;
  adapter_CreateNamespace : string → gmap string string → M C LiveNamespace
}.
Arguments KubernetesAvailable {C} _.
Arguments adapter_ValidatePersistentVolumeClaims {C} _ _ _.
Arguments adapter_SyncApplicationEndpoints {C} _ _ _ _.
Arguments adapter_GetCertificateContext {C} _ _ _.
Arguments adapter_GetNamespace {C} _ _.
Arguments adapter_UpdateNamespace {C} _ _.
Arguments adapter_CreateNamespace {C} _ _ _.

Section handler_state.
Context `{K8sLibrary} {C : Type}.

(** The workflow has the same key as the handler. *)
Record ApplicationHandler := {
  aph_delegationSecret : string;
  aph_kubernetes : option (KubernetesAdapter C);
  aph_workflow : ReleaseWorkflow (C := C)
}.
Definition aph_encKey (h : ApplicationHandler) : string := wf_encKey (aph_workflow h).
Definition available (h : ApplicationHandler) : option (KubernetesAdapter C) :=
  match aph_kubernetes h with
  | Some k => if KubernetesAvailable k then Some k else None
  | None => None
  end.
End handler_state.

Record deploymentTemplateInfo := {
  dti_ID : Z; dti_ApplicationID : Z; dti_Name : string; dti_Description : string; dti_Enabled : bool;
  dti_IsDefault : bool; dti_Revision : Z; dti_Spec : ReleaseSpec
}.
Record deploymentTemplateRequest := {
  dtr_Name : string; dtr_Description : string; dtr_Enabled : bool; dtr_Revision : Z; dtr_Spec : ReleaseSpec
}.

Definition deploymentTemplateFromModel (template : ApplicationDeploymentTemplate) (defaultTemplateID : option Z) :
    option deploymentTemplateInfo :=
  spec ← decode_ReleaseSpec zero_ReleaseSpec (tpl_Spec template);
  Some {| dti_ID := tpl_ID template; dti_ApplicationID := tpl_ApplicationID template; dti_Name := tpl_Name template;
          dti_Description := tpl_Description template; dti_Enabled := tpl_Enabled template;
          dti_IsDefault := bool_decide (defaultTemplateID = Some (tpl_ID template));
          dti_Revision := tpl_Revision template; dti_Spec := spec |}.

(** An image path without a tag. *)
Definition validateImageRepository (image : string) : result unit :=
  let image := image_path image in
  if bool_decide (image = "") || contains_any image white_space || contains image "@" then Err (EText "镜像路径无效")
  else if contains (drop_str (after_last "/" image) image) ":"
  then Err (EText "上线模板镜像路径不应包含 Tag，请在发布时填写版本号")
  else Ok tt.

(** [for key, value := range spec.Secrets { if strings.TrimSpace(value) != "" { ... } }] *)
Definition merge_secrets (values current : gmap string string) : gmap string string :=
  filter (λ kv, trim_space kv.2 ≠ "") values ∪ current.

Definition set_template_updated_by (userID : Z) (t : ApplicationDeploymentTemplate) : ApplicationDeploymentTemplate :=
  let '(Build_ApplicationDeploymentTemplate i a n d e s x r _) := t in
  Build_ApplicationDeploymentTemplate i a n d e s x r userID.

(** [err.Error()] in the answer of a failed statement. *)
Definition db_error (e : goerr) : goerr := DBError (err_text e).

Section templates.
Context `{K8sLibrary} {C : Type} `{Surroundings} `{AesGcm} `{ImageReferences} `{Entropy}.
#[local] Abbreviation M := (M (World C)).
Variable h : ApplicationHandler (C := C).

Definition path_id (param message : string) : M Z :=
  match ParseID param with Some id => mret id | None => throw (BadRequest message) end.
Definition named_application (id : Z) : M Application :=
  wrapping (λ _, NotFound "应用不存在") (GetApplication id).
(** [c.ShouldBindJSON(&req)]; [None] when it fails. *)
Definition bound {A} (body : option A) (message : string) : M A :=
  match body with Some req => mret req | None => throw (BadRequest message) end.

(** ** Secrets *)

Definition decryptTemplateSecretsByValue (encrypted : string) : result (gmap string string) :=
  if decide (trim_space encrypted = "") then Ok ∅
  else if decide (aph_encKey h = "") then Err (EText "平台加密密钥未配置")
  else
    plaintext ← Decrypt (aph_encKey h) encrypted;
    match parse plaintext ≫= decode map_codec ∅ with
    | Some values => Ok values
    | None => Err (EText "json: cannot unmarshal")
    end.

(** [crypto.Encrypt], whose nonce is drawn after the key was accepted. *)
Definition encrypt_text (plaintext : string) : M string :=
  _ ← lift (new_cipher (aph_encKey h));
  nonce ← draw (Z.of_nat nonce_size) id;
  lift (Encrypt (aph_encKey h) nonce plaintext).

(** The column of the template: unchanged when the request names no secret. *)
Definition sealed_secrets (values : gmap string string) (encrypted : string) : M string :=
  if empty_map values then mret encrypted else
  currentSecrets ← wrapping (λ e, EWrap "读取旧模板 Secret: " e "") (lift (decryptTemplateSecretsByValue encrypted));
  let currentSecrets := merge_secrets values currentSecrets in
  guard_not (empty_map currentSecrets) (EText "Secret 必须至少配置一个非空值") ;;
  guard_not (bool_decide (aph_encKey h = "")) (EText "平台加密密钥未配置，无法保存 Secret") ;;
  wrapping (λ e, EWrap "加密模板 Secret: " e "") (encrypt_text (print (encode map_codec currentSecrets))).

(** ** From the request to the row *)

Definition check_volumes (app : Application) (spec : ReleaseSpec) : M unit :=
  if empty_list (rs_Volumes spec) then mret tt else
  match available h with
  | None => throw (EText "K8s 集群未连接，无法验证 PVC")
  | Some k =>
      on_cluster (adapter_ValidatePersistentVolumeClaims k
        {| ac_ProjectID := 0; ac_EnvironmentID := env_ID (app_Environment app); ac_ProjectName := "";
           ac_EnvironmentName := ""; ac_ApplicationName := ""; ac_Namespace := env_Namespace (app_Environment app);
           ac_WorkloadKind := ""; ac_ReleaseSequence := 0 |} spec)
  end.

Definition templateFromRequest (app : Application) (req : deploymentTemplateRequest) (templateID : Z) :
    M ApplicationDeploymentTemplate :=
  guard_not (bool_decide (trim_space (dtr_Name req) = "")) (EText "模板名称必填") ;;
  guard_not (bool_decide (128 < length (runes (chars (dtr_Name req))))) (EText "模板名称不能超过 128 个字符") ;;
  let spec := NormalizeManagedKeys (dtr_Spec req) in
  guard_not (bool_decide (trim_space (rs_Version spec) ≠ "")) (EText "上线模板不应包含版本号") ;;
  lift (validateImageRepository (rs_Image spec)) ;;
  spec ← PrepareRegistrySpec (aph_workflow h) (Some app) spec;
  encryptedSecrets ←
    (if decide (templateID = 0%Z) then mret "" else
     current ← wrapping (λ e, EWrap "读取旧模板 Secret: " e "") (GetApplicationDeploymentTemplate (app_ID app) templateID);
     mret (tpl_EncryptedSecrets current));
  encryptedSecrets ← sealed_secrets (rs_Secrets spec) encryptedSecrets;
  let spec := with_endpoint cluster_endpoint spec in
  match ValidateReleaseSpec spec with
  | issue :: _ => throw (EText (issue_Message issue))
  | [] =>
      check_volumes app spec ;;
      mret {| tpl_ID := templateID; tpl_ApplicationID := app_ID app; tpl_Name := trim_space (dtr_Name req);
              tpl_Description := trim_space (dtr_Description req); tpl_Enabled := dtr_Enabled req;
              tpl_Spec := encode_ReleaseSpec (SanitizeReleaseSpec spec); tpl_EncryptedSecrets := encryptedSecrets;
              tpl_Revision := 0; tpl_UpdatedBy := 0 |}
  end.

(** ** The handlers *)

Definition template_info (template : ApplicationDeploymentTemplate) (defaultTemplateID : option Z) (message : string) :
    M deploymentTemplateInfo :=
  match deploymentTemplateFromModel template defaultTemplateID with
  | Some info => mret info
  | None => throw (DBError message)
  end.
Fixpoint template_infos (templates : list ApplicationDeploymentTemplate) (defaultTemplateID : option Z) :
    M (list deploymentTemplateInfo) :=
  match templates with
  | [] => mret []
  | template :: templates =>
      info ← template_info template defaultTemplateID "读取应用上线模板失败";
      infos ← template_infos templates defaultTemplateID;
      mret (info :: infos)
  end.

Definition ListDeploymentTemplates (param_id : string) : M (list deploymentTemplateInfo) :=
  applicationID ← path_id param_id "应用 ID 无效";
  app ← named_application applicationID;
  templates ← wrapping db_error (ListApplicationDeploymentTemplates applicationID);
  template_infos templates (app_DefaultDeploymentTemplateID app).

Definition GetDeploymentTemplate (param_id param_template : string) : M deploymentTemplateInfo :=
  applicationID ← path_id param_id "应用 ID 无效";
  templateID ← path_id param_template "上线模板 ID 无效";
  app ← named_application applicationID;
  template ← wrapping (λ _, NotFound "上线模板不存在") (GetApplicationDeploymentTemplate applicationID templateID);
  template_info template (app_DefaultDeploymentTemplateID app) "读取应用上线模板失败".

Definition sync_default (app : Application) (defaultTemplateID : option Z) (templateID : Z) (spec : ReleaseSpec) (userID : Z) :
    M unit :=
  if decide (defaultTemplateID = Some templateID) then
    wrapping (λ _, DBError "登记模板 ConfigMap 配置失败") (SyncManagedFiles app spec userID)
  else mret tt.

Definition CreateDeploymentTemplate (param_id : string) (body : option deploymentTemplateRequest) (userID : Z) :
    M deploymentTemplateInfo :=
  applicationID ← path_id param_id "应用 ID 无效";
  app ← named_application applicationID;
  req ← bound body "上线模板定义无效";
  template ← wrapping (λ e, ValidationError (err_text e)) (templateFromRequest app req 0);
  let template := set_template_updated_by userID template in
  template ← wrapping db_error
    (CreateApplicationDeploymentTemplate template (bool_decide (app_DefaultDeploymentTemplateID app = None)));
  let defaultTemplateID := match app_DefaultDeploymentTemplateID app with Some id => Some id | None => Some (tpl_ID template) end in
  sync_default app defaultTemplateID (tpl_ID template) (dtr_Spec req) userID ;;
  template_info template defaultTemplateID "读取上线模板失败".

Definition update_answer (e : goerr) : goerr :=
  if err_is "TemplateRevisionConflictError" e then Conflict (err_text e)
  else if err_is "gorm.ErrRecordNotFound" e then NotFound "上线模板不存在"
  else DBError (err_text e).

Definition UpdateDeploymentTemplate (param_id param_template : string) (body : option deploymentTemplateRequest) (userID : Z) :
    M deploymentTemplateInfo :=
  applicationID ← path_id param_id "应用 ID 无效";
  templateID ← path_id param_template "上线模板 ID 无效";
  app ← named_application applicationID;
  req ← bound body "上线模板定义无效";
  guard_not (bool_decide (app_DefaultDeploymentTemplateID app = Some templateID) && negb (dtr_Enabled req))
    (ValidationError "默认模板不能停用，请先设置其他启用模板为默认") ;;
  currentTemplate ← wrapping (λ e, if err_is "gorm.ErrRecordNotFound" e then NotFound "上线模板不存在" else db_error e)
    (GetApplicationDeploymentTemplate applicationID templateID);
  guard_not (bool_decide (dtr_Revision req ≠ 0%Z) && bool_decide (tpl_Revision currentTemplate ≠ dtr_Revision req))
    (Conflict ("模板版本冲突，当前版本为 " +:+ dec (tpl_Revision currentTemplate))) ;;
  template ← wrapping (λ e, ValidationError (err_text e)) (templateFromRequest app req templateID);
  let template := set_template_updated_by userID template in
  template ← wrapping update_answer
    (if decide (dtr_Revision req ≠ 0%Z) then UpdateApplicationDeploymentTemplateIfRevision template (dtr_Revision req)
     else UpdateApplicationDeploymentTemplate template);
  sync_default app (app_DefaultDeploymentTemplateID app) (tpl_ID template) (dtr_Spec req) userID ;;
  template_info template (app_DefaultDeploymentTemplateID app) "读取上线模板失败".

Definition DeleteDeploymentTemplate (param_id param_template : string) : M Z :=
  applicationID ← path_id param_id "应用 ID 无效";
  templateID ← path_id param_template "上线模板 ID 无效";
  wrapping (λ e, if contains (err_text e) "关联发布" then Conflict (err_text e) else NotFound "上线模板不存在")
    (DeleteApplicationDeploymentTemplate applicationID templateID) ;;
  mret templateID.

Definition SetDefaultDeploymentTemplate (param_id param_template : string) (userID : Z) : M Z :=
  applicationID ← path_id param_id "应用 ID 无效";
  templateID ← path_id param_template "上线模板 ID 无效";
  app ← named_application applicationID;
  let unusable := ValidationError "上线模板不存在或已停用" in
  template ← wrapping (λ _, unusable) (GetApplicationDeploymentTemplate applicationID templateID);
  guard_not (negb (tpl_Enabled template)) unusable ;;
  wrapping (λ _, unusable) (SetDefaultApplicationDeploymentTemplate applicationID templateID) ;;
  match decode_ReleaseSpec zero_ReleaseSpec (tpl_Spec template) with
  | None => throw (DBError "读取上线模板失败")
  | Some spec =>
      wrapping (λ _, DBError "登记模板 ConfigMap 配置失败") (SyncManagedFiles app spec userID) ;;
      mret templateID
  end.
End templates.

(** ** Properties *)

Section template_properties.
Context `{K8sLibrary} {C : Type} `{Surroundings} `{AesGcm} `{ImageReferences} `{Entropy}.
#[local] Abbreviation World := (World C).

Definition templates (w : World) : gmap Z ApplicationDeploymentTemplate := t_rows (tbl (w_db w)).
(** The database numbers rows from 1. *)
Definition templates_keyed (w : World) : Prop :=
  keyed (tbl (A := ApplicationDeploymentTemplate) (w_db w)) ∧ templates w !! 0%Z = None.

Lemma on_cluster_same_db {A} (m : M C A) (w : World) : w_db (on_cluster m w).2 = w_db w.
Proof. unfold on_cluster. by destruct (m _). Qed.
Lemma check_volumes_Ok h app spec (w w' : World) u : check_volumes h app spec w = (Ok u, w') → w_db w' = w_db w.
Proof.
  unfold check_volumes. destruct (empty_list _); [by intros [_ ->]%ret_Ok|]. destruct (available h) as [k|]; [|done].
  intros Hc. pose proof (on_cluster_same_db (adapter_ValidatePersistentVolumeClaims k
    {| ac_ProjectID := 0; ac_EnvironmentID := env_ID (app_Environment app); ac_ProjectName := ""; ac_EnvironmentName := "";
       ac_ApplicationName := ""; ac_Namespace := env_Namespace (app_Environment app); ac_WorkloadKind := ""; ac_ReleaseSequence := 0 |} spec) w) as Hdb.
  by rewrite Hc in Hdb.
Qed.

(** *** The sealed column *)

(** How the column follows the secrets of a request. *)
Inductive column_follows (h : ApplicationHandler (C := C)) (values : gmap string string) (old new : string) : Prop :=
  | column_kept : values = ∅ → new = old → column_follows h values old new
  | column_sealed current nonce n : values ≠ ∅ → decryptTemplateSecretsByValue h old = Ok current →
      merge_secrets values current ≠ ∅ → random_bytes n (Z.of_nat nonce_size) = Some nonce →
      Encrypt (aph_encKey h) nonce (print (encode map_codec (merge_secrets values current))) = Ok new →
      aph_encKey h ≠ "" → column_follows h values old new.

Lemma sealed_secrets_Ok h values old new (w w' : World) :
  sealed_secrets h values old w = (Ok new, w') → w_db w' = w_db w ∧ column_follows h values old new.
Proof.
  unfold sealed_secrets. destruct (empty_map values) eqn:He.
  { intros [-> ->]%ret_Ok. split; [done|]. apply column_kept; [by apply bool_decide_eq_true in He | done]. }
  apply bool_decide_eq_false in He.
  intros (current & w1 & [Hc ->]%wrapping_Ok%lift_Ok & (u1 & w2 & [Hm ->]%guard_not_Ok & (u2 & w3 & [Hk ->]%guard_not_Ok & Hx)%bind_Ok)%bind_Ok)%bind_Ok.
  apply wrapping_Ok in Hx. unfold encrypt_text in Hx.
  apply bind_Ok in Hx as (u3 & w4 & [_ ->]%lift_Ok & (nonce & w5 & Hn & [Hs ->]%lift_Ok)%bind_Ok).
  unfold draw in Hn. destruct (random_bytes (w_tick w) _) as [b|] eqn:Hb; [|done]. injection Hn as -> <-.
  split; [done|]. apply bool_decide_eq_false in Hm, Hk. by eapply column_sealed.
Qed.

Lemma merge_secrets_lookup values current k :
  merge_secrets values current !! k =
    match values !! k with
    | Some v => if decide (trim_space v = "") then current !! k else Some v
    | None => current !! k
    end.
Proof.
  unfold merge_secrets. destruct (values !! k) as [v|] eqn:Hv; [case_decide as Ht|].
  - apply lookup_union_r, map_lookup_filter_None. right. intros x Hx. simplify_eq/=. tauto.
  - apply lookup_union_Some_l, map_lookup_filter_Some. by split.
  - apply lookup_union_r, map_lookup_filter_None. by left.
Qed.

(** Sealing and opening are inverse: a documented property of the cipher and of the source of nonces. *)
Definition cipher_opens : Prop := ∀ k n p, open_sealed k n (seal k n p) = Some p.
Definition nonces_fit : Prop := ∀ n size b, random_bytes n size = Some b → Z.of_nat (String.length b) = size.

Lemma column_follows_opened h values old new current :
  cipher_opens → nonces_fit → nonce_size ≠ 0 → column_follows h values old new →
  decryptTemplateSecretsByValue h old = Ok current → (values = ∅ ∨ textual (encode map_codec (merge_secrets values current)) = true) →
  decryptTemplateSecretsByValue h new = Ok (merge_secrets values current).
Proof.
  intros Hopen Hfit Hsize Hcol Hold Htext. destruct Hcol as [-> ->|cur nonce n Hne Hcur Hm Hn Henc Hkey].
  - rewrite Hold. f_equal. apply map_eq. intros k. by rewrite merge_secrets_lookup, lookup_empty.
  - assert (cur = current) as -> by congruence. destruct Htext as [?|Htext]; [done|].
    unfold Encrypt, new_cipher in Henc. destruct (valid_key (aph_encKey h)) eqn:Hv; [|done]. injection Henc as <-.
    unfold decryptTemplateSecretsByValue. rewrite decide_False; [rewrite decide_False by done|].
    + rewrite (proj2 (Decrypt_Ok _ _ (print (encode map_codec (merge_secrets values current))))).
      * cbn [mbind result_bind]. rewrite parse_print by done. cbn [mbind option_bind].
        change ∅ with (zero map_codec) at 1. by rewrite decode_encode.
      * split; [done|]. exists nonce, (seal (aph_encKey h) nonce (print (encode map_codec (merge_secrets values current)))).
        rewrite base64_round_trip. split_and!; [done| |apply Hopen]. apply Hfit in Hn. lia.
    + rewrite trim_space_visible by apply base64_visible. apply base64_nonempty. intros Hempty.
      apply (f_equal String.length) in Hempty. rewrite length_str_app in Hempty. apply Hfit in Hn. simpl in Hempty. lia.
Qed.

(** *** What is saved *)

(** The row a request is saved as, when the sealed column held [old]. *)
Record saved_template (h : ApplicationHandler (C := C)) (app : Application) (req : deploymentTemplateRequest) (old : string)
    (t : ApplicationDeploymentTemplate) : Prop := {
  sat_owner : tpl_ApplicationID t = app_ID app;
  sat_name : tpl_Name t = trim_space (dtr_Name req) ∧ tpl_Name t ≠ "";
  sat_image : validateImageRepository (rs_Image (dtr_Spec req)) = Ok tt;
  sat_column : column_follows h (rs_Secrets (dtr_Spec req)) old (tpl_EncryptedSecrets t);
  sat_spec : ∃ s, tpl_Spec t = encode_ReleaseSpec s ∧ ValidateReleaseSpec s = [] ∧ SanitizeReleaseSpec s = s ∧
    hasSecretValues (rs_Secrets s) = false ∧ dom (rs_Secrets s) = dom (rs_Secrets (dtr_Spec req)) ∧
    rs_Config s = rs_Config (dtr_Spec req) ∧ rs_Endpoint s = cluster_endpoint ∧ trim_space (rs_Version s) = "" ∧
    ∃ s0, same_workload (NormalizeManagedKeys (dtr_Spec req)) s0 ∧ s = SanitizeReleaseSpec (with_endpoint cluster_endpoint s0)
}.

Lemma sanitized_fields s : SanitizeReleaseSpec (SanitizeReleaseSpec s) = SanitizeReleaseSpec s ∧
  hasSecretValues (rs_Secrets (SanitizeReleaseSpec s)) = false ∧ dom (rs_Secrets (SanitizeReleaseSpec s)) = dom (rs_Secrets s) ∧
  rs_Config (SanitizeReleaseSpec s) = rs_Config s ∧ rs_Endpoint (SanitizeReleaseSpec s) = rs_Endpoint s ∧
  rs_Version (SanitizeReleaseSpec s) = rs_Version s.
Proof.
  destruct s; unfold SanitizeReleaseSpec; cbn. split_and!; try done.
  - f_equal. rewrite <-map_fmap_compose. by apply map_fmap_ext.
  - apply not_true_iff_false. rewrite hasSecretValues_spec. intros (k & v & Hk & Hv).
    rewrite lookup_fmap in Hk. apply fmap_Some in Hk as (? & _ & ->). done.
  - apply dom_fmap_L.
Qed.

Lemma templateFromRequest_Ok h app req id t (w w' : World) :
  templateFromRequest h app req id w = (Ok t, w') →
  w_db w' = w_db w ∧ tpl_ID t = id ∧ tpl_Enabled t = dtr_Enabled req ∧
  ∃ old, saved_template h app req old t ∧
    (id = 0%Z ∧ old = "" ∨ ∃ current, id ≠ 0%Z ∧ old = tpl_EncryptedSecrets current ∧
       first_row (select (template_test id (app_ID app)) (tbl (w_db w))) = Ok current).
Proof.
  unfold templateFromRequest. intros (u1 & w1 & [Hname ->]%guard_not_Ok & Hx)%bind_Ok.
  apply bind_Ok in Hx as (u2 & w2 & [_ ->]%guard_not_Ok & Hx). cbv zeta in Hx.
  apply bind_Ok in Hx as (u3 & w3 & [Hver ->]%guard_not_Ok & Hx).
  apply bind_Ok in Hx as ([] & w4 & [Himg ->]%lift_Ok & Hx).
  apply bind_Ok in Hx as (spec & w5 & (Hdb & Hsame & _)%PrepareRegistrySpec_Ok & Hx).
  apply bind_Ok in Hx as (old & w6 & Hold & Hx).
  assert (w_db w6 = w_db w ∧ (id = 0%Z ∧ old = "" ∨ ∃ current, id ≠ 0%Z ∧ old = tpl_EncryptedSecrets current ∧
       first_row (select (template_test id (app_ID app)) (tbl (w_db w))) = Ok current)) as [Hdb6 Hcur].
  { case_decide as Hid; [apply ret_Ok in Hold as [-> ->]; auto|].
    apply bind_Ok in Hold as (current & w7 & Hc%wrapping_Ok & [-> ->]%ret_Ok).
    apply query_Ok in Hc as (Hc & Hdb7 & _). rewrite Hdb in Hc, Hdb7. split; [done|]. right. by exists current. }
  apply bind_Ok in Hx as (column & w7 & (Hdb7 & Hcol)%sealed_secrets_Ok & Hx).
  pose proof Hsame as (Hv & Hs & Hc & _)%same_workload_fields.
  destruct (NormalizeManagedKeys_fields (dtr_Spec req)) as (Hnc & Hns & _).
  assert (rs_Version (NormalizeManagedKeys (dtr_Spec req)) = rs_Version (dtr_Spec req) ∧
    rs_Image (NormalizeManagedKeys (dtr_Spec req)) = rs_Image (dtr_Spec req)) as [Hnv Hni] by by destruct (dtr_Spec req).
  destruct (ValidateReleaseSpec (with_endpoint cluster_endpoint spec)) eqn:Hvalid; [|done].
  apply bind_Ok in Hx as (u8 & w8 & Hvol%check_volumes_Ok & [-> ->]%ret_Ok).
  split_and!; [congruence|done|done|]. exists old. split; [|done]. constructor; cbn [tpl_ApplicationID tpl_Name tpl_EncryptedSecrets tpl_Spec].
  - done.
  - split; [done|]. by apply bool_decide_eq_false in Hname.
  - by rewrite <-Hni.
  - by rewrite <-Hns, <-Hs.
  - exists (SanitizeReleaseSpec (with_endpoint cluster_endpoint spec)).
    destruct (sanitized_fields (with_endpoint cluster_endpoint spec)) as (Hi & Hh & Hd & Hcf & He & Hvv).
    assert (rs_Secrets (with_endpoint cluster_endpoint spec) = rs_Secrets spec ∧ rs_Config (with_endpoint cluster_endpoint spec) = rs_Config spec
      ∧ rs_Version (with_endpoint cluster_endpoint spec) = rs_Version spec ∧ rs_Endpoint (with_endpoint cluster_endpoint spec) = cluster_endpoint)
      as (Hw1 & Hw2 & Hw3 & Hw4) by by destruct spec.
    split_and!; [done|by rewrite validation_ignores_secret_values|done|done|congruence|congruence|congruence| |by exists spec].
    rewrite Hvv, Hw3, Hv, Hnv. rewrite Hnv in Hver. apply bool_decide_eq_false in Hver. by destruct (decide (trim_space (rs_Version (dtr_Spec req)) = "")).
Qed.

Lemma saved_template_updated h app req old t userID :
  saved_template h app req old t → saved_template h app req old (set_template_updated_by userID t).
Proof. by destruct t; intros [? ? ? ? ?]; constructor. Qed.
Lemma saved_template_revision h app req old t revision :
  saved_template h app req old t → saved_template h app req old (set_template_revision revision t).
Proof. by destruct t; intros [? ? ? ? ?]; constructor. Qed.

(** *** Registering the managed files leaves every other table alone *)

Section only_files.
Variable P : DB → Prop.
Hypothesis P_files : ∀ (t : table ApplicationManagedFile) db, P db → P (put t db).
#[local] Abbreviation keeps_P := (keeps (λ w : World, P (w_db w))).

Lemma keeps_files_execute (f : table ApplicationManagedFile → result (table ApplicationManagedFile)) : keeps_P (execute f).
Proof. apply keeps_statement. intros db a db' Hdb (t & _ & Hx)%result_bind_Ok. injection Hx as _ <-. by apply P_files. Qed.
Lemma keeps_files_create (file : ApplicationManagedFile) : keeps_P (create file).
Proof. apply keeps_statement. intros db a db' Hdb (t & _ & Hx)%result_bind_Ok. injection Hx as _ <-. by apply P_files. Qed.
Lemma keeps_upsert file : keeps_P (UpsertApplicationManagedFile file).
Proof.
  unfold UpsertApplicationManagedFile. apply keeps_bind; [apply keeps_attempt, keeps_query|].
  intros [existing|e]; [apply keeps_bind; [apply keeps_files_execute|auto with cylism]|].
  destruct (err_is _ e); [apply keeps_files_create | auto with cylism].
Qed.
Lemma keeps_sync_keys app spec userID kind name secret keys bindings :
  keeps_P (sync_keys app spec userID kind name secret keys bindings).
Proof.
  revert bindings. induction keys as [|key keys IH]; intros bindings; cbn [sync_keys]; [auto with cylism|].
  apply keeps_bind; [|done]. unfold sync_key. case_decide; [auto with cylism|].
  apply keeps_bind; [apply keeps_upsert|auto with cylism].
Qed.
Lemma keeps_SyncManagedFiles app spec userID : keeps_P (SyncManagedFiles app spec userID).
Proof.
  unfold SyncManagedFiles. apply keeps_bind; [apply keeps_sync_keys|]. intros b.
  apply keeps_bind; [apply keeps_sync_keys|]. intros b'. unfold DisableApplicationManagedFilesNotIn.
  apply keeps_bind; [apply keeps_query|]. intros l. apply keeps_for_each. intros f _.
  case_decide; [auto with cylism | apply keeps_files_execute].
Qed.
Lemma keeps_sync_default app d id spec userID : keeps_P (sync_default app d id spec userID).
Proof. unfold sync_default. case_decide; [apply keeps_wrapping, keeps_SyncManagedFiles | auto with cylism]. Qed.
End only_files.

Lemma sync_default_templates app d id spec userID (w w' : World) r :
  sync_default app d id spec userID w = (r, w') → templates w' = templates w.
Proof.
  intros Hs. pose proof (keeps_sync_default (λ db, t_rows (tbl (A := ApplicationDeploymentTemplate) db) = templates w)) as Hk.
  specialize (Hk (λ t db, ltac:(by destruct db)) app d id spec userID w eq_refl). by rewrite Hs in Hk.
Qed.

Lemma path_id_Ok param message id (w w' : World) : path_id param message w = (Ok id, w') → ParseID param = Some id ∧ w' = w.
Proof. unfold path_id. destruct (ParseID param) as [x|]; [|done]. by intros [-> ->]%ret_Ok. Qed.
Lemma named_application_Ok id app (w w' : World) :
  named_application id w = (Ok app, w') → get_application (w_db w) id = Ok app ∧ w_db w' = w_db w.
Proof. intros (Hg & Hdb & _)%wrapping_Ok%query_Ok. done. Qed.
Lemma bound_Ok {A} (body : option A) message req (w w' : World) : bound body message w = (Ok req, w') → body = Some req ∧ w' = w.
Proof. destruct body; [|done]. by intros [-> ->]%ret_Ok. Qed.
Lemma template_info_Ok t d message info (w w' : World) : template_info t d message w = (Ok info, w') →
  deploymentTemplateFromModel t d = Some info ∧ w' = w.
Proof. unfold template_info. destruct (deploymentTemplateFromModel t d); [|done]. by intros [-> ->]%ret_Ok. Qed.

Lemma get_application_id db id app : get_application db id = Ok app → app_ID app = id.
Proof.
  unfold get_application. intros (a & [Hid%bool_decide_eq_true _]%first_row_select & Hx)%result_bind_Ok. injection Hx as <-.
  destruct a. cbn in *. subst. unfold LoadCapabilities. cbn. repeat case_match; done.
Qed.

(** C26: what the handlers save. A template that is created or updated has a name, an image without a
    tag, no version and no endpoint of its own; its stored specification passes the validation of
    releases, holds no secret value and no credential, and has the configuration of the request. An
    update replaces that one row, of that application, by the next revision, and is refused when the
    request expects another; a creation adds one row. The sealed column only grows: with a request that
    names no secret it stays as it is, otherwise it opens to the old values with those of the request
    that are not blank put over them. So a secret that was stored once is never removed, although the
    specification no longer names it. *)
Theorem template_saved h :
  (∀ param_id param_template body userID (w w' : World) info, templates_keyed w →
    UpdateDeploymentTemplate h param_id param_template body userID w = (Ok info, w') →
    ∃ app req templateID current t, body = Some req ∧ get_application (w_db w) (app_ID app) = Ok app ∧
      ParseID param_template = Some templateID ∧ templates w !! templateID = Some current ∧
      tpl_ApplicationID current = app_ID app ∧ templates w' = <[templateID := t]> (templates w) ∧
      tpl_Revision t = u64 (tpl_Revision current + 1) ∧ (dtr_Revision req ≠ 0%Z → tpl_Revision current = dtr_Revision req) ∧
      saved_template h app req (tpl_EncryptedSecrets current) t) ∧
  (∀ param_id body userID (w w' : World) info, templates_keyed w →
    CreateDeploymentTemplate h param_id body userID w = (Ok info, w') →
    ∃ app req id t, body = Some req ∧ get_application (w_db w) (app_ID app) = Ok app ∧
      templates w !! id = None ∧ templates w' = <[id := t]> (templates w) ∧ tpl_Revision t = 1%Z ∧
      saved_template h app req "" t) ∧
  (∀ values old new current k v, cipher_opens → nonces_fit → nonce_size ≠ 0 →
    column_follows h values old new → decryptTemplateSecretsByValue h old = Ok current →
    (values = ∅ ∨ textual (encode map_codec (merge_secrets values current)) = true) → current !! k = Some v →
    ∃ stored, decryptTemplateSecretsByValue h new = Ok stored ∧ is_Some (stored !! k) ∧
      (values !! k = None → stored !! k = Some v)).
Proof.
  split_and!.
  - intros param_id param_template body userID w w' info [Hk Hzero] Hrun. unfold UpdateDeploymentTemplate in Hrun.
    apply bind_Ok in Hrun as (applicationID & w1 & [_ ->]%path_id_Ok & Hx).
    apply bind_Ok in Hx as (templateID & w2 & [Hpt ->]%path_id_Ok & Hx).
    apply bind_Ok in Hx as (app & w3 & [Happ Hdb3]%named_application_Ok & Hx).
    apply bind_Ok in Hx as (req & w4 & [-> ->]%bound_Ok & Hx).
    apply bind_Ok in Hx as (u5 & w5 & [_ ->]%guard_not_Ok & Hx).
    apply bind_Ok in Hx as (current & w6 & Hc%wrapping_Ok & Hx). apply query_Ok in Hc as (Hc & Hdb6 & _).
    apply bind_Ok in Hx as (u7 & w7 & [Hrev ->]%guard_not_Ok & Hx).
    apply bind_Ok in Hx as (t & w8 & Ht%wrapping_Ok & Hx).
    apply templateFromRequest_Ok in Ht as (Hdb8 & Hid & _ & old & Hsaved & Hold).
    apply bind_Ok in Hx as (stored & w9 & Hup%wrapping_Ok & Hx).
    apply bind_Ok in Hx as (u10 & w10 & Hsync & [_ ->]%template_info_Ok).
    pose proof (get_application_id _ _ _ Happ) as Hai.
    apply sync_default_templates in Hsync.
    assert (∃ expected, (dtr_Revision req ≠ 0%Z → expected = Some (dtr_Revision req)) ∧
      update_template (set_template_updated_by userID t) expected (w_db w8) = Ok (stored, w_db w9)) as (expected & Hexp & Hf).
    { revert Hup. case_decide as Hr; intros (Hf & _)%statement_Ok; eexists; (split; [|exact Hf]); naive_solver. }
    assert (w_db w8 = w_db w) as Hdb by congruence. rewrite Hdb in Hf.
    apply update_template_Ok in Hf as (current' & tt' & Hcur & Hown & Hexpected & Hst & Hdb9 & _ & Hrows); [|done].
    assert (tpl_ID (set_template_updated_by userID t) = templateID ∧ tpl_ApplicationID (set_template_updated_by userID t) = tpl_ApplicationID t)
      as [Hid1 Hown1] by by destruct t.
    rewrite Hid1 in *. rewrite Hown1, (sat_owner _ _ _ _ _ Hsaved) in Hown.
    assert (old = tpl_EncryptedSecrets current') as ->.
    { destruct Hold as [[Hz ->]|(c & _ & -> & Hfirst)]; [unfold templates in *; congruence|].
      rewrite Hdb6, Hdb3 in Hfirst. apply first_template in Hfirst as [Hf1 _]; [|done]. congruence. }
    exists app, req, templateID, current', stored. subst stored. split_and!; try done.
    + congruence.
    + unfold templates in *. by rewrite Hsync, Hdb9, tbl_put, Hrows.
    + apply (proj2 (template_fields _ _)).
    + intros Hr. by apply Hexpected, Hexp.
    + apply saved_template_revision, saved_template_updated, Hsaved.
  - intros param_id body userID w w' info [Hk Hzero] Hrun. unfold CreateDeploymentTemplate in Hrun.
    apply bind_Ok in Hrun as (applicationID & w1 & [_ ->]%path_id_Ok & Hx).
    apply bind_Ok in Hx as (app & w3 & [Happ Hdb3]%named_application_Ok & Hx).
    apply bind_Ok in Hx as (req & w4 & [-> ->]%bound_Ok & Hx).
    apply bind_Ok in Hx as (t & w5 & Ht%wrapping_Ok & Hx).
    apply templateFromRequest_Ok in Ht as (Hdb5 & Hid & _ & old & Hsaved & [[_ ->]|(c & ? & _)]); [|done].
    apply bind_Ok in Hx as (stored & w6 & (Hf & _)%wrapping_Ok%statement_Ok & Hx).
    apply bind_Ok in Hx as (u7 & w7 & Hsync%sync_default_templates & [_ ->]%template_info_Ok).
    pose proof (get_application_id _ _ _ Happ) as Hai.
    apply result_bind_Ok in Hf as ([b tb] & Hc & Hres). cbn [fst snd] in Hres. injection Hres as <- Hdb6.
    apply keyed_create in Hc as (_ & -> & Hfree & Hrows); [|by rewrite Hdb5, Hdb3].
    eexists app, req, _, _. split_and!; [done|congruence| | | |].
    + unfold templates. by rewrite <-Hdb3, <-Hdb5.
    + unfold templates in *. rewrite Hsync, <-Hdb6, Hdb5, Hdb3 in *.
      case_match; [unfold update_default; rewrite tbl_put_applications_templates|]; rewrite tbl_put; exact Hrows.
    + by destruct t.
    + by destruct t, Hsaved; constructor.
  - intros values old new current k v Hopen Hfit Hsize Hcol Hold Htext Hv.
    eexists. split; [by eapply column_follows_opened|]. rewrite merge_secrets_lookup. split.
    + destruct (values !! k); [case_decide|]; naive_solver.
    + by intros ->.
Qed.
End template_properties.

(** ** A concrete run *)

#[local] Existing Instances calm sample_library toy_cipher sample_references.
#[local] Instance template_entropy : Entropy := λ n _, Some "02".

Definition sample_adapter : KubernetesAdapter (list string) := {|
  KubernetesAvailable := true;
  adapter_ValidatePersistentVolumeClaims _ _ c := (Ok tt, c ++ ["volumes"]);
  adapter_SyncApplicationEndpoints _ _ _ c := (Ok tt, c);
  adapter_GetCertificateContext _ _ := throw (EText "no certificates");
  adapter_GetNamespace _ := throw (EText "no namespaces");
  adapter_UpdateNamespace ns c := (Ok ns, c);
  adapter_CreateNamespace _ _ := throw (EText "no namespaces")
|}.
Definition sample_handler : ApplicationHandler (C := list string) :=
  {| aph_delegationSecret := ""; aph_kubernetes := Some sample_adapter; aph_workflow := sample_workflow |}.

(** The request names another secret than the one the column holds. *)
Definition token_spec : ReleaseSpec := with_secrets {["TOKEN" := "t0ken"]} workflow_spec.
Definition token_request : deploymentTemplateRequest :=
  {| dtr_Name := " default "; dtr_Description := ""; dtr_Enabled := true; dtr_Revision := 4; dtr_Spec := token_spec |}.
Definition template_run := UpdateDeploymentTemplate sample_handler "7" "1" (Some token_request) 1 workflow_world.

Lemma template_saved_witness :
  ∃ t, templates template_run.2 = <[1%Z := t]> (templates workflow_world) ∧ tpl_Revision t = 5%Z ∧ tpl_Name t = "default" ∧
    decryptTemplateSecretsByValue sample_handler (tpl_EncryptedSecrets t) = Ok {["PASSWORD" := "s3cret"; "TOKEN" := "t0ken"]}.
Proof.
  assert (∃ info w', template_run = (Ok info, w')) as (info & w' & Hrun) by (vm_compute; by do 2 eexists).
  assert (templates_keyed workflow_world) as Hkeyed by (split; [apply keyed_one_row | reflexivity]).
  destruct (proj1 (template_saved sample_handler) "7" "1" (Some token_request) 1%Z workflow_world w' info Hkeyed Hrun)
    as (app & req & id & current & t & [= <-] & _ & [= <-] & [= <-] & _ & Hrows & Hrev & _ & [_ [Hname _] _ _ _]).
  exists t. assert (t = default t (templates template_run.2 !! 1%Z)) as Ht by (rewrite Hrun; cbn [snd]; by rewrite Hrows, lookup_insert_eq).
  split_and!; [by rewrite Hrun|exact Hrev|exact Hname|]. rewrite Ht. vm_compute. reflexivity.
Defined.
