(* ===== verification/HandlerSteps.v ===== *)
(** * Handlers, step by step

    What the handlers that run as sequences of steps share: the reading of parameters, steps of the
    database and of the cluster, and how a property of the database is carried through a handler that
    runs alone: from the reads that established what a write relies on, to the write. *)
From Stdlib Require Import ZArith Ascii String Lia.
From stdpp Require Import base sorting pretty numbers gmap strings list.
From S2P Require Import Prelude GoStrings Json Interleaving Models Store Api ReleaseExecution Templates.

Create HintDb handlers.

Section steps.
Context {C : Type} `{Surroundings}.
#[local] Abbreviation W := (World C).
#[local] Abbreviation Handler := (handler W).

(** The answer of a handler that returns without writing one: a success without content. *)
Definition no_answer : goerr := ESent "200" "".
Definition parsed (param message : string) : Handler Z :=
  match ParseID param with Some id => mret id | None => refuse (BadRequest message) end.
Definition db_step {A} (m : M W A) : Handler A := step_or m db_error.
Definition cluster_step {A} (m : M C A) : Handler (result A) := tried (on_cluster m).
(** The body, when it can be decoded and passes the check. *)
Definition body_if {A} (body : option A) (valid : A → bool) (message : string) : Handler A :=
  match body with
  | Some req => if valid req then mret req else refuse (BadRequest message)
  | None => refuse (BadRequest message)
  end.
(** The handler without its answer. *)
Definition answered_by {A} (p : Handler A) : Handler unit := _ ← p; mret tt.
End steps.

(** ** Properties *)

Lemma none_counted {A} `{Row A} (test : A → bool) (t : table A) i a :
  length (select test t) = 0 → t_rows t !! i = Some a → test a = false.
Proof.
  intros Hl Hi. destruct (test a) eqn:Ht; [|done]. assert (a ∈ select test t) as Hin.
  { apply elem_of_select. split; [done|]. apply elem_of_t_list. by exists i. }
  destruct (select test t); [by apply not_elem_of_nil in Hin | done].
Qed.

Section alone.
Context {C : Type} `{Surroundings}.
#[local] Abbreviation W := (World C).
#[local] Abbreviation Handler := (handler W).
Variable P : DB → Prop.

(** What a step that only reads learns. *)
Definition reads {A} (m : M W A) (f : DB → result A) : Prop := ∀ w, w_db (m w).2 = w_db w ∧ ∀ a, (m w).1 = Ok a → f (w_db w) = Ok a.
(** What a step that writes leaves behind when it starts from [db]. *)
Definition leaves {A} (m : M W A) (db : DB) : Prop := ∀ w, w_db w = db → P (w_db (m w).2).

Lemma reads_query {A} (f : DB → result A) : reads (query f) f.
Proof. intros w. destruct (query_cases f w) as [(e & ->)|(a & Ha & ->)]; [done|]. split; [done|]. by intros ? [= <-]. Qed.
Lemma reads_wrapping {A} g (m : M W A) f : reads m f → reads (wrapping g m) f.
Proof. intros Hm w. specialize (Hm w). unfold wrapping. destruct (m w) as [[a|e] w']; [done|]. cbn in *. by destruct Hm. Qed.
Lemma reads_then {A B} (m : M W A) f (g : A → B) : reads m f → reads (a ← m; mret (g a)) (λ db, a ← f db; Ok (g a)).
Proof.
  intros Hm w. destruct (Hm w) as [Hdb Hf]. unfold mbind, M_bind. destruct (m w) as [[a|e] w']; [|by split].
  split; [done|]. intros ? [= <-]. by rewrite (Hf a).
Qed.

(** A handler that runs alone from [db] keeps the property. *)
Definition from {A} (db : DB) (p : Handler A) : Prop := ∀ w, w_db w = db → P (w_db (alone p w).2).
(** A handler that runs alone leaves the database as it is. *)
Definition steady {A} (p : Handler A) : Prop := ∀ w, w_db (alone p w).2 = w_db w.

Lemma from_known {A} db (r : result A) : P db → from db (Finished r).
Proof. intros Hdb w Hw. cbn [alone snd]. by rewrite Hw. Qed.
Lemma from_read {A B} db (m : M W A) f g (rest : A → Handler B) :
  reads m f → P db → (∀ a, f db = Ok a → from db (rest a)) → from db (step_or m g ≫= rest).
Proof.
  intros Hm Hdb Hrest w <-. destruct (Hm w) as [Hw Hf]. cbn [step_or mbind handler_mbind handler_bind alone].
  destruct (m w) as [[a|e] w']; cbn in *; [apply Hrest; [by apply Hf | done] | by rewrite Hw].
Qed.
Lemma from_write {A B} db (m : M W A) g (rest : A → B) : leaves m db → from db (step_or m g ≫= λ a, mret (rest a)).
Proof.
  intros Hm w Hw. specialize (Hm w Hw). cbn [step_or mbind handler_mbind handler_bind alone].
  by destruct (m w) as [[a|e] w'].
Qed.
Lemma from_last {A} db (m : M W A) g : leaves m db → from db (step_or m g).
Proof. intros Hm w Hw. specialize (Hm w Hw). cbn [step_or alone]. by destruct (m w) as [[a|e] w']. Qed.
Lemma from_refuse_if {B} db c e (rest : unit → Handler B) :
  P db → (c = false → from db (rest tt)) → from db (refuse_if c e ≫= rest).
Proof. destruct c; intros Hdb Hr; [by apply from_known | by apply Hr]. Qed.
Lemma from_steady {A B} db (p : Handler A) (rest : A → Handler B) :
  steady p → P db → (∀ a, from db (rest a)) → from db (p ≫= rest).
Proof.
  intros Hp Hdb Hr w <-. rewrite alone_bind. specialize (Hp w). unfold mbind, M_bind.
  destruct (alone p w) as [[a|e] w']; cbn in *; [by apply Hr | by rewrite Hp].
Qed.

Lemma steady_ret {A} (r : result A) : steady (Finished r).
Proof. done. Qed.
Lemma steady_mret {A} (a : A) : steady (mret a).
Proof. done. Qed.
Lemma steady_bind {A B} (p : Handler A) (f : A → Handler B) : steady p → (∀ a, steady (f a)) → steady (p ≫= f).
Proof.
  intros Hp Hf w. rewrite alone_bind. specialize (Hp w). unfold mbind, M_bind.
  destruct (alone p w) as [[a|e] w']; cbn in *; [|done]. by rewrite Hf.
Qed.
Lemma steady_step {A B} (m : M W A) (rest : result A → Handler B) :
  (∀ w, w_db (m w).2 = w_db w) → (∀ r, steady (rest r)) → steady (Step m rest).
Proof. intros Hm Hr w. cbn [alone]. specialize (Hm w). destruct (m w) as [r w']. cbn in *. by rewrite Hr. Qed.
Lemma steady_step_or {A} (m : M W A) g f : reads m f → steady (step_or m g).
Proof. intros Hm. apply steady_step; [intros w; by destruct (Hm w) | intros r; apply steady_ret]. Qed.
Lemma steady_reporting {A} f (p : Handler A) : steady p → steady (reporting f p).
Proof. intros Hp w. rewrite alone_reporting. specialize (Hp w). unfold wrapping. by destruct (alone p w). Qed.
Lemma cluster_keeps_db {A} (m : M C A) (w : W) : w_db (on_cluster m w).2 = w_db w.
Proof. unfold on_cluster. by destruct (m _). Qed.
Lemma steady_on_cluster {A} (m : M C A) g : steady (step_or (on_cluster m) g).
Proof. apply steady_step; [apply cluster_keeps_db | intros r; apply steady_ret]. Qed.
Lemma steady_cluster_step {A} (m : M C A) : steady (cluster_step m).
Proof. apply steady_step; [apply cluster_keeps_db | intros r; apply steady_ret]. Qed.
Lemma steady_refuse_if c e : steady (refuse_if c e).
Proof. by destruct c. Qed.

(** What the writes leave. *)
Lemma leaves_statement {A} (f : DB → result (A * DB)) db :
  P db → (∀ a db', f db = Ok (a, db') → P db') → leaves (statement f) db.
Proof.
  intros Hdb Hf w <-. destruct (statement_cases f w) as [(e & ->)|(a & db & Hx & ->)]; [done|]. by eapply Hf.
Qed.
Lemma leaves_then {A B} (m : M W A) (f : A → M W B) db :
  leaves m db → (∀ a, keeps (λ w : W, P (w_db w)) (f a)) → leaves (m ≫= f) db.
Proof.
  intros Hm Hf w Hw. specialize (Hm w Hw). unfold mbind, M_bind. destruct (m w) as [[a|e] w']; [|done].
  apply (Hf a w' Hm).
Qed.
Lemma leaves_lifted {A B} (r : result A) (f : A → M W B) db :
  P db → (∀ a, r = Ok a → leaves (f a) db) → leaves (lift r ≫= f) db.
Proof. intros Hdb Hf w Hw. destruct r as [a|e]; [by apply (Hf a)|]. change (P (w_db w)). by rewrite Hw. Qed.

Lemma leaves_read {A B} (m : M W A) (f : A → M W B) db :
  P db → (∀ w, w_db (m w).2 = w_db w) → (∀ a, leaves (f a) db) → leaves (m ≫= f) db.
Proof.
  intros Hdb Hm Hf w Hw. specialize (Hm w). unfold mbind, M_bind. destruct (m w) as [[a|e] w']; cbn in *.
  - apply Hf. congruence.
  - congruence.
Qed.
Lemma leaves_wrapping {A} g (m : M W A) db : leaves m db → leaves (wrapping g m) db.
Proof. intros Hm w Hw. specialize (Hm w Hw). unfold wrapping. by destruct (m w). Qed.
Lemma leaves_nothing {A} (r : result A) db : P db → leaves (lift r) db.
Proof. intros Hdb w Hw. change (P (w_db w)). by rewrite Hw. Qed.
Lemma attempt_db {A} (m : M W A) f : reads m f → ∀ w, w_db (attempt m w).2 = w_db w.
Proof. intros Hm w. destruct (Hm w) as [Hdb _]. unfold attempt. by destruct (m w) as [[a|e] w']. Qed.

Lemma steady_parsed param message : steady (parsed param message).
Proof. unfold parsed. by destruct (ParseID param). Qed.
Lemma steady_body_if {A} (body : option A) valid message : steady (body_if body valid message).
Proof. unfold body_if. destruct body as [req|]; [|done]. by destruct (valid req). Qed.
(** What a part of a handler that only reads learns about the database it runs in. *)
Definition learns {A} (db : DB) (p : Handler A) (Q : A → Prop) : Prop :=
  ∀ w, w_db w = db → w_db (alone p w).2 = db ∧ ∀ a, (alone p w).1 = Ok a → Q a.
Lemma learns_steady {A} db (p : Handler A) : steady p → learns db p (λ _, True).
Proof. intros Hp w Hw. split; [by rewrite Hp|done]. Qed.
Lemma learns_mret {A} db (a : A) (Q : A → Prop) : Q a → learns db (mret a) Q.
Proof. intros Hq w Hw. split; [done|]. by intros ? [= <-]. Qed.
Lemma learns_refused {A} db e (Q : A → Prop) : learns db (refuse e) Q.
Proof. by intros w Hw. Qed.
Lemma learns_bind {A B} db (p : Handler A) (f : A → Handler B) Q Q' :
  learns db p Q → (∀ a, Q a → learns db (f a) Q') → learns db (p ≫= f) Q'.
Proof.
  intros Hp Hf w Hw. rewrite alone_bind. destruct (Hp w Hw) as [Hdb Hq]. unfold mbind, M_bind.
  destruct (alone p w) as [[a|e] w']; cbn in *; [|by split]. apply Hf; [by apply Hq|done].
Qed.
Lemma learns_weaken {A} db (p : Handler A) (Q Q' : A → Prop) : learns db p Q → (∀ a, Q a → Q' a) → learns db p Q'.
Proof. intros Hp Hq w Hw. destruct (Hp w Hw) as [Hdb Ha]. eauto. Qed.
Lemma learns_read {A} db (m : M W A) f g : reads m f → learns db (step_or m g) (λ a, f db = Ok a).
Proof.
  intros Hm w <-. destruct (Hm w) as [Hdb Hf]. cbn [step_or alone]. destruct (m w) as [[a|e] w']; cbn in *; [|by split].
  split; [done|]. intros ? [= <-]. by apply Hf.
Qed.
Lemma learns_refuse_if db c e : learns db (refuse_if c e) (λ _, c = false).
Proof. by destruct c; intros w Hw. Qed.
Lemma learns_known {A} db (r : result A) : learns db (Finished r) (λ a, r = Ok a).
Proof. by intros w Hw. Qed.
Lemma learns_reporting {A} db f (p : Handler A) Q : learns db p Q → learns db (reporting f p) Q.
Proof.
  intros Hp w Hw. rewrite alone_reporting. destruct (Hp w Hw) as [Hdb Hq]. unfold wrapping.
  destruct (alone p w) as [[a|e] w']; [done|by split].
Qed.
Lemma from_learned {A B} db (p : Handler A) (rest : A → Handler B) Q :
  learns db p Q → P db → (∀ a, Q a → from db (rest a)) → from db (p ≫= rest).
Proof.
  intros Hp Hdb Hr w Hw. rewrite alone_bind. destruct (Hp w Hw) as [Hdb' Hq]. unfold mbind, M_bind.
  destruct (alone p w) as [[a|e] w']; cbn in *; [apply (Hr a); [by apply Hq|done]|by rewrite Hdb'].
Qed.
Lemma from_answered {A} db (p : Handler A) : from db p → from db (answered_by p).
Proof.
  intros Hp w Hw. specialize (Hp w Hw). unfold answered_by. rewrite alone_bind. unfold mbind, M_bind.
  by destruct (alone p w) as [[a|e] w'].
Qed.
Lemma from_fixed {A} db (p : Handler A) : steady p → P db → from db p.
Proof. intros Hp Hdb w Hw. by rewrite Hp, Hw. Qed.
(** The part of a run that succeeded. *)
Lemma alone_part_Ok {A B} (p : Handler A) (f : A → Handler B) w b w' :
  alone (p ≫= f) w = (Ok b, w') → ∃ a w1, alone p w = (Ok a, w1) ∧ alone (f a) w1 = (Ok b, w').
Proof. rewrite alone_bind. apply bind_Ok. Qed.
End alone.

#[export] Hint Resolve reads_query reads_wrapping reads_then steady_ret steady_mret steady_bind steady_step_or steady_reporting
  steady_on_cluster steady_cluster_step steady_refuse_if steady_parsed steady_body_if : handlers.

Ltac reading := first [apply reads_query | apply reads_wrapping, reads_query | apply reads_then, reads_query].
(** A count that was read. *)
Ltac counted_in Hread := try lazymatch type of Hread with (_ ≫= _) = Ok _ => injection Hread as Hread end.
(** Passes what a handler only reads. *)
Ltac pass :=
  cbv beta zeta; first
  [ apply from_refuse_if; [done|intros ?]
  | eapply from_read; [reading|done|let Hread := fresh "Hread" in intros ? Hread; cbv beta in Hread; counted_in Hread]
  | apply from_steady; [solve [auto with handlers]|done|intros ?] ].
