(* ===== verification/IntegrationApplications.v ===== *)
(** * Applications seen from other control planes

    [internal/api/application/integration_application_handler.go] and the lookup of a capability in
    [runtime_view.go]: the delegations of an application, and the handlers behind a delegation: the
    managed ConfigMap keys of the default template, restarts and releases. A delegation names a project,
    and limits the environments, the applications, the capability and the actions; every handler checks
    all of them before it looks at anything else. The replacement of a key runs under a lock of the
    process, so that the handlers here are one statement after the other; the template itself is
    protected by its revision. *)
From Stdlib Require Import ZArith Ascii String Lia.
From stdpp Require Import base sorting pretty numbers gmap strings list.
From S2P Require Import Prelude GoStrings Json JsonText ReleaseSpec ReleaseSnapshot Models PlatformModels Security ReleaseValidation ReleaseRendering Cluster Store PlatformStore Api Tokens IntegrationSessions RegistryStore ReleaseExecution ReleaseWorkflow Templates.

Record delegationRequest := { drq_EnvironmentIDs : list Z; drq_Capability : string; drq_Actions : list string }.
Record configMapReplaceRequest := { crq_Content : string; crq_ExpectedRevision : Z; crq_Restart : bool }.
Record configMapInfo := {
  cmi_ID : Z; cmi_ResourceKind : string; cmi_ResourceName : string; cmi_Key : string; cmi_MountPath : string;
  cmi_Format : string; cmi_Version : Z; cmi_TemplateID : Z; cmi_TemplateRevision : Z
}.
(** The answer of a replacement: the revision, and what became of the restart. *)
Record replaced_answer := { ra_TemplateID : Z; ra_Revision : Z; ra_Restart : option (result Z) }.

Definition integration_forbidden : goerr := Forbidden "委托范围不允许该操作".
Definition applicationHasCapability (app : Application) (capability : string) : bool :=
  existsb (λ item, bool_decide (item = capability)) (app_Capabilities app).
(** The scope of a delegation: [!claims.Allows(action)] is checked before the application is read. *)
Definition in_scope (claims : DelegationClaims) (app : Application) : bool :=
  bool_decide (app_ProjectID app = dc_ProjectID claims) && AllowsEnvironment claims (app_EnvironmentID app)
  && AllowsApplication claims (app_ID app) && applicationHasCapability app (dc_Capability claims).

Definition configMapKeyEnabled (spec : ReleaseSpec) (key : string) : bool :=
  match rs_Config spec !! key with
  | Some _ => negb (existsb (λ disabled, bool_decide (disabled = key)) (rs_ConfigDisabled spec))
  | None => false
  end.
(** [file.ResourceKind != ... || file.ResourceName != app.Name+"-config" || !file.Enabled] *)
Definition own_config (app : Application) (file : ApplicationManagedFile) : bool :=
  bool_decide (mf_ResourceKind file = FileMountSourceConfigMap) && bool_decide (mf_ResourceName file = app_Name app +:+ "-config")
  && mf_Enabled file.
Definition config_info (file : ApplicationManagedFile) (template : ApplicationDeploymentTemplate) : configMapInfo :=
  {| cmi_ID := mf_ID file; cmi_ResourceKind := mf_ResourceKind file; cmi_ResourceName := mf_ResourceName file;
     cmi_Key := mf_Key file; cmi_MountPath := mf_MountPath file; cmi_Format := mf_Format file;
     cmi_Version := tpl_Revision template; cmi_TemplateID := tpl_ID template; cmi_TemplateRevision := tpl_Revision template |}.
(** [spec.Config[key] = content] *)
Definition with_config_key (key content : string) (s : ReleaseSpec) : ReleaseSpec :=
  let '(Build_ReleaseSpec i v c a r e1 e2 e3 e4 v1 v2 v3 v4 p n rs h g gd gm x xd xm nn hn vs fs sv ep) := s in
  Build_ReleaseSpec i v c a r e1 e2 e3 e4 v1 v2 v3 v4 p n rs h (<[key := content]> g) gd gm x xd xm nn hn vs fs sv ep.
Definition template_request (template : ApplicationDeploymentTemplate) (spec : ReleaseSpec) : deploymentTemplateRequest :=
  {| dtr_Name := tpl_Name template; dtr_Description := tpl_Description template; dtr_Enabled := tpl_Enabled template;
     dtr_Revision := 0; dtr_Spec := spec |}.
(** 4 MiB *)
Definition max_content : Z := Z.shiftl 4 20.

Section integration.
Context `{K8sLibrary} {C : Type} `{Surroundings} `{AesGcm} `{ImageReferences} `{Entropy} `{Digests}.
#[local] Abbreviation M := (M (World C)).
Variable h : ApplicationHandler (C := C).

Definition applicationForParam (param_id : string) : M Application :=
  id ← path_id param_id "应用 ID 无效"; named_application id.

(** ** Delegations *)

Definition CreateDelegation (param_id : string) (body : option delegationRequest) (userID : Z) (username : string) :
    M delegation_answer :=
  app ← applicationForParam param_id;
  req ← bound body "委托参数无效";
  guard_not (bool_decide (trim_space (drq_Capability req) = "")) (ValidationError "委托 capability 必填") ;;
  let foreign := ValidationError "委托 capability 必须属于目标应用" in
  normalized ← lift (map_err (λ _, foreign) (NormalizeApplicationCapabilities [drq_Capability req]));
  let capability := nth 0 normalized "" in
  guard_not (negb (applicationHasCapability app capability)) foreign ;;
  let environmentIDs := if empty_list (drq_EnvironmentIDs req) then [app_EnvironmentID app] else drq_EnvironmentIDs req in
  let elsewhere := ValidationError "委托环境不属于应用项目" in
  for_each (λ environmentID,
    environment ← wrapping (λ _, elsewhere) (GetEnvironment (app_ProjectID app) environmentID);
    guard_not (bool_decide (env_ProjectID environment ≠ app_ProjectID app)) elsewhere) environmentIDs ;;
  let actions := if empty_list (drq_Actions req) then integration_actions else drq_Actions req in
  guard_not (bool_decide (aph_delegationSecret h = "")) (DBError "委托签名未配置") ;;
  drawn ← attempt newDelegationID;
  issued ← now;
  token ← lift (map_err (λ _, DBError "签发委托失败") (GenerateDelegationToken (aph_delegationSecret h)
    {| dc_Type := ""; dc_Audience := ""; dc_UserID := userID; dc_Username := username; dc_ProjectID := app_ProjectID app;
       dc_EnvironmentIDs := environmentIDs; dc_ApplicationIDs := [app_ID app]; dc_Capability := capability;
       dc_Actions := actions; dc_JTI := ""; dc_Exp := 0; dc_Iat := 0 |} MaxDelegationTTL issued drawn));
  mret {| da_Token := token; da_ExpiresIn := MaxDelegationTTL / second |}.

(** ** Behind a delegation *)

Section scoped.
Variable claims : DelegationClaims.

Definition integrationApplication (param_id action : string) : M Application :=
  guard_not (negb (Allows claims action)) integration_forbidden ;;
  app ← applicationForParam param_id;
  guard_not (negb (in_scope claims app)) integration_forbidden ;;
  mret app.

Definition no_template : goerr := EText "应用没有可用的默认上线模板".
Definition templateConfigMap (app : Application) (file : ApplicationManagedFile) :
    M (ApplicationDeploymentTemplate * ReleaseSpec) :=
  guard_not (negb (own_config app file)) (EText "受管配置不是当前应用的 ConfigMap") ;;
  template ← wrapping (λ e, if err_is "gorm.ErrRecordNotFound" e then no_template else EWrap "读取默认上线模板: " e "")
    (GetDefaultApplicationDeploymentTemplate (app_ID app));
  guard_not (negb (tpl_Enabled template)) no_template ;;
  match decode_ReleaseSpec zero_ReleaseSpec (tpl_Spec template) with
  | None => throw (EText "读取上线模板配置: json: cannot unmarshal")
  | Some spec =>
      guard_not (empty_map (rs_Config spec)) (EText "模板没有 ConfigMap 配置") ;;
      guard_not (negb (configMapKeyEnabled spec (mf_Key file))) (EText ("模板 ConfigMap 不包含已启用的键 " +:+ quote (mf_Key file))) ;;
      guard_not (negb (IsConfigKeyManaged spec (mf_Key file))) (EText ("ConfigMap 键 " +:+ (quote (mf_Key file) +:+ " 未开放外部应用修改"))) ;;
      mret (template, spec)
  end.

Definition default_template (app : Application) : M ApplicationDeploymentTemplate :=
  template ← wrapping (λ e, if err_is "gorm.ErrRecordNotFound" e then NotFound "应用没有可用的默认上线模板" else db_error e)
    (GetDefaultApplicationDeploymentTemplate (app_ID app));
  guard_not (negb (tpl_Enabled template)) (NotFound "应用没有可用的默认上线模板") ;;
  mret template.

Definition IntegrationListManagedConfigMaps (param_id : string) : M (list configMapInfo) :=
  app ← integrationApplication param_id "configmap:read";
  template ← default_template app;
  files ← wrapping db_error (ListApplicationManagedFiles (app_ID app));
  match decode_ReleaseSpec zero_ReleaseSpec (tpl_Spec template) with
  | None => throw (DBError "读取默认模板 ConfigMap 配置失败")
  | Some spec =>
      mret ((λ file, config_info file template) <$>
        List.filter (λ file, own_config app file && configMapKeyEnabled spec (mf_Key file)
                             && IsConfigKeyManaged spec (mf_Key file)) files)
  end.

Definition managed_file_of (app : Application) (param_file : string) : M ApplicationManagedFile :=
  configMapID ← path_id param_file "ConfigMap 配置 ID 无效";
  wrapping (λ e, if err_is "gorm.ErrRecordNotFound" e then NotFound "受管 ConfigMap 配置不存在" else db_error e)
    (GetApplicationManagedFile (app_ID app) configMapID).

Definition IntegrationGetManagedConfigMap (param_id param_file : string) : M (configMapInfo * string) :=
  app ← integrationApplication param_id "configmap:read";
  file ← managed_file_of app param_file;
  found ← wrapping (λ e, ValidationError (err_text e)) (templateConfigMap app file);
  let '(template, spec) := found in
  mret (config_info file template, default "" (rs_Config spec !! mf_Key file)).

(** The replacement, up to the restart. *)
Definition replace_config (param_id param_file : string) (body : option configMapReplaceRequest) (userID : Z) :
    M (Application * configMapReplaceRequest * ApplicationDeploymentTemplate) :=
  app ← integrationApplication param_id "configmap:write";
  path_id param_file "ConfigMap 配置 ID 无效" ;;
  req ← bound body "ConfigMap 配置参数无效";
  guard_not (bool_decide (crq_ExpectedRevision req = 0%Z)) (BadRequest "ConfigMap 配置参数无效") ;;
  guard_not (bool_decide (max_content < Z.of_nat (String.length (crq_Content req)))%Z) (TooLarge "ConfigMap 内容不能超过 4 MiB") ;;
  guard_not (crq_Restart req && negb (Allows claims "application:restart")) integration_forbidden ;;
  file ← managed_file_of app param_file;
  found ← wrapping (λ e, ValidationError (err_text e)) (templateConfigMap app file);
  let '(template, spec) := found in
  guard_not (bool_decide (tpl_Revision template ≠ crq_ExpectedRevision req))
    (Conflict ("模板版本冲突，当前版本为 " +:+ dec (tpl_Revision template))) ;;
  updated ← wrapping (λ e, ValidationError (err_text e))
    (templateFromRequest h app (template_request template (with_config_key (mf_Key file) (crq_Content req) spec)) (tpl_ID template));
  updated ← wrapping (λ e, if err_is "TemplateRevisionConflictError" e then Conflict (err_text e) else db_error e)
    (UpdateApplicationDeploymentTemplateIfRevision (set_template_updated_by userID updated) (crq_ExpectedRevision req));
  mret (app, req, updated).

Definition createRestartRelease (app : Application) (userID : Z) : M Release :=
  prepared ← Restart (aph_workflow h) app userID;
  ExecuteAsync (aph_workflow h) app prepared ;;
  mret (prep_Release prepared).

Definition IntegrationReplaceManagedConfigMap (param_id param_file : string) (body : option configMapReplaceRequest) (userID : Z) :
    M replaced_answer :=
  replaced ← replace_config param_id param_file body userID;
  let '(app, req, updated) := replaced in
  restart ← (if crq_Restart req then
               release ← attempt (createRestartRelease app userID);
               mret (Some (r ← release; Ok (rel_ID r)))
             else mret None);
  mret {| ra_TemplateID := tpl_ID updated; ra_Revision := tpl_Revision updated; ra_Restart := restart |}.

Definition IntegrationRestartApplication (param_id : string) (userID : Z) : M Release :=
  app ← integrationApplication param_id "application:restart";
  wrapping (λ e, ValidationError (err_text e)) (createRestartRelease app userID).

(** A release that was not read is a zero release, of no application. *)
Definition IntegrationGetRelease (param_id param_release : string) : M Release :=
  app ← integrationApplication param_id "application:read";
  releaseID ← path_id param_release "发布 ID 无效";
  release ← wrapping (λ e, NotFound "发布不存在") (GetRelease releaseID);
  guard_not (bool_decide (rel_ApplicationID release ≠ app_ID app)) (NotFound "发布不存在") ;;
  mret release.
End scoped.
End integration.

(** ** Properties *)

Section integration_properties.
Context `{K8sLibrary} {C : Type} `{Surroundings} `{AesGcm} `{ImageReferences} `{Entropy} `{Digests}.
#[local] Abbreviation W := (World C).

(** *** The scope *)

Definition same_state (w w' : W) : Prop := w_db w' = w_db w ∧ w_cluster w' = w_cluster w.

(** The application a request may act on: the delegation allows the action and covers the application. *)
Definition covered (claims : DelegationClaims) (param_id action : string) (w : W) (app : Application) : Prop :=
  Allows claims action = true ∧ in_scope claims app = true ∧
  ∃ id, ParseID param_id = Some id ∧ get_application (w_db w) id = Ok app.

Lemma integrationApplication_cases claims param_id action (w : W) :
  same_state w (integrationApplication claims param_id action w).2 ∧
  ∀ app, (integrationApplication claims param_id action w).1 = Ok app → covered claims param_id action w app.
Proof.
  unfold integrationApplication, covered, same_state, guard_not. destruct (Allows claims action) eqn:Ha; cbn [negb]; [|done].
  unfold applicationForParam, path_id, named_application, GetApplication, wrapping. unfold mbind, M_bind.
  cbn [mret M_ret]. destruct (ParseID param_id) as [id|]; cbn; [|done].
  destruct (query_cases (λ db, get_application db id) w) as [(e & ->)|(app & Hg & ->)]; cbn; [done|].
  destruct (in_scope claims app) eqn:Hs; cbn; [|done]. split; [done|]. intros ? [= <-]. eauto 10.
Qed.

Inductive integration_call :=
  | CallListConfigMaps (application : string)
  | CallGetConfigMap (application file : string)
  | CallReplaceConfigMap (application file : string) (body : option configMapReplaceRequest) (userID : Z)
  | CallRestart (application : string) (userID : Z)
  | CallGetRelease (application release : string).
Definition call_action (call : integration_call) : string :=
  match call with
  | CallListConfigMaps _ | CallGetConfigMap _ _ => "configmap:read"
  | CallReplaceConfigMap _ _ _ _ => "configmap:write"
  | CallRestart _ _ => "application:restart"
  | CallGetRelease _ _ => "application:read"
  end.
Definition call_application (call : integration_call) : string :=
  match call with
  | CallListConfigMaps a | CallGetConfigMap a _ | CallReplaceConfigMap a _ _ _ | CallRestart a _ | CallGetRelease a _ => a
  end.
Definition serve_integration (h : ApplicationHandler (C := C)) (claims : DelegationClaims) (call : integration_call) : M W unit :=
  match call with
  | CallListConfigMaps a => IntegrationListManagedConfigMaps claims a ;; mret tt
  | CallGetConfigMap a f => IntegrationGetManagedConfigMap claims a f ;; mret tt
  | CallReplaceConfigMap a f body userID => IntegrationReplaceManagedConfigMap h claims a f body userID ;; mret tt
  | CallRestart a userID => IntegrationRestartApplication h claims a userID ;; mret tt
  | CallGetRelease a r => IntegrationGetRelease claims a r ;; mret tt
  end.

(** What starts with the scope check changes nothing unless the check passes. *)
Definition guarded (claims : DelegationClaims) (param_id action : string) {A} (m : M W A) : Prop := ∀ w,
  (∃ app, covered claims param_id action w app) ∨ same_state w (m w).2 ∧ is_ok (m w).1 = false.
Lemma guarded_application claims param_id action {A} (f : Application → M W A) :
  guarded claims param_id action (integrationApplication claims param_id action ≫= f).
Proof.
  intros w. destruct (integrationApplication_cases claims param_id action w) as [Hs Hc]. unfold mbind, M_bind.
  destruct (integrationApplication claims param_id action w) as [[app|e] w']; [left; exists app; by apply Hc|by right].
Qed.
Lemma guarded_bind claims param_id action {A B} (m : M W A) (f : A → M W B) :
  guarded claims param_id action m → guarded claims param_id action (m ≫= f).
Proof.
  intros Hm w. destruct (Hm w) as [?|[Hs He]]; [by left|]. right. unfold mbind, M_bind. by destruct (m w) as [[a|e] w'].
Qed.

(** C18: nothing is done for another control plane outside its delegation. Whatever the request says and
    whatever fails: either the delegation allows the action and its project, environments, applications
    and capability cover the application that the path names, or the request is refused and neither the
    database nor the cluster has changed. *)
Theorem integration_scoped h claims call (w w' : W) r
    (Hrun : serve_integration h claims call w = (r, w')) :
  (∃ app, covered claims (call_application call) (call_action call) w app) ∨
  is_ok r = false ∧ w_db w' = w_db w ∧ w_cluster w' = w_cluster w.
Proof.
  assert (guarded claims (call_application call) (call_action call) (serve_integration h claims call)) as Hg.
  { destruct call; cbn [serve_integration call_application call_action]; apply guarded_bind;
      try apply guarded_application.
    unfold IntegrationReplaceManagedConfigMap, replace_config. apply guarded_bind, guarded_application. }
  destruct (Hg w) as [?|[[Hd Hc] He]]; [by left|]. right. by rewrite Hrun in Hd, Hc, He.
Qed.

(** *** The replacement of a key *)

Lemma GetDefault_Ok id t (w w' : W) : templates_keyed w →
  GetDefaultApplicationDeploymentTemplate id w = (Ok t, w') →
  w_db w' = w_db w ∧ templates w !! tpl_ID t = Some t ∧ tpl_ApplicationID t = id ∧
  ∃ a, a ∈ t_list (tbl (w_db w)) ∧ app_ID a = id ∧ app_DefaultDeploymentTemplateID a = Some (tpl_ID t).
Proof.
  intros [Hk _]. unfold GetDefaultApplicationDeploymentTemplate. intros (a & w1 & Ha & Hx)%bind_Ok.
  apply query_Ok in Ha as (Ha & Hdb1 & _). destruct (app_DefaultDeploymentTemplateID a) as [d|] eqn:Hd; [|done].
  apply query_Ok in Hx as (Ht & Hdb & _). rewrite Hdb1 in Ht, Hdb.
  apply first_template in Ht as [Ht Ho]; [|done]. pose proof (keyed_id _ Hk _ _ Ht) as Hi. cbn in Hi. subst d.
  apply first_row_select in Ha as [?%bool_decide_eq_true ?]. eauto 10.
Qed.

Lemma templateConfigMap_Ok app file t spec (w w' : W) : templates_keyed w →
  templateConfigMap app file w = (Ok (t, spec), w') →
  w_db w' = w_db w ∧ own_config app file = true ∧ tpl_Enabled t = true ∧
  decode_ReleaseSpec zero_ReleaseSpec (tpl_Spec t) = Some spec ∧
  configMapKeyEnabled spec (mf_Key file) = true ∧ IsConfigKeyManaged spec (mf_Key file) = true ∧
  templates w !! tpl_ID t = Some t ∧ tpl_ApplicationID t = app_ID app ∧
  ∃ a, a ∈ t_list (tbl (w_db w)) ∧ app_ID a = app_ID app ∧ app_DefaultDeploymentTemplateID a = Some (tpl_ID t).
Proof.
  intros Hk. unfold templateConfigMap. intros (u1 & w1 & [Ho ->]%guard_not_Ok & Hx)%bind_Ok.
  apply bind_Ok in Hx as (t0 & w2 & Ht%wrapping_Ok & Hx). apply GetDefault_Ok in Ht as (Hdb & Ht & Hown & Hdef); [|done].
  apply bind_Ok in Hx as (u2 & w3 & [He ->]%guard_not_Ok & Hx).
  destruct (decode_ReleaseSpec _ _) as [s|] eqn:Hd; [|done].
  apply bind_Ok in Hx as (u3 & w3 & [_ ->]%guard_not_Ok & Hx). apply bind_Ok in Hx as (u4 & w4 & [Hen ->]%guard_not_Ok & Hx).
  apply bind_Ok in Hx as (u5 & w5 & [Hm ->]%guard_not_Ok & [Hts ->]%ret_Ok). injection Hts as -> ->.
  apply negb_false_iff in Ho, He, Hen, Hm. eauto 12.
Qed.

(** The specification after the change of one key: it differs from the one before in that key, in what
    the registry lookup fills in, in the list of managed keys that old templates left implicit, and it
    stays without secret values. *)
Definition edited (key content : string) (spec stored : ReleaseSpec) : Prop :=
  rs_Config stored = <[key := content]> (rs_Config spec) ∧
  ∃ s0, same_workload (NormalizeManagedKeys (with_config_key key content spec)) s0 ∧
    stored = SanitizeReleaseSpec (with_endpoint cluster_endpoint s0).


(** *** The delegations of an application *)

(** The database numbers rows from 1. *)
Record numbered (db : DB) : Prop := {
  num_environments : keyed (tbl (A := Environment) db);
  num_environment : t_rows (tbl (A := Environment) db) !! 0%Z = None;
  num_applications : keyed (tbl (A := Application) db);
  num_application : t_rows (tbl (A := Application) db) !! 0%Z = None
}.

Lemma environments_checked projectID e1 (ids : list Z) (w w' : W) u :
  for_each (λ environmentID, environment ← wrapping (λ _, e1) (GetEnvironment projectID environmentID);
    guard_not (bool_decide (env_ProjectID environment ≠ projectID)) e1) ids w = (Ok u, w') →
  w_db w' = w_db w ∧ ∀ id, id ∈ ids → ∃ e, e ∈ t_list (tbl (w_db w)) ∧ env_ID e = id ∧ env_ProjectID e = projectID.
Proof.
  revert w. induction ids as [|id ids IH]; intros w; cbn [for_each].
  - intros [_ ->]%ret_Ok. split; [done|]. by intros ? ?%not_elem_of_nil.
  - intros (u1 & w1 & (e & w2 & Hg%wrapping_Ok & [_ ->]%guard_not_Ok)%bind_Ok & Hx)%bind_Ok.
    apply query_Ok in Hg as ([Ht He]%first_row_select & Hdb & _). rewrite andb_true_iff, !bool_decide_eq_true in Ht.
    apply IH in Hx as [Hdb' Hall]. rewrite Hdb in *. split; [done|]. intros i [->|Hi]%elem_of_cons; [|by apply Hall].
    exists e. tauto.
Qed.

(** What a delegation of an application allows. When a person gets one, the application exists, has
    the capability and every environment of the delegation is one of its project; the token is signed for
    that person, project and capability, lives at most ten minutes, and admits that application and no
    other and exactly the environments that were asked for, or the one of the application. *)
Theorem application_delegation_scope h param_id body userID username (w w' : W) a
    (Hnumbered : numbered (w_db w))
    (Hrun : CreateDelegation h param_id body userID username w = (Ok a, w')) :
  w_db w' = w_db w ∧
  ∃ app req c, body = Some req ∧ get_application (w_db w) (app_ID app) = Ok app ∧
    da_Token a = signPayload (aph_delegationSecret h) (encode_DelegationClaims c) ∧
    dc_UserID c = userID ∧ dc_ProjectID c = app_ProjectID app ∧ dc_Capability c ∈ app_Capabilities app ∧
    (dc_Exp c - dc_Iat c ≤ 600)%Z ∧
    (∀ id, AllowsApplication c id = true ↔ id = app_ID app) ∧
    (∀ id, AllowsEnvironment c id = true ↔
       id ∈ (if decide (drq_EnvironmentIDs req = []) then [app_EnvironmentID app] else drq_EnvironmentIDs req)) ∧
    (∀ id, AllowsEnvironment c id = true →
       ∃ e, e ∈ t_list (tbl (w_db w)) ∧ env_ID e = id ∧ env_ProjectID e = app_ProjectID app).
Proof.
  unfold CreateDelegation in Hrun. apply bind_Ok in Hrun as (app & w1 & Happ & Hx).
  unfold applicationForParam in Happ. apply bind_Ok in Happ as (id & w2 & [_ ->]%path_id_Ok & [Hg Hdb1]%named_application_Ok).
  pose proof (get_application_id _ _ _ Hg) as <-.
  apply bind_Ok in Hx as (req & w3 & [-> ->]%bound_Ok & Hx). apply bind_Ok in Hx as (u4 & w4 & [_ ->]%guard_not_Ok & Hx).
  cbv zeta in Hx. apply bind_Ok in Hx as (normalized & w5 & [Hn ->]%lift_Ok & Hx).
  destruct (NormalizeApplicationCapabilities _) as [l|] eqn:Hnorm; [|done]. injection Hn as ->.
  apply normalize_one in Hnorm as [-> Hpat]. cbn [nth] in Hx.
  apply bind_Ok in Hx as (u6 & w6 & [Hcap ->]%guard_not_Ok & Hx). apply negb_false_iff in Hcap.
  apply bind_Ok in Hx as (u7 & w7 & [Hdb7 Hall]%environments_checked & Hx).
  apply bind_Ok in Hx as (u8 & w8 & [_ ->]%guard_not_Ok & Hx).
  apply bind_Ok in Hx as (drawn & w9 & Hdraw & Hx). apply bind_Ok in Hx as (issued & w10 & Hnow & Hx).
  apply bind_Ok in Hx as (token & w11 & [Htok ->]%lift_Ok & [-> ->]%ret_Ok).
  assert (w_db w9 = w_db w7) as Hdb9.
  { unfold attempt, newDelegationID, draw in Hdraw. by injection Hdraw as _ <-. }
  assert (w_db w10 = w_db w9) as Hdb10 by by injection Hnow as _ <-.
  split; [congruence|].
  set (ids := if empty_list (drq_EnvironmentIDs req) then _ else _) in *.
  assert (ids = if decide (drq_EnvironmentIDs req = []) then [app_EnvironmentID app] else drq_EnvironmentIDs req) as Hids
    by (unfold ids; by destruct (drq_EnvironmentIDs req)).
  assert (ids ≠ []) as Hne by (rewrite Hids; by case_decide).
  assert (∀ i, i ∈ ids → i ≠ 0%Z) as Hnz.
  { intros i Hi ->. destruct (Hall _ Hi) as (e & He & Hid & _). rewrite Hdb1 in He.
    apply (keyed_elem _ _ (num_environments _ Hnumbered)) in He. cbn in He. rewrite Hid, (num_environment _ Hnumbered) in He. done. }
  assert (app_ID app ≠ 0%Z) as Happ.
  { intros Hz. revert Hg. unfold get_application. rewrite Hz, (first_by_key _ _ 0%Z (num_applications _ Hnumbered))
      by by intros x ?%bool_decide_eq_true. by rewrite (num_application _ Hnumbered). }
  destruct (GenerateDelegationToken _ _ _ _ _) as [t|] eqn:Hgen; [|done]. injection Htok as ->.
  apply GenerateDelegationToken_Ok in Hgen as (jti & _ & Hvalid & ->).
  change (bounded_ttl MaxDelegationTTL) with MaxDelegationTTL in *.
  set (claims := Build_DelegationClaims _ _ _ _ _ _ _ _ _ _ _ _) in *.
  assert (∀ id, AllowsEnvironment (issued_claims claims jti MaxDelegationTTL issued) id = true ↔ id ∈ ids) as Henv.
  { intros i. etransitivity; [apply normalized_admits|]. unfold admits. change (dc_EnvironmentIDs claims) with ids. split.
    - intros [Hz|[_ ?]]; [|done]. destruct ids as [|x l] eqn:Hl; [done|]. destruct (Hnz x); [left | apply Hz; left].
    - intros Hi. right. by split; [apply Hnz|]. }
  eexists app, req, _. split; [done|]. split; [done|]. split; [reflexivity|]. split_and!.
  - done.
  - done.
  - cbn [issued_claims dc_Capability claims]. rewrite pattern_tag by done. apply existsb_exists in Hcap as (x & Hx%list_elem_of_In & <-%bool_decide_eq_true). done.
  - unfold delegation_valid in Hvalid. rewrite !andb_true_iff, !bool_decide_eq_true in Hvalid.
    change (600)%Z with (MaxDelegationTTL / second)%Z. tauto.
  - intros i. etransitivity; [apply normalized_admits|]. unfold admits. change (dc_ApplicationIDs claims) with [app_ID app]. split.
    + intros [Hz|[_ Hx%list_elem_of_singleton]]; [|done]. destruct Happ. apply Hz. left.
    + intros ->. right. split; [done|left].
  - intros i. rewrite <-Hids. apply Henv.
  - intros i Hi%Henv. rewrite <-Hdb1. by apply Hall.
Qed.
End integration_properties.

(** ** Concrete runs *)

#[local] Existing Instances calm sample_library toy_cipher sample_references template_entropy sample_digests.

Definition tagged_application : Application :=
  set_capabilities_column (Some (encode (list_codec string_codec) ["mysql"])) (set_default_template (Some 1%Z) sample_application).
Definition integration_world : World (list string) :=
  {| w_db := put (one_row tagged_application) (w_db workflow_world); w_tick := 0; w_cluster := []; w_trace := [] |}.
Definition integration_claims (application : Z) : DelegationClaims :=
  {| dc_Type := DelegationTokenType; dc_Audience := DelegationTokenAudience; dc_UserID := 3; dc_Username := "ana";
     dc_ProjectID := 1; dc_EnvironmentIDs := [2%Z]; dc_ApplicationIDs := [application]; dc_Capability := "mysql";
     dc_Actions := integration_actions; dc_JTI := "j"; dc_Exp := 600; dc_Iat := 0 |}.

Lemma integration_world_keyed : templates_keyed integration_world.
Proof. split; [apply keyed_one_row | reflexivity]. Qed.

(** A delegation of another application does not reach this one. *)
Definition foreign_run := serve_integration sample_handler (integration_claims 8) (CallRestart "7" 3) integration_world.
Lemma integration_scoped_witness :
  foreign_run.1 = Err integration_forbidden ∧ w_db foreign_run.2 = w_db integration_world.
Proof.
  assert (foreign_run.1 = Err integration_forbidden) as Hr by (vm_compute; reflexivity). split; [exact Hr|].
  destruct (integration_scoped sample_handler (integration_claims 8) (CallRestart "7" 3) integration_world foreign_run.2 foreign_run.1)
    as [(app & _ & Hs & id & [= <-] & Hg)|(_ & Hdb & _)].
  - exact (surjective_pairing foreign_run).
  - exfalso. pose proof (get_application_id _ _ _ Hg) as Hid. vm_compute in Hg. injection Hg as <-. vm_compute in Hs. discriminate Hs.
  - exact Hdb.
Defined.

Definition config_request : configMapReplaceRequest :=
  {| crq_Content := "debug=true"; crq_ExpectedRevision := 4; crq_Restart := false |}.
Definition config_run := replace_config sample_handler (integration_claims 7) "7" "1" (Some config_request) 3 integration_world.

Definition delegation_body : delegationRequest := {| drq_EnvironmentIDs := []; drq_Capability := "MySQL "; drq_Actions := ["application:read"] |}.
Definition delegating_handler : ApplicationHandler (C := list string) :=
  {| aph_delegationSecret := "key"; aph_kubernetes := None; aph_workflow := sample_workflow |}.
Definition delegation_run := CreateDelegation delegating_handler "7" (Some delegation_body) 3 "ana" integration_world.
Lemma application_delegation_scope_witness :
  ∃ a c, delegation_run.1 = Ok a ∧ da_Token a = signPayload "key" (encode_DelegationClaims c) ∧
    AllowsApplication c 7 = true ∧ AllowsEnvironment c 2 = true ∧ AllowsApplication c 8 = false.
Proof.
  assert (∃ a w', delegation_run = (Ok a, w')) as (a & w' & Hrun) by (vm_compute; by do 2 eexists).
  assert (numbered (w_db integration_world)) as Hnum by (split; [apply keyed_one_row|reflexivity|apply keyed_one_row|reflexivity]).
  destruct (application_delegation_scope delegating_handler "7" (Some delegation_body) 3 "ana" integration_world w' a Hnum Hrun)
    as (_ & app & req & c & [= <-] & Hg & Htok & _ & _ & _ & _ & Happ & Henv & _).
  assert (app_ID app = 7%Z ∧ app_EnvironmentID app = 2%Z) as [Hid Heid].
  { assert (get_application (w_db integration_world) (app_ID app) = Ok app) as Hx by exact Hg.
    unfold get_application in Hx. apply result_bind_Ok in Hx as (row & [_ Hrow%elem_of_one_row]%first_row_select & Hx).
    injection Hx as <-. subst row. split; vm_compute; reflexivity. }
  exists a, c. rewrite Hrun. split_and!; [done|exact Htok|by apply Happ|by apply Henv; rewrite Heid; left|].
  apply not_true_iff_false. rewrite Happ, Hid. done.
Defined.
