(* ===== verification/ReleaseDeployment.v ===== *)
(** * Releases on a cluster: the components together

    [internal/service/application/workload.go], and the composition of the release components with
    the Kubernetes applier: the applier as the [ResourceApplier] of the execution, as the endpoint
    synchronizer of the workflow and as the migrator of a change of workload kind. The theorems
    follow a release from its execution to the exchanges with the API server: a release that
    succeeds had all its objects accepted and was observed ready, a whole execution never writes an
    object of others, and the change of kind of a released application cannot succeed. *)
From Stdlib Require Import ZArith Ascii String.
From stdpp Require Import base sorting pretty numbers gmap strings list.
From S2P Require Import Prelude GoStrings Json ReleaseSpec ReleaseSnapshot Models Security ReleaseValidation ReleaseRendering Cluster ClusterResources KubernetesApplier ApplierGuarantees Store RegistryStore ReleaseExecution ReleaseWorkflow.

Create HintDb still.

Definition ErrWorkloadSnapshot : goerr := ESent "ErrWorkloadSnapshot" "workload snapshot read".
Definition ErrWorkloadPersistence : goerr := ESent "ErrWorkloadPersistence" "workload persistence".

Definition applicationContextFor (app : Application) : ApplicationContext :=
  {| ac_ProjectID := app_ProjectID app; ac_EnvironmentID := app_EnvironmentID app; ac_ProjectName := "";
     ac_EnvironmentName := ""; ac_ApplicationName := app_Name app; ac_Namespace := env_Namespace (app_Environment app);
     ac_ReleaseSequence := 0; ac_WorkloadKind := app_WorkloadKind app |}.
Definition with_sequence (sequence : Z) (c : ApplicationContext) : ApplicationContext :=
  {| ac_ProjectID := ac_ProjectID c; ac_EnvironmentID := ac_EnvironmentID c; ac_ProjectName := ac_ProjectName c;
     ac_EnvironmentName := ac_EnvironmentName c; ac_ApplicationName := ac_ApplicationName c;
     ac_Namespace := ac_Namespace c; ac_ReleaseSequence := sequence; ac_WorkloadKind := ac_WorkloadKind c |}.
Definition set_app_kind (kind : string) (a : Application) : Application :=
  let '(Build_Application i p e n _ dt cs d c pr en eps) := a in Build_Application i p e n kind dt cs d c pr en eps.

(** The Kubernetes capability needed to switch the kind of a workload. *)
Class WorkloadMigrator (C : Type) := {
  migrator_Preflight : ApplicationContext → ReleaseSpec → M C unit;
  migrator_MigrateWorkloadKind : ApplicationContext → ReleaseSpec → string → M C unit
}.

Section workload.
Context {C : Type} `{Surroundings}.
#[local] Abbreviation M := (M (World C)).

Definition persist_kind (app : Application) (target : string) : M unit :=
  wrapping (λ e, EWrap "" ErrWorkloadPersistence (": " +:+ err_text e)) (UpdateApplication (set_app_kind target app)).

Definition UpdateKind (migrator : option (WorkloadMigrator C)) (app : option Application) (target : string) : M unit :=
  match app with
  | None => throw (EText "application is nil")
  | Some app =>
      if decide (app_WorkloadKind app = target) then mret tt else
      r ← attempt (GetLatestSuccessfulRelease (app_ID app));
      match r with
      | Err e =>
          if err_is "gorm.ErrRecordNotFound" e then persist_kind app target
          else throw (EWrap "" ErrWorkloadPersistence (": " +:+ err_text e))
      | Ok release =>
          match decode_ReleaseSpec zero_ReleaseSpec (rel_DesiredSpec release) with
          | None => throw (EWrap "" ErrWorkloadSnapshot ": 读取成功发布快照失败")
          | Some spec =>
              let appContext := with_sequence (rel_Sequence release) (applicationContextFor app) in
              match migrator with
              | None => throw (EText "kubernetes migrator unavailable")
              | Some m =>
                  on_cluster (migrator_Preflight appContext spec) ;;
                  on_cluster (migrator_MigrateWorkloadKind appContext spec target) ;;
                  persist_kind app target
              end
          end
      end
  end.
End workload.

Section deployment.
Context `{K8sLibrary} `{!APIServer} `{ImageNames} `{Surroundings} `{AesGcm} `{ImageReferences}.
#[local] Abbreviation World := (World Cluster).

(** The applier behind the three interfaces, with the context of the calls. *)
Definition applier_of (ctx : Context) (a : KubernetesApplier) : ResourceApplier Cluster := {|
  VerifyImage := Applier_VerifyImage ctx;
  Preflight := Applier_Preflight a ctx;
  Apply := Applier_Apply a ctx;
  WaitReady := Applier_WaitReady a ctx
|}.
Definition synchronizer_of (ctx : Context) (a : KubernetesApplier) : endpointSynchronizer (C := Cluster) := {|
  SyncApplicationEndpoints := Applier_SyncApplicationEndpoints a ctx
|}.
Definition migrator_of (ctx : Context) (a : KubernetesApplier) : WorkloadMigrator Cluster := {|
  migrator_Preflight := Applier_Preflight a ctx;
  migrator_MigrateWorkloadKind := MigrateWorkloadKind a ctx
|}.
Definition workflow_of (encKey : string) (ctx : Context) (a : KubernetesApplier) : ReleaseWorkflow (C := Cluster) :=
  {| wf_encKey := encKey; wf_applier := Some (applier_of ctx a); wf_synchronizer := Some (synchronizer_of ctx a) |}.

(** ** What a computation exchanges with the API server *)

Definition exchanges {A} (Q : result A → list exchange → Prop) (m : M World A) : Prop :=
  ∀ w, ∃ evs, c_log (w_cluster (m w).2) = c_log (w_cluster w) ++ evs ∧ Q (m w).1 evs.
(** Nothing: the cluster stays as it is. *)
Definition still {A} (m : M World A) : Prop := ∀ w, w_cluster (m w).2 = w_cluster w.
(** Only licensed writes. *)
Definition respectful {A} (m : M World A) : Prop := exchanges (λ _, justified) m.

Lemma still_respectful {A} (m : M World A) : still m → respectful m.
Proof. intros Hm w. exists []. rewrite Hm, app_nil_r. auto using justified_nil. Qed.

Lemma still_bind {A B} (m : M World A) (f : A → M World B) : still m → (∀ a, still (f a)) → still (m ≫= f).
Proof. intros Hm Hf w. specialize (Hm w). unfold mbind, M_bind. destruct (m w) as [[a|e] w1]; [by rewrite Hf | done]. Qed.
Lemma still_ret {A} (a : A) : still (mret a).
Proof. done. Qed.
Lemma still_throw {A} e : still (throw (A := A) e).
Proof. done. Qed.
Lemma still_lift {A} (r : result A) : still (lift r).
Proof. done. Qed.
Lemma still_guard b e : still (guard_not b e).
Proof. by destruct b. Qed.
Lemma still_now : still now.
Proof. done. Qed.
Lemma still_note e : still (note e).
Proof. done. Qed.
Lemma still_statement {A} (f : DB → result (A * DB)) : still (statement f).
Proof. intros w. unfold statement. destruct (fault _); [done|]. by destruct (f _) as [[??]|]. Qed.
Lemma still_attempt {A} (m : M World A) : still m → still (attempt m).
Proof. intros Hm w. specialize (Hm w). unfold attempt. by destruct (m w). Qed.
Lemma still_ignore {A} (m : M World A) : still m → still (ignore m).
Proof. intros Hm w. apply Hm. Qed.
Lemma still_wrapping {A} f (m : M World A) : still m → still (wrapping f m).
Proof. intros Hm w. specialize (Hm w). unfold wrapping. by destruct (m w). Qed.

Lemma respectful_bind {A B} (m : M World A) (f : A → M World B) :
  respectful m → (∀ a, respectful (f a)) → respectful (m ≫= f).
Proof.
  intros Hm Hf w. unfold mbind, M_bind. destruct (Hm w) as (e1 & Hl1 & Hj1). destruct (m w) as [[a|e] w1]; [|by exists e1].
  destruct (Hf a w1) as (e2 & Hl2 & Hj2). exists (e1 ++ e2). simpl in Hl1. rewrite Hl2, Hl1, app_assoc.
  auto using justified_app.
Qed.
Lemma respectful_catching {A} (m : M World A) h : respectful m → (∀ e, respectful (h e)) → respectful (catching m h).
Proof.
  intros Hm Hh w. unfold catching. destruct (Hm w) as (e1 & Hl1 & Hj1). destruct (m w) as [[a|e] w1]; [by exists e1|].
  destruct (Hh e w1) as (e2 & Hl2 & Hj2). exists (e1 ++ e2). simpl in Hl1. rewrite Hl2, Hl1, app_assoc.
  auto using justified_app.
Qed.
Lemma respectful_attempt {A} (m : M World A) : respectful m → respectful (attempt m).
Proof. intros Hm w. destruct (Hm w) as (evs & ?). exists evs. unfold attempt. by destruct (m w). Qed.
Lemma respectful_wrapping {A} f (m : M World A) : respectful m → respectful (wrapping f m).
Proof. intros Hm w. destruct (Hm w) as (evs & ?). exists evs. unfold wrapping. by destruct (m w). Qed.
Lemma respectful_ignore {A} (m : M World A) : respectful m → respectful (ignore m).
Proof. intros Hm w. destruct (Hm w) as (evs & ?). by exists evs. Qed.

Lemma respectful_on_cluster (m : M Cluster unit) : careful m → respectful (on_cluster m).
Proof.
  intros Hm w. destruct (Hm (w_cluster w)) as (evs & ? & ? & _). exists evs. unfold on_cluster. by destruct (m _).
Qed.
End deployment.

#[export] Hint Resolve still_bind still_ret still_throw still_lift still_guard still_now still_note still_statement
  still_attempt still_ignore still_wrapping still_respectful : still.
#[export] Hint Resolve respectful_bind respectful_catching respectful_attempt respectful_wrapping respectful_ignore
  respectful_on_cluster : still.

Section end_to_end.
Context `{K8sLibrary} `{!APIServer} `{ImageNames} `{Surroundings} `{AesGcm} `{ImageReferences}.
#[local] Abbreviation World := (World Cluster).

Lemma still_UpdateRelease r : still (UpdateRelease r).
Proof. unfold UpdateRelease, save, execute. auto with still. Qed.
Lemma still_transition release status : still (transition release status).
Proof.
  unfold transition. apply still_bind; [auto with still|]. intros _. apply still_bind; [auto with still|]. intros at_.
  apply still_bind; [apply still_UpdateRelease | intros; apply still_ret].
Qed.
Lemma still_GetRelease id : still (GetRelease id).
Proof. apply still_statement. Qed.
Lemma still_failRelease {A} id step cause : still (failRelease (A := A) id step cause).
Proof.
  unfold failRelease. apply still_bind; [apply still_attempt, still_GetRelease|]. intros [release|e]; [|apply still_throw].
  apply still_bind; [|intros; apply still_throw]. case_decide; [apply still_ret | apply still_ignore, still_transition].
Qed.
Lemma failRelease_Err {A} id step cause (w w' : World) (x : A) : failRelease id step cause w ≠ (Ok x, w').
Proof.
  unfold failRelease. intros (r & w1 & _ & Hx)%bind_Ok. destruct r; [|done]. by apply bind_Ok in Hx as (? & ? & _ & ?).
Qed.
Lemma still_created {A} `{HasTable A, Row A} (x : A) : still (create x).
Proof. apply still_statement. Qed.
Lemma still_saved {A} `{HasTable A, Row A} (x : A) : still (save x).
Proof. apply still_statement. Qed.
#[local] Hint Resolve still_UpdateRelease still_transition still_GetRelease still_failRelease still_created still_saved : still.

Lemma still_Ok {A} (m : M World A) w x w' : still m → m w = (Ok x, w') → w_cluster w' = w_cluster w.
Proof. intros Hm Hw. specialize (Hm w). by rewrite Hw in Hm. Qed.

(** A recorded step touches the cluster only through what it runs. *)
Lemma runStep_Ok id step run (w w' : World) u :
  runStep id step run w = (Ok u, w') →
  ∃ w1 w2, run w1 = (Ok u, w2) ∧ w_cluster w1 = w_cluster w ∧ w_cluster w' = w_cluster w2.
Proof.
  unfold runStep. intros (at_ & w1 & Hw1 & Hx)%bind_Ok. injection Hw1 as <- <-.
  apply bind_Ok in Hx as (operation & w2 & Hw2 & Hx). apply still_Ok in Hw2 as Hs2; [|apply still_statement].
  apply bind_Ok in Hx as (log & w3 & Hw3 & Hx). apply still_Ok in Hw3 as Hs3; [|apply still_statement].
  apply bind_Ok in Hx as (r & w4 & Hw4 & Hx). unfold attempt in Hw4. destruct (run w3) as [r' w4'] eqn:Hrun. injection Hw4 as <- <-.
  assert (Hrest : ∀ v v' : World, (note (Called step r') ;; completedAt ← now;
    UpdateReleaseOperation (finished operation completedAt r') ;;
    UpdateOperationLog {| log_ID := log_ID log; log_ResourceType := log_ResourceType log;
      log_ResourceID := log_ResourceID log; log_Step := log_Step log; log_Status := op_Status (finished operation completedAt r');
      log_Detail := op_Detail (finished operation completedAt r'); log_CreatedAt := log_CreatedAt log |} ;; lift r') v = (Ok u, v') →
    r' = Ok u ∧ w_cluster v' = w_cluster v).
  { intros v v' Hv. split.
    - apply bind_Ok in Hv as (? & ? & _ & Hv). apply bind_Ok in Hv as (? & ? & _ & Hv).
      apply bind_Ok in Hv as (? & ? & _ & Hv). apply bind_Ok in Hv as (? & ? & _ & Hv). by apply lift_Ok in Hv as [? _].
    - match type of Hv with ?m v = _ => assert (still m) as Hst end.
      { unfold UpdateReleaseOperation, UpdateOperationLog. auto 10 with still. }
      specialize (Hst v). by rewrite Hv in Hst. }
  apply Hrest in Hx as [-> Hx]. exists w3, w4'. simpl in *. split_and!; [done | congruence | done].
Qed.

Lemma required_step_Ok id step run (w w' : World) u :
  required_step id step run w = (Ok u, w') →
  ∃ w1 w2, run w1 = (Ok u, w2) ∧ w_cluster w1 = w_cluster w ∧ w_cluster w' = w_cluster w2.
Proof.
  unfold required_step, catching. destruct (runStep id step run w) as [[v|e] w1] eqn:Hr.
  - intros [= -> <-]. by eapply runStep_Ok.
  - intros Hf. by apply failRelease_Err in Hf.
Qed.

Lemma cluster_step_Ok id step (m : M Cluster unit) (w w' : World) u :
  required_step id step (on_cluster m) w = (Ok u, w') → m (w_cluster w) = (Ok u, w_cluster w').
Proof.
  intros (w1 & w2 & Hm & Hc1 & Hc2)%required_step_Ok. unfold on_cluster in Hm. rewrite Hc1 in Hm.
  destruct (m (w_cluster w)) as [r c]. injection Hm as -> <-. by rewrite Hc2.
Qed.

Lemma careful_log {A} (m : M Cluster A) c r c' : careful m → m c = (r, c') → ∃ evs, c_log c' = c_log c ++ evs.
Proof. intros Hm Hc. destruct (Hm c) as (evs & Hl & _). rewrite Hc in Hl. by exists evs. Qed.

(** *** A whole execution writes only what it owns *)

Lemma respectful_runStep id step run : respectful run → respectful (runStep id step run).
Proof.
  intros Hrun. unfold runStep. apply respectful_bind; [auto with still|]. intros at_.
  apply respectful_bind; [apply still_respectful, still_statement|]. intros operation.
  apply respectful_bind; [apply still_respectful, still_statement|]. intros log.
  apply respectful_bind; [by apply respectful_attempt|]. intros r.
  unfold UpdateReleaseOperation, UpdateOperationLog. auto 10 with still.
Qed.
Lemma respectful_required_step id step run : respectful run → respectful (required_step id step run).
Proof.
  intros Hrun. apply respectful_catching; [by apply respectful_runStep|].
  intros e. apply still_respectful, still_failRelease.
Qed.

Lemma respectful_executeRelease ctx a id application spec postApply :
  (∀ run, postApply = Some run → respectful run) →
  respectful (executeRelease (Some (applier_of ctx a)) id application spec postApply).
Proof.
  intros Hpost. unfold executeRelease. apply respectful_bind; [apply still_respectful, still_GetRelease|]. intros release.
  apply respectful_bind.
  { apply respectful_catching; [auto with still|]. intros e. apply still_respectful, still_failRelease. }
  intros resources.
  repeat first [apply respectful_required_step, respectful_on_cluster;
      first [apply careful_VerifyImage | apply careful_Preflight | apply careful_Apply | apply careful_WaitReady]
    | apply still_respectful, still_transition | apply still_respectful, still_ret | apply respectful_bind; [|intros ?]].
  destruct postApply as [run|]; [|apply still_respectful, still_ret]. apply respectful_required_step, Hpost. done.
Qed.

Lemma still_sync_endpoint service primary e : still (sync_endpoint service primary e).
Proof.
  assert (∀ f e', still (wrapping f (UpdateApplicationEndpoint e') ;; mret e')) as Hu.
  { intros f e'. apply still_bind; [apply still_wrapping, still_saved | intros; apply still_ret]. }
  unfold sync_endpoint. apply still_bind; [case_decide; [apply Hu | apply still_ret]|]. intros e1.
  apply still_bind.
  - case_decide; [|apply still_ret]. apply still_bind; [apply still_lift | intros; apply Hu].
  - intros e2. apply still_bind; [apply still_guard | intros; apply still_ret].
Qed.

Lemma respectful_sync encKey ctx a app service : respectful (syncApplicationEndpoints (workflow_of encKey ctx a) app service).
Proof.
  assert (∀ f context es port, respectful (wrapping f (on_cluster (SyncApplicationEndpoints
    (endpointSynchronizer := synchronizer_of ctx a) context es port)))) as Hsync.
  { intros. apply respectful_wrapping, respectful_on_cluster, careful_SyncApplicationEndpoints. }
  unfold syncApplicationEndpoints. cbn [workflow_of wf_synchronizer].
  apply respectful_bind; [apply respectful_wrapping, still_respectful, still_statement|]. intros endpoints.
  destruct (PrimaryTCPPort service) as [primary|].
  - apply respectful_bind; [|intros; apply Hsync]. apply still_respectful.
    induction endpoints as [|e es IH]; [apply still_ret|]. cbn [sync_endpoints].
    apply still_bind; [|intros e'; apply still_bind; [exact IH | intros; apply still_ret]].
    apply still_sync_endpoint.
  - destruct (PortSpecs service); [auto with still | apply Hsync].
Qed.

(** What the exchanges of a successful execution contain: the objects rendered for the release, all
    accepted in order, and at the end the observation of their readiness. *)
Definition released (application : Application) (spec : ReleaseSpec) (evs : list exchange) : Prop :=
  ∃ sequence resources before applied_objects after,
    RenderResources (applicationContext application sequence) spec = Ok resources ∧
    evs = before ++ applied_objects ++ after ∧ placed (planned resources) applied_objects ∧
    observed_ready (applicationContext application sequence) spec after.

Lemma executeRelease_released ctx a id application spec run (w w' : World) :
  respectful run →
  executeRelease (Some (applier_of ctx a)) id application spec (Some run) w = (Ok tt, w') →
  ∃ evs, c_log (w_cluster w') = c_log (w_cluster w) ++ evs ∧ released application spec evs.
Proof.
  intros Hrun. unfold executeRelease. intros (release & w1 & Hw1 & Hx)%bind_Ok.
  apply still_Ok in Hw1 as Hc1; [|apply still_GetRelease].
  set (context := applicationContext application (rel_Sequence release)) in *.
  apply bind_Ok in Hx as (resources & w2 & Hr & Hx). unfold catching, lift in Hr.
  destruct (RenderResources context spec) as [resources'|e] eqn:Hren; [|by apply failRelease_Err in Hr].
  injection Hr as -> <-.
  apply bind_Ok in Hx as (r1 & w3 & Hw3 & Hx). apply still_Ok in Hw3 as Hc3; [|apply still_transition].
  apply bind_Ok in Hx as ([] & w4 & Hw4%cluster_step_Ok & Hx). apply careful_log in Hw4 as (e1 & Hl4); [|apply careful_VerifyImage].
  apply bind_Ok in Hx as ([] & w5 & Hw5%cluster_step_Ok & Hx). apply careful_log in Hw5 as (e2 & Hl5); [|apply careful_Preflight].
  apply bind_Ok in Hx as (r2 & w6 & Hw6 & Hx). apply still_Ok in Hw6 as Hc6; [|apply still_transition].
  apply bind_Ok in Hx as ([] & w7 & Hw7%cluster_step_Ok & Hx).
  pose proof (apply_in_order a ctx resources (w_cluster w6)) as Happ. simpl in Hw7. rewrite Hw7 in Happ.
  destruct Happ as (e3 & Hl7 & Hplaced).
  apply bind_Ok in Hx as ([] & w8 & Hw8 & Hx). destruct (respectful_required_step id "sync_endpoints" run Hrun w7) as (e4 & Hl8 & _).
  rewrite Hw8 in Hl8.
  apply bind_Ok in Hx as (r3 & w9 & Hw9 & Hx). apply still_Ok in Hw9 as Hc9; [|apply still_transition].
  apply bind_Ok in Hx as ([] & w10 & Hw10%cluster_step_Ok & Hx).
  apply WaitReady_observed in Hw10 as (e5 & Hl10 & Hobs).
  apply still_Ok in Hx as Hc11; [|apply still_bind; [apply still_transition | intros; apply still_ret]].
  exists ((e1 ++ e2) ++ e3 ++ e4 ++ e5). split.
  - simpl in Hl8. rewrite Hc11, Hl10, Hc9, Hl8, Hl7, Hc6, Hl5, Hl4, Hc3, Hc1. by rewrite <-!app_assoc.
  - exists (rel_Sequence release), resources, (e1 ++ e2), e3, (e4 ++ e5). split_and!; [done..|]. by apply observed_ready_app.
Qed.

(** C1: Executing a release against a cluster, endpoints included, never writes an object the manager does
    not own, whatever fails; and when the execution succeeds, every object rendered for the release
    was written in order and accepted, and the workload (and its certificate when needed) was observed
    ready after that. *)
Theorem execution_on_cluster encKey ctx a id application spec (w : World) :
  let '(r, w') := ExecuteReleaseWithPostApply (Some (applier_of ctx a)) id application spec
    (syncApplicationEndpoints (workflow_of encKey ctx a) application (rs_Service spec)) w in
  ∃ evs, c_log (w_cluster w') = c_log (w_cluster w) ++ evs ∧
    (∀ pre x post, evs = pre ++ x :: post → is_Some (written (ex_request x)) →
      ∃ pre' g, pre = pre' ++ [g] ∧ licenses g (ex_request x)) ∧
    match r with Ok _ => released application spec evs | Err _ => True end.
Proof.
  unfold ExecuteReleaseWithPostApply.
  set (run := syncApplicationEndpoints _ _ _). assert (respectful run) as Hrun by apply respectful_sync.
  destruct (respectful_executeRelease ctx a id application spec (Some run)) with (w := w) as (evs & Hl & Hj).
  { by intros ? [= <-]. }
  destruct (executeRelease _ _ _ _ _ w) as [r w'] eqn:Hx. exists evs. split_and!; [done| |].
  - intros pre x post. by apply justified_licensed.
  - destruct r as [[]|e]; [|done]. apply executeRelease_released in Hx as (evs' & Hl' & Hrel); [|done].
    simpl in Hl. rewrite Hl' in Hl. by apply app_inv_head in Hl as <-.
Qed.

(** *** Changing the kind of a released application *)

Lemma incomplete_context_fails context spec :
  context_complete context = false → ∃ e, RenderResources context spec = Err e.
Proof.
  intros Hc. unfold RenderResources. destruct (negb (empty_list _)); [by eexists|]. rewrite Hc. by eexists.
Qed.

Lemma migration_fails ctx a context spec target (c : Cluster) :
  current_kind context ≠ target → context_complete (with_workload_kind target context) = false →
  ∃ e, (MigrateWorkloadKind a ctx context spec target c).1 = Err e.
Proof.
  intros Hk Hc. unfold MigrateWorkloadKind. destruct (ka_workloads a); [|by eexists]. rewrite decide_False by done.
  unfold mbind at 1, M_bind at 1, guard_not. destruct (_ && _); [by eexists|]. cbn [mret M_ret].
  unfold mbind at 1, M_bind at 1. destruct (scaleManagedWorkload _ _ _ _ _ _ c) as [[n|e] c1]; [|by eexists].
  assert (∀ A applied cause c2, ∃ e, (restore (A := A) a ctx context (current_kind context) target n applied cause c2).1 = Err e) as Hback.
  { intros A applied cause c2.
    destruct (restore_ends_back (A := A) a ctx context (current_kind context) target n applied cause (c_log c2) c2) as [Hr _].
    - exists []. by rewrite app_nil_r.
    - destruct (restore (A := A) _ _ _ _ _ _ _ _ c2).1; [done | by eexists]. }
  unfold migrate_target, catching, lift. unfold mbind at 1, M_bind at 1.
  destruct (waitForWorkloadPodsStopped _ _ _ _ c1) as [[u|e] c2].
  - unfold mbind at 1, M_bind at 1. destruct (incomplete_context_fails _ spec Hc) as [e ->].
    destruct (Hback RenderedResources false e c2) as [e' He]. destruct (restore (A := RenderedResources) _ _ _ _ _ _ _ _ c2) as [r c3].
    simpl in He. subst r. by eexists.
  - destruct (Hback unit false e c2) as [e' He]. destruct (restore (A := unit) _ _ _ _ _ _ _ _ c2) as [r c3].
    simpl in He. subst r. by eexists.
Qed.

Lemma on_cluster_db (m : M Cluster unit) (w : World) : w_db (on_cluster m w).2 = w_db w.
Proof. unfold on_cluster. by destruct (m _). Qed.

(** C28: As the code stands, the workload kind of an application that has a successful release cannot be
    changed: the context built for the migration carries neither the project name nor the environment
    name, so rendering refuses it after the old workload was already scaled down. Whatever the cluster
    answers, the call fails and the stored application keeps its kind. *)
Theorem released_kind_cannot_change ctx a app target release (w w1 : World) :
  app_WorkloadKind app ≠ target → current_kind (applicationContextFor app) ≠ target →
  GetLatestSuccessfulRelease (app_ID app) w = (Ok release, w1) →
  ∃ e w', UpdateKind (Some (migrator_of ctx a)) (Some app) target w = (Err e, w') ∧ w_db w' = w_db w1.
Proof.
  intros Hkind Hcur Hget. unfold UpdateKind. rewrite decide_False by done.
  unfold mbind at 1, M_bind at 1, attempt. rewrite Hget.
  destruct (decode_ReleaseSpec _ _) as [spec|]; [|by eexists _, w1].
  set (context := with_sequence _ _). cbn [migrator_of migrator_Preflight migrator_MigrateWorkloadKind].
  pose proof (on_cluster_db (Applier_Preflight a ctx context spec) w1) as Hdb1.
  unfold mbind at 1, M_bind at 1. destruct (on_cluster (Applier_Preflight a ctx context spec) w1) as [[u|e] w2]; [|by eexists _, w2].
  pose proof (on_cluster_db (MigrateWorkloadKind a ctx context spec target) w2) as Hdb2.
  destruct (migration_fails ctx a context spec target (w_cluster w2)) as [e He]; [done | unfold context_complete; simpl; by rewrite orb_true_r |].
  unfold mbind, M_bind, on_cluster in *. destruct (MigrateWorkloadKind _ _ _ _ _ (w_cluster w2)) as [r c].
  simpl in He, Hdb1, Hdb2 |- *. subst r. eexists _, _. split; [done|]. by simpl.
Qed.
End end_to_end.

(** ** A concrete change of kind *)

#[local] Existing Instances calm sample_library sample_server sample_names.
Definition cluster_world : World (Cluster (H := sample_library)) :=
  {| w_db := sample_db; w_tick := 0; w_cluster := sample_cluster; w_trace := [] |}.

Lemma released_kind_cannot_change_witness :
  ∃ e w', UpdateKind (Some (migrator_of None sample_k8s_applier)) (Some sample_application) WorkloadKindStatefulSet cluster_world
    = (Err e, w') ∧ w_db w' = w_db (GetLatestSuccessfulRelease 7 cluster_world).2.
Proof.
  apply (released_kind_cannot_change None sample_k8s_applier sample_application WorkloadKindStatefulSet
    (from_ok (sample_release 0 0 "") (GetLatestSuccessfulRelease 7 cluster_world).1) cluster_world
    (GetLatestSuccessfulRelease 7 cluster_world).2); [done | done | vm_compute; reflexivity].
Defined.
