(* ===== verification/ApplicationHandlers.v ===== *)
(** * Projects, environments and applications

    [internal/api/application/kubernetes_adapter.go]: the adapter of Kubernetes over the API server;
    [project_handler.go], [environment_handler.go] and [application_handler.go]: the handlers that create,
    change and delete projects, their environments and the applications in them, as sequences of steps;
    [service/application/query.go]: the lookups they share. A project has environments, an environment
    has a namespace of the cluster and applications: each handler counts what depends on a row before
    it changes the row. *)
From Stdlib Require Import ZArith Ascii String Lia.
From stdpp Require Import base sorting pretty numbers gmap strings list.
From S2P Require Import Prelude GoStrings Json Interleaving ReleaseSpec ReleaseSnapshot Models PlatformModels Security ReleaseValidation ReleaseRendering Cluster KubernetesApplier Store PlatformStore Api RegistryStore ReleaseExecution ReleaseWorkflow Templates HandlerSteps ReleaseDeployment.

(** ** The adapter *)

Section adapter.
Context `{K8sLibrary} `{!APIServer}.
(** The readers of certificates are not modelled. *)
Variable GetCertificateContext : Context → string → string → M Cluster CertInfo.

Definition NewKubernetesAdapter (ctx : Context) (client : option Client) : option (KubernetesAdapter Cluster) :=
  client ← client;
  if negb (kc_Clientset client) then None else
  let applier := NewKubernetesApplier client in
  Some {| KubernetesAvailable := true;
          adapter_ValidatePersistentVolumeClaims := ValidatePersistentVolumeClaims applier ctx;
          adapter_SyncApplicationEndpoints := Applier_SyncApplicationEndpoints applier ctx;
          adapter_GetCertificateContext := GetCertificateContext ctx;
          adapter_GetNamespace name := call ctx (GetNamespace name);
          adapter_UpdateNamespace ns := call ctx (UpdateNamespace ns);
          adapter_CreateNamespace name labels := call ctx (CreateNamespace name labels) |}.
End adapter.

Section handlers.
Context `{K8sLibrary} {C : Type} `{Surroundings}.
#[local] Abbreviation W := (World C).
#[local] Abbreviation Handler := (handler W).
Variable h : ApplicationHandler (C := C).

Definition require_kubernetes : Handler (KubernetesAdapter C) :=
  match available h with Some k => mret k | None => refuse K8sUnavailable end.
Definition ErrEnvironmentNotInProject : goerr :=
  ESent "ErrEnvironmentNotInProject" "environment does not belong to project".
Definition ResolveEnvironment (projectID environmentID : Z) : M W Environment :=
  wrapping (λ _, ErrEnvironmentNotInProject) (GetEnvironment projectID environmentID).

(** ** Projects *)

Record projectRequest := { prq_Name : string; prq_Description : string; prq_DefaultImageRegistryID : option Z }.
Definition named_project (req : projectRequest) : bool := negb (empty_str (prq_Name req)).

Definition Handler_CreateProject (body : option projectRequest) (userID : Z) : Handler Project :=
  req ← body_if body named_project "项目名称必填";
  refuse_if (match prq_DefaultImageRegistryID req with Some id => bool_decide (id ≠ 0%Z) | None => false end)
    (BadRequest "请在项目创建后设置默认镜像仓库") ;;
  step_or (CreateProject {| pr_ID := 0; pr_Name := prq_Name req; pr_Description := prq_Description req;
                            pr_DefaultImageRegistryID := None; pr_OwnerID := userID |})
    (λ _, Conflict "项目名称已存在").

(** The registry the request asks for: [None] keeps the one of the project. *)
Definition requested_registry (projectID : Z) (asked current : option Z) : Handler (option Z) :=
  match asked with
  | None => mret current
  | Some id =>
      if decide (id = 0%Z) then mret None else
      r ← tried (GetImageRegistryForProject id projectID);
      match r with
      | Ok registry => if ireg_Enabled registry then mret (Some (ireg_ID registry))
                       else refuse (BadRequest "默认镜像仓库未授权当前项目或已停用")
      | Err _ => refuse (BadRequest "默认镜像仓库未授权当前项目或已停用")
      end
  end.

Definition Handler_UpdateProject (param_project : string) (body : option projectRequest) : Handler Project :=
  projectID ← parsed param_project "项目 ID 无效";
  req ← body_if body named_project "项目名称必填";
  project ← step_or (GetProject projectID) (λ _, NotFound "项目不存在");
  registry ← step_or (loaded_registry project) (λ _, NotFound "项目不存在");
  (if decide (pr_Name project = prq_Name req) then mret tt else
     applicationCount ← db_step (CountProjectApplications projectID);
     refuse_if (bool_decide (0 < applicationCount)) (Conflict "项目已有应用，不能修改项目名称")) ;;
  default_registry ← requested_registry projectID (prq_DefaultImageRegistryID req) (pr_DefaultImageRegistryID project);
  let project := {| pr_ID := pr_ID project; pr_Name := prq_Name req; pr_Description := prq_Description req;
                    pr_DefaultImageRegistryID := default_registry; pr_OwnerID := pr_OwnerID project |} in
  step_or (UpdateProject project registry) (λ _, Conflict "项目名称已存在") ;;
  mret (belonging_to registry project).

Definition Handler_DeleteProject (param_project : string) : Handler Z :=
  projectID ← parsed param_project "项目 ID 无效";
  step_or (GetProject projectID) (λ _, NotFound "项目不存在") ;;
  environmentCount ← db_step (CountProjectEnvironments projectID);
  applicationCount ← db_step (CountProjectApplications projectID);
  refuse_if (bool_decide (0 < environmentCount) || bool_decide (0 < applicationCount))
    (Conflict "项目仍关联环境或应用，无法删除") ;;
  db_step (DeleteProject projectID) ;;
  mret projectID.

(** ** Namespaces *)

Record environmentRequest := { er_Name : string; er_Namespace : string; er_NamespaceMode : string }.
Definition complete_environment (req : environmentRequest) : bool :=
  negb (bool_decide (trim_space (er_Name req) = "") || bool_decide (trim_space (er_Namespace req) = "")).

Definition normalizeEnvironmentNamespaceMode (value : string) : result string :=
  let value := trim_space value in
  if bool_decide (value = "") || bool_decide (value = "create") then Ok "create"
  else if bool_decide (value = "bind") then Ok "bind"
  else Err (EText "命名空间方式仅支持新建或绑定").
Definition isSystemNamespace (namespace : string) : bool :=
  bool_decide (namespace ∈ ["default"; "kube-system"; "kube-public"; "kube-node-lease"]).

Definition project_label : string := "cylism.io/project-id".
(** [labels["cylism.io/project-id"] = project; labels[...managed-by] = "cylism-manager"] *)
Definition claimed_labels (projectID : Z) (labels : gmap string string) : gmap string string :=
  <[ManagedByLabel := ManagedByValue]> (<[project_label := dec projectID]> labels).
Definition claim_namespace (projectID : Z) (n : LiveNamespace) : LiveNamespace :=
  let m := ln_Meta n in
  {| ln_Meta := {| lm_Name := lm_Name m; lm_Namespace := lm_Namespace m; lm_Labels := claimed_labels projectID (lm_Labels m);
                   lm_Annotations := lm_Annotations m; lm_ResourceVersion := lm_ResourceVersion m;
                   lm_Generation := lm_Generation m; lm_CreationTimestamp := lm_CreationTimestamp m |};
     ln_Phase := ln_Phase n |}.
Definition namespace_owner (n : LiveNamespace) : string :=
  trim_space (default "" (lm_Labels (ln_Meta n) !! project_label)).

Definition ensureEnvironmentNamespace (client : option (KubernetesAdapter C)) (projectID : Z)
    (namespace mode : string) (allowExisting : bool) : Handler unit :=
  refuse_if (isSystemNamespace namespace) (EText ("系统命名空间 " +:+ (quote namespace +:+ " 不能绑定为应用环境"))) ;;
  match client with
  | None => refuse (EText "K8s 集群未连接")
  | Some client =>
      r ← cluster_step (adapter_GetNamespace client namespace);
      match r with
      | Ok existing =>
          refuse_if (bool_decide (ln_Phase existing ≠ "") && bool_decide (ln_Phase existing ≠ "Active"))
            (EText ("命名空间 " +:+ (quote namespace +:+ " 未就绪"))) ;;
          refuse_if (bool_decide (mode = "create") && negb allowExisting)
            (EText ("命名空间 " +:+ (quote namespace +:+ " 已存在，请选择绑定已有命名空间"))) ;;
          let owner := namespace_owner existing in
          refuse_if (bool_decide (owner ≠ "") && bool_decide (owner ≠ dec projectID))
            (EText ("命名空间 " +:+ (quote namespace +:+ (" 已属于项目 " +:+ (owner +:+ "，不能绑定到当前项目"))))) ;;
          if decide (owner = "") then
            step_or (on_cluster (adapter_UpdateNamespace client (claim_namespace projectID existing)))
              (λ e, EWrap ("认领命名空间 " +:+ (quote namespace +:+ ": ")) e "") ;;
            mret tt
          else mret tt
      | Err e =>
          refuse_if (negb (is_not_found e)) (EWrap "检查命名空间: " e "") ;;
          refuse_if (bool_decide (mode = "bind")) (EText ("命名空间 " +:+ (quote namespace +:+ " 不存在，无法绑定"))) ;;
          step_or (on_cluster (adapter_CreateNamespace client namespace (claimed_labels projectID ∅)))
            (λ e, EWrap ("创建命名空间 " +:+ (quote namespace +:+ ": ")) e "") ;;
          mret tt
      end
  end.

Definition environmentNamespaceStatus (client : option (KubernetesAdapter C)) (namespace : string) : Handler string :=
  match client with
  | None => mret "unknown"
  | Some client =>
      r ← cluster_step (adapter_GetNamespace client namespace);
      mret (match r with
            | Err e => if is_not_found e then "missing" else "unknown"
            | Ok resource =>
                if bool_decide (ln_Phase resource = "Active") then "active"
                else if bool_decide (ln_Phase resource = "Terminating") then "terminating" else "pending"
            end)
  end.

(** ** Environments *)

Definition handleEnvironmentNamespaceError (e other : goerr) : goerr :=
  if err_is "NamespaceConflictError" e then Conflict (err_text e) else other.
Definition invalid (e : goerr) : goerr := ValidationError (err_text e).

Definition Handler_CreateEnvironment (param_project : string) (body : option environmentRequest) : Handler Environment :=
  projectID ← parsed param_project "项目 ID 无效";
  step_or (GetProject projectID) (λ _, NotFound "项目不存在") ;;
  req ← body_if body complete_environment "环境名称和命名空间必填";
  mode ← Finished (map_err invalid (normalizeEnvironmentNamespaceMode (er_NamespaceMode req)));
  require_kubernetes ;;
  let name := trim_space (er_Name req) in
  let namespace := trim_space (er_Namespace req) in
  step_or (EnsureNamespaceAvailable namespace 0) (λ e, handleEnvironmentNamespaceError e no_answer) ;;
  reporting invalid (ensureEnvironmentNamespace (aph_kubernetes h) projectID namespace mode false) ;;
  step_or (CreateEnvironment {| env_ID := 0; env_ProjectID := projectID; env_Name := name; env_Namespace := namespace |})
    (λ e, handleEnvironmentNamespaceError e (Conflict "环境名称已存在")).

Definition environmentRouteIDs (param_project param_environment : string) : Handler (Z * Z) :=
  projectID ← parsed param_project "项目 ID 无效";
  environmentID ← parsed param_environment "环境 ID 无效";
  mret (projectID, environmentID).

(** What a change of the name or the namespace requires. *)
Definition change_allowed (projectID environmentID : Z) (environment : Environment) (namespace mode : string) : Handler unit :=
  applicationCount ← db_step (CountEnvironmentApplications environmentID);
  namespaceConflict ← db_step (IsEnvironmentNamespaceConflicted (env_Namespace environment));
  refuse_if (bool_decide (0 < applicationCount) && negb namespaceConflict) (Conflict "环境已有应用，不能修改名称或命名空间") ;;
  if decide (env_Namespace environment = namespace) then mret tt else
  mode ← Finished (map_err invalid (normalizeEnvironmentNamespaceMode mode));
  require_kubernetes ;;
  step_or (EnsureNamespaceAvailable namespace (env_ID environment)) (λ e, handleEnvironmentNamespaceError e no_answer) ;;
  reporting invalid (ensureEnvironmentNamespace (aph_kubernetes h) projectID namespace mode false).

(** The answer carries the status of the namespace. *)
Definition Handler_UpdateEnvironment (param_project param_environment : string) (body : option environmentRequest) :
    Handler (Environment * string) :=
  ids ← environmentRouteIDs param_project param_environment;
  let '(projectID, environmentID) := ids in
  req ← body_if body complete_environment "环境名称和命名空间必填";
  environment ← step_or (ResolveEnvironment projectID environmentID) (λ _, NotFound "环境不存在");
  let name := trim_space (er_Name req) in
  let namespace := trim_space (er_Namespace req) in
  (if decide (env_Name environment = name ∧ env_Namespace environment = namespace) then mret tt
   else change_allowed projectID environmentID environment namespace (er_NamespaceMode req)) ;;
  let environment := {| env_ID := env_ID environment; env_ProjectID := env_ProjectID environment;
                        env_Name := name; env_Namespace := namespace |} in
  status ← environmentNamespaceStatus (aph_kubernetes h) namespace;
  step_or (UpdateEnvironment environment) (λ e, handleEnvironmentNamespaceError e (Conflict "环境名称已存在")) ;;
  mret (environment, status).

Definition SyncEnvironmentNamespace (param_project param_environment : string) : Handler (Environment * string) :=
  ids ← environmentRouteIDs param_project param_environment;
  let '(projectID, environmentID) := ids in
  environment ← step_or (ResolveEnvironment projectID environmentID) (λ _, NotFound "环境不存在");
  require_kubernetes ;;
  step_or (EnsureNamespaceAvailable (env_Namespace environment) (env_ID environment))
    (λ e, handleEnvironmentNamespaceError e no_answer) ;;
  reporting invalid (ensureEnvironmentNamespace (aph_kubernetes h) projectID (env_Namespace environment) "create" true) ;;
  status ← environmentNamespaceStatus (aph_kubernetes h) (env_Namespace environment);
  mret (environment, status).

Definition Handler_DeleteEnvironment (param_project param_environment : string) : Handler Z :=
  ids ← environmentRouteIDs param_project param_environment;
  let '(projectID, environmentID) := ids in
  step_or (ResolveEnvironment projectID environmentID) (λ _, NotFound "环境不存在") ;;
  applicationCount ← db_step (CountEnvironmentApplications environmentID);
  refuse_if (bool_decide (0 < applicationCount)) (Conflict "环境仍关联应用，无法删除") ;;
  db_step (DeleteEnvironment environmentID) ;;
  mret environmentID.

(** ** Applications *)

Record applicationRequest := { arq_ProjectID : Z; arq_EnvironmentID : Z; arq_Name : string }.
Definition complete_application (req : applicationRequest) : bool :=
  negb (bool_decide (arq_ProjectID req = 0%Z) || bool_decide (arq_EnvironmentID req = 0%Z)
        || bool_decide (trim_space (arq_Name req) = "")).
Definition new_application (projectID environmentID : Z) (name : string) (userID : Z) : Application :=
  {| app_ID := 0; app_ProjectID := projectID; app_EnvironmentID := environmentID; app_Name := name;
     app_WorkloadKind := "deployment"; app_CapabilitiesData := None; app_Capabilities := [];
     app_DefaultDeploymentTemplateID := None; app_CreatedBy := userID; app_Project := zero_project;
     app_Environment := zero_environment; app_Endpoints := [] |}.

Definition Handler_CreateApplication (body : option applicationRequest) (userID : Z) : Handler Application :=
  req ← body_if body complete_application "项目、环境和应用名称必填";
  let name := trim_space (arq_Name req) in
  Finished (map_err invalid (ValidateApplicationName name)) ;;
  environment ← step_or (ResolveEnvironment (arq_ProjectID req) (arq_EnvironmentID req))
    (λ _, ValidationError "环境不属于所选项目");
  step_or (EnsureNamespaceAvailable (env_Namespace environment) (env_ID environment))
    (λ _, Conflict "环境命名空间存在冲突，请先完成迁移") ;;
  step_or (CreateApplication (new_application (arq_ProjectID req) (arq_EnvironmentID req) name userID))
    (λ _, Conflict "该环境内应用名称已存在").

Definition UpdateCapabilities (param_id : string) (body : option (list string)) : Handler Application :=
  applicationID ← parsed param_id "应用 ID 无效";
  capabilities ← body_if body (λ _, true) "能力标签定义无效";
  step_or (ReplaceApplicationCapabilities applicationID capabilities)
    (λ e, if err_is "gorm.ErrRecordNotFound" e then NotFound "应用不存在" else invalid e).

(** The services of the handler that change the kind of a workload take part in one step. *)
Definition Handler_UpdateWorkloadKind (migrator : option (WorkloadMigrator C)) (param_id : string) (body : option string) :
    Handler Application :=
  require_kubernetes ;;
  applicationID ← parsed param_id "应用 ID 无效";
  kind ← body_if body (λ _, true) "工作负载类型无效";
  let kind := to_lower (trim_space kind) in
  refuse_if (negb (bool_decide (kind = WorkloadKindDeployment) || bool_decide (kind = WorkloadKindStatefulSet)))
    (ValidationError "工作负载类型必须为 Deployment 或 StatefulSet") ;;
  app ← step_or (GetApplication applicationID) (λ _, NotFound "应用不存在");
  if decide (app_WorkloadKind app = kind) then mret app else
  step_or (UpdateKind migrator (Some app) kind)
    (λ e, if err_is "ErrWorkloadSnapshot" e then DBError "读取成功发布快照失败"
          else if err_is "ErrWorkloadPersistence" e then db_error e else invalid e) ;;
  mret (set_app_kind kind app).
End handlers.

(** ** Properties *)

(** *** The hierarchy *)

Definition projects (db : DB) : gmap Z Project := t_rows (tbl db).
Definition environments (db : DB) : gmap Z Environment := t_rows (tbl db).
Definition applications (db : DB) : gmap Z Application := t_rows (tbl db).

(** Every environment is one of a project, with a namespace of its own, and every application is in an
    environment of its project. *)
Record hierarchy (db : DB) : Prop := {
  hie_projects : keyed (tbl (A := Project) db);
  hie_environments : environments_ok db;
  hie_applications : keyed (tbl (A := Application) db);
  hie_environment i e : environments db !! i = Some e → is_Some (projects db !! env_ProjectID e);
  hie_application i a : applications db !! i = Some a →
    ∃ e, environments db !! app_EnvironmentID a = Some e ∧ env_ProjectID e = app_ProjectID a
}.

Lemma hierarchy_put_projects db (t : table Project) :
  hierarchy db → keyed t → (∀ i e, environments db !! i = Some e → is_Some (t_rows t !! env_ProjectID e)) → hierarchy (put t db).
Proof.
  intros [Hp He Ha Hep Hae] Hk Ht. destruct db. split; try done. by eapply environments_ok_same; [|exact He].
Qed.
Lemma hierarchy_put_environments db (t : table Environment) :
  hierarchy db → environments_ok (put t db) → (∀ i e, t_rows t !! i = Some e → is_Some (projects db !! env_ProjectID e)) →
  (∀ i a, applications db !! i = Some a → ∃ e, t_rows t !! app_EnvironmentID a = Some e ∧ env_ProjectID e = app_ProjectID a) →
  hierarchy (put t db).
Proof. intros [Hp He Ha Hep Hae] Hk Ht Ht'. destruct db. by split. Qed.
Lemma hierarchy_put_applications db (t : table Application) :
  hierarchy db → keyed t →
  (∀ i a, t_rows t !! i = Some a → ∃ e, environments db !! app_EnvironmentID a = Some e ∧ env_ProjectID e = app_ProjectID a) →
  hierarchy (put t db).
Proof. intros [Hp He Ha Hep Hae] Hk Ht. destruct db. split; try done. by eapply environments_ok_same; [|exact He]. Qed.
Lemma hierarchy_index db u db' : create_namespace_index db = Ok (u, db') → hierarchy db → hierarchy db'.
Proof.
  unfold create_namespace_index. destruct (db_namespace_index db); [by intros [= _ <-]|]. case_decide; [|done].
  destruct db. intros [= _ <-] [Hp He Ha Hep Hae]. split; try done. by eapply environments_ok_same; [|exact He].
Qed.

Section hierarchy.
Context `{K8sLibrary} {C : Type} `{Surroundings}.
#[local] Abbreviation W := (World C).
#[local] Abbreviation Handler := (handler W).
#[local] Abbreviation from := (HandlerSteps.from (C := C) hierarchy).
#[local] Abbreviation leaves := (HandlerSteps.leaves (C := C) hierarchy).

(** What the lookups find. *)
Lemma found_project db id p : hierarchy db → first_row (select (λ p, bool_decide (pr_ID p = id)) (tbl db)) = Ok p →
  projects db !! id = Some p ∧ pr_ID p = id.
Proof.
  intros Hdb. rewrite (first_by_key _ _ id (hie_projects _ Hdb)) by by intros a ?%bool_decide_eq_true. fold (projects db).
  destruct (projects db !! id) as [x|] eqn:Hx; [|done]. case_bool_decide; [|done]. by intros [= <-].
Qed.
Lemma found_environment db projectID id e : hierarchy db →
  first_row (select (λ e, bool_decide (env_ProjectID e = projectID) && bool_decide (env_ID e = id)) (tbl db)) = Ok e →
  environments db !! id = Some e ∧ env_ProjectID e = projectID ∧ env_ID e = id.
Proof.
  intros Hdb. rewrite (first_by_key _ _ id (eok_keyed _ (hie_environments _ Hdb)))
    by by intros a [_ ?%bool_decide_eq_true]%andb_true_iff. fold (environments db).
  destruct (environments db !! id) as [x|] eqn:Hx; [|done]. destruct (bool_decide _ && _) eqn:Ht; [|done].
  apply andb_true_iff in Ht as [?%bool_decide_eq_true ?%bool_decide_eq_true]. by intros [= <-].
Qed.
Lemma found_application db id a : hierarchy db → get_application db id = Ok a →
  ∃ row, applications db !! id = Some row ∧ app_ID a = id ∧ app_ProjectID a = app_ProjectID row ∧ app_EnvironmentID a = app_EnvironmentID row.
Proof.
  intros Hdb Hg. pose proof (get_application_id _ _ _ Hg) as Hid. revert Hg. unfold get_application.
  rewrite (first_by_key _ _ id (hie_applications _ Hdb)) by by intros x ?%bool_decide_eq_true. fold (applications db).
  destruct (applications db !! id) as [x|] eqn:Hx; [|done]. case_bool_decide; [|done]. intros [= <-]. exists x.
  split_and!; [done|done|..]; destruct x; unfold LoadCapabilities; cbn; repeat case_match; done.
Qed.
Lemma keeps_reconcile_hierarchy : keeps (λ w : W, hierarchy (w_db w)) ReconcileEnvironmentNamespaceUniqueness.
Proof.
  unfold ReconcileEnvironmentNamespaceUniqueness. apply keeps_bind; [apply keeps_query|]. intros l.
  destruct (negb (empty_list l)); [apply keeps_ret|]. apply keeps_statement. intros db u db' Hdb Hf. by eapply hierarchy_index.
Qed.

Lemma leaves_CreateProject db project : hierarchy db → leaves (CreateProject project) db.
Proof.
  intros Hdb. apply leaves_statement; [done|]. intros b db' ([c t] & Hc & [= <- <-])%result_bind_Ok.
  apply (keyed_create _ _ _ _ (hie_projects _ Hdb)) in Hc as (Hk & _ & _ & Hrows).
  apply hierarchy_put_projects; [done..|]. intros i e He. cbn [snd]. rewrite Hrows. apply lookup_insert_is_Some'. right.
  by eapply hie_environment.
Qed.
Lemma leaves_UpdateProject db project registry :
  hierarchy db → leaves (UpdateProject project registry) db.
Proof.
  intros Hdb. apply leaves_statement; [done|]. intros b db' (t & Hc & Hres)%result_bind_Ok. injection Hres as _ <-.
  apply (keyed_save _ _ _ (hie_projects _ Hdb)) in Hc as (Hk & Hrows).
  apply hierarchy_put_projects; [done..|]. intros i e He. rewrite Hrows. apply lookup_insert_is_Some'. right.
  by eapply hie_environment.
Qed.
Lemma leaves_DeleteProject db id : hierarchy db → (∀ i e, environments db !! i = Some e → env_ProjectID e ≠ id) →
  leaves (DeleteProject id) db.
Proof.
  intros Hdb Hno. apply leaves_statement; [done|]. intros b db' (t & Hc & Hres)%result_bind_Ok. injection Hres as _ <-.
  injection Hc as <-. apply hierarchy_put_projects; [done|by apply keyed_delete, Hdb|]. intros i e He.
  destruct (hie_environment _ Hdb i e He) as [p Hp]. exists p. apply map_lookup_filter_Some. split; [done|].
  apply bool_decide_eq_false. intros Heq. apply (Hno _ _ He). pose proof (keyed_id _ (hie_projects _ Hdb) _ _ Hp) as Hid.
  cbn in *. congruence.
Qed.

Lemma leaves_CreateEnvironment db e : hierarchy db → is_Some (projects db !! env_ProjectID e) →
  leaves (CreateEnvironment e) db.
Proof.
  intros Hdb Hp. apply leaves_statement; [done|]. intros b db' Hf.
  apply result_bind_Ok in Hf as ([] & He & ([c t] & Hc & Hres)%result_bind_Ok). injection Hres as _ <-. cbn [snd].
  apply (keyed_create _ _ _ _ (eok_keyed _ (hie_environments _ Hdb))) in Hc as (Hk & -> & Hfree & Hrows).
  apply hierarchy_put_environments; [done|..].
  - eapply environments_ok_insert; [apply Hdb|done|done|]. intros j x Hx Hn.
    by destruct (ensure_available _ _ _ (hie_environments _ Hdb) He j x Hx Hn) as [? _].
  - intros i x. rewrite Hrows. intros [[_ <-]|[_ Hx]]%lookup_insert_Some; [exact Hp|]. by eapply hie_environment.
  - intros i a Ha. destruct (hie_application _ Hdb i a Ha) as (x & Hx & Hpx). exists x. rewrite Hrows.
    rewrite lookup_insert_ne; [done|]. intros Heq. rewrite <-Heq in Hx. unfold environments in Hx. congruence.
Qed.
Lemma leaves_UpdateEnvironment db e : hierarchy db →
  (∃ x, environments db !! env_ID e = Some x ∧ env_ProjectID x = env_ProjectID e) → leaves (UpdateEnvironment e) db.
Proof.
  intros Hdb (x0 & Hx0 & Hp0). apply leaves_then; [|intros; apply keeps_reconcile_hierarchy].
  apply leaves_statement; [done|]. intros b db' Hf.
  apply result_bind_Ok in Hf as ([] & He & (t & Hc & Hres)%result_bind_Ok). injection Hres as _ <-.
  apply (keyed_save _ _ _ (eok_keyed _ (hie_environments _ Hdb))) in Hc as (Hk & Hrows).
  apply hierarchy_put_environments; [done|..].
  - eapply environments_ok_insert; [apply Hdb|done|done|]. intros j x Hx Hn.
    by destruct (ensure_available _ _ _ (hie_environments _ Hdb) He j x Hx Hn) as [_ ->].
  - intros i x. rewrite Hrows. intros [[_ <-]|[_ Hx]]%lookup_insert_Some; [rewrite <-Hp0|]; by eapply hie_environment.
  - intros i a Ha. destruct (hie_application _ Hdb i a Ha) as (x & Hx & Hpx). rewrite Hrows.
    destruct (decide (env_ID e = app_EnvironmentID a)) as [Heq|Hne].
    + exists e. cbn [row_id environment_row]. rewrite Heq, lookup_insert_eq. split; [done|]. rewrite Heq in Hx0. congruence.
    + exists x. by rewrite lookup_insert_ne.
Qed.
Lemma leaves_DeleteEnvironment db id : hierarchy db → (∀ i a, applications db !! i = Some a → app_EnvironmentID a ≠ id) →
  leaves (DeleteEnvironment id) db.
Proof.
  intros Hdb Hno. apply leaves_then; [|intros; apply keeps_reconcile_hierarchy].
  apply leaves_statement; [done|]. intros b db' (t & Hc & Hres)%result_bind_Ok. injection Hres as _ <-. injection Hc as <-.
  pose proof (hie_environments _ Hdb) as [Hk Hn]. apply hierarchy_put_environments; [done|..].
  - split; rewrite tbl_put; [by apply keyed_delete|]. simpl.
    intros i j a b' [Ha _]%map_lookup_filter_Some [Hb _]%map_lookup_filter_Some. by eapply Hn.
  - intros i e [He _]%map_lookup_filter_Some. by eapply hie_environment.
  - intros i a Ha. destruct (hie_application _ Hdb i a Ha) as (x & Hx & Hpx). exists x. split; [|done].
    apply map_lookup_filter_Some. split; [done|]. apply bool_decide_eq_false. intros Heq.
    apply (Hno _ _ Ha). pose proof (keyed_id _ Hk _ _ Hx) as Hid. cbn in *. congruence.
Qed.

Lemma SetCapabilities_fields a values b : SetCapabilities a values = Ok b →
  app_ID b = app_ID a ∧ app_ProjectID b = app_ProjectID a ∧ app_EnvironmentID b = app_EnvironmentID a.
Proof. intros (tags & _ & [= <-])%result_bind_Ok. by destruct a. Qed.
Lemma leaves_CreateApplication db a : hierarchy db →
  (∃ e, environments db !! app_EnvironmentID a = Some e ∧ env_ProjectID e = app_ProjectID a) → leaves (CreateApplication a) db.
Proof.
  intros Hdb (e & He & Hp). apply leaves_lifted; [done|]. intros b (Hid & Hpb & Heb)%SetCapabilities_fields.
  apply leaves_statement; [done|]. intros c db' ([x t] & Hc & Hres)%result_bind_Ok. injection Hres as _ <-. cbn [snd].
  apply (keyed_create _ _ _ _ (hie_applications _ Hdb)) in Hc as (Hk & -> & _ & Hrows).
  apply hierarchy_put_applications; [done..|]. intros i y. rewrite Hrows.
  intros [[_ <-]|[_ Hy]]%lookup_insert_Some; [|by eapply hie_application]. exists e.
  destruct b; cbn in *. by rewrite Heb, Hpb.
Qed.
Lemma leaves_UpdateApplication db a : hierarchy db →
  (∃ e, environments db !! app_EnvironmentID a = Some e ∧ env_ProjectID e = app_ProjectID a) → leaves (UpdateApplication a) db.
Proof.
  intros Hdb (e & He & Hp). apply leaves_lifted; [done|]. intros b (Hid & Hpb & Heb)%SetCapabilities_fields.
  apply leaves_statement; [done|]. intros c db' (t & Hc & Hres)%result_bind_Ok. injection Hres as _ <-.
  apply (keyed_save _ _ _ (hie_applications _ Hdb)) in Hc as (Hk & Hrows).
  apply hierarchy_put_applications; [done..|]. intros i y. rewrite Hrows.
  intros [[_ <-]|[_ Hy]]%lookup_insert_Some; [|by eapply hie_application]. exists e. by rewrite Heb, Hpb.
Qed.
Lemma leaves_UpdateKind migrator app kind db : hierarchy db →
  (∃ e, environments db !! app_EnvironmentID app = Some e ∧ env_ProjectID e = app_ProjectID app) →
  leaves (UpdateKind migrator (Some app) kind) db.
Proof.
  intros Hdb He. assert (leaves (persist_kind app kind) db) as Hp.
  { apply leaves_wrapping, leaves_UpdateApplication; [done|]. by destruct app. }
  unfold UpdateKind. case_decide; [by apply (leaves_nothing _ (Ok tt))|].
  apply leaves_read; [done|apply (attempt_db _ _ (reads_query _))|]. intros [release|e].
  - destruct (decode_ReleaseSpec _ _); [|by apply (leaves_nothing _ (Err _))].
    destruct migrator as [m|]; [|by apply (leaves_nothing _ (Err _))].
    apply leaves_read; [done|apply cluster_keeps_db|]. intros _. by apply leaves_read; [|apply cluster_keeps_db|].
  - destruct (err_is _ e); [done | by apply (leaves_nothing _ (Err _))].
Qed.
Lemma leaves_ReplaceApplicationCapabilities id values db :
  hierarchy db → leaves (ReplaceApplicationCapabilities id values) db.
Proof.
  intros Hdb. apply leaves_lifted; [done|]. intros tags _. apply leaves_then; [|intros _; apply keeps_query].
  apply leaves_statement; [done|]. intros u db' (t & Hc & Hres)%result_bind_Ok. injection Hres as _ <-. injection Hc as <-.
  apply hierarchy_put_applications; [done|apply keyed_update; [by intros []|apply Hdb]|].
  intros i a. rewrite lookup_t_update. intros (b & Hb & Ha)%fmap_Some. destruct (hie_application _ Hdb i b Hb) as (e & He).
  exists e. subst a. case_match; [|done]. by destruct b.
Qed.

(** *** The handlers *)

Variable h : ApplicationHandler (C := C).

Lemma steady_require_kubernetes : steady (require_kubernetes h).
Proof. unfold require_kubernetes. by destruct (available h). Qed.
Lemma steady_route_ids p e : steady (environmentRouteIDs (C := C) p e).
Proof. unfold environmentRouteIDs. eauto using steady_bind, steady_parsed, steady_ret. Qed.
Lemma steady_ensureEnvironmentNamespace client projectID namespace mode allow :
  steady (ensureEnvironmentNamespace (C := C) client projectID namespace mode allow).
Proof.
  unfold ensureEnvironmentNamespace. apply steady_bind; [auto with handlers|]. intros ?. destruct client as [k|]; [|apply steady_ret].
  apply steady_bind; [auto with handlers|]. intros [existing|e]; cbv zeta.
  - do 3 (apply steady_bind; [auto with handlers|]; intros ?). case_decide; auto with handlers.
  - auto 7 with handlers.
Qed.
Lemma steady_environmentNamespaceStatus client namespace : steady (environmentNamespaceStatus (C := C) client namespace).
Proof. unfold environmentNamespaceStatus. destruct client; auto with handlers. Qed.
Lemma steady_change_allowed projectID environmentID environment namespace mode :
  steady (change_allowed h projectID environmentID environment namespace mode).
Proof.
  unfold change_allowed, db_step. apply steady_bind; [eapply steady_step_or, reads_then, reads_query|]. intros n.
  apply steady_bind; [eapply steady_step_or, reads_then, reads_query|]. intros b. apply steady_bind; [auto with handlers|].
  intros ?. case_decide; [apply steady_ret|]. apply steady_bind; [apply steady_ret|]. intros m. apply steady_bind; [apply steady_require_kubernetes|]. intros k.
  apply steady_bind; [eapply steady_step_or, reads_query|]. intros ?. apply steady_reporting, steady_ensureEnvironmentNamespace.
Qed.
Lemma steady_requested_registry projectID asked current : steady (requested_registry (C := C) projectID asked current).
Proof.
  unfold requested_registry. destruct asked as [id|]; [|apply steady_ret]. case_decide; [apply steady_ret|].
  apply steady_step; [by apply reads_query|]. intros [r|e]; [|apply steady_ret]. cbn. by destruct (ireg_Enabled r).
Qed.

Inductive hierarchy_call :=
  | CallCreateProject (body : option projectRequest) (userID : Z)
  | CallUpdateProject (project : string) (body : option projectRequest)
  | CallDeleteProject (project : string)
  | CallCreateEnvironment (project : string) (body : option environmentRequest)
  | CallUpdateEnvironment (project environment : string) (body : option environmentRequest)
  | CallSyncEnvironment (project environment : string)
  | CallDeleteEnvironment (project environment : string)
  | CallCreateApplication (body : option applicationRequest) (userID : Z)
  | CallUpdateCapabilities (id : string) (body : option (list string))
  | CallUpdateWorkloadKind (migrator : option (WorkloadMigrator C)) (id : string) (body : option string).

Definition serve_hierarchy (call : hierarchy_call) : Handler unit :=
  match call with
  | CallCreateProject body userID => answered_by (Handler_CreateProject body userID)
  | CallUpdateProject project body => answered_by (Handler_UpdateProject project body)
  | CallDeleteProject project => answered_by (Handler_DeleteProject project)
  | CallCreateEnvironment project body => answered_by (Handler_CreateEnvironment h project body)
  | CallUpdateEnvironment project environment body => answered_by (Handler_UpdateEnvironment h project environment body)
  | CallSyncEnvironment project environment => answered_by (SyncEnvironmentNamespace h project environment)
  | CallDeleteEnvironment project environment => answered_by (Handler_DeleteEnvironment project environment)
  | CallCreateApplication body userID => answered_by (Handler_CreateApplication body userID)
  | CallUpdateCapabilities id body => answered_by (UpdateCapabilities id body)
  | CallUpdateWorkloadKind migrator id body => answered_by (Handler_UpdateWorkloadKind h migrator id body)
  end.

#[local] Hint Resolve steady_require_kubernetes steady_route_ids steady_ensureEnvironmentNamespace
  steady_environmentNamespaceStatus steady_change_allowed steady_requested_registry : handlers.

Lemma from_Handler_CreateProject db body userID : hierarchy db → from db (Handler_CreateProject body userID).
Proof. intros Hdb. unfold Handler_CreateProject. pass. pass. by apply from_last, leaves_CreateProject. Qed.
Lemma from_Handler_UpdateProject db project body : hierarchy db → from db (Handler_UpdateProject project body).
Proof.
  intros Hdb. unfold Handler_UpdateProject. do 4 pass. apply from_steady; [|done|intros ?; pass].
  - case_decide; [done|]. apply steady_bind; [|auto with handlers]. eapply steady_step_or, reads_then, reads_query.
  - cbv beta zeta. by apply (from_write _ db _ _ (λ _, _)), leaves_UpdateProject.
Qed.
Lemma from_Handler_DeleteProject db project : hierarchy db → from db (Handler_DeleteProject project).
Proof.
  intros Hdb. unfold Handler_DeleteProject. do 5 pass. cbv beta.
  apply (from_write _ db _ _ (λ _, _)), leaves_DeleteProject; [done|]. intros i e He Hp.
  match goal with Hc : _ || _ = false |- _ => apply orb_false_iff in Hc as [Hn%bool_decide_eq_false _] end.
  assert (length (select (λ e, bool_decide (env_ProjectID e = a)) (tbl db)) = 0) as Hzero by lia.
  apply (none_counted _ _ i e) in Hzero; [|done]. by apply bool_decide_eq_false in Hzero.
Qed.

Lemma from_Handler_CreateEnvironment db project body : hierarchy db → from db (Handler_CreateEnvironment h project body).
Proof.
  intros Hdb. unfold Handler_CreateEnvironment. do 7 pass. cbv beta zeta. apply from_last, leaves_CreateEnvironment; [done|].
  cbn [env_ProjectID].
  match goal with Hp : first_row _ = Ok _ |- _ => apply found_project in Hp as [-> _]; [by eexists|done] end.
Qed.
Lemma from_Handler_UpdateEnvironment db project environment body :
  hierarchy db → from db (Handler_UpdateEnvironment h project environment body).
Proof.
  intros Hdb. unfold Handler_UpdateEnvironment. pass. destruct a as [projectID environmentID]. do 2 pass.
  apply from_steady; [case_decide; auto with handlers|done|intros ?]. pass. cbv beta.
  apply (from_write _ db _ _ (λ _, _)), leaves_UpdateEnvironment; [done|]. cbn [env_ID env_ProjectID].
  match goal with Hp : first_row _ = Ok ?e |- _ => apply found_environment in Hp as (He & Hp & Hi); [|done]; exists e; by rewrite Hi end.
Qed.
Lemma steady_SyncEnvironmentNamespace project environment : steady (SyncEnvironmentNamespace h project environment).
Proof.
  unfold SyncEnvironmentNamespace. apply steady_bind; [auto with handlers|]. intros [projectID environmentID].
  apply steady_bind; [eapply steady_step_or; reading|]. intros e. apply steady_bind; [auto with handlers|]. intros k.
  apply steady_bind; [eapply steady_step_or; reading|]. intros ?.
  apply steady_bind; [auto with handlers|]. intros ?. auto with handlers.
Qed.
Lemma from_Handler_DeleteEnvironment db project environment :
  hierarchy db → from db (Handler_DeleteEnvironment project environment).
Proof.
  intros Hdb. unfold Handler_DeleteEnvironment. pass. destruct a as [projectID environmentID]. do 3 pass. cbv beta.
  apply (from_write _ db _ _ (λ _, _)), leaves_DeleteEnvironment; [done|]. intros i x Hx He.
  match goal with Hc : bool_decide _ = false |- _ => apply bool_decide_eq_false in Hc as Hn end.
  assert (length (select (λ a, bool_decide (app_EnvironmentID a = environmentID)) (tbl db)) = 0) as Hzero by lia.
  apply (none_counted _ _ i x) in Hzero; [|done]. by apply bool_decide_eq_false in Hzero.
Qed.
Lemma from_Handler_CreateApplication db body userID : hierarchy db → from db (Handler_CreateApplication body userID).
Proof.
  intros Hdb. unfold Handler_CreateApplication. do 4 pass. cbv beta.
  apply from_last, leaves_CreateApplication; [done|]. cbn [new_application app_EnvironmentID app_ProjectID].
  match goal with Hp : first_row _ = Ok ?e |- _ => apply found_environment in Hp as (He & Hp & Hi); [|done]; by exists e end.
Qed.
Lemma from_UpdateCapabilities db id body : hierarchy db → from db (UpdateCapabilities id body).
Proof. intros Hdb. unfold UpdateCapabilities. do 2 pass. by apply from_last, leaves_ReplaceApplicationCapabilities. Qed.
Lemma from_Handler_UpdateWorkloadKind db migrator id body : hierarchy db → from db (Handler_UpdateWorkloadKind h migrator id body).
Proof.
  intros Hdb. unfold Handler_UpdateWorkloadKind. do 5 pass. cbv beta. destruct (decide (app_WorkloadKind _ = _)); [by apply from_known|].
  apply (from_write _ db _ _ (λ _, _)), leaves_UpdateKind; [done|].
  match goal with Hg : get_application _ _ = Ok _ |- _ => apply found_application in Hg as (row & Hrow & _ & -> & ->); [|done] end.
  by apply (hie_application _ Hdb _ row Hrow).
Qed.

Lemma from_serve db call : hierarchy db → from db (serve_hierarchy call).
Proof.
  intros Hdb. destruct call; apply from_answered;
    auto using from_Handler_CreateProject, from_Handler_UpdateProject, from_Handler_DeleteProject,
      from_Handler_CreateEnvironment, from_Handler_UpdateEnvironment, from_Handler_DeleteEnvironment,
      from_Handler_CreateApplication, from_UpdateCapabilities, from_Handler_UpdateWorkloadKind.
  by apply from_fixed; [apply steady_SyncEnvironmentNamespace|].
Qed.

(** The requests one after the other. *)
Definition serve_all (calls : list hierarchy_call) (w : W) : W := foldl (λ w call, (alone (serve_hierarchy call) w).2) w calls.

End hierarchy.

(** *** The namespace of an environment *)

Section namespaces.
Context `{K8sLibrary} `{!APIServer} `{Surroundings}.
#[local] Abbreviation W := (World Cluster).

(** What the platform may do to a namespace for a project: nothing, claim the one it has just read, or create it. *)
Inductive namespace_effect (projectID : Z) (namespace mode : string) (allowExisting : bool) : list exchange → Prop :=
  | effect_none : namespace_effect projectID namespace mode allowExisting []
  | effect_read r : namespace_effect projectID namespace mode allowExisting [Exchange (GetNamespace namespace) r]
  | effect_claim existing r :
      namespace_owner existing = "" → ln_Phase existing = "" ∨ ln_Phase existing = "Active" → mode ≠ "create" ∨ allowExisting = true →
      namespace_effect projectID namespace mode allowExisting
        [Exchange (GetNamespace namespace) (Ok existing); Exchange (UpdateNamespace (claim_namespace projectID existing)) r]
  | effect_create e r :
      is_not_found e = true → mode ≠ "bind" →
      namespace_effect projectID namespace mode allowExisting
        [Exchange (GetNamespace namespace) (Err e); Exchange (CreateNamespace namespace (claimed_labels projectID ∅)) r].

(** The namespace that was read belonged to the project, or the claim or the creation was accepted. *)
Definition belongs_to (projectID : Z) (namespace : string) (evs : list exchange) : Prop :=
  (∃ existing, evs = [Exchange (GetNamespace namespace) (Ok existing)] ∧ namespace_owner existing = dec projectID) ∨
  (∃ existing n, evs = [Exchange (GetNamespace namespace) (Ok existing); Exchange (UpdateNamespace (claim_namespace projectID existing)) (Ok n)]) ∨
  (∃ e n, evs = [Exchange (GetNamespace namespace) (Err e); Exchange (CreateNamespace namespace (claimed_labels projectID ∅)) (Ok n)]).

Lemma alone_step_or {A B} (m : M W A) g (f : A → handler W B) w :
  alone (step_or m g ≫= f) w = match m w with (Ok a, w') => alone (f a) w' | (Err e, w') => (Err (g e), w') end.
Proof. cbn [step_or mbind handler_mbind handler_bind alone]. by destruct (m w) as [[a|e] w']. Qed.
Lemma alone_cluster_step {A B} (m : M Cluster A) (f : result A → handler W B) w :
  alone (cluster_step m ≫= f) w = let '(r, w') := on_cluster m w in alone (f r) w'.
Proof. cbn [cluster_step tried mbind handler_mbind handler_bind alone]. by destruct (on_cluster m w). Qed.
Lemma alone_refuse_if {B} c e (f : unit → handler W B) w :
  alone (refuse_if c e ≫= f) w = if c then (Err e, w) else alone (f tt) w.
Proof. by destruct c. Qed.

Lemma stopped projectID namespace mode allowExisting e x (c1 c0 : Cluster) (w : W) :
  c_log c1 = c_log c0 ++ [Exchange (GetNamespace namespace) x] →
  w_db (set_cluster c1 w) = w_db w ∧
  ∃ evs, c_log (w_cluster (set_cluster c1 w)) = c_log c0 ++ evs ∧
    namespace_effect projectID namespace mode allowExisting evs ∧
    (false = true → evs = [] ∧ is_ok (Err (A := unit) e) = false) ∧
    (Err e = Ok tt → belongs_to projectID namespace evs).
Proof. intros Hlog. split; [done|]. eexists. split; [exact Hlog|]. split_and!; [constructor|done|done]. Qed.

Variable certificates : Context → string → string → M Cluster CertInfo.

(** C22: the namespace of an environment. The platform reads the namespace first and then does at most one
    thing to it: it claims the one it read, when no project owned it, it was not on its way out and the
    request may bind an existing one, changing nothing but its two labels; or it creates one that did not
    exist, when the request does not insist on an existing one. A namespace of the system is never asked
    for. When the platform is satisfied, the namespace is labelled with the project, by the last answer of
    the cluster to a write or by the labels it read. *)
Theorem namespaces_claimed ctx (client : Client) k projectID namespace mode allowExisting (w w' : W) r
    (Hadapter : NewKubernetesAdapter certificates ctx (Some client) = Some k)
    (Hrun : alone (ensureEnvironmentNamespace (Some k) projectID namespace mode allowExisting) w = (r, w')) :
  w_db w' = w_db w ∧
  ∃ evs, c_log (w_cluster w') = c_log (w_cluster w) ++ evs ∧
    namespace_effect projectID namespace mode allowExisting evs ∧
    (isSystemNamespace namespace = true → evs = [] ∧ is_ok r = false) ∧
    (r = Ok tt → belongs_to projectID namespace evs).
Proof.
  unfold NewKubernetesAdapter in Hadapter. cbn [mbind option_bind] in Hadapter.
  destruct (kc_Clientset client); [|done]. injection Hadapter as <-.
  revert Hrun. unfold ensureEnvironmentNamespace. rewrite alone_refuse_if.
  destruct (isSystemNamespace namespace) eqn:Hsys.
  { intros [= <- <-]. split; [done|]. exists []. rewrite app_nil_r. split_and!; [done|constructor|done|done]. }
  rewrite alone_cluster_step. unfold on_cluster, call. cbn [adapter_GetNamespace adapter_UpdateNamespace adapter_CreateNamespace].
  set (c1 := exchanged ctx (GetNamespace namespace) (w_cluster w)).
  assert (c_log c1 = c_log (w_cluster w) ++ [Exchange (GetNamespace namespace) (respond (w_cluster w) ctx (GetNamespace namespace))])
    as Hlog by reflexivity. clearbody c1.
  assert (∀ q, c_log (exchanged ctx q c1) = c_log c1 ++ [Exchange q (respond c1 ctx q)]) as Hnext by done.
  destruct (respond (w_cluster w) ctx (GetNamespace namespace)) as [existing|e]; rewrite !alone_refuse_if.
  - destruct (bool_decide (ln_Phase existing ≠ "") && _) eqn:Hphase; [intros [= <- <-]; by eapply stopped|].
    destruct (bool_decide (mode = _) && _) eqn:Hmode; [intros [= <- <-]; by eapply stopped|].
    destruct (bool_decide (namespace_owner existing ≠ "") && _) eqn:Howner; [intros [= <- <-]; by eapply stopped|].
    apply andb_false_iff in Hphase, Hmode, Howner. rewrite !bool_decide_eq_false in Hphase, Howner. rewrite bool_decide_eq_false, negb_false_iff in Hmode.
    case_decide as Ho.
    + rewrite alone_step_or. cbn [w_cluster set_cluster].
      destruct (respond c1 ctx (UpdateNamespace _)) as [n|e] eqn:Hr; intros [= <- <-]; (split; [done|]);
        eexists; (split; [etransitivity; [apply Hnext|]; rewrite Hlog, Hr, <-app_assoc; reflexivity|]); (split_and!; [|done|]);
        try (apply effect_claim; [done| |done]; destruct Hphase as [?%dec_stable|?%dec_stable]; auto); try done.
      intros _. right. left. by eexists _, _.
    + intros [= <- <-]. split; [done|]. eexists. split; [exact Hlog|]. split_and!; [constructor|done|].
      intros _. left. exists existing. split; [done|]. destruct Howner as [Hw|Hw]; apply dec_stable in Hw; done.
  - destruct (negb _) eqn:Hnf; [intros [= <- <-]; by eapply stopped|].
    destruct (bool_decide _) eqn:Hmode; [intros [= <- <-]; by eapply stopped|].
    apply negb_false_iff in Hnf. apply bool_decide_eq_false in Hmode.
    rewrite alone_step_or. cbn [w_cluster set_cluster].
    destruct (respond c1 ctx (CreateNamespace _ _)) as [n|e'] eqn:Hr; intros [= <- <-]; (split; [done|]);
      eexists; (split; [etransitivity; [apply Hnext|]; rewrite Hlog, Hr, <-app_assoc; reflexivity|]); (split_and!; [by apply effect_create|done|]); try done.
    intros _. right. right. by eexists _, _.
Qed.
End namespaces.

(** ** Concrete runs *)

#[local] Existing Instances calm sample_library.

(** A project with an environment and no application. *)
Definition empty_environment : World unit :=
  {| w_db := put (empty_table (A := Application)) sample_store; w_tick := 0; w_cluster := tt; w_trace := [] |}.
Definition offline_handler : ApplicationHandler (C := unit) :=
  {| aph_delegationSecret := ""; aph_kubernetes := None;
     aph_workflow := {| wf_encKey := ""; wf_applier := None; wf_synchronizer := None |} |}.
Lemma empty_environment_hierarchy : hierarchy (w_db empty_environment).
Proof.
  split; try apply keyed_one_row.
  - split; [apply keyed_one_row|]. by intros i j a b [-> ->]%lookup_one_row [-> ->]%lookup_one_row _.
  - by split.
  - intros i e [-> ->]%lookup_one_row. by eexists.
  - done.
Qed.

Definition web_request : hierarchy_call (C := unit) :=
  CallCreateApplication (Some {| arq_ProjectID := 1; arq_EnvironmentID := 2; arq_Name := " web " |}) 1.
Definition removal : hierarchy_call (C := unit) := CallDeleteEnvironment "1" "2".


(** The removal counts the applications, the request that creates one finds its environment and the
    application is stored before the environment is deleted: both answer with a success. *)
Definition raced := interleave [0; 0; 1; 1; 1; 0]%nat (serve_hierarchy offline_handler <$> [removal; web_request]) empty_environment.
Lemma hierarchy_raced :
  hierarchy (w_db empty_environment) ∧ raced.1 = [Finished (Ok tt); Finished (Ok tt)] ∧ ¬ hierarchy (w_db raced.2).
Proof.
  split; [apply empty_environment_hierarchy|]. split; [vm_compute; reflexivity|]. intros Hbad.
  destruct (applications (w_db raced.2) !! 1%Z) as [a|] eqn:Ha; [|vm_compute in Ha; discriminate Ha].
  destruct (hie_application _ Hbad 1 a Ha) as (e & He & _).
  assert (app_EnvironmentID <$> applications (w_db raced.2) !! 1%Z = Some 2%Z) as Hid by (vm_compute; reflexivity).
  rewrite Ha in Hid. injection Hid as Hid. rewrite Hid in He. vm_compute in He. discriminate He.
Qed.

(** A cluster whose one namespace belongs to no project. *)
Definition free_namespace : LiveNamespace :=
  {| ln_Meta := {| lm_Name := "shop-test"; lm_Namespace := ""; lm_Labels := {["team" := "shop"]}; lm_Annotations := ∅;
                   lm_ResourceVersion := "3"; lm_Generation := 0; lm_CreationTimestamp := 0 |};
     ln_Phase := "Active" |}.
#[local] Instance namespace_server : APIServer :=
  {| respond _ _ q := match q return result (answer q) with
                      | GetNamespace _ => Ok free_namespace
                      | UpdateNamespace n => Ok n
                      | _ => Err not_found
                      end;
     latency _ _ := 0; tick_first _ := true |}.
Definition no_certificates (ctx : Context) (namespace name : string) : M Cluster CertInfo := throw (EText "no certificates").
Definition namespace_adapter : option (KubernetesAdapter Cluster) :=
  NewKubernetesAdapter no_certificates None (Some {| kc_Clientset := true; kc_Dynamic := Ok tt |}).
Definition namespace_world : World Cluster :=
  {| w_db := empty_db; w_tick := 0; w_cluster := {| c_log := []; c_time := 0; c_cache := None |}; w_trace := [] |}.
Definition bound_run := alone (ensureEnvironmentNamespace namespace_adapter 1 "shop-test" "bind" false) namespace_world.
Lemma namespaces_claimed_witness :
  bound_run.1 = Ok tt ∧ belongs_to 1 "shop-test" (c_log (w_cluster bound_run.2)).
Proof.
  split; [vm_compute; reflexivity|].
  destruct (namespaces_claimed no_certificates None {| kc_Clientset := true; kc_Dynamic := Ok tt |} _
    1 "shop-test" "bind" false namespace_world bound_run.2 (Ok tt) eq_refl) as (_ & evs & Hlog & _ & _ & Hok).
  - vm_compute. reflexivity.
  - rewrite Hlog. by apply Hok.
Defined.
