(* ===== verification/Endpoints.v ===== *)
(** * Endpoints of applications

    [internal/api/application/endpoint_handler.go]: the handlers that bind a managed domain to an
    application. A handler prepares the row, chooses the port of the service, gives the whole list of
    endpoints to the cluster and writes the row last. Two endpoints with an ingress must not share a
    route: the handlers count before they write. *)
From Stdlib Require Import ZArith Ascii String Lia.
From stdpp Require Import base sorting pretty numbers gmap strings list.
From S2P Require Import Prelude GoStrings Json Interleaving ReleaseSpec ReleaseSnapshot Models PlatformModels Security ReleaseValidation ReleaseRendering Cluster KubernetesApplier Store PlatformStore Api IntegrationSessions ReleaseExecution ReleaseWorkflow Templates HandlerSteps ApplicationHandlers.

Record applicationEndpointRequest := {
  erq_DomainID : Z; erq_Path : string; erq_ServicePort : Z; erq_Protocol : string; erq_TLSEnabled : bool;
  erq_IngressEnabled : option bool; erq_AccessMode : string
}.
Definition bound_domain (req : applicationEndpointRequest) : bool := negb (bool_decide (erq_DomainID req = 0%Z)).

(** The context of the endpoints; a release has one with its sequence. *)
Definition endpoint_context (app : Application) : ApplicationContext :=
  {| ac_ProjectID := app_ProjectID app; ac_EnvironmentID := app_EnvironmentID app;
     ac_ProjectName := pr_Name (app_Project app); ac_EnvironmentName := env_Name (app_Environment app);
     ac_ApplicationName := app_Name app; ac_Namespace := env_Namespace (app_Environment app);
     ac_ReleaseSequence := 0; ac_WorkloadKind := app_WorkloadKind app |}.
(** [ServiceSpec{Port: port}] *)
Definition service_on (port : Z) : ServiceSpec :=
  {| svc_Port := port; svc_TargetPort := 0; svc_Protocol := ""; svc_Type := ""; svc_NodePort := 0;
     svc_ExternalTrafficPolicy := ""; svc_Ports := [] |}.
Definition set_endpoint_id (id : Z) (e : ApplicationEndpoint) : ApplicationEndpoint :=
  let '(Build_ApplicationEndpoint _ a d x dm p sp pr t ie im ts ir am) := e in
  Build_ApplicationEndpoint id a d x dm p sp pr t ie im ts ir am.
Definition set_tls_secret (secret : string) (e : ApplicationEndpoint) : ApplicationEndpoint :=
  let '(Build_ApplicationEndpoint i a d x dm p sp pr t ie im _ ir am) := e in
  Build_ApplicationEndpoint i a d x dm p sp pr t ie im secret ir am.
Definition set_ingress_enabled (enabled : bool) (e : ApplicationEndpoint) : ApplicationEndpoint :=
  let '(Build_ApplicationEndpoint i a d x dm p sp pr t _ im ts ir am) := e in
  Build_ApplicationEndpoint i a d x dm p sp pr t enabled im ts ir am.
Definition path_or_root (path : string) : string :=
  let path := trim_space path in if decide (path = "") then "/" else path.
Definition access_mode (mode : string) : string :=
  let mode := trim_space mode in if decide (mode = "") then ApplicationEndpointAccessPublic else mode.
(** [make([]T, 0, len(endpoints)-1)] *)
Definition makeslice_panic : goerr := ESent "panic" "runtime error: makeslice: cap out of range".

Section handlers.
Context `{K8sLibrary} {C : Type} `{Surroundings}.
#[local] Abbreviation W := (World C).
#[local] Abbreviation Handler := (handler W).
Variable h : ApplicationHandler (C := C).

(** The service of the latest successful release, else of the default template, else the port of the
    first endpoint, else port 80. *)
Definition service_of (encoded : json) : Handler ServiceSpec :=
  match decode_ReleaseSpec zero_ReleaseSpec encoded with
  | Some spec => mret (rs_Service spec)
  | None => refuse (EText "json: cannot unmarshal")
  end.
Definition applicationServiceSpec (app : Application) : Handler ServiceSpec :=
  release ← tried (GetLatestSuccessfulRelease (app_ID app));
  match release with
  | Ok release => service_of (rel_DesiredSpec release)
  | Err e =>
      refuse_if (negb (err_is "gorm.ErrRecordNotFound" e)) e ;;
      template ← tried (GetDefaultApplicationDeploymentTemplate (app_ID app));
      match template with
      | Ok template => service_of (tpl_Spec template)
      | Err e =>
          refuse_if (negb (err_is "gorm.ErrRecordNotFound" e)) e ;;
          endpoints ← step_or (ListApplicationEndpoints (app_ID app)) id;
          match endpoints with
          | endpoint :: _ => mret (service_on (if bool_decide (0 < ae_ServicePort endpoint)%Z then ae_ServicePort endpoint else 80))
          | [] => mret (service_on 80)
          end
      end
  end.

Definition prepareApplicationEndpoint (client : KubernetesAdapter C) (app : Application) (endpointID : Z)
    (req : applicationEndpointRequest) : Handler ApplicationEndpoint :=
  domain ← step_or (GetManagedDomain (erq_DomainID req)) (λ _, EText "域名不存在或已停用");
  refuse_if (negb (md_Enabled domain)) (EText "域名不存在或已停用") ;;
  refuse_if (bool_decide (md_EnvironmentID domain = 0%Z) || bool_decide (md_EnvironmentID domain ≠ app_EnvironmentID app))
    (EText "域名仅可用于当前应用环境") ;;
  let path := path_or_root (erq_Path req) in
  let ingressEnabled := default true (erq_IngressEnabled req) in
  (if ingressEnabled then
     conflicts ← step_or (CountApplicationEndpointRoute (md_ID domain) path endpointID) (λ e, EWrap "检查域名路由冲突: " e "");
     refuse_if (bool_decide (0 < conflicts))
       (EText ("域名 " +:+ (quote (md_Hostname domain) +:+ (" 的路径 " +:+ (quote path +:+ " 已被其他应用入口使用")))))
   else mret tt) ;;
  let accessMode := access_mode (erq_AccessMode req) in
  refuse_if (negb (bool_decide (accessMode = ApplicationEndpointAccessPublic))
             && negb (bool_decide (accessMode = ApplicationEndpointAccessProtectedConsole))) (EText "入口用途无效") ;;
  let endpoint := {| ae_ID := 0; ae_ApplicationID := app_ID app; ae_DomainID := md_ID domain; ae_Exposure := ExposurePublic;
                     ae_Domain := md_Hostname domain; ae_Path := path; ae_ServicePort := 0; ae_Protocol := "";
                     ae_TLSEnabled := erq_TLSEnabled req; ae_IngressEnabled := ingressEnabled;
                     ae_IngressMode := if ingressEnabled then "ingress" else "metadata"; ae_TLSSecretName := "";
                     ae_IssuerRef := md_IssuerRef domain; ae_AccessMode := accessMode |} in
  if negb (erq_TLSEnabled req) then mret endpoint else
  refuse_if (bool_decide (md_CertificateName domain = "") || bool_decide (md_TLSSecretName domain = "")) (EText "域名尚未申请证书") ;;
  certificate ← step_or (on_cluster (adapter_GetCertificateContext client (md_Namespace domain) (md_CertificateName domain)))
    (λ e, EWrap "读取域名证书: " e "");
  refuse_if (bool_decide (ci_Status certificate ≠ "Ready"))
    (EText ("域名证书尚未就绪: " +:+ (if decide (ci_Reason certificate = "") then "等待 cert-manager 签发" else ci_Reason certificate))) ;;
  mret (set_tls_secret (md_TLSSecretName domain) endpoint).

(** The prepared row with the port of the service that answers it. *)
Definition endpoint_on_service (client : KubernetesAdapter C) (app : Application) (endpointID : Z) (req : applicationEndpointRequest) :
    Handler (ApplicationEndpoint * Z) :=
  endpoint ← reporting invalid (prepareApplicationEndpoint client app endpointID req);
  serviceSpec ← reporting db_error (applicationServiceSpec app);
  servicePort ← Finished (map_err invalid
    (ResolveEndpointServicePort serviceSpec (erq_ServicePort req) (erq_Protocol req) (endpointUsesIngress endpoint)));
  mret (set_endpoint_port (port_Port servicePort) (port_Protocol servicePort) endpoint, port_Port servicePort).

Definition sync_with_cluster (client : KubernetesAdapter C) (app : Application) (endpoints : list ApplicationEndpoint) (port : Z)
    (what : string) : Handler unit :=
  step_or (on_cluster (adapter_SyncApplicationEndpoints client (endpoint_context app) endpoints port))
    (λ e, ValidationError (what +:+ (": " +:+ err_text e))).
Definition shown (e : ApplicationEndpoint) : ApplicationEndpoint := set_ingress_enabled (endpointUsesIngress e) e.

Definition listed_endpoint (e : ApplicationEndpoint) : ApplicationEndpoint :=
  let e := shown e in if decide (ae_Protocol e = "") then set_endpoint_port (ae_ServicePort e) ServiceProtocolTCP e else e.

Definition Handler_ListApplicationEndpoints (param_id : string) : Handler (list ApplicationEndpoint) :=
  applicationID ← parsed param_id "应用 ID 无效";
  step_or (GetApplication applicationID) (λ _, NotFound "应用不存在") ;;
  endpoints ← db_step (ListApplicationEndpoints applicationID);
  mret (listed_endpoint <$> endpoints : list ApplicationEndpoint).

Definition Handler_CreateApplicationEndpoint (param_id : string) (body : option applicationEndpointRequest) : Handler ApplicationEndpoint :=
  client ← require_kubernetes h;
  applicationID ← parsed param_id "应用 ID 无效";
  app ← step_or (GetApplication applicationID) (λ _, NotFound "应用不存在");
  req ← body_if body bound_domain "请选择受管域名";
  prepared ← endpoint_on_service client app 0 req;
  let '(endpoint, port) := prepared in
  endpoints ← db_step (ListApplicationEndpoints (app_ID app));
  sync_with_cluster client app (endpoints ++ [endpoint]) port "同步应用入口" ;;
  endpoint ← db_step (CreateApplicationEndpoint endpoint);
  mret (shown endpoint).

Definition get_endpoint (applicationID endpointID : Z) : Handler ApplicationEndpoint :=
  step_or (GetApplicationEndpoint applicationID endpointID)
    (λ e, if err_is "gorm.ErrRecordNotFound" e then NotFound "应用入口不存在" else db_error e).

Definition Handler_UpdateApplicationEndpoint (param_id param_endpoint : string) (body : option applicationEndpointRequest) :
    Handler ApplicationEndpoint :=
  client ← require_kubernetes h;
  applicationID ← parsed param_id "应用 ID 无效";
  endpointID ← parsed param_endpoint "入口 ID 无效";
  app ← step_or (GetApplication applicationID) (λ _, NotFound "应用不存在");
  req ← body_if body bound_domain "请选择受管域名";
  endpoint ← get_endpoint applicationID endpointID;
  prepared ← endpoint_on_service client app (ae_ID endpoint) req;
  let '(updated, port) := prepared in
  let updated := set_endpoint_id (ae_ID endpoint) updated in
  endpoints ← db_step (ListApplicationEndpoints (app_ID app));
  sync_with_cluster client app ((λ e, if decide (ae_ID e = ae_ID endpoint) then updated else e) <$> endpoints) port "同步应用入口" ;;
  db_step (UpdateApplicationEndpoint updated) ;;
  mret (shown updated).

(** The port the remaining endpoints are given to the cluster with. *)
Definition remaining_port (service : ServiceSpec) : result Z :=
  match PrimaryTCPPort service with
  | Some port => Ok (port_Port port)
  | None => match PortSpecs service with port :: _ => Ok (port_Port port) | [] => Err (ValidationError "应用没有可绑定的 Service 端口") end
  end.
Definition Handler_DeleteApplicationEndpoint (param_id param_endpoint : string) : Handler Z :=
  client ← require_kubernetes h;
  applicationID ← parsed param_id "应用 ID 无效";
  endpointID ← parsed param_endpoint "入口 ID 无效";
  app ← step_or (GetApplication applicationID) (λ _, NotFound "应用不存在");
  get_endpoint applicationID endpointID ;;
  serviceSpec ← reporting db_error (applicationServiceSpec app);
  port ← Finished (remaining_port serviceSpec);
  endpoints ← db_step (ListApplicationEndpoints (app_ID app));
  refuse_if (empty_list endpoints) makeslice_panic ;;
  sync_with_cluster client app (List.filter (λ e, negb (bool_decide (ae_ID e = endpointID))) endpoints) port "移除应用入口" ;;
  db_step (DeleteApplicationEndpoint applicationID endpointID) ;;
  mret endpointID.
End handlers.

(** ** Properties *)

Definition endpoint_table (db : DB) : table ApplicationEndpoint := tbl db.
Definition uses_route (domainID : Z) (path : string) (e : ApplicationEndpoint) : Prop :=
  ae_DomainID e = domainID ∧ ae_Path e = path ∧ ae_IngressMode e ≠ "metadata".

(** No two endpoints with an ingress share a route. *)
Record routes_exclusive (db : DB) : Prop := {
  rex_keyed : keyed (endpoint_table db);
  rex_route i j a b domainID path : t_rows (endpoint_table db) !! i = Some a → t_rows (endpoint_table db) !! j = Some b →
    uses_route domainID path a → uses_route domainID path b → i = j
}.
(** The route of a row is free, its own row apart. *)
Definition route_free (db : DB) (id : Z) (e : ApplicationEndpoint) : Prop :=
  ∀ i a, t_rows (endpoint_table db) !! i = Some a → uses_route (ae_DomainID e) (ae_Path e) a → ae_IngressMode e ≠ "metadata" → i = id ∧ id ≠ 0%Z.

Section endpoint_properties.
Context `{K8sLibrary} {C : Type} `{Surroundings}.
#[local] Abbreviation W := (World C).
#[local] Abbreviation Handler := (handler W).
#[local] Abbreviation from := (HandlerSteps.from (C := C) routes_exclusive).
#[local] Abbreviation leaves := (HandlerSteps.leaves (C := C) routes_exclusive).
Variable h : ApplicationHandler (C := C).

Lemma routes_insert db id e (t : table ApplicationEndpoint) :
  routes_exclusive db → keyed t → t_rows t = <[id := e]> (t_rows (endpoint_table db)) →
  (∀ i a, t_rows (endpoint_table db) !! i = Some a → uses_route (ae_DomainID e) (ae_Path e) a → ae_IngressMode e ≠ "metadata" → i = id) →
  routes_exclusive (put t db).
Proof.
  intros [_ Hr] Hk Hrows Hfree. unfold endpoint_table in *. split; unfold endpoint_table; rewrite tbl_put; [done|]. rewrite Hrows.
  intros i j a b d p [[<- <-]|[Hi Ha]]%lookup_insert_Some [[<- <-]|[Hj Hb]]%lookup_insert_Some (Hda & Hpa & Hma) (Hdb & Hpb & Hmb).
  - done.
  - symmetry. apply (Hfree j b Hb); [by rewrite Hda, Hpa | done].
  - apply (Hfree i a Ha); [by rewrite Hdb, Hpb | done].
  - by eapply (Hr i j a b d p).
Qed.

Lemma leaves_CreateApplicationEndpoint db e :
  routes_exclusive db → route_free db 0 e → ae_Path e ≠ "" → ae_IngressMode e ≠ "" → leaves (CreateApplicationEndpoint e) db.
Proof.
  intros Hdb Hfree Hp Hm. apply leaves_statement; [done|]. intros b db' ([c t] & Hc & Hres)%result_bind_Ok. injection Hres as _ <-. cbn [snd].
  apply (keyed_create _ _ _ _ (rex_keyed _ Hdb)) in Hc as (Hk & -> & _ & Hrows).
  eapply routes_insert; [done|done|exact Hrows|]. intros i a Ha Hu Hmode. exfalso.
  assert (∀ d s, s ≠ "" → or_default d s = s) as Hor by (intros d s Hs; unfold or_default; by rewrite decide_False).
  destruct e; cbn in *. rewrite !Hor in Hu, Hmode by done. by destruct (Hfree i a Ha Hu Hmode).
Qed.
Lemma leaves_UpdateApplicationEndpoint db e :
  routes_exclusive db → route_free db (ae_ID e) e → leaves (UpdateApplicationEndpoint e) db.
Proof.
  intros Hdb Hfree. apply leaves_statement; [done|]. intros b db' (t & Hc & Hres)%result_bind_Ok. injection Hres as _ <-.
  apply (keyed_save _ _ _ (rex_keyed _ Hdb)) in Hc as (Hk & Hrows).
  eapply routes_insert; [done|done|exact Hrows|]. intros i a Ha Hu Hmode. by destruct (Hfree i a Ha Hu Hmode).
Qed.
Lemma leaves_DeleteApplicationEndpoint db applicationID id :
  routes_exclusive db → leaves (DeleteApplicationEndpoint applicationID id) db.
Proof.
  intros Hdb. apply leaves_statement; [done|]. intros b db' (t & Hc & Hres)%result_bind_Ok. injection Hres as _ <-. injection Hc as <-.
  split; unfold endpoint_table; rewrite tbl_put; [by apply keyed_delete, Hdb|]. simpl.
  intros i j a b' d p [Ha _]%map_lookup_filter_Some [Hb _]%map_lookup_filter_Some. by eapply Hdb.
Qed.

(** *** What the preparation learns *)

(** The row an endpoint request is prepared as, from the domain it names. *)
Record prepared_from (db : DB) (app : Application) (endpointID : Z) (req : applicationEndpointRequest) (e : ApplicationEndpoint) : Prop := {
  pf_domain : ∃ d, d ∈ t_list (tbl db) ∧ md_ID d = erq_DomainID req ∧ md_Enabled d = true ∧ md_EnvironmentID d = app_EnvironmentID app ∧
    ae_DomainID e = md_ID d ∧ ae_Domain e = md_Hostname d ∧
    ae_TLSSecretName e = (if erq_TLSEnabled req then md_TLSSecretName d else "") ∧
    (erq_TLSEnabled req = true → md_CertificateName d ≠ "" ∧ md_TLSSecretName d ≠ "");
  pf_fields : ae_ApplicationID e = app_ID app ∧ ae_Path e = path_or_root (erq_Path req) ∧ ae_TLSEnabled e = erq_TLSEnabled req ∧
    ae_IngressMode e = (if default true (erq_IngressEnabled req) then "ingress" else "metadata") ∧ ae_Exposure e = ExposurePublic ∧
    ae_ID e = 0%Z ∧ ae_AccessMode e ≠ "";
  pf_free : routes_exclusive db → route_free db endpointID e
}.

Lemma path_or_root_nonempty path : path_or_root path ≠ "".
Proof. unfold path_or_root. by case_decide. Qed.

Lemma count_zero db domainID path endpointID :
  keyed (endpoint_table db) →
  length (select (λ e, bool_decide (ae_DomainID e = domainID) && bool_decide (ae_Path e = path)
    && bool_decide (ae_IngressMode e ≠ "metadata")
    && (bool_decide (endpointID = 0%Z) || bool_decide (ae_ID e ≠ endpointID))) (tbl db)) = 0 →
  ∀ i a, t_rows (endpoint_table db) !! i = Some a → uses_route domainID path a → i = endpointID ∧ endpointID ≠ 0%Z.
Proof.
  intros Hk Hl i a Ha (Hd & Hp & Hm). apply (none_counted _ _ _ _ Hl) in Ha as Ht.
  pose proof (keyed_id _ Hk i a Ha) as Hid. cbn in Hid.
  rewrite !bool_decide_true in Ht by done. cbn in Ht. apply orb_false_iff in Ht as [?%bool_decide_eq_false Hn%bool_decide_eq_false].
  apply dec_stable in Hn. split; [congruence|done].
Qed.

Lemma learns_prepared db client app endpointID req :
  learns db (prepareApplicationEndpoint (C := C) client app endpointID req) (prepared_from db app endpointID req).
Proof.
  unfold prepareApplicationEndpoint. eapply learns_bind; [apply learns_read; reading|]. intros d Hd. cbv beta in Hd.
  apply first_row_select in Hd as [Hid%bool_decide_eq_true Hd].
  eapply learns_bind; [apply learns_refuse_if|]. intros ? Hen%negb_false_iff.
  eapply learns_bind; [apply learns_refuse_if|]. intros ? Henv. cbv beta zeta in *.
  apply orb_false_iff in Henv as [_ Henv%bool_decide_eq_false]. apply dec_stable in Henv.
  set (mode := if default true (erq_IngressEnabled req) then "ingress" else "metadata").
  apply (learns_bind db _ _ (λ _, keyed (endpoint_table db) → mode ≠ "metadata" →
    ∀ i a, t_rows (endpoint_table db) !! i = Some a → uses_route (md_ID d) (path_or_root (erq_Path req)) a → i = endpointID ∧ endpointID ≠ 0%Z)).
  { unfold mode. destruct (default true (erq_IngressEnabled req)); [|by apply learns_mret].
    eapply learns_bind; [apply learns_read; reading|]. intros n Hn. cbv beta in Hn. injection Hn as Hn.
    eapply learns_weaken; [apply learns_refuse_if|]. intros ? Hz%bool_decide_eq_false Hk _.
    apply count_zero; [done|lia]. }
  intros ? Hfree. eapply learns_bind; [apply learns_refuse_if|]. intros ? Hmode. cbv beta in *.
  assert (access_mode (erq_AccessMode req) ≠ "") as Haccess.
  { unfold access_mode. destruct (decide (trim_space (erq_AccessMode req) = "")); [discriminate|done]. }
  destruct (erq_TLSEnabled req) eqn:Htls; cbn [negb].
  - eapply learns_bind; [apply learns_refuse_if|]. intros ? Hcert.
    apply orb_false_iff in Hcert as [Hc%bool_decide_eq_false Hs%bool_decide_eq_false].
    eapply learns_bind; [apply learns_steady, steady_on_cluster|]. intros c _.
    eapply learns_bind; [apply learns_refuse_if|]. intros ? _. apply learns_mret. rewrite <-Htls. split.
    + exists d. rewrite Htls. by split_and!.
    + by split_and!.
    + intros Hdb i x Hx Hu Hm. apply (Hfree (rex_keyed _ Hdb) Hm i x Hx Hu).
  - apply learns_mret. rewrite <-Htls. split.
    + exists d. rewrite Htls. by split_and!.
    + by split_and!.
    + intros Hdb i x Hx Hu Hm. apply (Hfree (rex_keyed _ Hdb) Hm i x Hx Hu).
Qed.

Lemma steady_service_of encoded : steady (service_of (C := C) encoded).
Proof. unfold service_of. by destruct (decode_ReleaseSpec _ _). Qed.
Lemma steady_GetDefault id (w : W) : w_db (GetDefaultApplicationDeploymentTemplate id w).2 = w_db w.
Proof.
  unfold GetDefaultApplicationDeploymentTemplate, first. unfold mbind, M_bind.
  destruct (query_cases (λ db, first_row (select (λ a, bool_decide (app_ID a = id)) (tbl db))) w) as [(e & ->)|(a & _ & ->)]; [done|].
  destruct (app_DefaultDeploymentTemplateID a) as [t|]; [|done].
  destruct (reads_query (λ db, first_row (select (template_test t id) (tbl db))) (tick w)) as [Hdb _]. exact Hdb.
Qed.
Lemma steady_applicationServiceSpec app : steady (applicationServiceSpec (C := C) app).
Proof.
  unfold applicationServiceSpec. apply steady_step; [by apply reads_query|]. intros [release|e]; [apply steady_service_of|].
  apply steady_bind; [auto with handlers|]. intros ?. apply steady_step; [apply steady_GetDefault|].
  intros [template|e']; [apply steady_service_of|]. apply steady_bind; [auto with handlers|]. intros ?.
  apply steady_bind; [eapply steady_step_or; reading|]. intros [|endpoint l]; apply steady_mret.
Qed.

(** With the port of the service in it. *)
Definition on_service (db : DB) (app : Application) (endpointID : Z) (req : applicationEndpointRequest) (p : ApplicationEndpoint * Z) : Prop :=
  ∃ e service port, prepared_from db app endpointID req e ∧
    ResolveEndpointServicePort service (erq_ServicePort req) (erq_Protocol req) (endpointUsesIngress e) = Ok port ∧
    p = (set_endpoint_port (port_Port port) (port_Protocol port) e, port_Port port).
Lemma learns_on_service db client app endpointID req :
  learns db (endpoint_on_service (C := C) client app endpointID req) (on_service db app endpointID req).
Proof.
  unfold endpoint_on_service. eapply learns_bind; [apply learns_reporting, learns_prepared|]. intros e He.
  eapply learns_bind; [apply learns_reporting, learns_steady, steady_applicationServiceSpec|]. intros service _.
  eapply learns_bind; [apply learns_known|]. intros port Hport. apply learns_mret. exists e, service, port.
  destruct (ResolveEndpointServicePort _ _ _ _) as [x|]; [|done]. by injection Hport as ->.
Qed.

Lemma set_port_route db id port protocol e : route_free db id e → route_free db id (set_endpoint_port port protocol e).
Proof. by destruct e. Qed.
Lemma set_id_route db id i e : route_free db id e → route_free db id (set_endpoint_id i e).
Proof. by destruct e. Qed.

Lemma steady_sync client app endpoints port what : steady (sync_with_cluster (C := C) client app endpoints port what).
Proof. apply steady_on_cluster. Qed.
Lemma steady_require : steady (require_kubernetes h).
Proof. unfold require_kubernetes. by destruct (available h). Qed.
Lemma learns_get_endpoint db applicationID endpointID :
  learns db (get_endpoint (C := C) applicationID endpointID) (λ e, e ∈ t_list (tbl db) ∧ ae_ApplicationID e = applicationID ∧ ae_ID e = endpointID).
Proof.
  eapply learns_weaken; [apply learns_read; reading|]. intros e [Ht He]%first_row_select.
  apply andb_true_iff in Ht as [?%bool_decide_eq_true ?%bool_decide_eq_true]. done.
Qed.
#[local] Hint Resolve steady_sync steady_require steady_applicationServiceSpec : handlers.

Lemma from_Handler_CreateApplicationEndpoint db id body :
  routes_exclusive db → from db (Handler_CreateApplicationEndpoint h id body).
Proof.
  intros Hdb. unfold Handler_CreateApplicationEndpoint. do 4 pass.
  eapply from_learned; [apply learns_on_service|done|]. intros p (e & service & port & He & _ & ->). do 2 pass. cbv beta.
  apply (from_write _ db _ _ (λ _, _)).
  destruct He as [_ (_ & Hpath & _ & Hmode & _ & _ & _) Hfree].
  apply leaves_CreateApplicationEndpoint; [done|by apply set_port_route, Hfree|..].
  - destruct e; cbn in *. rewrite Hpath. apply path_or_root_nonempty.
  - destruct e; cbn in *. rewrite Hmode. by case_match.
Qed.
Lemma from_Handler_UpdateApplicationEndpoint db id endpoint body :
  routes_exclusive db → from db (Handler_UpdateApplicationEndpoint h id endpoint body).
Proof.
  intros Hdb. unfold Handler_UpdateApplicationEndpoint. do 5 pass.
  eapply from_learned; [apply learns_get_endpoint|done|]. intros old Hold.
  eapply from_learned; [apply learns_on_service|done|]. intros p (e & service & port & He & _ & ->). do 2 pass. cbv beta.
  apply (from_write _ db _ _ (λ _, _)), leaves_UpdateApplicationEndpoint; [done|].
  assert (∀ x, ae_ID (set_endpoint_id (ae_ID old) x) = ae_ID old) as -> by by intros [].
  apply set_id_route, set_port_route, (pf_free _ _ _ _ _ He Hdb).
Qed.
Lemma from_Handler_DeleteApplicationEndpoint db id endpoint :
  routes_exclusive db → from db (Handler_DeleteApplicationEndpoint h id endpoint).
Proof.
  intros Hdb. unfold Handler_DeleteApplicationEndpoint. do 4 pass.
  eapply from_learned; [apply learns_get_endpoint|done|]. intros old Hold. do 5 pass. cbv beta.
  by apply (from_write _ db _ _ (λ _, _)), leaves_DeleteApplicationEndpoint.
Qed.

Inductive endpoint_call :=
  | CallCreateEndpoint (id : string) (body : option applicationEndpointRequest)
  | CallUpdateEndpoint (id endpoint : string) (body : option applicationEndpointRequest)
  | CallDeleteEndpoint (id endpoint : string)
  | CallListEndpoints (id : string).
Definition serve_endpoint (call : endpoint_call) : Handler unit :=
  match call with
  | CallCreateEndpoint id body => answered_by (Handler_CreateApplicationEndpoint h id body)
  | CallUpdateEndpoint id endpoint body => answered_by (Handler_UpdateApplicationEndpoint h id endpoint body)
  | CallDeleteEndpoint id endpoint => answered_by (Handler_DeleteApplicationEndpoint h id endpoint)
  | CallListEndpoints id => answered_by (Handler_ListApplicationEndpoints id)
  end.
Definition serve_endpoints (calls : list endpoint_call) (w : W) : W := foldl (λ w call, (alone (serve_endpoint call) w).2) w calls.

(** C27: requests that run one after the other keep the routes apart: no two endpoints with an ingress have
    the same domain and path, whatever is asked and whatever fails, in the database or the cluster. *)
Theorem routes_kept_apart calls (w : W) (Hstart : routes_exclusive (w_db w)) : routes_exclusive (w_db (serve_endpoints calls w)).
Proof.
  revert w Hstart. induction calls as [|call calls IH]; intros w Hw; [done|]. apply IH.
  enough (from (w_db w) (serve_endpoint call)) as Hf by by apply Hf.
  destruct call; apply from_answered; [by apply from_Handler_CreateApplicationEndpoint|by apply from_Handler_UpdateApplicationEndpoint
    |by apply from_Handler_DeleteApplicationEndpoint|]. apply from_fixed; [|done].
  unfold Handler_ListApplicationEndpoints. apply steady_bind; [auto with handlers|]. intros i.
  apply steady_bind; [eapply steady_step_or; reading|]. intros ?. apply steady_bind; [eapply steady_step_or; reading|].
  intros l. apply steady_mret.
Qed.

(** *** The cluster is given what is stored *)

Definition mine (app : Application) (w : W) : list ApplicationEndpoint :=
  select (λ e, bool_decide (ae_ApplicationID e = app_ID app)) (tbl (w_db w)).
(** An endpoint without its key and the column that shows its mode. *)
Definition binding (e : ApplicationEndpoint) : ApplicationEndpoint := set_ingress_enabled true (set_endpoint_id 0 e).

#[local] Instance filter_list_perm {A} (test : A → bool) : Proper ((≡ₚ) ==> (≡ₚ)) (List.filter test).
Proof. intros l l' Hp. induction Hp; cbn; repeat case_match; eauto using Permutation. Qed.
Lemma select_perm {A} `{Row A} (test : A → bool) (t : table A) :
  select test t ≡ₚ List.filter test (map_to_list (t_rows t)).*2.
Proof.
  unfold select, t_list. assert (merge_sort by_id (map_to_list (t_rows t)) ≡ₚ map_to_list (t_rows t)) as Hp by apply merge_sort_Permutation.
  by rewrite Hp.
Qed.
Lemma select_row {A} `{Row A} (test : A → bool) (t : table A) i x : t_rows t !! i = Some x →
  select test t ≡ₚ (if test x then [x] else []) ++ List.filter test (map_to_list (delete i (t_rows t))).*2.
Proof.
  intros Hi. rewrite select_perm. assert (map_to_list (t_rows t) ≡ₚ (i, x) :: map_to_list (delete i (t_rows t))) as Hp by by rewrite map_to_list_delete.
  rewrite Hp. cbn. by destruct (test x).
Qed.
Lemma rest_apart {A} `{Row A} (test : A → bool) (t : table A) i y :
  keyed t → y ∈ List.filter test (map_to_list (delete i (t_rows t))).*2 → row_id y ≠ i ∧ test y = true.
Proof.
  intros Hk [Hy Ht]%list_elem_of_In%List.filter_In. apply list_elem_of_In, list_elem_of_fmap in Hy as ([j z] & -> & Hj).
  apply elem_of_map_to_list, lookup_delete_Some in Hj as [Hne Hj]. cbn. by rewrite (keyed_id _ Hk _ _ Hj).
Qed.

Lemma mine_created app e (t t' : table ApplicationEndpoint) n :
  t_rows t !! n = None → t_rows t' = <[n := e]> (t_rows t) → ae_ApplicationID e = app_ID app →
  select (λ e, bool_decide (ae_ApplicationID e = app_ID app)) t' ≡ₚ e :: select (λ e, bool_decide (ae_ApplicationID e = app_ID app)) t.
Proof.
  intros Hn Hrows He. rewrite (select_row _ t' n e) by by rewrite Hrows, lookup_insert_eq.
  rewrite bool_decide_true by done. rewrite Hrows, delete_insert_id by done. by rewrite <-select_perm.
Qed.
Lemma mine_replaced app old new (t t' : table ApplicationEndpoint) i :
  keyed t → t_rows t !! i = Some old → t_rows t' = <[i := new]> (t_rows t) →
  ae_ApplicationID old = app_ID app → ae_ApplicationID new = app_ID app →
  select (λ e, bool_decide (ae_ApplicationID e = app_ID app)) t' ≡ₚ
    (λ e, if decide (ae_ID e = i) then new else e) <$> select (λ e, bool_decide (ae_ApplicationID e = app_ID app)) t.
Proof.
  intros Hk Hi Hrows Ho Hn. rewrite (select_row _ t' i new) by by rewrite Hrows, lookup_insert_eq.
  rewrite (select_row _ t i old Hi), Hrows, delete_insert_eq, !bool_decide_true by done. cbn [Datatypes.app fmap list_fmap].
  rewrite decide_True by apply (keyed_id _ Hk _ _ Hi). f_equiv.
  rewrite (Forall_fmap_ext_1 _ id), list_fmap_id; [done|]. apply Forall_forall. intros y Hy.
  apply rest_apart in Hy as [Hne _]; [|done]. cbn in Hne. by rewrite decide_False.
Qed.
Lemma deleted_rows app old (t : table ApplicationEndpoint) i :
  keyed t → t_rows t !! i = Some old → ae_ApplicationID old = app_ID app →
  t_rows (t_delete (λ e, bool_decide (ae_ApplicationID e = app_ID app) && bool_decide (ae_ID e = i)) t) = delete i (t_rows t).
Proof.
  intros Hk Hi Ho. assert (ae_ID old = i) as Hold by apply (keyed_id _ Hk _ _ Hi). 
  apply map_eq. intros j. cbn. rewrite map_lookup_filter. destruct (decide (j = i)) as [->|Hne].
  - rewrite lookup_delete_eq, Hi. cbn. by rewrite !bool_decide_true.
  - rewrite lookup_delete_ne by done. destruct (t_rows t !! j) as [x|] eqn:Hx; [|done]. cbn.
    pose proof (keyed_id _ Hk _ _ Hx) as Hid. cbn in Hid.
    rewrite (bool_decide_eq_false_2 (ae_ID x = i)) by congruence. by rewrite andb_false_r.
Qed.
Lemma mine_deleted app old (t : table ApplicationEndpoint) i :
  keyed t → t_rows t !! i = Some old → ae_ApplicationID old = app_ID app →
  select (λ e, bool_decide (ae_ApplicationID e = app_ID app))
    (t_delete (λ e, bool_decide (ae_ApplicationID e = app_ID app) && bool_decide (ae_ID e = i)) t) ≡ₚ
  List.filter (λ e, negb (bool_decide (ae_ID e = i))) (select (λ e, bool_decide (ae_ApplicationID e = app_ID app)) t).
Proof.
  intros Hk Hi Ho. rewrite select_perm, (select_row _ t i old Hi), bool_decide_true by done. cbn [Datatypes.app List.filter].
  assert (ae_ID old = i) as Hold by apply (keyed_id _ Hk _ _ Hi). rewrite bool_decide_true by done. cbn [negb].
  rewrite (deleted_rows app old) by done.
  generalize (λ y, rest_apart (λ e, bool_decide (ae_ApplicationID e = app_ID app)) t i y Hk). generalize (List.filter (λ e, bool_decide (ae_ApplicationID e = app_ID app)) (map_to_list (delete i (t_rows t))).*2).
  intros l Hl. rewrite List.forallb_filter_id; [done|]. apply forallb_forall. intros y Hy%list_elem_of_In. apply Hl in Hy as [Hne _].
  by rewrite bool_decide_eq_false_2.
Qed.

Definition applied (k : KubernetesAdapter C) (app : Application) (w' : W) : Prop :=
  ∃ called port c, adapter_SyncApplicationEndpoints k (endpoint_context app) called port c = (Ok tt, w_cluster w') ∧
    binding <$> called ≡ₚ binding <$> mine app w'.

Lemma resolved_protocol service port protocol ingress p :
  ResolveEndpointServicePort service port protocol ingress = Ok p → port_Protocol p ≠ "".
Proof.
  unfold ResolveEndpointServicePort. destruct (empty_list _); [done|]. case_decide; [done|].
  destruct (requested _ _ _) as [rp rpr]. destruct (find_first _ _) as [q|]; [|done]. case_decide; [done|].
  destruct (_ && _); [done|]. intros [= <-]. cbn. unfold actual_protocol. by case_decide.
Qed.
Lemma binding_created n e :
  ae_Exposure e ≠ "" → ae_Path e ≠ "" → ae_Protocol e ≠ "" → ae_IngressMode e ≠ "" → ae_AccessMode e ≠ "" →
  binding (with_id n (defaults e)) = binding e ∧ ae_ApplicationID (with_id n (defaults e)) = ae_ApplicationID e ∧
  ae_ID (with_id n (defaults e)) = n.
Proof.
  intros. assert (∀ d s, s ≠ "" → or_default d s = s) as Hor by (intros d s Hs; unfold or_default; by rewrite decide_False).
  destruct e; cbn in *. by rewrite !Hor.
Qed.
Lemma sync_with_cluster_Ok {B} k app called port what (f : unit → Handler B) (w w' : W) b :
  alone (sync_with_cluster k app called port what ≫= f) w = (Ok b, w') →
  ∃ w1, adapter_SyncApplicationEndpoints k (endpoint_context app) called port (w_cluster w) = (Ok tt, w_cluster w1) ∧
    w_db w1 = w_db w ∧ alone (f tt) w1 = (Ok b, w').
Proof.
  intros ([] & w1 & Hs & Hf)%alone_step_or_Ok. exists w1. unfold on_cluster in Hs.
  destruct (adapter_SyncApplicationEndpoints _ _ _ _ _) as [r c]. by injection Hs as -> <-.
Qed.
Lemma read_Ok {A} (f : DB → result A) (w : W) a w' : query f w = (Ok a, w') → f (w_db w) = Ok a ∧ w_db w' = w_db w.
Proof. intros (Hf & Hdb & _)%query_Ok. done. Qed.

Lemma started {B} param message (f : KubernetesAdapter C → Z → Application → Handler B) (w w' : W) b :
  alone (k ← require_kubernetes h; i ← parsed param message; app ← step_or (GetApplication i) (λ _, NotFound "应用不存在"); f k i app) w = (Ok b, w') →
  ∃ k app w1, available h = Some k ∧ ParseID param = Some (app_ID app) ∧ get_application (w_db w) (app_ID app) = Ok app ∧
    w_db w1 = w_db w ∧ alone (f k (app_ID app) app) w1 = (Ok b, w').
Proof.
  intros (k & w1 & Hk & (i & w2 & Hi & (app & w3 & [Hg Hdb]%read_Ok & Hf)%alone_step_or_Ok)%alone_part_Ok)%alone_part_Ok.
  unfold require_kubernetes in Hk. destruct (available h) as [k'|]; [|done]. injection Hk as <- <-.
  unfold parsed in Hi. destruct (ParseID param) as [i'|] eqn:Hp; [|done]. injection Hi as <- <-.
  pose proof (get_application_id _ _ _ Hg) as <-. by exists k', app, w3.
Qed.
Lemma started_on {B} param message param' message' (f : KubernetesAdapter C → Z → Z → Application → Handler B) (w w' : W) b :
  alone (k ← require_kubernetes h; i ← parsed param message; j ← parsed param' message';
         app ← step_or (GetApplication i) (λ _, NotFound "应用不存在"); f k i j app) w = (Ok b, w') →
  ∃ k app j w1, available h = Some k ∧ ParseID param' = Some j ∧ get_application (w_db w) (app_ID app) = Ok app ∧
    w_db w1 = w_db w ∧ alone (f k (app_ID app) j app) w1 = (Ok b, w').
Proof.
  intros (k & w1 & Hk & (i & w2 & Hi & (j & w3 & Hj & (app & w4 & [Hg Hdb]%read_Ok & Hf)%alone_step_or_Ok)%alone_part_Ok)%alone_part_Ok)%alone_part_Ok.
  unfold require_kubernetes in Hk. destruct (available h) as [k'|]; [|done]. injection Hk as <- <-.
  unfold parsed in Hi, Hj. destruct (ParseID param); [|done]. injection Hi as <- <-.
  destruct (ParseID param') as [j'|]; [|done]. injection Hj as <- <-.
  pose proof (get_application_id _ _ _ Hg) as <-. by exists k', app, j', w4.
Qed.
Lemma body_if_Ok {A B} (body : option A) valid message (f : A → Handler B) (w w' : W) b :
  alone (body_if body valid message ≫= f) w = (Ok b, w') → ∃ req, body = Some req ∧ alone (f req) w = (Ok b, w').
Proof. unfold body_if. destruct body as [req|]; [|done]. destruct (valid req); [|done]. intros Hf. by exists req. Qed.
Lemma learned_Ok {A B} (p : Handler A) (f : A → Handler B) Q (w w' : W) b :
  learns (w_db w) p Q → alone (p ≫= f) w = (Ok b, w') → ∃ a w1, w_db w1 = w_db w ∧ Q a ∧ alone (f a) w1 = (Ok b, w').
Proof.
  intros Hp (a & w1 & Ha & Hf)%alone_part_Ok. destruct (Hp w eq_refl) as [Hdb Hq]. rewrite Ha in Hdb, Hq. exists a, w1. auto.
Qed.

End endpoint_properties.

(** ** Concrete runs *)

#[local] Existing Instances calm sample_library.

Definition shop_domain : ManagedDomain :=
  {| md_ID := 5; md_Hostname := "shop.example.com"; md_EnvironmentID := 2; md_Namespace := "certificates";
     md_CertificateName := "shop"; md_TLSSecretName := "shop-tls"; md_IssuerRef := "letsencrypt"; md_IssuerKind := "ClusterIssuer";
     md_CertificateOwnership := "managed"; md_Description := ""; md_Enabled := true |}.
(** A cluster that notes the routes it was told to serve. *)
Definition route_adapter : KubernetesAdapter (list string) := {|
  KubernetesAvailable := true;
  adapter_ValidatePersistentVolumeClaims _ _ c := (Ok tt, c);
  adapter_SyncApplicationEndpoints _ endpoints _ c := (Ok tt, c ++ ((λ e, ae_Domain e +:+ ae_Path e) <$> endpoints));
  adapter_GetCertificateContext _ _ := mret {| ci_Status := "Ready"; ci_Reason := "" |};
  adapter_GetNamespace _ := throw (EText "no namespaces");
  adapter_UpdateNamespace ns c := (Ok ns, c);
  adapter_CreateNamespace _ _ := throw (EText "no namespaces")
|}.
Definition route_handler : ApplicationHandler (C := list string) :=
  {| aph_delegationSecret := ""; aph_kubernetes := Some route_adapter; aph_workflow := sample_workflow |}.
Definition domain_world : World (list string) :=
  {| w_db := put (one_row shop_domain) sample_store; w_tick := 0; w_cluster := []; w_trace := [] |}.
Lemma domain_world_routes : routes_exclusive (w_db domain_world).
Proof. by split. Qed.

Definition route_request (path : string) : option applicationEndpointRequest :=
  Some {| erq_DomainID := 5; erq_Path := path; erq_ServicePort := 0; erq_Protocol := ""; erq_TLSEnabled := true;
          erq_IngressEnabled := None; erq_AccessMode := "" |}.
Definition add_route (path : string) : endpoint_call := CallCreateEndpoint "7" (route_request path).
Definition routes (w : World (list string)) : list string :=
  (λ e, ae_Domain e +:+ ae_Path e) <$> t_list (endpoint_table (w_db w)).

(** The blank path is the root: the second request is refused, the third is served. *)
Definition route_calls : list endpoint_call := [add_route " "; add_route "/"; add_route "/api"].
Lemma routes_kept_apart_witness :
  routes_exclusive (w_db (serve_endpoints route_handler route_calls domain_world)) ∧
  routes (serve_endpoints route_handler route_calls domain_world) = ["shop.example.com/"; "shop.example.com/api"].
Proof.
  split; [|vm_compute; reflexivity]. exact (routes_kept_apart route_handler route_calls domain_world domain_world_routes).
Defined.

Definition route_added := alone (Handler_CreateApplicationEndpoint route_handler "7" (route_request "/api")) domain_world.

(** Two requests for one route both count before either stores its row. *)
Definition routes_race := interleave (concat (replicate 14 [0; 1]%nat)) (serve_endpoint route_handler <$> [add_route "/api"; add_route "/api"]) domain_world.
Lemma routes_raced :
  routes_exclusive (w_db domain_world) ∧ routes_race.1 = [Finished (Ok tt); Finished (Ok tt)] ∧ ¬ routes_exclusive (w_db routes_race.2).
Proof.
  split; [apply domain_world_routes|]. split; [vm_compute; reflexivity|]. intros [_ Hbad].
  destruct (t_rows (endpoint_table (w_db routes_race.2)) !! 1%Z) as [a|] eqn:Ha; [|vm_compute in Ha; discriminate Ha].
  destruct (t_rows (endpoint_table (w_db routes_race.2)) !! 2%Z) as [b|] eqn:Hb; [|vm_compute in Hb; discriminate Hb].
  enough (1%Z = 2%Z) by done.
  apply (Hbad 1%Z 2%Z a b 5%Z "/api" Ha Hb); vm_compute in Ha, Hb; injection Ha as <-; injection Hb as <-; by split_and!.
Qed.

(** Of two removals of the last endpoint, the slower one finds no endpoint left and panics. *)
Definition removals_race :=
  interleave (replicate 4 0%nat ++ replicate 8 1%nat ++ [0%nat])
    (replicate 2 (serve_endpoint route_handler (CallDeleteEndpoint "7" "1"))) route_added.2.
Lemma removal_panics : removals_race.1 = [Finished (Err makeslice_panic); Finished (Ok tt)].
Proof. vm_compute. reflexivity. Qed.
