(* ===== verification/PlatformReleases.v ===== *)
(** * Releases of the platform itself

    [internal/service/platform/release_service.go] with the handlers of
    [internal/api/delivery/platform_handler.go] that use it and the two calls of
    [internal/k8s/platform.go]: the platform replaces its own image, on behalf of a signed request from a
    build or of an administrator. The handlers are sequences of steps; the mutex that [Apply] holds is left
    out, so that theorems about every schedule hold with it as well. *)
From Stdlib Require Import ZArith Ascii String Lia.
From stdpp Require Import base sorting pretty numbers gmap strings list.
From S2P Require Import Prelude GoStrings GoBase64 GoTime Json JsonText Interleaving ReleaseSpec ReleaseSnapshot Models PlatformModels Security NodeMaintenance ReleaseValidation ReleaseRendering Cluster KubernetesApplier Store PlatformStore Api Tokens IntegrationSessions ReleaseExecution Templates HandlerSteps.

(** ** Images *)

Definition WebhookSecretConfigKey : string := "platform_deploy_webhook_secret".
Definition ImagePrefixConfigKey : string := "platform_image_prefix".
Definition DefaultImagePrefix : string := "ghcr.io/surrychen/cylism-manager".
Definition minute : Z := 60 * second.
Definition webhookMaxSkew : Z := 5 * minute.

(** [^[A-Za-z0-9_][A-Za-z0-9_.-]{0,127}$] *)
Definition tag_start (c : ascii) : bool :=
  byte_in 65 90 c || byte_in 97 122 c || byte_in 48 57 c || bool_decide (c = "_"%char).
Definition tag_rest (c : ascii) : bool := tag_start c || bool_decide (c ∈ ["."; "-"]%char).
Definition imageTagPattern (tag : string) : bool :=
  match chars tag with
  | c :: l => tag_start c && forallb tag_rest l && bool_decide (List.length l ≤ 127)
  | [] => false
  end.

(** [strings.FieldsFunc]: the parts between runs of separators. *)
Definition push_field (word : list ascii) (l : list string) : list string :=
  match word with [] => l | _ => of_chars (rev word) :: l end.
Fixpoint fields_func (separator : ascii → bool) (word l : list ascii) : list string :=
  match l with
  | [] => push_field word []
  | c :: l => if separator c then push_field word (fields_func separator [] l) else fields_func separator (c :: word) l
  end.
Definition prefix_separator (c : ascii) : bool := bool_decide (c ∈ [","%char; "010"%char; "013"%char]).
Definition clean_prefix (part : string) : string := trim_suffix (trim_space part) "/".
Definition prefix_breaks : string := of_chars ["@"; " "; "009"; "013"; "010"]%char.
Definition invalid_prefix (prefix : string) : bool := empty_str prefix || contains_any prefix prefix_breaks.
Fixpoint collect_prefixes (seen : list string) (parts : list string) : result (list string) :=
  match parts with
  | [] => Ok []
  | part :: parts =>
      let prefix := clean_prefix part in
      if invalid_prefix prefix then Err (EText "invalid image prefix") else
      if decide (prefix ∈ seen) then collect_prefixes seen parts else
      prefixes ← collect_prefixes (prefix :: seen) parts; Ok (prefix :: prefixes)
  end.
Definition NormalizeImagePrefixes (raw : string) : result (list string) :=
  prefixes ← collect_prefixes [] (fields_func prefix_separator [] (chars raw));
  if empty_list prefixes then Err (EText "image prefix is required") else Ok prefixes.

(** The prefixes of a configuration that was read, or not. *)
Definition configured_prefixes (raw : result string) : list string :=
  match raw with
  | Ok raw =>
      if decide (trim_space raw = "") then [DefaultImagePrefix] else
      match NormalizeImagePrefixes raw with Ok prefixes => prefixes | Err _ => [DefaultImagePrefix] end
  | Err _ => [DefaultImagePrefix]
  end.
Definition allowed_image (prefixes : list string) (image : string) : result unit :=
  let image := trim_space image in
  match find_first (λ prefix, has_prefix (prefix +:+ ":") image) prefixes with
  | None => Err (EText "平台镜像不属于允许的仓库前缀")
  | Some matched => if imageTagPattern (trim_prefix image (matched +:+ ":")) then Ok tt else Err (EText "平台镜像 Tag 无效")
  end.

(** ** The cluster *)

Record PlatformDeploymentStatus := {
  pds_Image : string; pds_ReleaseID : Z; pds_DesiredReplicas : Z; pds_ReadyReplicas : Z; pds_Failure : string
}.
Record PlatformAdapter (C : Type) := {
  PlatformAvailable : bool;
  platform_PlatformDeploymentStatus : Context → M C PlatformDeploymentStatus;
  platform_UpdatePlatformDeployment : Context → string → Z → M C string
}.
Arguments PlatformAvailable {C} _.
Arguments platform_PlatformDeploymentStatus {C} _ _.
Arguments platform_UpdatePlatformDeployment {C} _ _ _ _.

Definition platformDeploymentNamespace : string := "default".
Definition platformDeploymentName : string := "cylism-manager".
Definition platformContainerName : string := "platform".
Definition platformReleaseAnnotation : string := "cylism.io/platform-release".
Definition platformRestartAnnotation : string := "cylism.io/platform-restarted-at".
(** [value, _ := strconv.ParseUint(raw, 10, 64)]: a number that is too large reads as the largest. *)
Definition parsed_release (raw : string) : Z :=
  if decide (raw = "") then 0%Z else
  match parse_digits 0 raw with Some n => if decide (is_u64 n) then n else (2 ^ 64 - 1)%Z | None => 0%Z end.
Definition is_platform (c : LiveContainer) : bool := bool_decide (lct_Name c = platformContainerName).
Definition platform_image (d : LiveDeployment) : string :=
  match find_first is_platform (ld_Containers d) with Some c => lct_Image c | None => "" end.
(** The first container of the platform with another image. *)
Fixpoint replace_image (image : string) (l : list LiveContainer) : list LiveContainer :=
  match l with
  | [] => []
  | c :: l => if is_platform c then {| lct_Name := lct_Name c; lct_Image := image |} :: l else c :: replace_image image l
  end.
Definition released_deployment (image : string) (releaseID at_ : Z) (d : LiveDeployment) : LiveDeployment :=
  {| ld_Meta := ld_Meta d; ld_Replicas := ld_Replicas d; ld_Containers := replace_image image (ld_Containers d);
     ld_Annotations := <[platformRestartAnnotation := rfc3339_nano at_]> (<[platformReleaseAnnotation := dec releaseID]> (ld_Annotations d));
     ld_Selector := ld_Selector d; ld_NodeSelector := ld_NodeSelector d; ld_Claims := ld_Claims d;
     ld_Rest := ld_Rest d; ld_ObservedGeneration := ld_ObservedGeneration d; ld_UpdatedReplicas := ld_UpdatedReplicas d;
     ld_ReadyReplicas := ld_ReadyReplicas d; ld_AvailableReplicas := ld_AvailableReplicas d;
     ld_UnavailableReplicas := ld_UnavailableReplicas d; ld_Conditions := ld_Conditions d |}.
Definition no_container : goerr := EText ("platform deployment does not contain " +:+ (quote platformContainerName +:+ " container")).
Definition replica_failure (c : LiveCondition) : bool :=
  bool_decide (lcd_Type c = "ReplicaFailure") && bool_decide (lcd_Status c = "True").

Section client.
Context `{K8sLibrary} `{!APIServer}.
Variable client : Client.

Definition read_platform (ctx : Context) : M Cluster LiveDeployment :=
  guard_not (negb (kc_Clientset client)) nil_pointer ;;
  wrapping (λ e, EWrap "read platform deployment: " e "") (call ctx (GetDeployment platformDeploymentNamespace platformDeploymentName)).
Definition PlatformDeploymentStatusContext (ctx : Context) : M Cluster PlatformDeploymentStatus :=
  deployment ← read_platform ctx;
  guard_not (empty_str (platform_image deployment)) no_container ;;
  mret {| pds_Image := platform_image deployment;
          pds_ReleaseID := parsed_release (default "" (ld_Annotations deployment !! platformReleaseAnnotation));
          pds_DesiredReplicas := default 1%Z (ld_Replicas deployment);
          pds_ReadyReplicas := ld_AvailableReplicas deployment;
          pds_Failure := match find_first replica_failure (rev (ld_Conditions deployment)) with Some c => lcd_Message c | None => "" end |}.
Definition UpdatePlatformDeploymentContext (ctx : Context) (image : string) (releaseID : Z) : M Cluster string :=
  deployment ← read_platform ctx;
  let previous := platform_image deployment in
  guard_not (empty_str previous) no_container ;;
  at_ ← gets c_time;
  wrapping (λ e, EWrap "update platform deployment: " e "")
    (call ctx (UpdateDeployment (released_deployment image releaseID at_ deployment))) ;;
  mret previous.
End client.

(** [None]: the platform runs without a cluster. *)
Definition NewPlatformKubernetesAdapter `{K8sLibrary} `{!APIServer} (client : option Client) :
    option (PlatformAdapter Cluster) :=
  client ← client;
  Some {| PlatformAvailable := kc_Clientset client;
          platform_PlatformDeploymentStatus := PlatformDeploymentStatusContext client;
          platform_UpdatePlatformDeployment := UpdatePlatformDeploymentContext client |}.

(** ** The service *)

(** [hex.DecodeString] *)
Fixpoint hex_decode (l : list ascii) : option (list ascii) :=
  match l with
  | [] => Some []
  | [_] => None
  | a :: b :: l => a ← hex_value a; b ← hex_value b; rest ← hex_decode l; Some (byte (a * 16 + b) :: rest)
  end.
Definition trimmed_length (s : string) : Z := Z.of_nat (String.length (trim_space s)).
(** The text the signature is over. *)
Definition signed_request (timestamp nonce body : string) : string := timestamp +:+ ("." +:+ (nonce +:+ ("." +:+ body))).
Definition ErrWebhookReplay : goerr := ESent "ErrWebhookReplay" "platform webhook nonce already used".
Definition day : Z := 24 * 60 * minute.
Definition new_platform_release (image source previous commitSHA runID : string) : PlatformRelease :=
  {| plr_ID := 0; plr_Source := source; plr_Image := image; plr_PreviousImage := previous; plr_Status := "accepted"; plr_Detail := "";
     plr_CommitSHA := trim_space commitSHA; plr_RunID := trim_space runID; plr_StartedAt := None; plr_CompletedAt := None;
     plr_CreatedAt := time_zero |}.
(** The columns that change: the status, the detail, and when it began and ended. *)
Definition set_release_state (status detail : string) (started completed : option Z) (r : PlatformRelease) : PlatformRelease :=
  let '(Build_PlatformRelease i s im p _ _ c ru _ _ cr) := r in Build_PlatformRelease i s im p status detail c ru started completed cr.

Section service.
Context `{K8sLibrary} {C : Type} `{Surroundings} `{AesGcm} `{Digests} `{Entropy}.
#[local] Abbreviation W := (World C).
#[local] Abbreviation Handler := (handler W).

Record ReleaseService := { rsv_encKey : string; rsv_platform : option (PlatformAdapter C) }.
Variable s : ReleaseService.

Definition ValidateWebhook (timestampHeader nonce signature body : string) : Handler bool :=
  if bool_decide (trimmed_length timestampHeader = 0%Z) || bool_decide (trimmed_length nonce < 16)%Z
     || bool_decide (256 < trimmed_length nonce)%Z || bool_decide (trimmed_length signature ≠ 64%Z) then mret false else
  match parse_int timestampHeader with
  | None => mret false
  | Some timestamp =>
      at_ ← step_or now id;
      if bool_decide (webhookMaxSkew < Z.abs (at_ - timestamp * second))%Z then mret false else
      encrypted ← tried (GetSystemConfig WebhookSecretConfigKey);
      match (e ← encrypted; Decrypt (rsv_encKey s) e) with
      | Err _ => mret false
      | Ok secret =>
          match hex_decode (chars signature) with
          | None => mret false
          | Some provided => mret (bool_decide (of_chars provided = hmac_sha256 secret (signed_request timestampHeader nonce body)))
          end
      end
  end.

Definition ConsumeWebhookNonce (nonce : string) (at_ : Z) : Handler unit :=
  step_or (DeleteExpiredPlatformWebhookNonces at_) id ;;
  step_or (CreatePlatformWebhookNonce nonce (at_ + day)) (λ e, ESent "ErrWebhookReplay" (err_text e)) ;;
  mret tt.

Definition SetSystemConfig (key value : string) : Handler unit :=
  found ← tried (first (λ c, bool_decide (cfg_Key c = key)));
  match found with
  | Err _ => step_or (create {| cfg_ID := 0; cfg_Key := key; cfg_Value := value |}) id ;; mret tt
  | Ok cfg =>
      step_or (execute (λ t, Ok (t_update (λ c, bool_decide (cfg_ID c = cfg_ID cfg))
        (λ c, {| cfg_ID := cfg_ID c; cfg_Key := cfg_Key c; cfg_Value := value |}) t))) id
  end.

Definition seal_secret (plaintext : string) : M W string :=
  _ ← lift (new_cipher (rsv_encKey s));
  nonce ← draw (Z.of_nat nonce_size) id;
  lift (Encrypt (rsv_encKey s) nonce plaintext).
Definition Service_GenerateWebhookSecret : Handler string :=
  secret ← step_or (draw 32 hex_text) id;
  encrypted ← step_or (seal_secret secret) id;
  SetSystemConfig WebhookSecretConfigKey encrypted ;;
  mret secret.

Definition ImagePrefixes : Handler (list string) :=
  raw ← tried (GetSystemConfig ImagePrefixConfigKey); mret (configured_prefixes raw).
Definition SetImagePrefixes (raw : string) : Handler (list string) :=
  prefixes ← Finished (NormalizeImagePrefixes raw);
  SetSystemConfig ImagePrefixConfigKey (join (of_chars ["010"%char]) prefixes) ;;
  mret prefixes.
Definition ValidateImage (image : string) : Handler unit :=
  prefixes ← ImagePrefixes; Finished (allowed_image prefixes image).

Definition PlatformService_CreateRelease (ctx : Context) (image source commitSHA runID : string) : Handler PlatformRelease :=
  match rsv_platform s with
  | None => refuse (EText "Kubernetes 客户端未初始化")
  | Some platform =>
      status ← step_or (on_cluster (platform_PlatformDeploymentStatus platform ctx)) id;
      step_or (CreatePlatformRelease (new_platform_release image source (pds_Image status) commitSHA runID))
        (λ e, EWrap "创建平台发布记录: " e "")
  end.

Definition Apply (ctx : Context) (id : Z) : Handler unit :=
  match rsv_platform s with
  | None => mret tt
  | Some platform =>
      found ← tried (GetPlatformRelease id);
      match found with
      | Err _ => mret tt
      | Ok release =>
          if bool_decide (plr_Status release ≠ "accepted") && bool_decide (plr_Status release ≠ "applying") then mret tt else
          at_ ← step_or now (λ e, e);
          let started := match plr_StartedAt release with Some t => Some t | None => Some at_ end in
          let release := set_release_state "applying" (plr_Detail release) started (plr_CompletedAt release) release in
          saved ← tried (UpdatePlatformRelease release);
          if negb (is_ok saved) then mret tt else
          updated ← cluster_step (platform_UpdatePlatformDeployment platform ctx (plr_Image release) (plr_ID release));
          ignored (UpdatePlatformRelease (match updated with
            | Err e => set_release_state "failed" (err_text e) started (Some at_) release
            | Ok _ => set_release_state "waiting_ready" (plr_Detail release) started (plr_CompletedAt release) release
            end))
      end
  end.

(** What becomes of a release that is under way. *)
Definition reconciled (status : PlatformDeploymentStatus) (at_ : Z) (release : PlatformRelease) : option PlatformRelease :=
  if bool_decide (pds_ReleaseID status = plr_ID release) && bool_decide (pds_Image status = plr_Image release)
     && bool_decide (pds_DesiredReplicas status ≤ pds_ReadyReplicas status)%Z && bool_decide (0 < pds_DesiredReplicas status)%Z
  then Some (set_release_state "succeeded" "平台工作负载已就绪" (plr_StartedAt release) (Some at_) release)
  else if bool_decide (pds_Failure status ≠ "") || bool_decide (15 * minute < at_ - plr_CreatedAt release)%Z
  then Some (set_release_state "failed" (if decide (pds_Failure status = "") then "等待平台工作负载就绪超时" else pds_Failure status)
               (plr_StartedAt release) (Some at_) release)
  else None.
Definition ReconcileLatest (ctx : Context) : Handler unit :=
  match rsv_platform s with
  | None => mret tt
  | Some platform =>
      found ← tried LatestIncompletePlatformRelease;
      match found with
      | Err _ => mret tt
      | Ok release =>
          status ← cluster_step (platform_PlatformDeploymentStatus platform ctx);
          match status with
          | Err _ => mret tt
          | Ok status =>
              if (bool_decide (plr_Status release = "accepted") || bool_decide (plr_Status release = "applying"))
                 && (bool_decide (pds_ReleaseID status ≠ plr_ID release) || bool_decide (pds_Image status ≠ plr_Image release))
              then Apply ctx (plr_ID release) else
              at_ ← step_or now id;
              match reconciled status at_ release with
              | Some release => ignored (UpdatePlatformRelease release)
              | None => mret tt
              end
          end
      end
  end.

(** ** The handlers *)

Record webhookRequest := { whr_Timestamp : string; whr_Nonce : string; whr_Signature : string; whr_Body : option string }.
Record platformDeployRequest := { pdr_Image : string; pdr_CommitSHA : string; pdr_RunID : string }.
Definition decode_platformDeployRequest (j : json) : option platformDeployRequest :=
  match j with
  | JNull => Some {| pdr_Image := ""; pdr_CommitSHA := ""; pdr_RunID := "" |}
  | JObj ms =>
      image ← get string_codec "image" "" ms;
      commit ← get string_codec "commit_sha" "" ms;
      run ← get string_codec "run_id" "" ms;
      Some {| pdr_Image := image; pdr_CommitSHA := commit; pdr_RunID := run |}
  | _ => None
  end.
(** The first 64 KiB of the body. *)
Definition max_body : nat := Z.to_nat 65536.
Definition bad_signature : goerr := Unauthorized "部署签名无效或已过期".

(** The answer is written before the release is applied, without the deadline of the request. *)
Definition Webhook (ctx : Context) (r : webhookRequest) : Handler PlatformRelease :=
  match whr_Body r with
  | None => refuse (BadRequest "读取部署请求失败")
  | Some body =>
      let body := take_str max_body body in
      valid ← ValidateWebhook (whr_Timestamp r) (whr_Nonce r) (whr_Signature r) body;
      refuse_if (negb valid) bad_signature ;;
      match (j ← parse body; decode_platformDeployRequest j) with
      | None => refuse (BadRequest "部署请求无效")
      | Some request =>
          reporting (λ e, ValidationError (err_text e)) (ValidateImage (pdr_Image request)) ;;
          at_ ← step_or now id;
          reporting (λ e, if err_is "ErrWebhookReplay" e then bad_signature else InternalError "清理部署请求失败")
            (ConsumeWebhookNonce (whr_Nonce r) at_) ;;
          release ← reporting (λ e, BadRequest (err_text e))
            (PlatformService_CreateRelease ctx (pdr_Image request) "github" (pdr_CommitSHA request) (pdr_RunID request));
          Apply None (plr_ID release) ;;
          mret release
      end
  end.

Definition ManualUpdate (ctx : Context) (body : option string) : Handler PlatformRelease :=
  image ← body_if body (λ _, true) "平台镜像请求无效";
  reporting (λ e, ValidationError (err_text e)) (ValidateImage image) ;;
  release ← reporting (λ e, BadRequest (err_text e)) (PlatformService_CreateRelease ctx image "manual" "" "");
  Apply None (plr_ID release) ;;
  mret release.

Definition Handler_Rollback (ctx : Context) (param_id : string) : Handler PlatformRelease :=
  let refused := BadRequest "该发布记录不能回滚" in
  match ParsePositiveID param_id with
  | None => refuse (BadRequest "发布记录 ID 无效")
  | Some id =>
      previous ← step_or (GetPlatformRelease id) (λ _, refused);
      refuse_if (empty_str (plr_PreviousImage previous)) refused ;;
      release ← reporting (λ e, BadRequest (err_text e)) (PlatformService_CreateRelease ctx (plr_PreviousImage previous) "manual_rollback" "" "");
      Apply None (plr_ID release) ;;
      mret release
  end.

Record platformStatus := {
  pst_Deployment : PlatformDeploymentStatus; pst_Releases : list PlatformRelease; pst_Prefixes : list string; pst_Configured : bool
}.
Definition Status (ctx : Context) : Handler platformStatus :=
  match rsv_platform s with
  | Some platform =>
      refuse_if (negb (PlatformAvailable platform)) K8sUnavailable ;;
      ReconcileLatest ctx ;;
      deployment ← step_or (on_cluster (platform_PlatformDeploymentStatus platform ctx)) (λ e, ESent "200" (err_text e));
      releases ← step_or (ListPlatformReleases 20) (λ _, InternalError "读取平台发布记录失败");
      prefixes ← ImagePrefixes;
      configured ← tried (GetSystemConfig WebhookSecretConfigKey);
      mret {| pst_Deployment := deployment; pst_Releases := releases; pst_Prefixes := prefixes; pst_Configured := is_ok configured |}
  | None => refuse K8sUnavailable
  end.

Definition GenerateWebhookSecret : Handler string :=
  reporting (λ _, InternalError "保存部署密钥失败") Service_GenerateWebhookSecret.
Definition UpdateImagePrefix (body : option string) : Handler unit :=
  raw ← body_if body (λ _, true) "平台镜像仓库前缀无效";
  reporting (λ _, BadRequest "平台镜像仓库前缀无效") (SetImagePrefixes raw) ;;
  mret tt.
End service.

(** ** Properties *)

#[export] Instance platform_release_keyed : KeyedRow PlatformRelease.
Proof. by intros id []. Qed.
#[export] Instance nonce_keyed : KeyedRow PlatformWebhookNonce.
Proof. by intros id []. Qed.

Definition platform_releases (db : DB) : gmap Z PlatformRelease := t_rows (tbl db).
(** What never changes of a release. *)
Definition identity (r : PlatformRelease) : PlatformRelease := set_release_state "" "" None None r.

Lemma set_state_identity status detail started completed r : identity (set_release_state status detail started completed r) = identity r.
Proof. by destruct r. Qed.
Lemma identity_fields r r' : identity r = identity r' →
  plr_ID r = plr_ID r' ∧ plr_Source r = plr_Source r' ∧ plr_Image r = plr_Image r' ∧ plr_PreviousImage r = plr_PreviousImage r'.
Proof. destruct r, r'. by intros [= <- <- <- <- <- <- <-]. Qed.

(** *** The state machine *)

Definition stage (status : string) : Z :=
  if decide (status = "accepted") then 0 else if decide (status = "applying") then 1
  else if decide (status = "waiting_ready") then 2 else 3.
Definition over (r : PlatformRelease) : Prop := plr_Status r = "succeeded" ∨ plr_Status r = "failed".
(** A release has one of the five statuses, an end exactly when it is over, and a start from the moment it is
    applied. *)
Record release_formed (r : PlatformRelease) : Prop := {
  rf_status : incomplete_release r = true ∨ over r;
  rf_completed : is_Some (plr_CompletedAt r) ↔ over r;
  rf_started : plr_Status r = "applying" ∨ plr_Status r = "waiting_ready" → is_Some (plr_StartedAt r)
}.
(** What may become of a release: nothing once it is over, and before that only what comes later. *)
Definition progress (r r' : PlatformRelease) : Prop :=
  identity r' = identity r ∧ (r' = r ∨ incomplete_release r = true ∧ (stage (plr_Status r) ≤ stage (plr_Status r'))%Z).
Record releases_formed (db : DB) : Prop := {
  rfs_keyed : keyed (tbl (A := PlatformRelease) db);
  rfs_rows i r : platform_releases db !! i = Some r → release_formed r
}.
Definition progressed (db db' : DB) : Prop :=
  releases_formed db' ∧ ∀ i r, platform_releases db !! i = Some r → ∃ r', platform_releases db' !! i = Some r' ∧ progress r r'.

Lemma progress_refl r : progress r r.
Proof. split; [done|by left]. Qed.
Lemma progress_trans r r' r'' : progress r r' → progress r' r'' → progress r r''.
Proof.
  intros [Hi [->|[Hp Hs]]] [Hi' Hn]; [by split|]. split; [congruence|]. right. split; [done|].
  destruct Hn as [->|[_ Hs']]; [done|lia].
Qed.
Lemma progressed_refl db : releases_formed db → progressed db db.
Proof. intros Hdb. split; [done|]. intros i r Hi. exists r. split; [done|apply progress_refl]. Qed.
Lemma progressed_trans db db' db'' : progressed db db' → progressed db' db'' → progressed db db''.
Proof.
  intros [_ H1] [H2 H3]. split; [done|]. intros i r (r' & Hr' & Hp)%H1. destruct (H3 _ _ Hr') as (r'' & Hr'' & Hp').
  exists r''. split; [done|by eapply progress_trans].
Qed.
Lemma progressed_same db db' : releases_formed db → tbl (A := PlatformRelease) db' = tbl db → progressed db db'.
Proof.
  intros [Hk Hr] Heq. unfold progressed, platform_releases in *. split; [by split; unfold platform_releases; rewrite Heq|].
  intros i r Hi. exists r. split; [by rewrite Heq|apply progress_refl].
Qed.

Lemma incomplete_status r : incomplete_release r = true ↔
  plr_Status r = "accepted" ∨ plr_Status r = "applying" ∨ plr_Status r = "waiting_ready".
Proof. unfold incomplete_release. rewrite bool_decide_eq_true, !elem_of_cons, elem_of_nil. tauto. Qed.
Lemma release_over r : release_formed r → incomplete_release r = false → over r.
Proof. intros [[Hi|Ho] _ _] Hn; congruence. Qed.
Lemma incomplete_not_over r : incomplete_release r = true → ¬ over r.
Proof. unfold over. intros [Hs|[Hs|Hs]]%incomplete_status; rewrite Hs; by intros [?|?]. Qed.

(** A later state of a release that is under way. *)
Lemma formed_set_state status detail started completed r :
  (stage status = 1 ∨ stage status = 2 → is_Some started)%Z →
  (status ∈ ["applying"; "waiting_ready"] ∧ completed = None ∨ status ∈ ["succeeded"; "failed"] ∧ is_Some completed) →
  release_formed (set_release_state status detail started completed r).
Proof.
  intros Hs Hc. rewrite !elem_of_cons, elem_of_nil in Hc.
  assert (plr_Status (set_release_state status detail started completed r) = status ∧
    plr_StartedAt (set_release_state status detail started completed r) = started ∧
    plr_CompletedAt (set_release_state status detail started completed r) = completed) as (H1 & H2 & H3) by by destruct r.
  split; rewrite ?incomplete_status; unfold over; rewrite ?H1, ?H2, ?H3.
  - naive_solver.
  - destruct Hc as [[[->|[->|[]]] ->]|[[->|[->|[]]] [x ->]]]; (split; [intros [? ?]|intros [?|?]]); naive_solver.
  - intros [->| ->]; apply Hs; [by left|by right].
Qed.

Lemma progressed_saved db r r' t :
  releases_formed db → platform_releases db !! plr_ID r = Some r → progress r r' → release_formed r' →
  t_save r' (tbl db) = Ok t → progressed db (put t db) ∧ platform_releases (put t db) !! plr_ID r = Some r'.
Proof.
  intros [Hk Hf] Hr Hp Hr' Ht. assert (plr_ID r' = plr_ID r) as Hid by apply (identity_fields _ _ (proj1 Hp)).
  apply (keyed_save _ _ _ Hk) in Ht as [Hk' Hrows]. cbn in Hrows. rewrite Hid in Hrows.
  assert (platform_releases (put t db) = <[plr_ID r := r']> (platform_releases db)) as Heq by by unfold platform_releases; rewrite tbl_put.
  split; [|by rewrite Heq, lookup_insert_eq]. split; [split|].
  - by rewrite tbl_put.
  - intros i x. rewrite Heq. intros [[_ <-]|[_ Hx]]%lookup_insert_Some; [done|by eapply Hf].
  - intros i x Hx. rewrite Heq. destruct (decide (i = plr_ID r)) as [->|Hne].
    + rewrite Hr in Hx. injection Hx as <-. exists r'. by rewrite lookup_insert_eq.
    + exists x. rewrite lookup_insert_ne by done. split; [done|apply progress_refl].
Qed.
Lemma progressed_created db r b t :
  releases_formed db → release_formed r → t_create r (tbl db) = Ok (b, t) → progressed db (put t db).
Proof.
  intros [Hk Hf] Hr Ht. apply (keyed_create _ _ _ _ Hk) in Ht as (Hk' & -> & Hfresh & Hrows).
  set (n := t_next _) in *. assert (platform_releases (put t db) = <[n := with_id n (defaults r)]> (platform_releases db)) as Heq
    by (unfold platform_releases; rewrite tbl_put; exact Hrows).
  split; [split|].
  - by rewrite tbl_put.
  - intros i x. rewrite Heq. intros [[_ <-]|[_ Hx]]%lookup_insert_Some; [|by eapply Hf]. destruct Hr as [H1 H2 H3], r. by split.
  - intros i x Hx. exists x. rewrite Heq, lookup_insert_ne; [split; [done|apply progress_refl]|].
    intros <-. unfold platform_releases in Hx. congruence.
Qed.

Section progress.
Context `{K8sLibrary} {C : Type} `{Surroundings} `{AesGcm} `{Digests} `{Entropy}.
#[local] Abbreviation W := (World C).
#[local] Abbreviation Handler := (handler W).
Variable s : ReleaseService (C := C).

(** A part of a handler that, running alone, only moves releases on. *)
Definition moves {A} (p : Handler A) : Prop := ∀ w, releases_formed (w_db w) → progressed (w_db w) (w_db (alone p w).2).
Lemma moves_bind {A B} (p : Handler A) (f : A → Handler B) : moves p → (∀ a, moves (f a)) → moves (p ≫= f).
Proof.
  intros Hp Hf w Hw. rewrite alone_bind. specialize (Hp w Hw). unfold mbind, M_bind.
  destruct (alone p w) as [[a|e] w1]; [|done]. cbn in Hp. eapply progressed_trans; [exact Hp|]. apply Hf, Hp.
Qed.
Lemma moves_steady {A} (p : Handler A) : steady p → moves p.
Proof. intros Hp w Hw. rewrite Hp. by apply progressed_refl. Qed.
Lemma moves_reporting {A} f (p : Handler A) : moves p → moves (reporting f p).
Proof. intros Hp w Hw. specialize (Hp w Hw). rewrite alone_reporting. unfold wrapping. by destruct (alone p w) as [[a|e] w1]. Qed.
Lemma moves_step_or {A} (m : M W A) h :
  (∀ w, releases_formed (w_db w) → progressed (w_db w) (w_db (m w).2)) → moves (step_or m h).
Proof. intros Hm w Hw. specialize (Hm w Hw). unfold step_or. cbn [alone]. by destruct (m w). Qed.

Lemma update_release_moves r r' (w : W) :
  releases_formed (w_db w) → platform_releases (w_db w) !! plr_ID r = Some r → progress r r' → release_formed r' →
  progressed (w_db w) (w_db (UpdatePlatformRelease r' w).2) ∧
  (is_ok (UpdatePlatformRelease r' w).1 = true → platform_releases (w_db (UpdatePlatformRelease r' w).2) !! plr_ID r = Some r').
Proof.
  intros Hw Hr Hp Hf. unfold UpdatePlatformRelease, save, execute.
  destruct (statement_cases (λ db : DB, t ← t_save r' (tbl db); Ok ((), put t db)) w) as [(e & ->)|([] & db & Hs & ->)].
  - split; [by apply progressed_refl|done].
  - apply result_bind_Ok in Hs as (t & Ht & [= <-]). by eapply progressed_saved in Ht as [??].
Qed.

Lemma moves_Apply ctx id : moves (Apply s ctx id).
Proof.
  intros w Hw. unfold Apply. destruct (rsv_platform s) as [platform|]; [|by apply progressed_refl].
  cbn [tried mbind handler_mbind handler_bind alone].
  destruct (GetPlatformRelease id w) as [[r|e] w1] eqn:Hg.
  2: { unfold GetPlatformRelease, first in Hg. destruct (reads_query (λ db, first_row (select (λ r, bool_decide (plr_ID r = id)) (tbl db))) w) as [Hdb _].
       rewrite Hg in Hdb. cbn in *. rewrite Hdb. by apply progressed_refl. }
  apply first_Ok in Hg as (_ & Hr & Hdb1). apply (keyed_elem _ _ (rfs_keyed _ Hw)) in Hr. cbn in Hr.
  rewrite <-Hdb1 in *. clear w Hdb1. rename w1 into w. pose proof (rfs_rows _ Hw _ _ Hr) as Hform.
  destruct (bool_decide (plr_Status r ≠ "accepted") && _) eqn:Hst; [by apply progressed_refl|].
  assert (plr_Status r = "accepted" ∨ plr_Status r = "applying") as Hs.
  { apply andb_false_iff in Hst. rewrite !bool_decide_eq_false in Hst. destruct Hst as [?%dec_stable|?%dec_stable]; auto. }
  assert (plr_CompletedAt r = None) as Hnone.
  { destruct (plr_CompletedAt r) eqn:Hc; [|done]. exfalso. apply (incomplete_not_over r); [apply incomplete_status; tauto|].
    apply (rf_completed _ Hform). by eexists. }
  assert (incomplete_release r = true) as Hinc by (apply incomplete_status; tauto).
  cbn [step_or mbind handler_mbind handler_bind alone now map_err]. cbv zeta. rewrite Hnone.
  set (started := match plr_StartedAt r with Some t => Some t | None => _ end).
  assert (is_Some started) as Hstarted by (subst started; by destruct (plr_StartedAt r); eexists).
  set (r1 := set_release_state "applying" _ _ _ r). set (w1 := tick w).
  assert (progress r r1 ∧ release_formed r1) as [Hp1 Hf1].
  { split.
    - split; [apply set_state_identity|]. right. split; [done|]. assert (plr_Status r1 = "applying") as -> by by destruct r.
      by destruct Hs as [-> | ->].
    - apply formed_set_state; [done|]. left. split; [set_solver|done]. }
  assert (releases_formed (w_db w1)) as Hw1 by done.
  destruct (update_release_moves r r1 w1 Hw1 Hr Hp1 Hf1) as [Hm1 Hrow1].
  cbn [tried mbind handler_mbind handler_bind alone]. destruct (UpdatePlatformRelease r1 w1) as [saved w2]. cbn [fst snd] in *.
  destruct (is_ok saved); cbn [negb]; [|exact Hm1].
  specialize (Hrow1 eq_refl). unfold cluster_step. cbn [tried mbind handler_mbind handler_bind alone].
  pose proof (cluster_keeps_db (platform_UpdatePlatformDeployment platform ctx (plr_Image r1) (plr_ID r1)) w2) as Hdb3.
  destruct (on_cluster _ w2) as [updated w3]. cbn [snd] in Hdb3. unfold ignored. cbn [alone].
  set (r2 := match updated with Ok _ => _ | Err e => _ end).
  assert (plr_ID r1 = plr_ID r ∧ plr_Status r1 = "applying" ∧ incomplete_release r1 = true) as (Hid & Hst1 & Hinc1).
  { split_and!; [by destruct r|by destruct r|apply incomplete_status; right; left; by destruct r]. }
  assert (progress r1 r2 ∧ release_formed r2) as [Hp2 Hf2].
  { subst r2. destruct updated as [p|e].
    - split; [split; [apply set_state_identity|right; split; [done|rewrite Hst1; by destruct r]]|].
      apply formed_set_state; [done|]. left. split; [set_solver|]. by destruct r.
    - split; [split; [apply set_state_identity|right; split; [done|rewrite Hst1; by destruct r]]|].
      apply formed_set_state; [by intros [?|?]|]. right. split; [set_solver|]. by eexists. }
  destruct Hm1 as [Hw2 Hprog]. assert (progressed (w_db w1) (w_db w2)) as Hm1 by done.
  rewrite <-Hdb3 in Hw2, Hrow1, Hm1. rewrite <-Hid in Hrow1. destruct (update_release_moves r1 r2 w3 Hw2 Hrow1 Hp2 Hf2) as [Hm2 _].
  destruct (UpdatePlatformRelease r2 w3) as [x w4]. cbn [fst snd] in *. by eapply progressed_trans.
Qed.

Lemma latest_incomplete_Ok (w w' : W) r :
  releases_formed (w_db w) → LatestIncompletePlatformRelease w = (Ok r, w') →
  w_db w' = w_db w ∧ platform_releases (w_db w) !! plr_ID r = Some r ∧ incomplete_release r = true.
Proof.
  intros Hw (Hf & Hdb & _)%query_Ok. split; [done|]. destruct (rev _) as [|x l] eqn:Hl; [done|]. injection Hf as ->.
  assert (r ∈ select incomplete_release (tbl (w_db w))) as [Hi Hr]%elem_of_select.
  { apply list_elem_of_In, in_rev. rewrite Hl. by left. }
  split; [|done]. by apply (keyed_elem _ _ (rfs_keyed _ Hw)) in Hr.
Qed.
Lemma reconciled_progress status at_ r r' :
  reconciled status at_ r = Some r' → incomplete_release r = true → progress r r' ∧ release_formed r'.
Proof.
  unfold reconciled. intros Hr Hi. assert (∀ st detail, st ∈ ["succeeded"; "failed"] →
    progress r (set_release_state st detail (plr_StartedAt r) (Some at_) r) ∧
    release_formed (set_release_state st detail (plr_StartedAt r) (Some at_) r)) as Hset.
  { intros st detail Hst. assert (stage st = 3%Z) as Hlast by (rewrite !elem_of_cons, elem_of_nil in Hst; by destruct Hst as [->|[->|[]]]).
    split; [split; [apply set_state_identity|right; split; [done|]]|].
    - assert (plr_Status (set_release_state st detail (plr_StartedAt r) (Some at_) r) = st) as -> by by destruct r.
      rewrite Hlast. unfold stage. repeat case_decide; lia.
    - apply formed_set_state; [rewrite Hlast; by intros [?|?]|]. right. split; [done|by eexists]. }
  destruct (_ && _); [injection Hr as <-; apply Hset; set_solver|].
  destruct (_ || _); [injection Hr as <-; apply Hset; set_solver|done].
Qed.
Lemma moves_ReconcileLatest ctx : moves (ReconcileLatest s ctx).
Proof.
  intros w Hw. unfold ReconcileLatest. destruct (rsv_platform s) as [platform|]; [|by apply progressed_refl].
  cbn [tried mbind handler_mbind handler_bind alone].
  destruct (LatestIncompletePlatformRelease w) as [[r|e] w1] eqn:Hg.
  2: { destruct (reads_query (λ db, first_row (rev (select incomplete_release (tbl db)))) w) as [Hdb _].
       unfold LatestIncompletePlatformRelease in Hg. rewrite Hg in Hdb. cbn in *. rewrite Hdb. by apply progressed_refl. }
  apply latest_incomplete_Ok in Hg as (Hdb1 & Hr & Hinc); [|done]. rewrite <-Hdb1 in *. clear w Hdb1. rename w1 into w.
  unfold cluster_step. cbn [tried mbind handler_mbind handler_bind alone].
  pose proof (cluster_keeps_db (platform_PlatformDeploymentStatus platform ctx) w) as Hdb2.
  destruct (on_cluster _ w) as [status w2]. cbn [snd] in Hdb2. rewrite <-Hdb2 in *. clear w Hdb2. rename w2 into w.
  destruct status as [status|e]; [|by apply progressed_refl].
  destruct (_ && _); [by apply moves_Apply|].
  cbn [step_or mbind handler_mbind handler_bind alone now map_err].
  destruct (reconciled _ _ _) as [r'|] eqn:Hrec; [|by apply progressed_refl].
  apply reconciled_progress in Hrec as [Hp Hf]; [|done]. unfold ignored. cbn [alone].
  destruct (update_release_moves r r' (tick w) Hw Hr Hp Hf) as [Hm _]. by destruct (UpdatePlatformRelease r' (tick w)).
Qed.

Lemma moves_create ctx image source commitSHA runID : moves (PlatformService_CreateRelease s ctx image source commitSHA runID).
Proof.
  unfold PlatformService_CreateRelease. destruct (rsv_platform s) as [platform|]; [|by apply moves_steady].
  apply moves_bind; [by apply moves_steady, steady_on_cluster|]. intros status. apply moves_step_or.
  intros w Hw. unfold CreatePlatformRelease, mbind, M_bind, now. cbv beta iota.
  set (r := set_release_created _ _). assert (release_formed r) as Hr.
  { split; [by left|split; [by intros [? ?]|by intros [?|?]]|by intros [?|?]]. }
  unfold create. destruct (statement_cases (λ db : DB, p ← t_create r (tbl db); Ok (p.1, put p.2 db)) (tick w)) as [(e & ->)|(a & db & Hs & ->)].
  - by apply progressed_refl.
  - apply result_bind_Ok in Hs as ([b t] & Ht & [= <- <-]). by eapply progressed_created.
Qed.

(** Statements on another table. *)
Lemma moves_elsewhere {A} (m : M W A) h :
  (∀ w, tbl (A := PlatformRelease) (w_db (m w).2) = tbl (w_db w)) → moves (step_or m h).
Proof. intros Hm. apply moves_step_or. intros w Hw. apply progressed_same; [done|apply Hm]. Qed.
Lemma releases_put_nonces (t : table PlatformWebhookNonce) db : tbl (A := PlatformRelease) (put t db) = tbl db.
Proof. by destruct db as [? ? ? ? ? ? ? ? ? ? ? ? ? [] ?]. Qed.
Lemma releases_put_configs (t : table SystemConfig) db : tbl (A := PlatformRelease) (put t db) = tbl db.
Proof. by destruct db as [? ? ? ? ? ? ? ? ? ? ? ? ? [] ?]. Qed.
Lemma elsewhere_execute {A} `{HasTable A} (f : table A → result (table A)) (w : W) :
  (∀ t db, tbl (A := PlatformRelease) (put (A := A) t db) = tbl db) → tbl (A := PlatformRelease) (w_db (execute f w).2) = tbl (w_db w).
Proof.
  intros Hput. unfold execute. destruct (statement_cases (λ db : DB, t ← f (tbl db); Ok ((), put t db)) w) as [(e & ->)|(a & db & Hs & ->)]; [done|].
  apply result_bind_Ok in Hs as (t & _ & [= _ <-]). apply Hput.
Qed.
Lemma elsewhere_create {A} `{HasTable A, Row A} (a : A) (w : W) :
  (∀ t db, tbl (A := PlatformRelease) (put (A := A) t db) = tbl db) → tbl (A := PlatformRelease) (w_db (create a w).2) = tbl (w_db w).
Proof.
  intros Hput. unfold create. destruct (statement_cases (λ db : DB, p ← t_create a (tbl db); Ok (p.1, put p.2 db)) w) as [(e & ->)|(b & db & Hs & ->)]; [done|].
  apply result_bind_Ok in Hs as (t & _ & [= _ <-]). apply Hput.
Qed.

Lemma tried_config_steady key : steady (C := C) (tried (GetSystemConfig key)).
Proof.
  apply steady_step; [|intros r; apply steady_ret]. intros w.
  exact (proj1 (reads_then (first (λ c, bool_decide (cfg_Key c = key))) _ cfg_Value (reads_query _) w)).
Qed.
Lemma now_steady h : steady (C := C) (step_or now h).
Proof. apply steady_step; [done|intros r; apply steady_ret]. Qed.
Lemma ValidateWebhook_steady timestamp nonce signature body : steady (ValidateWebhook s timestamp nonce signature body).
Proof.
  unfold ValidateWebhook. destruct (_ || _); [done|]. destruct (parse_int timestamp); [|done].
  apply steady_bind; [apply now_steady|]. intros at_. destruct (bool_decide _); [done|].
  apply steady_bind; [apply tried_config_steady|]. intros encrypted. destruct (e ← encrypted; _); [|done]. by destruct (hex_decode _).
Qed.
Lemma ValidateImage_steady image : steady (C := C) (ValidateImage image).
Proof.
  unfold ValidateImage, ImagePrefixes. apply steady_bind; [apply steady_bind; [apply tried_config_steady|done]|]. intros p. apply steady_ret.
Qed.
#[local] Hint Resolve moves_Apply moves_ReconcileLatest moves_create moves_bind moves_reporting : handlers.
#[local] Hint Extern 2 (moves _) => apply moves_steady : handlers.
#[local] Hint Resolve now_steady ValidateWebhook_steady ValidateImage_steady tried_config_steady : handlers.

Lemma moves_ConsumeWebhookNonce nonce at_ : moves (ConsumeWebhookNonce (C := C) nonce at_).
Proof.
  unfold ConsumeWebhookNonce. apply moves_bind; [|intros ?; apply moves_bind; [|intros ?; by apply moves_steady]].
  - apply moves_elsewhere. intros w. apply elsewhere_execute, releases_put_nonces.
  - apply moves_elsewhere. intros w. apply elsewhere_create, releases_put_nonces.
Qed.
Lemma moves_SetSystemConfig key value : moves (SetSystemConfig (C := C) key value).
Proof.
  unfold SetSystemConfig. apply moves_bind.
  - apply moves_steady, steady_step; [intros w; apply reads_query|intros r; apply steady_ret].
  - intros [cfg|e].
    + apply moves_elsewhere. intros w. apply elsewhere_execute, releases_put_configs.
    + apply moves_bind; [|intros ?; by apply moves_steady]. apply moves_elsewhere. intros w. apply elsewhere_create, releases_put_configs.
Qed.
Lemma moves_Webhook ctx r : moves (Webhook s ctx r).
Proof.
  unfold Webhook. destruct (whr_Body r) as [body|]; [|by apply moves_steady]. cbv zeta.
  apply moves_bind; [auto with handlers|]. intros valid. apply moves_bind; [auto with handlers|]. intros ?.
  destruct (j ← parse _; _) as [request|]; [|by apply moves_steady].
  apply moves_bind; [auto with handlers|]. intros ?. apply moves_bind; [auto with handlers|]. intros at_.
  apply moves_bind; [apply moves_reporting, moves_ConsumeWebhookNonce|]. intros ?.
  apply moves_bind; [auto with handlers|]. intros release. apply moves_bind; [auto with handlers|]. intros ?. by apply moves_steady.
Qed.
Lemma moves_ManualUpdate ctx body : moves (ManualUpdate s ctx body).
Proof. unfold ManualUpdate. repeat (apply moves_bind; [auto with handlers|intros ?]). by apply moves_steady. Qed.
Lemma moves_Rollback ctx id : moves (Handler_Rollback s ctx id).
Proof.
  unfold Handler_Rollback. destruct (ParsePositiveID id); [|by apply moves_steady]. cbv zeta.
  apply moves_bind; [apply moves_steady; eapply steady_step_or; reading|]. intros previous.
  repeat (apply moves_bind; [auto with handlers|intros ?]). by apply moves_steady.
Qed.
Lemma moves_Status ctx : moves (Status s ctx).
Proof.
  unfold Status. destruct (rsv_platform s) as [platform|]; [|by apply moves_steady].
  apply moves_bind; [auto with handlers|]. intros ?. apply moves_bind; [auto with handlers|]. intros ?. apply moves_steady.
  apply steady_bind; [apply steady_on_cluster|]. intros deployment.
  apply steady_bind; [eapply steady_step_or; unfold ListPlatformReleases; apply reads_then, reads_query|]. intros releases.
  apply steady_bind; [apply steady_bind; [auto with handlers|done]|]. intros prefixes.
  apply steady_bind; [auto with handlers|done].
Qed.
Lemma moves_GenerateWebhookSecret : moves (GenerateWebhookSecret s).
Proof.
  unfold GenerateWebhookSecret, Service_GenerateWebhookSecret. apply moves_reporting.
  apply moves_bind; [apply moves_steady, steady_step; [done|intros r; apply steady_ret]|]. intros secret.
  apply moves_bind; [apply moves_steady, steady_step; [|intros r; apply steady_ret]|].
  { intros w. unfold seal_secret, mbind, M_bind. destruct (new_cipher _); cbn; [|done].
    unfold draw. by destruct (random_bytes _ _). }
  intros encrypted. apply moves_bind; [apply moves_SetSystemConfig|]. intros ?. by apply moves_steady.
Qed.
Lemma moves_UpdateImagePrefix body : moves (UpdateImagePrefix (C := C) body).
Proof.
  unfold UpdateImagePrefix, SetImagePrefixes. apply moves_bind; [auto with handlers|]. intros raw.
  apply moves_bind; [|intros ?; by apply moves_steady]. apply moves_reporting.
  apply moves_bind; [by apply moves_steady|]. intros prefixes. apply moves_bind; [apply moves_SetSystemConfig|]. intros ?. by apply moves_steady.
Qed.

Inductive platform_call :=
  | CallWebhook (ctx : Context) (r : webhookRequest)
  | CallManual (ctx : Context) (body : option string)
  | CallRollback (ctx : Context) (id : string)
  | CallStatus (ctx : Context)
  | CallGenerateSecret
  | CallUpdatePrefix (body : option string).
Definition serve_platform (call : platform_call) : Handler unit :=
  match call with
  | CallWebhook ctx r => answered_by (Webhook s ctx r)
  | CallManual ctx body => answered_by (ManualUpdate s ctx body)
  | CallRollback ctx id => answered_by (Handler_Rollback s ctx id)
  | CallStatus ctx => answered_by (Status s ctx)
  | CallGenerateSecret => answered_by (GenerateWebhookSecret s)
  | CallUpdatePrefix body => answered_by (UpdateImagePrefix body)
  end.
Lemma moves_serve call : moves (serve_platform call).
Proof.
  destruct call; apply moves_bind; try (intros ?; by apply moves_steady).
  - apply moves_Webhook.
  - apply moves_ManualUpdate.
  - apply moves_Rollback.
  - apply moves_Status.
  - apply moves_GenerateWebhookSecret.
  - apply moves_UpdateImagePrefix.
Qed.
Definition serve_all_platform (calls : list platform_call) (w : W) : W := foldl (λ w call, (alone (serve_platform call) w).2) w calls.

(** C36: the life of a release of the platform. Requests that run one after the other, whatever fails, never
    change or lose a release that is over; before that its status only moves on, from accepted over applying
    and waiting to succeeded or failed; its image, its origin and the image it replaced stay what they were;
    it has an end exactly when it is over, and a start from the moment it is applied. *)
Theorem platform_releases_progress calls (w : W) (Hstart : releases_formed (w_db w)) :
  releases_formed (w_db (serve_all_platform calls w)) ∧
  ∀ i r, platform_releases (w_db w) !! i = Some r →
    ∃ r', platform_releases (w_db (serve_all_platform calls w)) !! i = Some r' ∧ progress r r'.
Proof.
  change (progressed (w_db w) (w_db (serve_all_platform calls w))).
  revert w Hstart. induction calls as [|call calls IH]; intros w Hw; [by apply progressed_refl|].
  pose proof (moves_serve call w Hw) as Hm. eapply progressed_trans; [exact Hm|]. apply IH, Hm.
Qed.
End progress.

(** ** A concrete run *)

#[local] Existing Instances calm sample_library toy_cipher sample_digests.
#[local] Instance platform_entropy : Entropy := λ n _, Some (dec (Z.of_nat n)).

(** A platform that keeps the image it was last given. *)
Record SamplePlatform := { sp_Image : string; sp_Release : Z; sp_Ready : bool }.
Definition sample_platform : PlatformAdapter SamplePlatform := {|
  PlatformAvailable := true;
  platform_PlatformDeploymentStatus _ p :=
    (Ok {| pds_Image := sp_Image p; pds_ReleaseID := sp_Release p; pds_DesiredReplicas := 1;
           pds_ReadyReplicas := if sp_Ready p then 1 else 0; pds_Failure := "" |}, p);
  platform_UpdatePlatformDeployment _ image id p := (Ok (sp_Image p), {| sp_Image := image; sp_Release := id; sp_Ready := true |})
|}.
Definition sample_service : ReleaseService := {| rsv_encKey := "keys"; rsv_platform := Some sample_platform |}.
Definition sample_platform_release (id : Z) (tag status : string) : PlatformRelease :=
  {| plr_ID := id; plr_Source := "manual"; plr_Image := DefaultImagePrefix +:+ (":" +:+ tag); plr_PreviousImage := ""; plr_Status := status;
     plr_Detail := ""; plr_CommitSHA := ""; plr_RunID := ""; plr_StartedAt := None; plr_CompletedAt := None; plr_CreatedAt := 0 |}.
Definition platform_world (releases : list PlatformRelease) : World SamplePlatform :=
  Build_World (put {| t_rows := list_to_map ((λ r, (plr_ID r, r)) <$> releases); t_next := Z.of_nat (S (length releases)) |} empty_db) 0
    {| sp_Image := "old"; sp_Release := 0; sp_Ready := true |} [].

Lemma platform_world_formed : releases_formed (w_db (platform_world [sample_platform_release 1 "v1" "accepted"])).
Proof.
  assert (∀ i r, platform_releases (w_db (platform_world [sample_platform_release 1 "v1" "accepted"])) !! i = Some r →
    i = 1%Z ∧ r = sample_platform_release 1 "v1" "accepted") as Hrow.
  { intros i r Hi. change (({[1%Z := sample_platform_release 1 "v1" "accepted"]} : gmap Z PlatformRelease) !! i = Some r) in Hi.
    by apply lookup_singleton_Some in Hi as [<- <-]. }
  split.
  - split; intros i r [-> ->]%Hrow; [done|]. reflexivity.
  - intros i r [-> ->]%Hrow. split; [by left|split; [by intros [? ?]|by intros [?|?]]|by intros [?|?]].
Qed.

(** An image that was accepted is applied, and found ready by the next look at the status. *)
Definition status_calls : list platform_call := [CallStatus None; CallStatus None].
Lemma platform_releases_progress_witness :
  plr_Status <$> platform_releases (w_db (serve_all_platform sample_service status_calls (platform_world [sample_platform_release 1 "v1" "accepted"]))) !! 1%Z = Some "succeeded" ∧
  releases_formed (w_db (serve_all_platform sample_service status_calls (platform_world [sample_platform_release 1 "v1" "accepted"]))).
Proof.
  split; [vm_compute; reflexivity|].
  apply (platform_releases_progress sample_service status_calls _ platform_world_formed).
Defined.

(** Of two accepted releases the newer one is applied first. When it has succeeded, the older one is the
    latest that is not over, and looking at the status replaces the image of the newer one by it. *)
Example older_release_reapplied :
  let w := platform_world [sample_platform_release 1 "v1" "accepted"; sample_platform_release 2 "v2" "accepted"] in
  let after n := w_cluster (serve_all_platform sample_service (replicate n (CallStatus None)) w) in
  sp_Image (after 2) = DefaultImagePrefix +:+ ":v2" ∧ sp_Image (after 3) = DefaultImagePrefix +:+ ":v1".
Proof. split; vm_compute; reflexivity. Qed.
