(* ===== verification/PlatformReleaseSafety.v ===== *)
(** * Safety of the releases of the platform

    What the handlers of [PlatformReleases.v] guarantee to the outside. A deployment that a build asks for is
    authenticated; under every schedule of the requests a nonce serves once, every release that is answered
    is recorded, and the cluster only ever gets images of recorded releases, in the one Deployment of the
    platform. *)
From Stdlib Require Import ZArith Ascii String Lia.
From stdpp Require Import base sorting pretty numbers gmap strings list.
From S2P Require Import Prelude GoStrings Json JsonText Interleaving ReleaseSpec Models PlatformModels Security NodeMaintenance ReleaseValidation ReleaseRendering Cluster KubernetesApplier Store PlatformStore Api Tokens IntegrationSessions ReleaseExecution Templates HandlerSteps PlatformReleases.

(** ** The requests *)

Section platform_requests.
Context `{K8sLibrary} {C : Type} `{Surroundings} `{AesGcm} `{Digests} `{Entropy}.
#[local] Abbreviation W := (World C).
#[local] Abbreviation Handler := (handler W).
Variable s : ReleaseService (C := C).

(** The release that a request answers, if it answers one. *)
Definition answered_release (call : platform_call) : Handler (option PlatformRelease) :=
  match call with
  | CallWebhook ctx r => x ← Webhook s ctx r; mret (Some x)
  | CallManual ctx body => x ← ManualUpdate s ctx body; mret (Some x)
  | CallRollback ctx id => x ← Handler_Rollback s ctx id; mret (Some x)
  | CallStatus ctx => Status s ctx ;; mret None
  | CallGenerateSecret => GenerateWebhookSecret s ;; mret None
  | CallUpdatePrefix body => UpdateImagePrefix body ;; mret None
  end.
Definition serve_release (call : platform_call) : Handler (platform_call * option PlatformRelease) :=
  a ← answered_release call; mret (call, a).
End platform_requests.

(** ** One request *)

Section authentication.
Context `{K8sLibrary} {C : Type} `{Surroundings} `{AesGcm} `{Digests} `{Entropy}.
#[local] Abbreviation W := (World C).
#[local] Abbreviation Handler := (handler W).
Variable s : ReleaseService (C := C).

Definition configured (db : DB) (name value : string) : Prop := ∃ c, c ∈ t_list (tbl db) ∧ cfg_Key c = name ∧ cfg_Value c = value.
(** The text of the request is signed with the stored secret, at a time close to now. *)
Definition signed (db : DB) (at_ : Z) (q : webhookRequest) (body : string) : Prop :=
  ∃ timestamp encrypted secret provided,
    parse_int (whr_Timestamp q) = Some timestamp ∧ (Z.abs (at_ - timestamp * second) ≤ webhookMaxSkew)%Z ∧
    configured db WebhookSecretConfigKey encrypted ∧ Decrypt (rsv_encKey s) encrypted = Ok secret ∧
    hex_decode (chars (whr_Signature q)) = Some provided ∧
    of_chars provided = hmac_sha256 secret (signed_request (whr_Timestamp q) (whr_Nonce q) body).
(** An image of one of the prefixes, with a tag. *)
Definition image_of (prefixes : list string) (image : string) : Prop :=
  ∃ prefix tag, prefix ∈ prefixes ∧ trim_space image = prefix +:+ (":" +:+ tag) ∧ imageTagPattern tag = true.

Lemma GetSystemConfig_Ok name (w w' : W) value : GetSystemConfig name w = (Ok value, w') → configured (w_db w) name value.
Proof.
  unfold GetSystemConfig. intros (c & w1 & Hc & Hv)%bind_Ok. injection Hv as <- <-.
  apply first_Ok in Hc as (Ht%bool_decide_eq_true & Hin & _). by exists c.
Qed.
Lemma allowed_image_Ok prefixes image : allowed_image prefixes image = Ok tt → image_of prefixes image.
Proof.
  unfold allowed_image. destruct (find_first _ prefixes) as [matched|] eqn:Hf; [|done].
  apply find_first_Some in Hf as [Hp [tag Htag]%has_prefix_spec]. rewrite Htag, trim_prefix_app.
  destruct (imageTagPattern tag) eqn:Hpat; [|done]. intros _. exists matched, tag. split_and!; [done| |done]. by rewrite Htag, app_str_assoc.
Qed.
Lemma ValidateWebhook_true timestamp nonce signature body raw (w w' : W) :
  alone (ValidateWebhook s timestamp nonce signature body) w = (Ok true, w') →
  signed (w_db w) (clock (w_tick w)) {| whr_Timestamp := timestamp; whr_Nonce := nonce; whr_Signature := signature; whr_Body := raw |} body.
Proof.
  unfold ValidateWebhook. destruct (_ || _); [done|]. destruct (parse_int timestamp) as [t|] eqn:Ht; [|done]. intros Hrun.
  apply alone_step_or_Ok in Hrun as (at_ & w1 & Hnow & Hrun). injection Hnow as <- <-.
  destruct (bool_decide _) eqn:Hskew; [done|]. apply bool_decide_eq_false in Hskew.
  apply alone_tried_Ok in Hrun as (encrypted & w2 & Hg & Hrun).
  destruct encrypted as [e|]; [|done]. cbn [mbind result_bind] in Hrun. destruct (Decrypt (rsv_encKey s) e) as [secret|] eqn:Hd; [|done].
  destruct (hex_decode (chars signature)) as [provided|] eqn:Hhex; [|done]. injection Hrun as Hmac _. apply bool_decide_eq_true in Hmac.
  exists t, e, secret, provided. split_and!; [done|lia|exact (GetSystemConfig_Ok _ _ _ _ Hg)|done..].
Qed.
Lemma Apply_answers ctx id (w : W) : (alone (Apply s ctx id) w).1 = Ok tt.
Proof.
  unfold Apply. destruct (rsv_platform s) as [platform|]; [|done]. cbn [tried mbind handler_mbind handler_bind alone].
  destruct (GetPlatformRelease id w) as [[r|e] w1]; [|done]. destruct (_ && _); [done|].
  cbn [step_or mbind handler_mbind handler_bind alone now map_err]. cbv zeta. cbn [tried mbind handler_mbind handler_bind alone].
  destruct (UpdatePlatformRelease _ _) as [saved w2]. destruct (negb (is_ok saved)); [done|].
  unfold cluster_step, ignored. cbn [tried mbind handler_mbind handler_bind alone]. destruct (on_cluster _ w2) as [updated w3].
  by destruct (UpdatePlatformRelease _ w3).
Qed.
(** Parts of a handler that leave the releases, whatever they answer. *)
Definition spares {A} (p : Handler A) : Prop := ∀ w, tbl (A := PlatformRelease) (w_db (alone p w).2) = tbl (w_db w).
Lemma spares_steady {A} (p : Handler A) : steady p → spares p.
Proof. intros Hp w. by rewrite Hp. Qed.
Lemma spares_bind {A B} (p : Handler A) (f : A → Handler B) : spares p → (∀ a, spares (f a)) → spares (p ≫= f).
Proof.
  intros Hp Hf w. rewrite alone_bind. specialize (Hp w). unfold mbind, M_bind. destruct (alone p w) as [[a|e] w1]; cbn in *; [|done].
  by rewrite (Hf a w1).
Qed.
(** Parts that leave the releases when they refuse. *)
Definition refuses_sparing {A} (p : Handler A) : Prop :=
  ∀ w e w', alone p w = (Err e, w') → tbl (A := PlatformRelease) (w_db w') = tbl (w_db w).
Lemma refuses_sparing_bind {A B} (p : Handler A) (f : A → Handler B) :
  spares p → (∀ a, refuses_sparing (f a)) → refuses_sparing (p ≫= f).
Proof.
  intros Hp Hf w e w'. rewrite alone_bind. specialize (Hp w). unfold mbind, M_bind. destruct (alone p w) as [[a|e'] w1]; cbn in *.
  - intros He%Hf. congruence.
  - by intros [= <- <-].
Qed.
Lemma refuses_sparing_answered {A B} (p : Handler A) (f : A → Handler B) :
  refuses_sparing p → (∀ a w, is_ok (alone (f a) w).1 = true) → refuses_sparing (p ≫= f).
Proof.
  intros Hp Hf w e w'. rewrite alone_bind. unfold mbind, M_bind. destruct (alone p w) as [[a|e'] w1] eqn:Ha.
  - intros Hr. specialize (Hf a w1). by rewrite Hr in Hf.
  - intros [= _ <-]. by eapply Hp.
Qed.
Lemma refuses_sparing_refuse {A} e : refuses_sparing (A := A) (refuse e).
Proof. by intros w e' w' [= <- <-]. Qed.
Lemma refuses_sparing_reporting {A} f (p : Handler A) : refuses_sparing p → refuses_sparing (reporting f p).
Proof.
  intros Hp w e w'. rewrite alone_reporting. unfold wrapping. destruct (alone p w) as [[a|e'] w1] eqn:Ha; [done|].
  intros [= _ <-]. by eapply Hp.
Qed.
Lemma spares_reporting {A} f (p : Handler A) : spares p → spares (reporting f p).
Proof. intros Hp w. rewrite alone_reporting. specialize (Hp w). unfold wrapping. by destruct (alone p w). Qed.
Lemma consume_spares nonce at_ : spares (ConsumeWebhookNonce (C := C) nonce at_).
Proof.
  assert (∀ A (m : M W A) h, (∀ w, tbl (A := PlatformRelease) (w_db (m w).2) = tbl (w_db w)) → spares (step_or m h)) as Hstep.
  { intros A m h Hm w. specialize (Hm w). unfold step_or. cbn [alone]. by destruct (m w). }
  unfold ConsumeWebhookNonce. apply spares_bind; [|intros ?; apply spares_bind; [|intros ?; by apply spares_steady]]; apply Hstep; intros w.
  - apply elsewhere_execute, releases_put_nonces.
  - apply elsewhere_create, releases_put_nonces.
Qed.
Lemma create_refuses ctx image source commitSHA runID : refuses_sparing (PlatformService_CreateRelease s ctx image source commitSHA runID).
Proof.
  unfold PlatformService_CreateRelease. destruct (rsv_platform s) as [platform|]; [|apply refuses_sparing_refuse].
  apply refuses_sparing_bind; [apply spares_steady, steady_on_cluster|]. intros status w e w'.
  cbn [step_or alone]. unfold CreatePlatformRelease, mbind, M_bind, now, create. cbv beta iota.
  set (f := λ db : DB, _). destruct (statement_cases f (tick w)) as [(e' & ->)|(a & db & Hs & ->)]; [|done]. by intros [= _ <-].
Qed.

Lemma consume_Ok nonce at_ (w w' : W) :
  keyed (tbl (A := PlatformWebhookNonce) (w_db w)) → alone (ConsumeWebhookNonce nonce at_) w = (Ok tt, w') →
  ∀ n, n ∈ t_list (tbl (w_db w)) → wn_Nonce n = nonce → (wn_ExpiresAt n ≤ at_)%Z.
Proof.
  intros Hk Hrun n Hn Heq. unfold ConsumeWebhookNonce in Hrun.
  apply alone_step_or_Ok in Hrun as (u & w1 & Hd & Hrun). apply alone_step_or_Ok in Hrun as (x & w2 & Hc & _).
  unfold DeleteExpiredPlatformWebhookNonces, execute in Hd. apply statement_Ok in Hd as [Hd _]. injection Hd as _ Hdb.
  unfold CreatePlatformWebhookNonce, create in Hc. apply statement_Ok in Hc as [Hc _].
  apply result_bind_Ok in Hc as ([b t] & Ht & _). rewrite <-Hdb, tbl_put in Ht.
  apply elem_of_t_list in Hn as [i Hi]. destruct (decide (wn_ExpiresAt n ≤ at_)%Z) as [|Hlive]; [done|exfalso].
  assert (clash n {| wn_ID := 0; wn_Nonce := nonce; wn_ExpiresAt := at_ + day |} = false) as Hclash.
  { eapply created_apart; [by apply keyed_delete|exact Ht|]. cbn. apply map_lookup_filter_Some. split; [exact Hi|]. by apply bool_decide_eq_false. }
  cbn in Hclash. by rewrite Heq, bool_decide_eq_true_2 in Hclash.
Qed.
Lemma Webhook_refuses ctx q : refuses_sparing (Webhook s ctx q).
Proof.
  unfold Webhook. destruct (whr_Body q) as [body|]; [|apply refuses_sparing_refuse]. cbv zeta.
  apply refuses_sparing_bind; [apply spares_steady, ValidateWebhook_steady|]. intros valid.
  apply refuses_sparing_bind; [apply spares_steady, steady_refuse_if|]. intros ?.
  destruct (j ← parse _; _) as [request|]; [|apply refuses_sparing_refuse].
  apply refuses_sparing_bind; [apply spares_steady, steady_reporting, ValidateImage_steady|]. intros ?.
  apply refuses_sparing_bind; [apply spares_steady, now_steady|]. intros at_.
  apply refuses_sparing_bind; [apply spares_reporting, consume_spares|]. intros ?.
  apply refuses_sparing_answered; [apply refuses_sparing_reporting, create_refuses|]. intros r w.
  rewrite alone_bind. pose proof (Apply_answers None (plr_ID r) w) as Ha. unfold mbind, M_bind.
  destruct (alone (Apply s None (plr_ID r)) w) as [x w2]. cbn in Ha. by subst x.
Qed.
Lemma created_release ctx image commitSHA runID (w w' : W) r :
  alone (PlatformService_CreateRelease s ctx image "github" commitSHA runID) w = (Ok r, w') →
  plr_Image r = image ∧ plr_Source r = "github" ∧ plr_Status r = "accepted".
Proof.
  unfold PlatformService_CreateRelease. destruct (rsv_platform s) as [platform|]; [|done]. intros Hrun.
  apply alone_step_or_Ok in Hrun as (status & w1 & _ & Hrun). cbn [step_or alone] in Hrun.
  destruct (CreatePlatformRelease _ w1) as [[x|e] w2] eqn:Hc; [|done]. injection Hrun as -> _.
  unfold CreatePlatformRelease in Hc. apply bind_Ok in Hc as (at_ & w3 & _ & Hc). unfold create in Hc.
  apply statement_Ok in Hc as [Hc _]. apply result_bind_Ok in Hc as ([b t] & Ht & [= <- _]).
  unfold t_create in Ht. destruct (clashes _ _ _); [done|]. injection Ht as <- _. done.
Qed.
Lemma alone_reporting_Ok {A B} h (p : Handler A) (f : A → Handler B) (w : W) b w' :
  alone (reporting h p ≫= f) w = (Ok b, w') → ∃ a w1, alone p w = (Ok a, w1) ∧ alone (f a) w1 = (Ok b, w').
Proof.
  intros (a & w1 & Ha & Hf)%alone_part_Ok. rewrite alone_reporting in Ha. unfold wrapping in Ha.
  destruct (alone p w) as [[x|e] w2]; [|done]. injection Ha as -> ->. by exists a, w1.
Qed.
Lemma steady_run {A} (p : Handler A) r (w w' : W) : steady p → alone p w = (r, w') → w_db w' = w_db w.
Proof. intros Hp Hr. specialize (Hp w). by rewrite Hr in Hp. Qed.

(** C17: the deployment that a build asks for. The platform answers it only when its body, cut at 64 KiB, its
    timestamp and its nonce are signed with the stored secret, the timestamp is at most five minutes from the
    time the request came, no stored nonce like it was live, and the image is one of the configured prefixes, or of
    the default one when none could be read, with a valid tag; the release it answers is the one of the
    request. Refused, for whatever reason, it leaves the releases as they are. *)
Theorem deployment_authenticated ctx q (w : W) (Hnonces : keyed (tbl (A := PlatformWebhookNonce) (w_db w))) :
  match alone (Webhook s ctx q) w with
  | (Ok r, w') =>
      ∃ raw request prefixes consumed, whr_Body q = Some raw ∧ let body := take_str max_body raw in
        signed (w_db w) (clock (w_tick w)) q body ∧
        parse body ≫= decode_platformDeployRequest = Some request ∧
        (∃ read, prefixes = configured_prefixes read ∧ ∀ value, read = Ok value → configured (w_db w) ImagePrefixConfigKey value) ∧
        image_of prefixes (pdr_Image request) ∧
        (∀ n, n ∈ t_list (tbl (w_db w)) → wn_Nonce n = whr_Nonce q → (wn_ExpiresAt n ≤ clock consumed)%Z) ∧
        plr_Image r = pdr_Image request ∧ plr_Source r = "github" ∧ plr_Status r = "accepted"
  | (Err _, w') => platform_releases (w_db w') = platform_releases (w_db w)
  end.
Proof.
  destruct (alone (Webhook s ctx q) w) as [[r|e] w'] eqn:Hrun.
  2: { unfold platform_releases. by rewrite (Webhook_refuses _ _ _ _ _ Hrun). }
  unfold Webhook in Hrun. destruct (whr_Body q) as [raw|] eqn:Hraw; [|done]. cbv zeta in Hrun.
  apply alone_part_Ok in Hrun as (valid & w1 & Hvalid & Hrun). apply alone_refuse_if_Ok in Hrun as [->%negb_false_iff Hrun].
  pose proof (steady_run _ _ _ _ (ValidateWebhook_steady _ _ _ _ _) Hvalid) as Hdb1. apply (ValidateWebhook_true _ _ _ _ (whr_Body q)) in Hvalid.
  destruct (j ← parse _; _) as [request|] eqn:Hparse; [|done]. apply alone_reporting_Ok in Hrun as ([] & w2 & Himage & Hrun).
  pose proof (steady_run _ _ _ _ (ValidateImage_steady _) Himage) as Hdb2.
  unfold ValidateImage, ImagePrefixes in Himage. apply alone_part_Ok in Himage as (prefixes & w3 & Hprefixes & Himage).
  apply alone_tried_Ok in Hprefixes as (read & w4 & Hread & [= <- <-]). injection Himage as Himage _.
  apply alone_step_or_Ok in Hrun as (at_ & w5 & Hnow & Hrun). injection Hnow as <- <-.
  apply alone_reporting_Ok in Hrun as ([] & w6 & Hconsumed & Hrun). apply alone_reporting_Ok in Hrun as (x & w7 & Hcreated & Hrun).
  apply alone_part_Ok in Hrun as (u & w8 & _ & [= -> _]). apply created_release in Hcreated.
  exists raw, request, (configured_prefixes read), (w_tick w2). split; [done|]. split_and!; try tauto.
  - exists read. split; [done|]. intros value ->. rewrite <-Hdb1. by eapply GetSystemConfig_Ok.
  - by apply allowed_image_Ok.
  - assert (w_db (tick w2) = w_db w) as Heq by (cbn; congruence). rewrite <-Heq in *. by eapply consume_Ok.
Qed.
End authentication.

(** ** Every schedule *)

Section schedules.
Context `{K8sLibrary} `{!APIServer} `{Surroundings} `{AesGcm} `{Digests} `{Entropy}.
#[local] Abbreviation W := (World Cluster).
#[local] Abbreviation Handler := (handler W).
Variable key : string.
Variable client : option Client.
#[local] Abbreviation service := {| rsv_encKey := key; rsv_platform := NewPlatformKubernetesAdapter client |}.

Definition nonces (db : DB) : gmap Z PlatformWebhookNonce := t_rows (tbl db).
(** A release with its unchanging part is stored. *)
Definition recorded (db : DB) (r : PlatformRelease) : Prop :=
  ∃ r', platform_releases db !! plr_ID r = Some r' ∧ identity r' = identity r.
(** A nonce of a request of this run is stored. *)
Definition spent (db : DB) (nonce : string) : Prop :=
  ∃ i n m, nonces db !! i = Some n ∧ wn_Nonce n = nonce ∧ wn_ExpiresAt n = (clock m + day)%Z.

(** The Deployment of the platform is read, and replaced by what was read with the image and the number of
    a recorded release. *)
Definition platform_exchange (db : DB) (log : list exchange) (e : exchange) : Prop :=
  match ex_request e with
  | GetDeployment namespace name => namespace = platformDeploymentNamespace ∧ name = platformDeploymentName
  | UpdateDeployment d => ∃ r base at_, recorded db r ∧
      Exchange (GetDeployment platformDeploymentNamespace platformDeploymentName) (Ok base) ∈ log ∧
      d = released_deployment (plr_Image r) (plr_ID r) at_ base
  | _ => False
  end.
Record platform_sound (w : W) : Prop := {
  ps_releases : keyed (tbl (A := PlatformRelease) (w_db w));
  ps_nonces : keyed (tbl (A := PlatformWebhookNonce) (w_db w));
  ps_log e : e ∈ c_log (w_cluster w) → platform_exchange (w_db w) (c_log (w_cluster w)) e
}.
(** What a step leaves: the releases keep their unchanging part, and the nonces of the run stay. *)
Record evolves (w w' : W) : Prop := {
  ev_sound : platform_sound w';
  ev_releases i r : platform_releases (w_db w) !! i = Some r → ∃ r', platform_releases (w_db w') !! i = Some r' ∧ identity r' = identity r;
  ev_nonces nonce : spent (w_db w) nonce → spent (w_db w') nonce
}.

(** What a handler holds: the nonce it spent, the release it made, the releases it read. *)
Inductive token := Spent (nonce : string) | Made (r : PlatformRelease) | Seen (r : PlatformRelease).
Definition true_token (w : W) (k : token) : Prop :=
  match k with Spent nonce => spent (w_db w) nonce | Made r | Seen r => recorded (w_db w) r end.
(** A token that was not there before. *)
Definition new_token (w : W) (k : token) : Prop :=
  match k with Spent nonce => ¬ spent (w_db w) nonce | Made r => platform_releases (w_db w) !! plr_ID r = None | Seen _ => True end.
Definition token_trades (w : W) (ks : list token) (w' : W) (ks' : list token) : Prop :=
  Forall (true_token w) ks → evolves w w' ∧ (ks' = ks ∨ ∃ k, ks' = k :: ks ∧ new_token w k ∧ true_token w' k).

Definition spent_of (k : token) : option string := match k with Spent nonce => Some nonce | _ => None end.
Definition made_of (k : token) : option Z := match k with Made r => Some (plr_ID r) | _ => None end.
Record platform_inv (w0 w : W) (held : list token) : Prop := {
  pi_evolves : evolves w0 w;
  pi_held : Forall (true_token w) held;
  pi_spent : NoDup (omap spent_of held);
  pi_made : NoDup (omap made_of held);
  pi_fresh i : i ∈ omap made_of held → platform_releases (w_db w0) !! i = None
}.

Lemma platform_evolves_refl w : platform_sound w → evolves w w.
Proof. intros Hw. split; [done| |done]. intros i r Hi. by exists r. Qed.
Lemma platform_evolves_trans w w' w'' : evolves w w' → evolves w' w'' → evolves w w''.
Proof.
  intros [_ Hr Hn] [Hs Hr' Hn']. split; [done| |eauto]. intros i r (r' & Hi & He)%Hr. destruct (Hr' _ _ Hi) as (r'' & Hi' & He').
  exists r''. split; [done|congruence].
Qed.
Lemma true_token_evolves w w' k : evolves w w' → true_token w k → true_token w' k.
Proof.
  assert (∀ r, evolves w w' → recorded (w_db w) r → recorded (w_db w') r) as Hrec.
  { intros r He (r' & Hr & Hi). destruct (ev_releases _ _ He _ _ Hr) as (r'' & ? & ?). exists r''. split; [done|congruence]. }
  intros He. destruct k; simpl; [by apply ev_nonces|by apply Hrec|by apply Hrec].
Qed.

Lemma platform_inv_perm w0 w held held' : held ≡ₚ held' → platform_inv w0 w held → platform_inv w0 w held'.
Proof.
  intros Hp [He Hh Hs Hm Hf]. pose proof (omap_Permutation spent_of _ _ Hp) as Hps. pose proof (omap_Permutation made_of _ _ Hp) as Hpm.
  constructor; [done|by rewrite <-Hp|by rewrite <-Hps|by rewrite <-Hpm|]. intros i. rewrite <-Hpm. apply Hf.
Qed.

Lemma spent_true w nonce held : Forall (true_token w) held → nonce ∈ omap spent_of held → spent (w_db w) nonce.
Proof.
  intros Hh (k & Hk & Hs)%list_elem_of_omap. rewrite Forall_forall in Hh. specialize (Hh _ Hk). destruct k; simplify_eq/=; done.
Qed.
Lemma made_true w i held : Forall (true_token w) held → i ∈ omap made_of held → is_Some (platform_releases (w_db w) !! i).
Proof.
  intros Hh (k & Hk & Hs)%list_elem_of_omap. rewrite Forall_forall in Hh. specialize (Hh _ Hk). destruct k; simplify_eq/=.
  destruct Hh as (r' & ? & _). by eexists.
Qed.
Lemma token_trades_frame w0 w ks w' ks' others :
  token_trades w ks w' ks' → platform_inv w0 w (ks ++ others) → platform_inv w0 w' (ks' ++ others).
Proof.
  intros Ht [He Hh Hs Hm Hf]. pose proof Hh as [Hks _]%Forall_app. destruct (Ht Hks) as [He' Hk].
  assert (Forall (true_token w') (ks ++ others)) as Hh' by (eapply Forall_impl; [exact Hh|intros k; by apply true_token_evolves]).
  assert (evolves w0 w') as H0' by by eapply platform_evolves_trans.
  destruct Hk as [->|(k & -> & Hnew & Htrue)]; [by split|]. split; [done|by constructor| | |].
  - destruct k as [nonce|r|r]; simpl in *; [|done|done]. apply NoDup_cons. split; [|done]. intros Hin. by apply Hnew, (spent_true w _ _ Hh).
  - destruct k as [nonce|r|r]; simpl in *; [done| |done]. apply NoDup_cons. split; [|done].
    intros Hin. destruct (made_true w _ _ Hh Hin) as [x Hx]. congruence.
  - destruct k as [nonce|r|r]; simpl in *; [apply Hf| |apply Hf]. intros i [->|Hin]%elem_of_cons; [|by apply Hf].
    destruct (platform_releases (w_db w0) !! plr_ID r) as [x|] eqn:Hx; [|done]. destruct (ev_releases _ _ He _ _ Hx) as (? & ? & _). congruence.
Qed.

(** *** Steps *)

#[local] Abbreviation neutral := (neutral platform_sound token_trades).
#[local] Abbreviation D := (disciplined platform_sound token_trades).

Lemma platform_exchange_later db db' log log' e :
  (∀ r, recorded db r → recorded db' r) → log ⊆ log' → platform_exchange db log e → platform_exchange db' log' e.
Proof.
  intros Hdb Hlog. destruct e as [q a]. unfold platform_exchange. simpl. destruct q; try done.
  intros (r & base & at_ & Hr & Hb & ->). exists r, base, at_. split_and!; [by apply Hdb|by apply Hlog|done].
Qed.
Lemma unmoved_evolves (w w' : W) :
  tbl (A := PlatformRelease) (w_db w') = tbl (w_db w) → tbl (A := PlatformWebhookNonce) (w_db w') = tbl (w_db w) →
  w_cluster w' = w_cluster w → platform_sound w → evolves w w'.
Proof.
  intros Hr Hn Hc [Hk Hkn Hl]. split.
  - split; [by rewrite Hr|by rewrite Hn|]. intros e. rewrite Hc. intros He%Hl. revert He.
    apply platform_exchange_later; [|done]. unfold recorded, platform_releases. by rewrite Hr.
  - intros i r. unfold platform_releases. rewrite Hr. by exists r.
  - unfold spent, nonces. by rewrite Hn.
Qed.
Lemma platform_step {A} (m : M W A) : (∀ w, platform_sound w → evolves w (m w).2) → neutral m.
Proof. intros Hm w ks Hw _. split; [by apply Hm|by left]. Qed.
Lemma unmoved_step {A} (m : M W A) :
  (∀ w, tbl (A := PlatformRelease) (w_db (m w).2) = tbl (w_db w) ∧ tbl (A := PlatformWebhookNonce) (w_db (m w).2) = tbl (w_db w) ∧
    w_cluster (m w).2 = w_cluster w) → neutral m.
Proof. intros Hm. apply platform_step. intros w Hw. destruct (Hm w) as (? & ? & ?). by apply unmoved_evolves. Qed.
Lemma platform_query {A} (f : DB → result A) : neutral (query f).
Proof. apply unmoved_step. intros w. by destruct (query_cases f w) as [(e & ->)|(a & _ & ->)]. Qed.
Lemma platform_then {A B} (m : M W A) (g : A → B) : neutral m → neutral (m ≫= λ a, mret (g a)).
Proof. intros Hm w ks Hw. specialize (Hm w ks Hw). unfold mbind, M_bind. by destruct (m w) as [[a|e] w']. Qed.
Lemma platform_now : neutral now.
Proof. by apply unmoved_step. Qed.
Lemma platform_draw size f : neutral (draw size f).
Proof. apply unmoved_step. intros w. unfold draw. by destruct (random_bytes _ _). Qed.
Lemma neutral_seal plaintext : neutral (seal_secret service plaintext).
Proof.
  apply unmoved_step. intros w. unfold seal_secret, mbind, M_bind. destruct (new_cipher _); cbn; [|done].
  unfold draw. by destruct (random_bytes _ _).
Qed.
Lemma nonces_put_configs (t : table SystemConfig) db : tbl (A := PlatformWebhookNonce) (put t db) = tbl db.
Proof. by destruct db as [? ? ? ? ? ? ? ? ? ? ? ? ? [] ?]. Qed.
Lemma nonces_put_releases (t : table PlatformRelease) db : tbl (A := PlatformWebhookNonce) (put t db) = tbl db.
Proof. by destruct db as [? ? ? ? ? ? ? ? ? ? ? ? ? [] ?]. Qed.
Lemma neutral_configs {A} (f : DB → result (A * table SystemConfig)) :
  neutral (statement (λ db : DB, p ← f db; Ok (p.1, put p.2 db))).
Proof.
  apply unmoved_step. intros w.
  destruct (statement_cases (λ db : DB, p ← f db; Ok (p.1, put p.2 db)) w) as [(e & ->)|(a & db & Hs & ->)]; [done|].
  apply result_bind_Ok in Hs as (p & _ & [= _ <-]). cbn. by rewrite releases_put_configs, nonces_put_configs.
Qed.

Lemma neutral_configs_execute (f : table SystemConfig → result (table SystemConfig)) : neutral (execute f).
Proof.
  apply unmoved_step. intros w. unfold execute.
  destruct (statement_cases (λ db : DB, t ← f (tbl db); Ok ((), put t db)) w) as [(e & ->)|(a & db & Hs & ->)]; [done|].
  apply result_bind_Ok in Hs as (t & _ & [= _ <-]). cbn. by rewrite releases_put_configs, nonces_put_configs.
Qed.

(** The clock is read. *)
Lemma D_now {B} (h : goerr → goerr) (f : Z → Handler B) ks post :
  (∀ m, D ks (f (clock m)) post) → D ks (step_or now h ≫= f) post.
Proof. intros Hf w Hw. exists ks. split; [by apply platform_now|]. apply Hf. Qed.

(** *** Steps on the cluster *)

Lemma call_log {A} (m : M Cluster A) (P : list exchange → result A → Prop) (w : W) :
  (∀ c, ∃ evs, c_log (m c).2 = c_log c ++ evs ∧ P evs (m c).1) →
  ∃ evs, c_log (w_cluster (on_cluster m w).2) = c_log (w_cluster w) ++ evs ∧ P evs (on_cluster m w).1 ∧ w_db (on_cluster m w).2 = w_db w.
Proof. intros Hm. destruct (Hm (w_cluster w)) as (evs & Hl & HP). unfold on_cluster. destruct (m (w_cluster w)). by exists evs. Qed.
Lemma logged_evolves (w w' : W) evs :
  platform_sound w → w_db w' = w_db w → c_log (w_cluster w') = c_log (w_cluster w) ++ evs →
  (∀ e, e ∈ evs → platform_exchange (w_db w) (c_log (w_cluster w) ++ evs) e) → evolves w w'.
Proof.
  intros [Hk Hkn Hl] Hdb Hlog He. split; rewrite ?Hdb; [|intros i r; by exists r|done].
  split; rewrite ?Hdb; [done..|]. rewrite Hlog. intros e [Hin|Hin]%elem_of_app; [|by apply He].
  eapply platform_exchange_later; [done| |by apply Hl]. set_solver.
Qed.

(** Reading the Deployment of the platform. *)
#[local] Abbreviation get_platform := (GetDeployment platformDeploymentNamespace platformDeploymentName).
Definition platform_read (evs : list exchange) (r : result LiveDeployment) : Prop :=
  (∀ e, e ∈ evs → ex_request e = get_platform) ∧ ∀ base, r = Ok base → Exchange get_platform (Ok base) ∈ evs.
Lemma read_platform_log k ctx c :
  ∃ evs, c_log (read_platform k ctx c).2 = c_log c ++ evs ∧ platform_read evs (read_platform k ctx c).1.
Proof.
  unfold read_platform, guard_not, wrapping, call, mbind, M_bind, mret, M_ret, throw. destruct (kc_Clientset k); cbn.
  - exists [Exchange get_platform (respond c ctx get_platform)]. split; [by destruct (respond c ctx get_platform)|]. split.
    + intros e He. apply list_elem_of_singleton in He. by rewrite He.
    + intros base Hb. destruct (respond c ctx get_platform) as [d|e]; [|done]. injection Hb as ->. left.
  - exists []. split; [by rewrite app_nil_r|]. split; [by intros e ?%not_elem_of_nil|done].
Qed.
Lemma status_evolves k ctx (w : W) : platform_sound w → evolves w (on_cluster (PlatformDeploymentStatusContext k ctx) w).2.
Proof.
  intros Hw. destruct (call_log (PlatformDeploymentStatusContext k ctx) (λ evs _, ∀ e, e ∈ evs → ex_request e = get_platform) w)
    as (evs & Hl & He & Hdb).
  { intros c. destruct (read_platform_log k ctx c) as (evs & Hl & He & _). exists evs. unfold PlatformDeploymentStatusContext, mbind, M_bind, guard_not.
    destruct (read_platform k ctx c) as [[d|e] c']; [|done]. by destruct (empty_str (platform_image d)). }
  eapply logged_evolves; [done..|]. intros [q a] Hin%He. simpl in Hin. subst q. by split.
Qed.
Lemma update_evolves k ctx r (w : W) : platform_sound w → recorded (w_db w) r →
  evolves w (on_cluster (UpdatePlatformDeploymentContext k ctx (plr_Image r) (plr_ID r)) w).2.
Proof.
  intros Hw Hr. set (P := λ (evs : list exchange) (_ : result string), ∀ e, e ∈ evs → ex_request e = get_platform ∨
    ∃ base at_, Exchange get_platform (Ok base) ∈ evs ∧ ex_request e = UpdateDeployment (released_deployment (plr_Image r) (plr_ID r) at_ base)).
  destruct (call_log (UpdatePlatformDeploymentContext k ctx (plr_Image r) (plr_ID r)) P w) as (evs & Hl & He & Hdb).
  { intros c. destruct (read_platform_log k ctx c) as (evs & Hl & He & Hbase). unfold UpdatePlatformDeploymentContext, P.
    unfold mbind at 1, M_bind at 1. destruct (read_platform k ctx c) as [[d|e] c']; cbn in *; [|exists evs; split; [done|intros x Hin; left; by apply He]].
    unfold guard_not, wrapping, call, gets, mbind, M_bind, mret, M_ret, throw. destruct (empty_str (platform_image d)); cbn; [exists evs; split; [done|intros x Hin; left; by apply He]|].
    set (u := UpdateDeployment (released_deployment (plr_Image r) (plr_ID r) (c_time c') d)).
    exists (evs ++ [Exchange u (respond c' ctx u)]). rewrite app_assoc, <-Hl. split; [by destruct (map_err _ _)|].
    intros e [Hin|Hin]%elem_of_app; [left; by apply He|]. apply list_elem_of_singleton in Hin as ->. right.
    exists d, (c_time c'). split; [|done]. apply elem_of_app. left. by apply Hbase. }
  eapply logged_evolves; [done..|]. intros [q a] Hin%He. simpl in Hin. destruct Hin as [->|(base & at_ & Hb & ->)]; [by split|].
  exists r, base, at_. split_and!; [done| |done]. apply elem_of_app. by right.
Qed.
(** *** Steps on the tables *)

Lemma set_release_evolves (w : W) t r :
  keyed t → t_rows t = <[plr_ID r := r]> (platform_releases (w_db w)) →
  (∀ x, platform_releases (w_db w) !! plr_ID r = Some x → identity r = identity x) → platform_sound w →
  evolves w (set_db (put t (w_db w)) (tick w)) ∧ platform_releases (put t (w_db w)) !! plr_ID r = Some r.
Proof.
  intros Hk Ht Hid [_ Hkn Hl]. set (db := put t (w_db w)).
  assert (platform_releases db = <[plr_ID r := r]> (platform_releases (w_db w))) as Hrows by (unfold platform_releases; subst db; by rewrite tbl_put).
  assert (∀ i x, platform_releases (w_db w) !! i = Some x → ∃ x', platform_releases db !! i = Some x' ∧ identity x' = identity x) as Hkeep.
  { intros i x Hx. rewrite Hrows. destruct (decide (i = plr_ID r)) as [->|Hne].
    - exists r. rewrite lookup_insert_eq. split; [done|by apply Hid].
    - exists x. by rewrite lookup_insert_ne. }
  assert (tbl (A := PlatformWebhookNonce) db = tbl (w_db w)) as Hn by apply nonces_put_releases.
  split; [|by rewrite Hrows, lookup_insert_eq]. split; cbn; fold db.
  - split; cbn; [by subst db; rewrite tbl_put|by rewrite Hn|]. intros e He%Hl. revert He. apply platform_exchange_later; [|done].
    intros x (x' & Hx & Hx'). destruct (Hkeep _ _ Hx) as (x'' & ? & ?). exists x''. split; [done|congruence].
  - exact Hkeep.
  - unfold spent, nonces. by rewrite Hn.
Qed.

Lemma updated_trades r r' (w : W) ks : Seen r ∈ ks → identity r' = identity r → platform_sound w →
  token_trades w ks (UpdatePlatformRelease r' w).2 ks.
Proof.
  intros Hin Hid Hw Hks. split; [|by left]. rewrite Forall_forall in Hks. destruct (Hks _ Hin) as (x & Hx & Hxr).
  unfold UpdatePlatformRelease, save, execute.
  destruct (statement_cases (λ db : DB, t ← t_save r' (tbl db); Ok ((), put t db)) w) as [(e & ->)|([] & db & Hs & ->)]; [by apply unmoved_evolves|].
  apply result_bind_Ok in Hs as (t & Ht & [= <-]). apply keyed_save in Ht as [Hk Hrows]; [|apply Hw].
  assert (plr_ID r' = plr_ID r) as Heq by apply (identity_fields _ _ Hid).
  apply (set_release_evolves w t r'); [done|done| |done]. rewrite Heq. intros y Hy. congruence.
Qed.
Lemma created_trades r (w : W) ks : platform_sound w →
  match CreatePlatformRelease r w with
  | (Ok x, w') => token_trades w ks w' (Made x :: ks)
  | (Err _, w') => token_trades w ks w' ks
  end.
Proof.
  intros Hw. unfold CreatePlatformRelease, mbind, M_bind, now, create. cbv beta iota.
  set (row := set_release_created _ r). assert (evolves w (tick w)) as Htick by by apply unmoved_evolves.
  destruct (statement_cases (λ db : DB, p ← t_create row (tbl db); Ok (p.1, put p.2 db)) (tick w)) as [(e & ->)|(x & db & Hs & ->)].
  - intros _. split; [by apply unmoved_evolves|by left].
  - apply result_bind_Ok in Hs as ([b t] & Ht & [= <- <-]). cbn [fst snd].
    apply keyed_create in Ht as (Hk & Hb & Hfresh & Hrows); [|apply Hw].
    assert (plr_ID b = t_next (tbl (A := PlatformRelease) (w_db w))) as Hid by (rewrite Hb; by destruct row).
    cbn [w_db tick] in Hrows, Hfresh. rewrite <-Hid in Hrows, Hfresh.
    destruct (set_release_evolves (tick w) t b) as [He Hb']; [done|exact Hrows| |apply Htick|].
    { intros y Hy. unfold platform_releases in Hy. cbn in Hy. congruence. }
    intros _. split; [by eapply platform_evolves_trans|]. right. exists (Made b). split_and!; [done|exact Hfresh|by exists b].
Qed.

(** The run takes less than a day. *)
Variable short : ∀ m n, (clock m < clock n + day)%Z.

Lemma set_nonces_evolves (w : W) (t : table PlatformWebhookNonce) :
  keyed t → (∀ nonce, spent (w_db w) nonce → spent (put t (w_db w)) nonce) → platform_sound w →
  evolves w (set_db (put t (w_db w)) (tick w)).
Proof.
  intros Hk Hspent [Hkr _ Hl]. pose proof (releases_put_nonces t (w_db w)) as Hr. split; cbn; [|unfold platform_releases; rewrite Hr; intros i r; by exists r|done].
  split; cbn; [by rewrite Hr|by rewrite tbl_put|]. intros e He%Hl. revert He.
  apply platform_exchange_later; [|done]. unfold recorded, platform_releases. by rewrite Hr.
Qed.
Lemma deleted_neutral k : neutral (DeleteExpiredPlatformWebhookNonces (clock k)).
Proof.
  apply platform_step. intros w Hw. unfold DeleteExpiredPlatformWebhookNonces, execute.
  set (f := λ db : DB, _). destruct (statement_cases f w) as [(e & ->)|(a & db & Hs & ->)]; [by apply unmoved_evolves|].
  subst f. injection Hs as _ <-. apply set_nonces_evolves; [by apply keyed_delete, Hw| |done].
  intros nonce (i & n & m & Hi & Hn & He). exists i, n, m. split_and!; [|done..]. unfold nonces. rewrite tbl_put. cbn.
  apply map_lookup_filter_Some. split; [done|]. cbn. apply bool_decide_eq_false. specialize (short k m). lia.
Qed.
Lemma spent_trades nonce m (w : W) ks : platform_sound w →
  match CreatePlatformWebhookNonce nonce (clock m + day) w with
  | (Ok _, w') => token_trades w ks w' (Spent nonce :: ks)
  | (Err _, w') => token_trades w ks w' ks
  end.
Proof.
  intros Hw. unfold CreatePlatformWebhookNonce, create. set (row := {| wn_ID := 0 |}).
  destruct (statement_cases (λ db : DB, p ← t_create row (tbl db); Ok (p.1, put p.2 db)) w) as [(e & ->)|(x & db & Hs & ->)].
  - intros _. split; [by apply unmoved_evolves|by left].
  - apply result_bind_Ok in Hs as ([b t] & Ht & [= <- <-]). cbn [fst snd]. intros _.
    pose proof (λ i x, created_apart _ _ _ _ i x (ps_nonces _ Hw) Ht) as Hapart.
    apply keyed_create in Ht as (Hk & Hb & Hfresh & Hrows); [|apply Hw].
    assert (nonces (put t (w_db w)) = <[t_next (tbl (A := PlatformWebhookNonce) (w_db w)) := b]> (nonces (w_db w))) as Hn by (unfold nonces; rewrite tbl_put; exact Hrows).
    split.
    + apply set_nonces_evolves; [done| |done]. intros nonce' (i & n & m' & Hi & ? & ?). exists i, n, m'. split_and!; [|done..].
      rewrite Hn, lookup_insert_ne; [done|]. intros <-. unfold nonces in Hi. congruence.
    + right. exists (Spent nonce). split_and!; [done| |].
      * intros (i & n & m' & Hi & Heq & _). apply Hapart in Hi. cbn in Hi. by rewrite Heq, bool_decide_eq_true_2 in Hi.
      * exists (t_next (tbl (A := PlatformWebhookNonce) (w_db w))), b, m. cbn. rewrite Hn, lookup_insert_eq. by subst b.
Qed.

(** A release that was read. *)
Lemma seen_trades f (w : W) ks :
  (∀ r, f (w_db w) = Ok r → r ∈ t_list (tbl (A := PlatformRelease) (w_db w))) → platform_sound w →
  match query f w with
  | (Ok r, w') => token_trades w ks w' (Seen r :: ks)
  | (Err _, w') => token_trades w ks w' ks
  end.
Proof.
  intros Hf Hw. destruct (query_cases f w) as [(e & ->)|(r & Hr & ->)]; intros _.
  - split; [by apply unmoved_evolves|by left].
  - split; [by apply unmoved_evolves|]. right. exists (Seen r). split_and!; [done..|]. exists r. split; [|done].
    apply (keyed_elem _ _ (ps_releases _ Hw)). by apply Hf.
Qed.
(** *** Parts of handlers *)

#[local] Abbreviation quiet := (idle platform_sound token_trades).
Lemma after_idle {A B} ks0 ks (p : Handler A) (f : A → Handler B) Q :
  ks0 ⊆ ks → quiet p → (∀ a, D ks (f a) (gains ks0 Q)) → D ks (p ≫= f) (gains ks0 Q).
Proof. intros Hk Hp Hf. apply disciplined_idle; [done..|]. intros e. by apply gains_error. Qed.

Lemma D_updated {B} ks r r' (f : result unit → Handler B) post :
  Seen r ∈ ks → identity r' = identity r → (∀ x, D ks (f x) post) → D ks (tried (UpdatePlatformRelease r') ≫= f) post.
Proof. intros Hr Hi Hf w Hw. exists ks. split; [by eapply updated_trades|apply Hf]. Qed.
Lemma D_last_update ks r r' : Seen r ∈ ks → identity r' = identity r → D ks (ignored (UpdatePlatformRelease r')) (gains ks (λ _ _, True)).
Proof. intros Hr Hi w Hw. exists ks. split; [by eapply updated_trades|by apply gains_answer]. Qed.
Lemma D_seen {B} ks m (f : result PlatformRelease → Handler B) post :
  (∀ w, platform_sound w → match m w with (Ok r, w') => token_trades w ks w' (Seen r :: ks) | (Err _, w') => token_trades w ks w' ks end) →
  (∀ r, D (Seen r :: ks) (f (Ok r)) post) → (∀ e, D ks (f (Err e)) post) → D ks (tried m ≫= f) post.
Proof.
  intros Hm Hr He w Hw. specialize (Hm w Hw). destruct (m w) as [[r|e] w'].
  - exists (Seen r :: ks). split; [exact Hm|apply Hr].
  - exists ks. split; [exact Hm|apply He].
Qed.

Lemma D_Apply ctx id ks : D ks (Apply service ctx id) (gains ks (λ _ _, True)).
Proof.
  unfold Apply. cbn [rsv_platform]. destruct client as [k|]; [|by apply gains_answer]. cbn [NewPlatformKubernetesAdapter mbind option_bind].
  apply D_seen; [|intros r|by intros e; apply gains_answer].
  { intros w Hw. apply seen_trades; [|done]. intros r [_ Hr]%first_row_select. exact Hr. }
  destruct (_ && _); [by apply gains_answer; [set_solver|]|]. apply D_now. intros m. cbv zeta.
  apply (D_updated _ r); [left|apply set_state_identity|]. intros saved. destruct (negb (is_ok saved)); [by apply gains_answer; [set_solver|]|].
  set (r1 := set_release_state _ _ _ _ r). assert (identity r1 = identity r) as Hid by apply set_state_identity.
  destruct (identity_fields _ _ Hid) as (Hn & _ & Him & _). intros w Hw. exists (Seen r :: ks). split.
  - intros Hks. split; [|by left]. cbn [platform_UpdatePlatformDeployment]. rewrite Hn, Him. apply update_evolves; [done|].
    rewrite Forall_forall in Hks. apply (Hks (Seen r)). left.
  - eapply disciplined_weaken; [eapply (D_last_update _ r); [left|]|].
    + by destruct (on_cluster _ w) as [[?|?] ?]; cbn; rewrite !set_state_identity.
    + intros x ks' [Hk _]. split; [set_solver|done].
Qed.
Lemma D_cluster {A B} ks (m : M Cluster A) (f : result A → Handler B) post :
  (∀ w, platform_sound w → evolves w (on_cluster m w).2) → (∀ r, D ks (f r) post) → D ks (cluster_step m ≫= f) post.
Proof. intros Hm Hf w Hw. exists ks. split; [by apply platform_step|apply Hf]. Qed.
Lemma D_ReconcileLatest ctx ks : D ks (ReconcileLatest service ctx) (gains ks (λ _ _, True)).
Proof.
  pose proof (D_Apply ctx) as Happly. revert Happly.
  unfold ReconcileLatest. cbn [rsv_platform]. destruct client as [k|]; intros Happly; [|by apply gains_answer].
  cbn [NewPlatformKubernetesAdapter mbind option_bind]. apply D_seen; [|intros r|by intros e; apply gains_answer].
  { intros w Hw. apply seen_trades; [|done]. intros r Hr. destruct (rev _) as [|x l] eqn:Hl; [done|]. injection Hr as <-.
    assert (x ∈ select incomplete_release (tbl (A := PlatformRelease) (w_db w))) as [_ Hx]%elem_of_select; [|exact Hx].
    apply list_elem_of_In, in_rev. rewrite Hl. by left. }
  apply D_cluster; [apply status_evolves|]. intros [status|e]; [|by apply gains_answer; [set_solver|]].
  destruct (_ && _); [eapply disciplined_weaken; [apply Happly|]|].
  { intros x ks' [Hk _]. split; [set_solver|done]. }
  apply D_now. intros m. destruct (reconciled status (clock m) r) as [r'|] eqn:Hr; [|by apply gains_answer; [set_solver|]].
  eapply disciplined_weaken; [eapply (D_last_update _ r); [left|]|].
  - unfold reconciled in Hr. destruct (_ && _); [injection Hr as <-; apply set_state_identity|].
    destruct (_ || _); [injection Hr as <-; apply set_state_identity|done].
  - intros x ks' [Hk _]. split; [set_solver|done].
Qed.

Lemma idle_now {h} : quiet (step_or now h).
Proof. apply idle_step; [apply platform_now|intros r; apply idle_known]. Qed.
Lemma idle_query {A} (f : DB → result A) h : quiet (step_or (query f) h).
Proof. apply idle_step; [apply platform_query|intros r; apply idle_known]. Qed.
Lemma quiet_config name : quiet (tried (GetSystemConfig name)).
Proof. apply idle_step; [apply platform_then, platform_query|intros r; apply idle_known]. Qed.
Lemma quiet_ValidateWebhook timestamp nonce signature body : quiet (ValidateWebhook service timestamp nonce signature body).
Proof.
  unfold ValidateWebhook. destruct (_ || _); [done|]. destruct (parse_int timestamp); [|done].
  apply idle_bind; [apply idle_now|]. intros at_. destruct (bool_decide _); [done|].
  apply idle_bind; [apply quiet_config|]. intros encrypted. destruct (e ← encrypted; _); [|done]. by destruct (hex_decode _).
Qed.
Lemma quiet_ImagePrefixes : quiet (ImagePrefixes (C := Cluster)).
Proof. apply idle_bind; [apply quiet_config|done]. Qed.
Lemma quiet_ValidateImage image : quiet (ValidateImage (C := Cluster) image).
Proof. apply idle_bind; [apply quiet_ImagePrefixes|]. intros p. apply idle_known. Qed.
Lemma quiet_body {A} (body : option A) valid message : quiet (body_if body valid message).
Proof. unfold body_if. destruct body as [x|]; [|done]. by destruct (valid x). Qed.
Lemma quiet_SetSystemConfig name value : quiet (SetSystemConfig (C := Cluster) name value).
Proof.
  unfold SetSystemConfig. apply idle_bind; [apply idle_step; [apply platform_query|intros r; apply idle_known]|]. intros [cfg|e].
  - apply idle_step; [apply neutral_configs_execute|intros r; apply idle_known].
  - apply idle_bind; [|done]. apply idle_step; [|intros r; apply idle_known]. unfold create. apply (neutral_configs (λ db, t_create _ (tbl db))).
Qed.
Lemma quiet_status k ctx h : quiet (step_or (on_cluster (PlatformDeploymentStatusContext k ctx)) h).
Proof. apply idle_step; [apply platform_step, status_evolves|intros r; apply idle_known]. Qed.

Lemma D_consume nonce m ks : D ks (ConsumeWebhookNonce nonce (clock m)) (gains ks (λ _ ks', Spent nonce ∈ ks')).
Proof.
  unfold ConsumeWebhookNonce. apply after_idle; [done|apply idle_step; [apply deleted_neutral|intros r; apply idle_known]|]. intros _ w Hw.
  pose proof (spent_trades nonce m w ks Hw) as Ht. destruct (CreatePlatformWebhookNonce _ _ w) as [[x|e] w'].
  - exists (Spent nonce :: ks). split; [exact Ht|]. apply gains_answer; [set_solver|left].
  - exists ks. split; [exact Ht|]. by apply gains_error.
Qed.
Lemma D_create_release ctx image source commitSHA runID ks :
  D ks (PlatformService_CreateRelease service ctx image source commitSHA runID) (gains ks (λ r ks', Made r ∈ ks')).
Proof.
  unfold PlatformService_CreateRelease. cbn [rsv_platform]. destruct client as [k|]; [|by apply gains_error].
  cbn [NewPlatformKubernetesAdapter mbind option_bind]. apply after_idle; [done|apply quiet_status|]. intros status w Hw.
  pose proof (created_trades (new_platform_release image source (pds_Image status) commitSHA runID) w ks Hw) as Ht.
  destruct (CreatePlatformRelease _ w) as [[x|e] w'].
  - exists (Made x :: ks). split; [exact Ht|]. apply gains_answer; [set_solver|left].
  - exists ks. split; [exact Ht|]. by apply gains_error.
Qed.
(** The release of a request is made, and then applied. *)
Lemma D_deploy ctx ctx' image source commitSHA runID h ks0 ks (Q : PlatformRelease → list token → Prop) :
  ks0 ⊆ ks → (∀ r ks', ks ⊆ ks' → Made r ∈ ks' → Q r ks') →
  D ks (release ← reporting h (PlatformService_CreateRelease service ctx image source commitSHA runID);
        Apply service ctx' (plr_ID release) ;; mret release) (gains ks0 Q).
Proof.
  intros Hk HQ. eapply disciplined_part; [done|apply reporting_gains, D_create_release|]. intros r ks1 Hk1 Hr.
  eapply disciplined_part; [by etransitivity|apply D_Apply|]. intros ? ks2 Hk2 _. apply gains_answer; [set_solver|]. apply HQ; set_solver.
Qed.
Lemma D_Webhook ctx q ks : D ks (Webhook service ctx q) (gains ks (λ r ks', Spent (whr_Nonce q) ∈ ks' ∧ Made r ∈ ks')).
Proof.
  unfold Webhook. destruct (whr_Body q) as [body|]; [|by apply gains_error]. cbv zeta.
  apply after_idle; [done|apply quiet_ValidateWebhook|]. intros valid. apply after_idle; [done|apply idle_refuse_if|]. intros _.
  destruct (j ← parse _; _) as [request|]; [|by apply gains_error].
  apply after_idle; [done|apply idle_reporting, quiet_ValidateImage|]. intros _. apply D_now. intros m.
  eapply disciplined_part; [done|apply reporting_gains, D_consume|]. intros ? ks1 Hk1 Hs. apply D_deploy; [done|]. set_solver.
Qed.
Lemma D_ManualUpdate ctx body ks : D ks (ManualUpdate service ctx body) (gains ks (λ r ks', Made r ∈ ks')).
Proof.
  unfold ManualUpdate. apply after_idle; [done|apply quiet_body|]. intros image.
  apply after_idle; [done|apply idle_reporting, quiet_ValidateImage|]. intros _. by apply D_deploy.
Qed.
Lemma D_Rollback ctx id ks : D ks (Handler_Rollback service ctx id) (gains ks (λ r ks', Made r ∈ ks')).
Proof.
  unfold Handler_Rollback. destruct (ParsePositiveID id); [|by apply gains_error]. cbv zeta.
  apply after_idle; [done|apply idle_query|]. intros previous. apply after_idle; [done|apply idle_refuse_if|]. intros _. by apply D_deploy.
Qed.
Lemma D_Status ctx ks : D ks (Status service ctx) (gains ks (λ _ _, True)).
Proof.
  pose proof (D_ReconcileLatest ctx) as Hlatest. revert Hlatest.
  unfold Status. cbn [rsv_platform]. destruct client as [k|]; intros Hlatest; [|by apply gains_error]. cbn [NewPlatformKubernetesAdapter mbind option_bind].
  apply after_idle; [done|apply idle_refuse_if|]. intros _. eapply disciplined_part; [done|apply Hlatest|]. intros ? ks1 Hk1 _.
  apply after_idle; [done|apply quiet_status|]. intros deployment.
  apply after_idle; [done|apply idle_step; [unfold ListPlatformReleases; apply platform_then, platform_query|intros r; apply idle_known]|]. intros releases.
  apply after_idle; [done|apply quiet_ImagePrefixes|]. intros prefixes. apply after_idle; [done|apply quiet_config|]. intros configured. by apply gains_answer.
Qed.
Lemma quiet_GenerateWebhookSecret : quiet (GenerateWebhookSecret service).
Proof.
  apply idle_reporting. unfold Service_GenerateWebhookSecret.
  apply idle_bind; [apply idle_step; [apply platform_draw|intros r; apply idle_known]|]. intros secret.
  apply idle_bind; [apply idle_step; [apply neutral_seal|intros r; apply idle_known]|]. intros sealed.
  apply idle_bind; [apply quiet_SetSystemConfig|done].
Qed.
Lemma quiet_UpdateImagePrefix body : quiet (UpdateImagePrefix (C := Cluster) body).
Proof.
  unfold UpdateImagePrefix, SetImagePrefixes. apply idle_bind; [apply quiet_body|]. intros raw. apply idle_bind; [|done]. apply idle_reporting.
  apply idle_bind; [apply idle_known|]. intros prefixes. apply idle_bind; [apply quiet_SetSystemConfig|done].
Qed.

(** *** All requests *)

(** What a request that answered holds. *)
Definition served (r : result (platform_call * option PlatformRelease)) (ks : list token) : Prop :=
  ∀ call x, r = Ok (call, Some x) → Made x ∈ ks ∧ ∀ ctx q, call = CallWebhook ctx q → Spent (whr_Nonce q) ∈ ks.
Lemma D_answer {A} (call : platform_call) (p : Handler A) (g : A → option PlatformRelease) P :
  D [] p (gains [] P) →
  (∀ a ks x, P a ks → g a = Some x → Made x ∈ ks ∧ ∀ ctx q, call = CallWebhook ctx q → Spent (whr_Nonce q) ∈ ks) →
  D [] ((x ← p; mret (g x)) ≫= λ a, mret (call, a)) served.
Proof.
  intros Hp HP. eapply disciplined_bind; [eapply disciplined_bind; [exact Hp| |]| |].
  - intros a ks [_ Ha]. instantiate (1 := λ r ks, ∀ x, r = Ok (Some x) → Made x ∈ ks ∧ ∀ ctx q, call = CallWebhook ctx q → Spent (whr_Nonce q) ∈ ks).
    intros x [= Hx]. eapply HP; [by apply Ha|done].
  - by intros e ks _ x [=].
  - intros a ks Ha c x [= <- ->]. by apply Ha.
  - by intros e ks _ c x [=].
Qed.
Lemma D_serve_release call : D [] (serve_release service call) served.
Proof.
  destruct call as [ctx q|ctx body|ctx id|ctx| |body]; unfold serve_release, answered_release.
  - eapply (D_answer _ _ Some); [apply D_Webhook|]. intros a ks x [Hs Hm] [= ->]. split; [done|]. by intros ? ? [= <- <-].
  - eapply (D_answer _ _ Some); [apply D_ManualUpdate|]. intros a ks x Hm [= ->]. by split.
  - eapply (D_answer _ _ Some); [apply D_Rollback|]. intros a ks x Hm [= ->]. by split.
  - eapply (D_answer _ _ (λ _, None)); [apply D_Status|]. by intros.
  - eapply (D_answer _ _ (λ _, None)); [apply idle_gains, quiet_GenerateWebhookSecret|]. by intros.
  - eapply (D_answer _ _ (λ _, None)); [apply idle_gains, quiet_UpdateImagePrefix|]. by intros.
Qed.

End schedules.

(** ** A concrete run *)

#[local] Existing Instances sample_library toy_cipher.
#[local] Instance platform_day : Surroundings := {| fault _ := None; clock n := Z.of_nat (Nat.min n 1000) |}.
#[local] Instance platform_digests : Digests :=
  {| hmac_sha256 secret text := take_str 16 secret +:+ take_str 16 text; sha256 text := text |}.
#[local] Instance platform_random : Entropy := λ n size, Some (of_chars (replicate (Z.to_nat size) "0"%char)).
Definition live_platform : LiveDeployment :=
  {| ld_Meta := {| lm_Name := platformDeploymentName; lm_Namespace := platformDeploymentNamespace; lm_Labels := ∅; lm_Annotations := ∅;
                   lm_ResourceVersion := "7"; lm_Generation := 1; lm_CreationTimestamp := 0 |};
     ld_Replicas := Some 1%Z; ld_Containers := [{| lct_Name := platformContainerName; lct_Image := "old" |}]; ld_Annotations := ∅; ld_Selector := ""; ld_NodeSelector := ∅; ld_Claims := []; ld_Rest := JNull;
     ld_ObservedGeneration := 1; ld_UpdatedReplicas := 1; ld_ReadyReplicas := 1; ld_AvailableReplicas := 1; ld_UnavailableReplicas := 0;
     ld_Conditions := [] |}.
#[local] Instance platform_server : APIServer := {|
  respond _ _ q := match q return result (answer q) with
    | GetDeployment _ _ => Ok live_platform
    | UpdateDeployment _ => Ok tt
    | _ => Err (EText "unavailable")
    end;
  latency _ _ := 1;
  tick_first _ := true
|}.
Definition wired : option Client := Some {| kc_Clientset := true; kc_Dynamic := Ok tt |}.
Definition wired_service : ReleaseService := {| rsv_encKey := "keys"; rsv_platform := NewPlatformKubernetesAdapter wired |}.
(** A platform that has drawn its secret. *)
Definition configured_platform : World Cluster :=
  (alone (GenerateWebhookSecret wired_service) (Build_World empty_db 0 {| c_log := []; c_time := 0; c_cache := None |} [])).2.
Definition build_secret : string := hex_text (of_chars (replicate 32 "0"%char)).
Definition build_body : string := print (JObj [("image", JStr (DefaultImagePrefix +:+ ":v2"))]).
(** The same signed request, sent twice. *)
Definition build_request : webhookRequest :=
  {| whr_Timestamp := "0"; whr_Nonce := "0123456789abcdef";
     whr_Signature := hex_text (hmac_sha256 build_secret (signed_request "0" "0123456789abcdef" build_body)); whr_Body := Some build_body |}.
Definition build_calls : list platform_call := [CallWebhook None build_request; CallWebhook None build_request].

Lemma configured_platform_sound : platform_sound configured_platform.
Proof.
  assert (tbl (A := PlatformRelease) (w_db configured_platform) = empty_table) as Hr by (vm_compute; reflexivity).
  assert (tbl (A := PlatformWebhookNonce) (w_db configured_platform) = empty_table) as Hn by (vm_compute; reflexivity).
  assert (c_log (w_cluster configured_platform) = []) as Hl by (vm_compute; reflexivity).
  split.
  - rewrite Hr. split; intros i r Hi; exfalso; exact (lookup_empty_Some i r Hi).
  - rewrite Hn. split; intros i r Hi; exfalso; exact (lookup_empty_Some i r Hi).
  - intros e. rewrite Hl. intros He. by apply not_elem_of_nil in He.
Qed.
Lemma platform_day_short m n : (clock m < clock n + day)%Z.
Proof. unfold clock, platform_day. change day with 86400000000000%Z. lia. Qed.

(** One of the two requests is answered, and its image is the only one the cluster was given. *)
Definition build_run := interleave (concat (replicate 20 [0; 1])) (serve_release wired_service <$> build_calls) configured_platform.
Definition finished_well {A} (p : handler (World Cluster) A) : bool := match p with Finished r => is_ok r | _ => false end.

Lemma deployment_authenticated_witness :
  ∃ r, (alone (Webhook wired_service None build_request) configured_platform).1 = Ok r ∧ plr_Image r = DefaultImagePrefix +:+ ":v2" ∧
    signed wired_service (w_db configured_platform) 4 build_request build_body.
Proof.
  pose proof (deployment_authenticated wired_service None build_request configured_platform (ps_nonces _ configured_platform_sound)) as Ha.
  assert (match (alone (Webhook wired_service None build_request) configured_platform).1 with
          | Ok r => plr_Image r = DefaultImagePrefix +:+ ":v2" | Err _ => False end) as Hok by (vm_compute; reflexivity).
  destruct (alone (Webhook wired_service None build_request) configured_platform) as [[r|e] w']; cbn [fst] in *; [|destruct Hok].
  destruct Ha as (raw & request & prefixes & consumed & Hraw & Hsigned & _). exists r. split; [reflexivity|]. split; [exact Hok|].
  assert (take_str max_body raw = build_body) as <- by (injection Hraw as <-; vm_compute; reflexivity).
  assert (clock (w_tick configured_platform) = 4%Z) as <- by (vm_compute; reflexivity). exact Hsigned.
Defined.

(** What was stored as a prefix is read back as another one. *)
Example prefix_read_differently :
  NormalizeImagePrefixes "registry//" = Ok ["registry/"] ∧ NormalizeImagePrefixes "registry/" = Ok ["registry"].
Proof. split; vm_compute; reflexivity. Qed.
