(* ===== verification/RegistryMirrors.v ===== *)
(** * Registry mirrors of the nodes

    [internal/service/registry/mirror_service.go] with the rendering of [node_mirror.go], the checks of
    [image_reference.go], the commands of [node_mirror_applier.go] and [node_k3s_restarter.go] and the handlers of
    [internal/api/delivery/node_registry_mirror_handler.go]: the definition of a mirror, and the task that
    writes the configuration of all mirrors to the chosen nodes. The memory of the service, which mirrors
    are being applied, is part of the state next to the nodes. The task runs on after the answer; the
    reading of the row for the answer is put before it. *)
From Stdlib Require Import ZArith Ascii String Lia.
From stdpp Require Import base sorting pretty numbers gmap strings list.
From S2P Require Import Prelude GoStrings GoBase64 Json JsonText Interleaving Models PlatformModels Security RegistryNodes Cluster KubernetesApplier Store PlatformStore Api AuditTrail Tokens IntegrationSessions RegistryStore ReleaseExecution ReleaseWorkflow Templates HandlerSteps AgentOperations.

(** [name.NewRegistry], when it accepts the name, and [yaml.Marshal]. *)
Class MirrorLibrary := {
  NewRegistry : string → bool;
  yaml_Marshal : json → result string
}.

(** ** The definition of a mirror *)

Definition ErrManagedNodeRegistryMirror : goerr := ESent "ErrManagedNodeRegistryMirror" "该镜像源由受管制品库维护，请在交付中心修改".
Definition ErrMirrorApplyRunning : goerr := ESent "ErrMirrorApplyRunning" "该镜像源已有应用任务正在执行".
Definition ErrMirrorDisabled : goerr := ESent "ErrMirrorDisabled" "镜像源已停用，不能应用".
Definition nodeRegistryMirrorApplyTimeout : Z := 10 * minute.

Record MirrorInput := {
  mi_Name : string; mi_Registry : string; mi_Endpoints : list string; mi_VerificationImage : string;
  mi_Username : string; mi_Credential : string; mi_InsecureSkipVerify : bool; mi_Enabled : option bool
}.
Definition set_mirror_credential (credential : string) (m : NodeRegistryMirror) : NodeRegistryMirror :=
  let '(Build_NodeRegistryMirror id n r e vi va vs ve aa as_ ae u _ i en cb mr ca ns) := m in
  Build_NodeRegistryMirror id n r e vi va vs ve aa as_ ae u credential i en cb mr ca ns.
Definition set_mirror_creator (createdBy : Z) (m : NodeRegistryMirror) : NodeRegistryMirror :=
  let '(Build_NodeRegistryMirror id n r e vi va vs ve aa as_ ae u c i en _ mr ca ns) := m in
  Build_NodeRegistryMirror id n r e vi va vs ve aa as_ ae u c i en createdBy mr ca ns.
Definition set_mirror_apply (at_ : option Z) (status detail : string) (m : NodeRegistryMirror) : NodeRegistryMirror :=
  let '(Build_NodeRegistryMirror id n r e vi va vs ve _ _ _ u c i en cb mr ca ns) := m in
  Build_NodeRegistryMirror id n r e vi va vs ve at_ status detail u c i en cb mr ca ns.
(** A mirror as it is answered, and whether it has a credential. *)
Definition sanitizeMirror (m : NodeRegistryMirror) : NodeRegistryMirror * bool :=
  (set_mirror_credential "" m, CredentialConfigured (nm_Credential m)).

Section definitions.
Context `{ImageNames} `{ImageReferences} `{MirrorLibrary} `{AesGcm}.

Definition parseHTTPMirrorEndpoint (endpoint : string) : result KubernetesApplier.URL :=
  let invalid := EText "invalid mirror endpoint" in
  match ParseRequestURI endpoint with
  | Ok target =>
      if bool_decide (url_Host target = "") || (bool_decide (url_Scheme target ≠ "https") && bool_decide (url_Scheme target ≠ "http"))
      then Err invalid else Ok target
  | Err _ => Err invalid
  end.
Definition ValidateMirrorEndpointURL (endpoint : string) : result unit :=
  if is_ok (parseHTTPMirrorEndpoint endpoint) then Ok tt else Err (EText "镜像地址必须是 HTTP 或 HTTPS URL").
Definition VerificationImageReference (registry image mismatchMessage : string) : result string :=
  let image := trim_space image in
  if empty_str image then Err (EText "验证镜像必填") else
  ref ← map_err (λ _, EText "验证镜像格式无效，请填写完整镜像地址和标签") (ParseReference image);
  if SameRegistry ref registry then Ok ref else Err (EText mismatchMessage).
Definition ValidateVerificationImage (registry image : string) : result unit :=
  if negb (NewRegistry (trim_space registry)) then Err (EText "Registry 地址无效") else
  _ ← VerificationImageReference registry image "验证镜像必须属于当前 Registry"; Ok tt.

Fixpoint mirror_endpoints (l : list string) : result (list string) :=
  match l with
  | [] => Ok []
  | raw :: l =>
      _ ← ValidateMirrorEndpointURL (trim_space raw);
      endpoints ← mirror_endpoints l; Ok (trim_space raw :: endpoints)
  end.
(** The mirror that the input defines, with the credential of the current one. *)
Definition mirror_of (input : MirrorInput) (current : option NodeRegistryMirror) : result NodeRegistryMirror :=
  let name := trim_space (mi_Name input) in
  let registry := trim_space (mi_Registry input) in
  if empty_str name || empty_str registry then Err (EText "名称和 Registry 地址必填") else
  if contains registry "://" || contains registry "/" then Err (EText "Registry 地址仅支持主机名和可选端口") else
  endpoints ← mirror_endpoints (mi_Endpoints input);
  if empty_list endpoints then Err (EText "至少配置一个镜像地址") else
  let image := trim_space (mi_VerificationImage input) in
  let image := if empty_str image then match current with Some m => nm_VerificationImage m | None => image end else image in
  _ ← ValidateVerificationImage registry image;
  Ok {| nm_ID := match current with Some m => nm_ID m | None => 0 end;
        nm_Name := name; nm_Registry := registry; nm_Endpoints := Some (encode (list_codec string_codec) endpoints);
        nm_VerificationImage := image; nm_LastVerifiedAt := None; nm_LastVerifyStatus := ""; nm_LastVerifyError := "";
        nm_LastAppliedAt := current ≫= nm_LastAppliedAt;
        nm_LastApplyStatus := match current with Some m => nm_LastApplyStatus m | None => "" end;
        nm_LastApplyError := match current with Some m => nm_LastApplyError m | None => "" end;
        nm_Username := trim_space (mi_Username input);
        nm_Credential := match current with Some m => nm_Credential m | None => "" end;
        nm_InsecureSkipVerify := mi_InsecureSkipVerify input; nm_Enabled := default true (mi_Enabled input);
        nm_CreatedBy := match current with Some m => nm_CreatedBy m | None => 0 end; nm_ManagedRegistryID := None;
        nm_CreatedAt := match current with Some m => nm_CreatedAt m | None => 0 end; nm_NodeStatuses := [] |}.

(** *** The configuration of the nodes *)

(** A JSON object from a map; [yaml.Marshal] sorts the names. *)
Definition object_of (m : gmap string json) : json := JObj ((λ k, (k, default JNull (m !! k))) <$> sorted_keys m).
Definition mirror_auth (credentials : gmap Z string) (mirror : NodeRegistryMirror) : list (string * json) :=
  if empty_str (nm_Username mirror) then [] else
  [("auth", JObj [("password", JStr (default "" (credentials !! nm_ID mirror))); ("username", JStr (nm_Username mirror))])].
Definition mirror_tls (mirror : NodeRegistryMirror) : list (string * json) :=
  if nm_InsecureSkipVerify mirror then [("tls", JObj [("insecure_skip_verify", JBool true)])] else [].
Fixpoint mirror_tables (credentials : gmap Z string) (mirrors : list NodeRegistryMirror) (configs registryMirrors : gmap string json) :
    result (gmap string json * gmap string json) :=
  match mirrors with
  | [] => Ok (configs, registryMirrors)
  | mirror :: mirrors =>
      if negb (nm_Enabled mirror) then mirror_tables credentials mirrors configs registryMirrors else
      match nm_Endpoints mirror ≫= decode (list_codec string_codec) [] with
      | None => Err (EText ("镜像源 " +:+ (quote (nm_Name mirror) +:+ " 配置损坏")))
      | Some endpoints =>
          let entry := JObj [("endpoint", encode (list_codec string_codec) endpoints)] in
          let configs := if negb (empty_str (nm_Username mirror)) || negb (empty_str (nm_Credential mirror)) || nm_InsecureSkipVerify mirror
            then <[nm_Registry mirror := JObj (mirror_auth credentials mirror ++ mirror_tls mirror)]> configs else configs in
          mirror_tables credentials mirrors configs (<[nm_Registry mirror := entry]> registryMirrors)
      end
  end.
Definition RenderK3sRegistries (mirrors : list NodeRegistryMirror) (credentials : gmap Z string) : result string :=
  tables ← mirror_tables credentials mirrors ∅ ∅;
  if decide (snd tables = ∅) then Err (EText "没有已启用的节点镜像源") else
  yaml_Marshal (JObj [("configs", object_of (fst tables)); ("mirrors", object_of (snd tables))]).
Fixpoint stored_credentials (key : string) (mirrors : list NodeRegistryMirror) (credentials : gmap Z string) : result (gmap Z string) :=
  match mirrors with
  | [] => Ok credentials
  | mirror :: mirrors =>
      if negb (nm_Enabled mirror) || empty_str (nm_Username mirror) then stored_credentials key mirrors credentials else
      if empty_str (nm_Credential mirror) then Err (EText ("镜像源 " +:+ (quote (nm_Name mirror) +:+ " 缺少密码或 Token"))) else
      credential ← map_err (λ _, EText ("解密镜像源 " +:+ (quote (nm_Name mirror) +:+ " 凭据失败"))) (DecryptCredential key (nm_Credential mirror));
      stored_credentials key mirrors (<[nm_ID mirror := credential]> credentials)
  end.
Definition RenderK3sRegistriesWithStoredCredentials (mirrors : list NodeRegistryMirror) (key : string) : result string :=
  credentials ← stored_credentials key mirrors ∅; RenderK3sRegistries mirrors credentials.
End definitions.

(** The chosen nodes, each once, in the order they are chosen. *)
Definition cluster_server (servers : list Server) (id : Z) : option Server :=
  find_first (λ s, bool_decide (sv_ID s = id)) (rev (List.filter (λ s, negb (empty_str (sv_ClusterRole s))) servers)).
Fixpoint select_servers (servers : list Server) (seen : list Z) (ids : list Z) : result (list Server) :=
  match ids with
  | [] => Ok []
  | id :: ids =>
      if decide (id ∈ seen) then select_servers servers seen ids else
      match cluster_server servers id with
      | None => Err (EText ("节点 " +:+ (dec id +:+ " 不是可应用的集群节点")))
      | Some server => rest ← select_servers servers (id :: seen) ids; Ok (server :: rest)
      end
  end.

(** ** The service *)

(** The memory of the service, the mirrors that are being applied, and the nodes. *)
Record Applying (N : Type) := { ap_running : gset Z; ap_nodes : N }.
Arguments ap_running {N} _.
Arguments ap_nodes {N} _.
Definition NodeMirrorApplier (N : Type) := Context → Server → string → N → (string * string) * N.
Definition MirrorVerifier (N : Type) := Context → NodeRegistryMirror → N → option goerr * N.

(** *** The verification of a mirror *)

(** [remote.Head] within a time limit: the manifest of the image, or why it cannot be read. *)
Class RemoteHead (N : Type) := remote_Head : Context → Z → ImageReference → ImageAuth → bool → N → option goerr * N.

Section verification.
Context `{ImageNames} `{ImageReferences} `{MirrorLibrary} `{AesGcm} {N : Type} `{!RemoteHead N}.

(** The image of the registry at the address of a mirror. *)
Definition MirrorVerificationReference (registry image endpoint : string) : result ImageReference :=
  _ ← VerificationImageReference registry image "验证镜像必须属于当前 Registry";
  source ← map_err (λ _, EText "验证镜像格式无效，请填写完整镜像地址和标签") (ParseImage (trim_space image));
  target ← map_err (λ _, EText "镜像地址无效") (parseHTTPMirrorEndpoint endpoint);
  if bool_decide (url_Path target ≠ "") && bool_decide (url_Path target ≠ "/") then Err (EText "镜像地址不支持路径") else
  let insecure := bool_decide (url_Scheme target = "http") in
  repository ← map_err (λ _, EText "镜像地址无效") (NewRepository (url_Host target +:+ ("/" +:+ ref_Repository source)) insecure);
  Ok {| ref_Registry := fst repository; ref_Repository := snd repository; ref_Insecure := insecure; ref_Identifier := ref_Identifier source |}.

Definition mirror_access (encKey : string) (mirror : NodeRegistryMirror) : result ImageAuth :=
  if empty_str (nm_Username mirror) then Ok Anonymous else
  if empty_str (nm_Credential mirror) then Err (EText "已配置账号但缺少密码或 Token") else
  credential ← map_err (λ _, EText "读取镜像源凭据失败") (DecryptCredential encKey (nm_Credential mirror));
  Ok (BasicAuth (nm_Username mirror) credential).
Definition verifyNodeRegistryMirrorEndpoint (encKey : string) (ctx : Context) (mirror : NodeRegistryMirror) (ref : ImageReference) (n : N) :
    option goerr * N :=
  match mirror_access encKey mirror with
  | Err e => (Some e, n)
  | Ok auth =>
      let '(failure, n) := remote_Head ctx (15 * second)%Z ref auth (nm_InsecureSkipVerify mirror) n in
      ((λ e, EWrap "无法访问验证镜像: " e "") <$> failure, n)
  end.
(** The addresses one after the other, and the failures. *)
Fixpoint verify_endpoints (encKey : string) (ctx : Context) (mirror : NodeRegistryMirror) (endpoints : list string) (n : N) : list string * N :=
  match endpoints with
  | [] => ([], n)
  | endpoint :: endpoints =>
      let '(failure, n) := match MirrorVerificationReference (nm_Registry mirror) (nm_VerificationImage mirror) endpoint with
        | Ok ref => verifyNodeRegistryMirrorEndpoint encKey ctx mirror ref n
        | Err e => (Some e, n)
        end in
      let '(failures, n) := verify_endpoints encKey ctx mirror endpoints n in
      (match failure with Some e => [endpoint +:+ (": " +:+ err_text e)] | None => [] end ++ failures, n)
  end.
Definition verifyNodeRegistryMirrorConnection (encKey : string) : MirrorVerifier N := λ ctx mirror n,
  if empty_str (nm_VerificationImage mirror) then (Some (EText "请先配置验证镜像"), n) else
  match nm_Endpoints mirror ≫= decode (list_codec string_codec) [] with
  | None => (Some (EText "镜像地址配置损坏"), n)
  | Some endpoints =>
      let '(failures, n) := verify_endpoints encKey ctx mirror endpoints n in
      (if empty_list failures then None else Some (EText (join "; " failures)), n)
  end.
End verification.

Section service.
Context {N : Type} `{Surroundings} `{ImageNames} `{ImageReferences} `{MirrorLibrary} `{AesGcm} `{Entropy}.
#[local] Abbreviation W := (World (Applying N)).
#[local] Abbreviation Handler := (handler W).
Variable encKey : string.

(** A new service applies no mirror. *)
Definition NewMirrorService (w : W) : W := set_cluster {| ap_running := ∅; ap_nodes := ap_nodes (w_cluster w) |} w.
(** A call that reaches the nodes. *)
Definition on_nodes {A} (f : N → A * N) : M W A := λ w,
  let '(a, n) := f (ap_nodes (w_cluster w)) in
  (Ok a, set_cluster {| ap_running := ap_running (w_cluster w); ap_nodes := n |} w).
Definition beginApply (id : Z) : M W bool := λ w,
  if decide (id ∈ ap_running (w_cluster w)) then (Ok false, w)
  else (Ok true, set_cluster {| ap_running := {[id]} ∪ ap_running (w_cluster w); ap_nodes := ap_nodes (w_cluster w) |} w).
Definition finishApply (id : Z) : M W unit := λ w,
  (Ok tt, set_cluster {| ap_running := ap_running (w_cluster w) ∖ {[id]}; ap_nodes := ap_nodes (w_cluster w) |} w).

Definition seal_credential (plaintext : string) : M W string :=
  _ ← lift (new_cipher encKey);
  nonce ← draw (Z.of_nat nonce_size) id;
  lift (EncryptCredential encKey nonce plaintext).
Definition build (input : MirrorInput) (current : option NodeRegistryMirror) : Handler NodeRegistryMirror :=
  mirror ← Finished (mirror_of input current);
  if empty_str (mi_Credential input) then mret mirror else
  credential ← step_or (seal_credential (mi_Credential input)) (λ _, EText "加密凭据失败");
  mret (set_mirror_credential credential mirror).

Definition MirrorService_List : Handler (list (NodeRegistryMirror * bool)) :=
  mirrors ← step_or ListNodeRegistryMirrors id; mret (List.map sanitizeMirror mirrors).
Definition MirrorService_Get (id_ : Z) : Handler (NodeRegistryMirror * bool) :=
  mirror ← step_or (GetNodeRegistryMirror id_) id; mret (sanitizeMirror mirror).
Definition MirrorService_Create (input : MirrorInput) (createdBy : Z) : Handler (NodeRegistryMirror * bool) :=
  mirror ← build input None;
  mirror ← step_or (CreateNodeRegistryMirror (set_mirror_creator createdBy mirror)) id;
  mret (sanitizeMirror mirror).
Definition MirrorService_Update (id_ : Z) (input : MirrorInput) : Handler (NodeRegistryMirror * bool) :=
  current ← step_or (GetNodeRegistryMirror id_) id;
  refuse_if (bool_decide (is_Some (nm_ManagedRegistryID current))) ErrManagedNodeRegistryMirror ;;
  mirror ← build input (Some current);
  step_or (UpdateNodeRegistryMirror mirror) id ;;
  mret (sanitizeMirror mirror).
Definition MirrorService_Delete (id_ : Z) : Handler unit :=
  mirror ← step_or (GetNodeRegistryMirror id_) id;
  refuse_if (bool_decide (is_Some (nm_ManagedRegistryID mirror))) (EText "该镜像源由受管制品库维护，不能单独删除") ;;
  step_or (DeleteNodeRegistryMirror id_) id.
Definition MirrorService_Verify (ctx : Context) (id_ : Z) (verifier : option (MirrorVerifier N)) : Handler (NodeRegistryMirror * bool) :=
  mirror ← step_or (GetNodeRegistryMirror id_) id;
  verdict ← (if negb (nm_Enabled mirror) then mret ("failed", "节点镜像源已停用") else
    match verifier with
    | None => mret ("failed", "镜像源连接检测不可用")
    | Some verify =>
        failure ← step_or (on_nodes (verify ctx mirror)) id;
        mret (match failure with
              | Some e => ("failed", Truncate (trim_space (err_text e)) 480)
              | None => ("succeeded", "")
              end)
    end);
  at_ ← step_or now id;
  step_or (UpdateNodeRegistryMirrorVerification id_ (fst verdict) (snd verdict) at_) id ;;
  MirrorService_Get id_.

Definition mirror_status (mirrorID serverID : Z) (status detail : string) (at_ : option Z) : NodeRegistryMirrorNode :=
  {| mn_ID := 0; mn_MirrorID := mirrorID; mn_ServerID := serverID; mn_Status := status; mn_Detail := detail; mn_AppliedAt := at_;
     mn_Server := zero_server |}.
(** The nodes one after the other; how many succeeded and how many failed. *)
Fixpoint apply_servers (ctx : Context) (mirrorID : Z) (content : string) (apply : NodeMirrorApplier N) (successCount failedCount : Z)
    (servers : list Server) : Handler (Z * Z) :=
  match servers with
  | [] => mret (successCount, failedCount)
  | server :: servers =>
      ignored (UpsertNodeRegistryMirrorStatus (mirror_status mirrorID (sv_ID server) "applying" "正在写入配置并重启 K3s" None)) ;;
      outcome ← step_or (on_nodes (apply ctx server content)) id;
      at_ ← step_or now id;
      ignored (UpsertNodeRegistryMirrorStatus (mirror_status mirrorID (sv_ID server) (fst outcome) (snd outcome) (Some at_))) ;;
      apply_servers ctx mirrorID content apply (successCount + if decide (fst outcome = "success") then 1 else 0)
        (failedCount + if decide (fst outcome = "failed") then 1 else 0) servers
  end.
Definition apply_summary (total successCount : Z) : string :=
  dec successCount +:+ (" 个节点成功，" +:+ (dec (total - successCount) +:+ " 个节点失败或跳过")).
Definition applied_mirror (at_ total successCount failedCount : Z) (m : NodeRegistryMirror) : NodeRegistryMirror :=
  if bool_decide (failedCount = 0%Z) && bool_decide (successCount = total)
  then set_mirror_apply (Some at_) "succeeded" "" m
  else set_mirror_apply (Some at_) "failed" (apply_summary total successCount) m.
Definition runApply (ctx : Context) (mirrorID : Z) (servers : list Server) (content : string) (apply : NodeMirrorApplier N) : Handler unit :=
  counts ← apply_servers ctx mirrorID content apply 0 0 servers;
  at_ ← step_or now id;
  found ← tried (GetNodeRegistryMirror mirrorID);
  match found with
  | Ok mirror => ignored (UpdateNodeRegistryMirror (applied_mirror at_ (Z.of_nat (length servers)) (fst counts) (snd counts) mirror))
  | Err _ => mret tt
  end ;;
  step_or (finishApply mirrorID) id.

(** The statuses before the task starts; the task is given up when one cannot be written. *)
Fixpoint pending_statuses (mirrorID : Z) (servers : list Server) : Handler unit :=
  match servers with
  | [] => mret tt
  | server :: servers =>
      saved ← tried (UpsertNodeRegistryMirrorStatus (mirror_status mirrorID (sv_ID server) "pending" "等待应用" None));
      match saved with
      | Err e => step_or (finishApply mirrorID) id ;; refuse (EWrap "初始化节点应用状态失败: " e "")
      | Ok _ => pending_statuses mirrorID servers
      end
  end.
Definition StartApply (ctx : Context) (id_ : Z) (serverIDs : list Z) (apply : option (NodeMirrorApplier N)) : Handler (NodeRegistryMirror * bool) :=
  selected ← step_or (GetNodeRegistryMirror id_) id;
  refuse_if (negb (nm_Enabled selected)) ErrMirrorDisabled ;;
  refuse_if (empty_list serverIDs) (EText "至少选择一个集群节点") ;;
  match apply with
  | None => refuse (EText "节点镜像源应用能力不可用")
  | Some apply =>
      mirrors ← step_or ListNodeRegistryMirrors id;
      content ← Finished (RenderK3sRegistriesWithStoredCredentials mirrors encKey);
      all ← step_or ListServers (λ e, EWrap "读取集群节点失败: " e "");
      servers ← Finished (select_servers all [] serverIDs);
      started ← step_or (beginApply id_) id;
      refuse_if (negb started) ErrMirrorApplyRunning ;;
      pending_statuses id_ servers ;;
      saved ← tried (UpdateNodeRegistryMirror (set_mirror_apply None "applying" "" selected));
      match saved with
      | Err e => step_or (finishApply id_) id ;; refuse (EWrap "保存应用任务状态失败: " e "")
      | Ok _ =>
          at_ ← step_or now id;
          answer ← tried (GetNodeRegistryMirror id_);
          runApply (Some (at_ + nodeRegistryMirrorApplyTimeout)%Z) id_ servers content apply ;;
          Finished (sanitizeMirror <$> answer)
      end
  end.

(** ** The handlers *)

Record NodeRegistryMirrorHandler := {
  nmh_verifyConnection : MirrorVerifier N; nmh_applyNode : option (NodeMirrorApplier N); nmh_audit : bool
}.
Variable h : NodeRegistryMirrorHandler.
Variable c : BrowserCall.

Definition mirror_not_found (e : goerr) : bool := err_is "gorm.ErrRecordNotFound" e || contains (err_text e) "record not found".
Definition mentions (words : list string) (e : goerr) : bool := existsb (contains (err_text e)) words.
Definition handleNodeRegistryMirrorSaveError (e : goerr) : goerr :=
  if mirror_not_found e then NotFound "镜像源不存在"
  else if err_is "ErrManagedNodeRegistryMirror" e then Conflict (err_text e)
  else if mentions ["名称"; "Registry"; "镜像"; "凭据"] e then ValidationError (err_text e)
  else Conflict "镜像源名称或 Registry 地址已存在".
Definition handleNodeRegistryMirrorApplyError (e : goerr) : goerr :=
  if mirror_not_found e then NotFound "镜像源不存在"
  else if err_is "ErrMirrorDisabled" e || err_is "ErrMirrorApplyRunning" e then Conflict (err_text e)
  else if mentions ["节点 "; "至少选择"; "镜像源"; "凭据"] e then ValidationError (err_text e)
  else if mentions ["集群节点"] e then DBError "读取集群节点失败"
  else DBError (err_text e).
Definition mirror_delete_error (e : goerr) : goerr :=
  if mirror_not_found e then NotFound "镜像源不存在"
  else if mentions ["受管制品库"] e then Conflict (err_text e) else DBError "删除节点镜像源失败".

Definition recordAudit (action : string) (mirror : option NodeRegistryMirror) (outcome summary : string) (metadata : list (string * json)) : Handler unit :=
  if negb (nmh_audit h) then mret tt else
  ignored (Service_Record {|
    ev_Action := action; ev_ResourceType := "node_registry_mirror"; ev_ResourceID := match mirror with Some m => nm_ID m | None => 0 end;
    ev_TargetName := match mirror with Some m => nm_Name m | None => "节点镜像源" end;
    ev_Actor := {| act_Type := AuditActorUser; act_ID := id_UserID (br_Identity c); act_Name := id_Username (br_Identity c) |};
    ev_Source := AuditSourceAPI; ev_Outcome := outcome; ev_Summary := summary; ev_RequestID := br_RequestID c; ev_OperationID := "";
    ev_Metadata := metadata |}).
Definition Mirror_List : Handler (list (NodeRegistryMirror * bool)) :=
  reporting (λ _, DBError "读取节点镜像源失败") MirrorService_List.
Definition Mirror_Create (body : option MirrorInput) : Handler (NodeRegistryMirror * bool) :=
  input ← body_if body (λ _, true) "镜像源定义无效";
  mirror ← reporting handleNodeRegistryMirrorSaveError (MirrorService_Create input (id_UserID (br_Identity c)));
  recordAudit "registry.mirror.create" (Some mirror.1) AuditOutcomeSucceeded "创建节点镜像源" [] ;;
  mret mirror.
Definition Mirror_Update (param_id : string) (body : option MirrorInput) : Handler (NodeRegistryMirror * bool) :=
  id_ ← parsed param_id "镜像源 ID 无效";
  input ← body_if body (λ _, true) "镜像源定义无效";
  mirror ← reporting handleNodeRegistryMirrorSaveError (MirrorService_Update id_ input);
  recordAudit "registry.mirror.update" (Some mirror.1) AuditOutcomeSucceeded "更新节点镜像源" [] ;;
  mret mirror.
Definition Mirror_Delete (param_id : string) : Handler Z :=
  id_ ← parsed param_id "镜像源 ID 无效";
  mirror ← tried (GetNodeRegistryMirror id_);
  reporting mirror_delete_error (MirrorService_Delete id_) ;;
  recordAudit "registry.mirror.delete" (match mirror with Ok m => Some m | Err _ => None end) AuditOutcomeSucceeded "删除节点镜像源" [] ;;
  mret id_.
(** The error of a part, to be inspected. *)
Fixpoint outcome_of {A} (p : Handler A) : Handler (result A) :=
  match p with
  | Finished r => Finished (Ok r)
  | Step m rest => Step m (λ r, outcome_of (rest r))
  end.
Definition Mirror_Verify (param_id : string) : Handler (NodeRegistryMirror * bool) :=
  id_ ← parsed param_id "镜像源 ID 无效";
  verified ← outcome_of (MirrorService_Verify (br_Context c) id_ (Some (nmh_verifyConnection h)));
  match verified with
  | Err e =>
      recordAudit "registry.mirror.verify" None AuditOutcomeFailed "验证节点镜像源失败" [("error", JStr (err_text e))] ;;
      refuse (if mirror_not_found e then NotFound "镜像源不存在" else DBError "保存检测结果失败")
  | Ok mirror =>
      (if bool_decide (nm_LastVerifyStatus mirror.1 ≠ "succeeded")
       then recordAudit "registry.mirror.verify" (Some mirror.1) AuditOutcomeFailed "验证节点镜像源失败"
              [("error", JStr (nm_LastVerifyError mirror.1))]
       else recordAudit "registry.mirror.verify" (Some mirror.1) AuditOutcomeSucceeded "验证节点镜像源" []) ;;
      mret mirror
  end.
Definition Mirror_Apply (param_id : string) (body : option (list Z)) : Handler (NodeRegistryMirror * bool) :=
  id_ ← parsed param_id "镜像源 ID 无效";
  serverIDs ← body_if body (λ _, true) "至少选择一个集群节点";
  refuse_if (bool_decide (nmh_applyNode h = None)) (ServiceUnavailable "节点配置通道未就绪") ;;
  mirror ← reporting handleNodeRegistryMirrorApplyError (StartApply (br_Context c) id_ serverIDs (nmh_applyNode h));
  recordAudit "registry.mirror.apply" (Some mirror.1) AuditOutcomeAccepted "提交节点镜像源应用任务"
    [("server_ids", JArr (JInt <$> serverIDs))] ;;
  mret mirror.
Definition Mirror_ApplyStatus (param_id : string) : Handler (NodeRegistryMirror * bool) :=
  id_ ← parsed param_id "镜像源 ID 无效";
  reporting (λ _, NotFound "镜像源不存在") (MirrorService_Get id_).
End service.

(** ** The commands *)

(** The runs of a node: what is executed on it, and what [SSHExecutor.Execute] answers after a history. *)
Definition NodeLog : Type := list (Server * string).
Class Shell := shell : NodeLog → Server → string → string * option goerr.

(** A back quote stands for the double quote. *)
Definition apply_prefix : string := with_quotes "set -e
sudo -n mkdir -p /etc/rancher/k3s
target=`/etc/rancher/k3s/registries.yaml`
backup=`${target}.cylism-backup`
tmp=`${target}.tmp`
if sudo -n test -f `$target`; then
  sudo -n cp `$target` `$backup`
fi
echo ".
Definition apply_suffix : string := with_quotes " | base64 -d | sudo -n tee `$tmp` >/dev/null
sudo -n chmod 600 `$tmp`
sudo -n mv `$tmp` `$target`
unit=``
for candidate in k3s k3s-agent; do
  if [ `$(sudo -n systemctl show `${candidate}.service` -p LoadState --value 2>/dev/null)` = `loaded` ]; then
    unit=`${candidate}.service`
    break
  fi
done
if [ -z `$unit` ]; then
  echo `未找到 k3s.service 或 k3s-agent.service` >&2
  exit 1
fi
echo `检测到服务: $unit`
restart_failed=0
if ! sudo -n systemctl restart `$unit`; then
  restart_failed=1
fi
if ! sudo -n systemctl is-active --quiet `$unit`; then
  restart_failed=1
fi
if [ `$restart_failed` -ne 0 ]; then
  echo `服务重启命令失败: $unit` >&2
  sudo -n systemctl status `$unit` --no-pager -l >&2 || true
  if sudo -n test -f `$backup`; then
    echo `正在恢复旧配置: $target` >&2
    sudo -n cp `$backup` `$target`
    sudo -n systemctl restart `$unit` || true
  fi
  exit 1
fi
echo `服务已重启: $unit`".
Definition nodeRegistryMirrorApplyCommand (payload : string) : string := apply_prefix +:+ (quote payload +:+ apply_suffix).
Definition nodeK3sRestartCommand : string := with_quotes "set -e
unit=``
for candidate in k3s.service k3s-agent.service; do
  if [ `$(sudo -n systemctl show `$candidate` -p LoadState --value 2>/dev/null)` = `loaded` ]; then
    unit=`$candidate`
    break
  fi
done
if [ -z `$unit` ]; then
  exit 1
fi
sudo -n systemctl restart `$unit`
sudo -n systemctl is-active --quiet `$unit`
printf '%s\n' `$unit`".

Section commands.
Context `{Shell}.

Definition execute_on (server : Server) (command : string) (log : NodeLog) : (string * option goerr) * NodeLog :=
  (shell log server command, log ++ [(server, command)]).
Definition ssh_key (server : Server) : bool :=
  bool_decide (sv_SSHAuthType server = "key") && negb (empty_str (trim_space (sv_SSHKey server))).
(** [None]: without an executor. *)
Definition NodeMirrorApplier_Apply (ssh : bool) : NodeMirrorApplier NodeLog := λ ctx server content log,
  if negb ssh then (("failed", "节点镜像源应用能力不可用"), log) else
  if negb (ssh_key server) then (("skipped", "需要已配置的 SSH 密钥认证"), log) else
  let '((out, failure), log) := execute_on server (nodeRegistryMirrorApplyCommand (base64 content)) log in
  match failure with
  | Some e =>
      let detail := trim_space out in
      (("failed", "节点镜像源应用失败: " +:+ (err_text e +:+ if empty_str detail then "" else ": " +:+ detail)), log)
  | None => (("success", trim_space out), log)
  end.
End commands.

Record NodeK3sRestartResult := { kr_ServerID : Z; kr_Service : string; kr_Status : string; kr_Detail : string }.
Definition NodeK3sRestartStatusSucceeded : string := "succeeded".
Definition NodeK3sRestartStatusFailed : string := "failed".
Definition NodeK3sRestartStatusUnsupported : string := "unsupported".

Section restart.
Context `{Surroundings} `{Shell}.
#[local] Abbreviation W := (World (Applying NodeLog)).
#[local] Abbreviation Handler := (handler W).

(** The first row with the number decides. *)
Definition NodeK3sRestarter_Restart (ssh : bool) (serverID : Z) : Handler NodeK3sRestartResult :=
  servers ← step_or ListServers id;
  match find_first (λ s, bool_decide (sv_ID s = serverID)) servers with
  | None => refuse (EText "节点不是可重启的集群节点")
  | Some server =>
      refuse_if (empty_str (trim_space (sv_ClusterRole server))) (EText "节点不是可重启的集群节点") ;;
      let answer service status detail := {| kr_ServerID := serverID; kr_Service := service; kr_Status := status; kr_Detail := detail |} in
      if negb (ssh_key server) then mret (answer "" NodeK3sRestartStatusUnsupported "需要已配置的 SSH 密钥认证") else
      if negb ssh then mret (answer "" NodeK3sRestartStatusFailed "节点 SSH 重启通道不可用") else
      outcome ← step_or (on_nodes (execute_on server nodeK3sRestartCommand)) id;
      match snd outcome with
      | Some _ => mret (answer "" NodeK3sRestartStatusFailed "K3s 服务重启失败")
      | None =>
          let service := trim_space (fst outcome) in
          mret (answer (if bool_decide (service ≠ "k3s.service") && bool_decide (service ≠ "k3s-agent.service") then "" else service)
            NodeK3sRestartStatusSucceeded "K3s 服务已重启并恢复运行")
      end
  end.
Definition RestartNodeK3s (audited : bool) (c : BrowserCall) (restarter : option bool) (param_id : string) : Handler NodeK3sRestartResult :=
  serverID ← parsed param_id "节点 ID 无效";
  match restarter with
  | None => refuse (ServiceUnavailable "节点 K3s 重启通道未就绪")
  | Some ssh =>
      restarted ← reporting (λ _, ValidationError "节点不是可重启的集群节点") (NodeK3sRestarter_Restart ssh serverID);
      (if negb audited then mret tt else
       ignored (Service_Record {|
         ev_Action := "registry.mirror.restart-node-k3s"; ev_ResourceType := "server"; ev_ResourceID := serverID; ev_TargetName := "节点 K3s 服务";
         ev_Actor := {| act_Type := AuditActorUser; act_ID := id_UserID (br_Identity c); act_Name := id_Username (br_Identity c) |};
         ev_Source := AuditSourceAPI;
         ev_Outcome := if bool_decide (kr_Status restarted ≠ NodeK3sRestartStatusSucceeded) then AuditOutcomeFailed else AuditOutcomeSucceeded;
         ev_Summary := "重启节点 K3s 服务"; ev_RequestID := br_RequestID c; ev_OperationID := "";
         ev_Metadata := [("status", JStr (kr_Status restarted))] |})) ;;
      mret restarted
  end.
End restart.

(** ** Properties *)

#[export] Instance mirror_keyed : KeyedRow NodeRegistryMirror.
Proof. by intros id []. Qed.
#[export] Instance mirror_node_keyed : KeyedRow NodeRegistryMirrorNode.
Proof. by intros id []. Qed.

(** *** One task for a mirror *)

Create HintDb locks.
Section locks.
Context {N : Type} `{Surroundings} `{ImageNames} `{ImageReferences} `{MirrorLibrary} `{AesGcm} `{Entropy}.
#[local] Abbreviation W := (World (Applying N)).
#[local] Abbreviation Handler := (handler W).
Variable encKey : string.
Variable h : NodeRegistryMirrorHandler (N := N).
Variable c : BrowserCall.

Definition running (w : W) : gset Z := ap_running (w_cluster w).

(** A handler holds the mirrors it is applying. *)
Inductive lock_trade (w : W) : list Z → W → list Z → Prop :=
  | lock_kept ks w' : running w' = running w → lock_trade w ks w' ks
  | lock_taken ks id w' : id ∉ running w → running w' = {[id]} ∪ running w → lock_trade w ks w' (id :: ks)
  | lock_left ks id w' : running w' = running w ∖ {[id]} → lock_trade w (id :: ks) w' ks.
Definition lock_inv (w : W) (held : list Z) : Prop := NoDup held ∧ ∀ id, id ∈ running w ↔ id ∈ held.

Lemma lock_inv_perm w held held' : held ≡ₚ held' → lock_inv w held → lock_inv w held'.
Proof. intros Hp [Hn Hr]. split; [by rewrite <-Hp|]. intros id. by rewrite <-Hp. Qed.
Lemma lock_trade_frame w ks w' ks' others : lock_trade w ks w' ks' → lock_inv w (ks ++ others) → lock_inv w' (ks' ++ others).
Proof.
  intros Ht [Hn Hr]. unfold lock_inv. destruct Ht as [ks w' ->|ks id w' Hid ->|ks id w' ->].
  - done.
  - split; [|set_solver]. apply NoDup_cons. split; [by rewrite <-Hr|done].
  - apply NoDup_cons in Hn as [Hid Hn]. split; [done|]. intros x. rewrite elem_of_difference, elem_of_singleton, Hr. cbn. rewrite elem_of_cons.
    split; [intros [[->|?] ?]; done|]. intros Hx. split; [by right|]. by intros ->.
Qed.

#[local] Abbreviation any := (λ _ : W, True).
#[local] Abbreviation neutral := (neutral any lock_trade).
#[local] Abbreviation D := (disciplined any lock_trade).
#[local] Abbreviation idle := (idle any lock_trade).

Lemma lock_neutral {A} (m : M W A) : (∀ w, w_cluster (m w).2 = w_cluster w) → neutral m.
Proof. intros Hm w ks _. apply lock_kept. unfold running. by rewrite Hm. Qed.
Lemma lock_statement {A} (f : DB → result (A * DB)) : neutral (statement f).
Proof. apply lock_neutral. intros w. by destruct (statement_cases f w) as [(e & ->)|(a & db & _ & ->)]. Qed.
Lemma lock_nodes {A} (f : N → A * N) : neutral (on_nodes f).
Proof. intros w ks _. apply lock_kept. unfold running, on_nodes. by destruct (f _). Qed.
Lemma lock_now : neutral now.
Proof. by apply lock_neutral. Qed.
Lemma lock_bind {A B} (m : M W A) (f : A → M W B) :
  (∀ w, w_cluster (m w).2 = w_cluster w) → (∀ a w, w_cluster (f a w).2 = w_cluster w) → ∀ w, w_cluster ((m ≫= f) w).2 = w_cluster w.
Proof. intros Hm Hf w. unfold mbind, M_bind. specialize (Hm w). destruct (m w) as [[a|e] w']; cbn in *; [by rewrite Hf|done]. Qed.
Lemma statement_cluster {A} (f : DB → result (A * DB)) (w : W) : w_cluster (statement f w).2 = w_cluster w.
Proof. by destruct (statement_cases f w) as [(e & ->)|(a & db & _ & ->)]. Qed.
Lemma lock_create m : neutral (CreateNodeRegistryMirror m).
Proof. apply lock_neutral. apply lock_bind; [done|]. intros at_ w. apply statement_cluster. Qed.
Lemma lock_seal plaintext : neutral (seal_credential encKey plaintext).
Proof.
  apply lock_neutral. unfold seal_credential. apply lock_bind; [done|]. intros ?. apply lock_bind; [|done].
  intros w. unfold draw. by destruct (random_bytes _ _).
Qed.
Lemma lock_record input : neutral (Service_Record input).
Proof.
  apply lock_neutral. unfold Service_Record. apply lock_bind; [intros w; unfold guard_not; by destruct (_ || _)|]. intros ?.
  apply lock_bind; [done|]. intros at_. apply lock_bind; [|done]. intros w. apply statement_cluster.
Qed.

Lemma idle_read {A} (f : DB → result A) g : idle (step_or (query f) g).
Proof. apply idle_single, lock_statement. Qed.
Lemma idle_write {A} (f : DB → result (A * DB)) g : idle (step_or (statement f) g).
Proof. apply idle_single, lock_statement. Qed.
Lemma idle_audit action mirror outcome summary metadata : idle (recordAudit h c action mirror outcome summary metadata).
Proof. unfold recordAudit. destruct (negb _); [done|]. apply idle_ignored, lock_record. Qed.
Lemma idle_body {A} (body : option A) valid message : idle (body_if body valid message).
Proof. unfold body_if. destruct body as [x|]; [|done]. by destruct (valid x). Qed.
Lemma idle_parsed param message : idle (parsed param message).
Proof. unfold parsed. by destruct (ParseID param). Qed.
Lemma D_outcome {A} (p : Handler A) ks post : D ks p (λ r, post (Ok r)) → D ks (outcome_of p) post.
Proof.
  revert ks. induction p as [r|X m rest IH]; intros ks Hp; [exact Hp|].
  intros w Hw. destruct (Hp w Hw) as (ks' & Ht & Hr). exists ks'. split; [exact Ht|exact (IH _ _ Hr)].
Qed.
Lemma idle_outcome {A} (p : Handler A) : idle p → idle (outcome_of p).
Proof. intros Hp ks. apply D_outcome, Hp. Qed.
Lemma idle_build input current : idle (build encKey input current).
Proof.
  unfold build. apply idle_bind; [apply idle_known|]. intros mirror. destruct (empty_str _); [done|].
  apply idle_bind; [apply idle_single, lock_seal|done].
Qed.
#[local] Hint Resolve idle_known idle_bind idle_read idle_write idle_audit idle_body idle_parsed idle_outcome idle_build idle_refuse_if idle_reporting : locks.
#[local] Hint Extern 1 (idle (step_or _ _)) => first [apply idle_read|apply idle_write] : locks.
#[local] Hint Extern 1 (idle (Finished _)) => apply idle_known : locks.
#[local] Hint Extern 1 (idle (refuse _)) => apply idle_known : locks.
#[local] Hint Extern 1 (idle (mret _)) => apply idle_known : locks.

Lemma idle_Get id : idle (MirrorService_Get (N := N) id).
Proof. unfold MirrorService_Get. eauto with locks. Qed.
Lemma idle_List : idle (MirrorService_List (N := N)).
Proof. unfold MirrorService_List. eauto with locks. Qed.
Lemma idle_Create input createdBy : idle (MirrorService_Create encKey input createdBy).
Proof.
  unfold MirrorService_Create. apply idle_bind; [auto with locks|]. intros mirror.
  apply idle_bind; [apply idle_single, lock_create|auto with locks].
Qed.
Lemma idle_Update id input : idle (MirrorService_Update encKey id input).
Proof. unfold MirrorService_Update. repeat (apply idle_bind; [auto with locks|intros ?]). auto with locks. Qed.
Lemma idle_Delete id : idle (MirrorService_Delete (N := N) id).
Proof. unfold MirrorService_Delete. repeat (apply idle_bind; [auto with locks|intros ?]). auto with locks. Qed.
Lemma idle_Verify ctx id verifier : idle (MirrorService_Verify ctx id verifier).
Proof.
  unfold MirrorService_Verify. apply idle_bind; [auto with locks|]. intros mirror. apply idle_bind.
  - destruct (negb _); [done|]. destruct verifier as [verify|]; [|done]. apply idle_bind; [apply idle_single, lock_nodes|done].
  - intros verdict. apply idle_bind; [apply idle_single, lock_now|]. intros at_. apply idle_bind; [auto with locks|]. intros ?. apply idle_Get.
Qed.

(** *** The task *)

Definition freed {A} (_ : result A) (ks : list Z) : Prop := ks = [].
Lemma D_finish id : D [id] (step_or (finishApply id) Datatypes.id) (λ r ks, r = Ok () ∧ ks = []).
Proof. intros w _. exists []. split; [by apply lock_left|done]. Qed.
Lemma D_give_up {A} id e : D [id] (step_or (finishApply id) Datatypes.id ;; refuse (A := A) e) freed.
Proof. intros w _. exists []. split; [by apply lock_left|done]. Qed.
Lemma D_apply_servers ctx id content apply good bad servers :
  D [id] (apply_servers ctx id content apply good bad servers) (λ r ks, is_ok r = true ∧ ks = [id]).
Proof.
  revert good bad. induction servers as [|server servers IH]; intros good bad; [done|]. cbn [apply_servers].
  apply neutral_ignored; [apply lock_statement|]. intros w _. exists [id]. split; [by apply lock_nodes|].
  unfold on_nodes. destruct (apply _ _ _ _) as [outcome n]. cbn [fst]. intros w' _. exists [id]. split; [by apply lock_now|].
  apply neutral_ignored; [apply lock_statement|]. apply IH.
Qed.
Lemma D_runApply ctx id servers content apply : D [id] (runApply ctx id servers content apply) (λ r ks, r = Ok () ∧ ks = []).
Proof.
  unfold runApply. eapply disciplined_bind; [apply D_apply_servers| |by intros e ks [? _]].
  intros counts ks [_ ->]. intros w _. exists [id]. split; [by apply lock_now|].
  apply neutral_tried; [apply lock_statement|]. intros [mirror|e]; [|apply D_finish].
  apply neutral_ignored; [apply lock_statement|]. apply D_finish.
Qed.
Lemma D_pending id servers :
  D [id] (pending_statuses id servers) (λ r ks, match r with Ok _ => ks = [id] | Err _ => ks = [] end).
Proof.
  induction servers as [|server servers IH]; [done|]. cbn [pending_statuses]. apply neutral_tried; [apply lock_statement|].
  intros [u|e]; [apply IH|]. intros w _. exists []. split; [by apply lock_left|done].
Qed.
(** What [StartApply] does once the mirror is marked. *)
Lemma D_task id servers content (apply : NodeMirrorApplier N) selected :
  D [id] (pending_statuses id servers ;;
    saved ← tried (UpdateNodeRegistryMirror (set_mirror_apply None "applying" "" selected));
    match saved with
    | Err e => step_or (finishApply id) Datatypes.id ;; refuse (EWrap "保存应用任务状态失败: " e "")
    | Ok _ =>
        at_ ← step_or now Datatypes.id;
        answer ← tried (GetNodeRegistryMirror id);
        runApply (Some (at_ + nodeRegistryMirrorApplyTimeout)%Z) id servers content apply ;;
        Finished (sanitizeMirror <$> answer)
    end) freed.
Proof.
  eapply disciplined_bind; [apply D_pending| |by intros e ks ->]. intros u ks ->.
  apply neutral_tried; [apply lock_statement|]. intros [u'|e]; [|apply D_give_up].
  intros w _. exists [id]. split; [by apply lock_now|]. apply neutral_tried; [apply lock_statement|]. intros answer.
  eapply disciplined_bind; [apply D_runApply| |by intros e ks [? ->]]. by intros v ks [_ ->].
Qed.
Lemma D_StartApply ctx id serverIDs apply : D [] (StartApply encKey ctx id serverIDs apply) freed.
Proof.
  assert (∀ A e, freed (A := A) (Err e) []) as Herr by done.
  unfold StartApply. apply disciplined_idle; [auto with locks| |done]. intros selected.
  apply disciplined_idle; [auto with locks| |done]. intros ?. apply disciplined_idle; [auto with locks| |done]. intros ?.
  destruct apply as [apply|]; [|done]. apply disciplined_idle; [auto with locks| |done]. intros mirrors.
  apply disciplined_idle; [auto with locks| |done]. intros content. apply disciplined_idle; [auto with locks| |done]. intros all.
  apply disciplined_idle; [auto with locks| |done]. intros servers w _. unfold beginApply. case_decide as Hin; cbn [fst snd].
  - exists []. split; [by apply lock_kept|done].
  - exists [id]. split; [by apply lock_taken|]. exact (D_task id servers content apply selected).
Qed.

Inductive mirror_call :=
  | CallMirrorList | CallMirrorCreate (body : option MirrorInput) | CallMirrorUpdate (id : string) (body : option MirrorInput)
  | CallMirrorDelete (id : string) | CallMirrorVerify (id : string) | CallMirrorApply (id : string) (body : option (list Z))
  | CallMirrorStatus (id : string).
Definition serve_mirror (call : mirror_call) : Handler unit :=
  match call with
  | CallMirrorList => answered_by Mirror_List
  | CallMirrorCreate body => answered_by (Mirror_Create encKey h c body)
  | CallMirrorUpdate id body => answered_by (Mirror_Update encKey h c id body)
  | CallMirrorDelete id => answered_by (Mirror_Delete h c id)
  | CallMirrorVerify id => answered_by (Mirror_Verify h c id)
  | CallMirrorApply id body => answered_by (Mirror_Apply encKey h c id body)
  | CallMirrorStatus id => answered_by (Mirror_ApplyStatus id)
  end.
Lemma idle_serve call : (∀ id body, call ≠ CallMirrorApply id body) → idle (serve_mirror call).
Proof.
  intros Hcall. destruct call as [|body|id body|id|id|id body|id]; cbn [serve_mirror]; unfold answered_by;
    [| | | | |by destruct (Hcall id body)|]; (apply idle_bind; [|auto with locks]).
  - apply idle_reporting, idle_List.
  - apply idle_bind; [auto with locks|]. intros input. apply idle_bind; [apply idle_reporting, idle_Create|]. intros m. apply idle_bind; auto with locks.
  - apply idle_bind; [auto with locks|]. intros id'. apply idle_bind; [auto with locks|]. intros input.
    apply idle_bind; [apply idle_reporting, idle_Update|]. intros m. apply idle_bind; auto with locks.
  - apply idle_bind; [auto with locks|]. intros id'. apply idle_bind; [apply idle_tried, lock_statement|]. intros found.
    apply idle_bind; [apply idle_reporting, idle_Delete|]. intros m. apply idle_bind; auto with locks.
  - apply idle_bind; [auto with locks|]. intros id'. apply idle_bind; [apply idle_outcome, idle_Verify|]. intros [m|e].
    + apply idle_bind; [destruct (bool_decide _); auto with locks|intros ?; auto with locks].
    + apply idle_bind; [auto with locks|intros ?; auto with locks].
  - apply idle_bind; [auto with locks|]. intros id'. apply idle_reporting, idle_Get.
Qed.
Lemma D_serve_mirror call : D [] (serve_mirror call) freed.
Proof.
  destruct (match call with CallMirrorApply _ _ => true | _ => false end) eqn:Hcall.
  2: { eapply disciplined_weaken; [apply idle_serve; by intros id body ->|by intros r ks ->]. }
  destruct call as [| | | | |id body|]; try done. cbn [serve_mirror]. unfold answered_by, Mirror_Apply.
  assert (∀ A e, freed (A := A) (Err e) []) as Herr by done.
  eapply (disciplined_bind _ _ _ _ _ freed); [|by intros a ks ->|by intros e ks ->].
  apply disciplined_idle; [auto with locks| |done]. intros id'. apply disciplined_idle; [auto with locks| |done]. intros serverIDs.
  apply disciplined_idle; [auto with locks| |done]. intros ?.
  eapply (disciplined_bind _ _ _ _ _ freed); [apply disciplined_reporting, D_StartApply| |by intros e ks ->].
  intros mirror ks ->. apply disciplined_idle; [auto with locks|done|done].
Qed.

Definition unfinished {A} (p : Handler A) : Prop := match p with Step _ _ => True | Finished _ => False end.
Lemma freed_pool {A} (held : list (list Z)) (pool : list (Handler A)) :
  Forall2 (λ ks p, D ks p freed) held pool → Forall2 (λ ks p, unfinished p ∨ ks = []) held pool.
Proof. intros Hf. eapply Forall2_impl; [exact Hf|]. intros ks [r|B m rest] Hp; [by right|by left]. Qed.
Lemma none_held {A} (held : list (list Z)) (pool : list (Handler A)) :
  Forall2 (λ ks p, unfinished p ∨ ks = []) held pool → Forall (λ p, ¬ unfinished p) pool → concat held = [].
Proof. induction 1 as [|ks p held pool [Hp| ->] _ IH]; intros Hall; inversion_clear Hall; [done|done|by apply IH]. Qed.

(** C34: a mirror is applied by one task at a time, and never stays locked. After the start of the service, however the
    requests on mirrors are interleaved and whichever statements fail, the mirrors that are marked as being applied are exactly those
    that the requests hold, no mirror twice, and a request that is over holds none; so when all requests
    are over, no mirror is marked and each can be applied again. *)
Theorem mirror_locks_released (calls : list mirror_call) (schedule : list nat) (w : W) :
  let '(pool, w') := interleave schedule (serve_mirror <$> calls) (NewMirrorService w) in
  (∃ held : list (list Z), NoDup (concat held) ∧ (∀ id, id ∈ running w' ↔ id ∈ concat held) ∧
    Forall2 (λ ks p, unfinished p ∨ ks = []) held pool) ∧
  (Forall (λ p, ¬ unfinished p) pool → running w' = ∅).
Proof.
  pose proof (interleave_invariant any lock_trade lock_inv (λ _ _ _, I) lock_inv_perm lock_trade_frame freed schedule (serve_mirror <$> calls) (NewMirrorService w)) as Hrun.
  destruct (interleave schedule (serve_mirror <$> calls) (NewMirrorService w)) as [pool w']. destruct Hrun as (held & Hpool & Hn & Hr).
  { apply fresh_pool_ok; [rewrite Forall_fmap; apply Forall_true; intros call; apply D_serve_mirror|].
    split; [constructor|]. cbn [NewMirrorService running w_cluster set_cluster ap_running]. set_solver. }
  cbn [fst snd] in *. apply freed_pool in Hpool. split; [by exists held|]. intros Hall.
  rewrite (none_held _ _ Hpool Hall) in Hr. set_solver.
Qed.
End locks.

(** *** What a task does *)

Lemma cluster_server_Some servers id s :
  cluster_server servers id = Some s → s ∈ servers ∧ sv_ID s = id ∧ sv_ClusterRole s ≠ "".
Proof.
  intros [Hin Hid%bool_decide_eq_true]%find_first_Some.
  apply list_elem_of_In, in_rev, filter_In in Hin as [Hin Hrole]. split_and!; [by apply list_elem_of_In|done|].
  by destruct (sv_ClusterRole s).
Qed.
(** The chosen nodes: each once, all in the cluster, and exactly those that are asked for. *)
Lemma select_servers_Ok all seen ids servers :
  select_servers all seen ids = Ok servers →
  NoDup (sv_ID <$> servers) ∧ (∀ id, id ∈ sv_ID <$> servers ↔ id ∈ ids ∧ id ∉ seen) ∧
  Forall (λ s, s ∈ all ∧ sv_ClusterRole s ≠ "") servers.
Proof.
  revert seen servers. induction ids as [|id ids IH]; intros seen servers; cbn [select_servers].
  - intros [= <-]. split_and!; [constructor| |constructor]. intros id. split; [by intros ?%not_elem_of_nil|by intros [?%not_elem_of_nil _]].
  - case_decide as Hs.
    + intros (Hn & Hin & Hf)%IH. split_and!; try done. intros x. rewrite Hin, elem_of_cons. naive_solver.
    + destruct (cluster_server all id) as [s|] eqn:Hc; [|done]. intros (rest & (Hn & Hin & Hf)%IH & [= <-])%result_bind_Ok.
      apply cluster_server_Some in Hc as (Hall & Hid & Hrole). cbn [fmap list_fmap]. split_and!.
      * apply NoDup_cons. split; [|done]. rewrite Hin, Hid, elem_of_cons. naive_solver.
      * intros x. rewrite !elem_of_cons, Hin, elem_of_cons, Hid. split.
        -- intros [->|[? ?]]; [by split; [left|]|naive_solver].
        -- intros [[->|?] ?]; [by left|]. destruct (decide (x = id)) as [->|]; [by left|right]. naive_solver.
      * by constructor.
Qed.

Section task.
Context {N : Type} `{Surroundings} `{ImageNames} `{ImageReferences} `{MirrorLibrary} `{AesGcm} `{Entropy}.
#[local] Abbreviation W := (World (Applying N)).
#[local] Abbreviation Handler := (handler W).
Variable encKey : string.

(** The reference: the nodes one after the other, and what each answers. *)
Fixpoint roll_out (apply : NodeMirrorApplier N) (ctx : Context) (content : string) (servers : list Server) (n : N) : list string * N :=
  match servers with
  | [] => ([], n)
  | server :: servers =>
      let '((status, _), n) := apply ctx server content n in
      let '(statuses, n) := roll_out apply ctx content servers n in (status :: statuses, n)
  end.
Definition tally (status : string) (statuses : list string) : Z := Z.of_nat (length (List.filter (λ s, bool_decide (s = status)) statuses)).

Definition stored_mirror (w : W) (id : Z) : option NodeRegistryMirror := t_rows (tbl (w_db w)) !! id.
Definition nodes (w : W) : N := ap_nodes (w_cluster w).
(** The configuration that is stored. *)
Definition stored_content (db : DB) : result string :=
  RenderK3sRegistriesWithStoredCredentials (preload_statuses db <$> merge_sort latest_first (t_list (tbl db))) encKey.

Lemma query_keeps {A} (f : DB → result A) (w : W) r w' :
  query f w = (r, w') → w_db w' = w_db w ∧ w_cluster w' = w_cluster w ∧ (∀ a, r = Ok a → f (w_db w) = Ok a).
Proof. destruct (query_cases f w) as [(e & ->)|(a & Hf & ->)]; intros [= <- <-]; split_and!; try done; by intros b [= <-]. Qed.
(** A status of a node leaves the mirrors and the nodes alone. *)
Lemma tbl_put_statuses_mirrors (t : table NodeRegistryMirrorNode) db : tbl (A := NodeRegistryMirror) (put t db) = tbl db.
Proof. by destruct db. Qed.
Lemma upsert_aside status (w : W) r w' :
  UpsertNodeRegistryMirrorStatus status w = (r, w') → w_cluster w' = w_cluster w ∧ ∀ id, stored_mirror w' id = stored_mirror w id.
Proof.
  unfold UpsertNodeRegistryMirrorStatus, stored_mirror. match goal with |- context [statement ?f w] => destruct (statement_cases f w) as [(e & ->)|(a & db & Hf & ->)] end;
    intros [= <- <-]; [done|]. split; [done|]. intros id. cbn [w_db set_db].
  destruct (first_row _) as [found|].
  - injection Hf as _ <-. by rewrite tbl_put_statuses_mirrors.
  - destruct (t_create _ _) as [p|]; [|done]. injection Hf as _ <-. by rewrite tbl_put_statuses_mirrors.
Qed.
(** A mirror is written to its row. *)
Lemma restore_aside statuses (t : table NodeRegistryMirrorNode) t' db :
  restore_statuses statuses t = Ok t' → tbl (A := NodeRegistryMirror) (put t' db) = tbl db.
Proof. intros _. apply tbl_put_statuses_mirrors. Qed.
Lemma update_stored_mirror m (w : W) r w' :
  UpdateNodeRegistryMirror m w = (r, w') →
  w_cluster w' = w_cluster w ∧
  match r with
  | Ok _ => stored_mirror w' (nm_ID m) = Some (set_statuses [] m)
  | Err _ => ∀ id, stored_mirror w' id = stored_mirror w id
  end.
Proof.
  unfold UpdateNodeRegistryMirror, stored_mirror. match goal with |- context [statement ?f w] => destruct (statement_cases f w) as [(e & ->)|(a & db & Hf & ->)] end;
    intros [= <- <-]; [done|]. split; [done|].
  apply result_bind_Ok in Hf as (t & Ht & (ts & Hts & Hx)%result_bind_Ok). injection Hx as _ <-.
  cbn [w_db set_db]. rewrite tbl_put_statuses_mirrors, tbl_put.
  unfold t_save in Ht. destruct (clashes _ _ _); [done|]. injection Ht as <-. cbn [t_rows].
  destruct m. apply lookup_insert_eq.
Qed.

Lemma roll_out_length apply ctx content servers n : length (roll_out apply ctx content servers n).1 = length servers.
Proof.
  revert n. induction servers as [|server servers IH]; intros n; [done|]. cbn [roll_out].
  destruct (apply ctx server content n) as [[status detail] n']. specialize (IH n').
  destruct (roll_out apply ctx content servers n') as [statuses n2]. cbn in *. by rewrite IH.
Qed.
Lemma succeeded_tally statuses : (tally "success" statuses = Z.of_nat (length statuses) ↔ Forall (.= "success") statuses)%Z.
Proof.
  unfold tally. split.
  - intros Hl%Nat2Z.inj. apply Forall_forall. intros s Hs. apply filter_length_forallb in Hl.
    rewrite List.forallb_forall in Hl. apply (bool_decide_eq_true (s = "success")), Hl, list_elem_of_In, Hs.
  - intros Hall. rewrite List.forallb_filter_id; [done|]. apply forallb_forall. intros s Hs%list_elem_of_In.
    rewrite Forall_forall in Hall. by apply bool_decide_eq_true, Hall.
Qed.
Lemma tally_cons status s statuses :
  tally status (s :: statuses) = ((if decide (s = status) then 1 else 0) + tally status statuses)%Z.
Proof. unfold tally. cbn [List.filter]. case_bool_decide; case_decide; cbn [length]; try done. lia. Qed.
Lemma failed_tally statuses : Forall (.= "success") statuses → tally "failed" statuses = 0%Z.
Proof. induction 1 as [|s statuses -> _ IH]; [done|]. by rewrite tally_cons, IH. Qed.

Lemma alone_apply_servers ctx id content apply servers good bad (w : W) :
  ∃ w', alone (apply_servers ctx id content apply good bad servers) w =
      (Ok (good + tally "success" (roll_out apply ctx content servers (nodes w)).1, bad + tally "failed" (roll_out apply ctx content servers (nodes w)).1)%Z, w') ∧
    w_cluster w' = {| ap_running := ap_running (w_cluster w); ap_nodes := (roll_out apply ctx content servers (nodes w)).2 |} ∧
    ∀ i, stored_mirror w' i = stored_mirror w i.
Proof.
  revert good bad w. induction servers as [|server servers IH]; intros good bad w.
  - exists w. cbn [apply_servers roll_out fst snd alone]. unfold tally. cbn [List.filter length]. rewrite !Z.add_0_r. split_and!; try done.
    unfold nodes. by destruct (w_cluster w).
  - cbn [apply_servers roll_out]. rewrite alone_ignored.
    destruct (UpsertNodeRegistryMirrorStatus _ w) as [r1 w1] eqn:Hu. apply upsert_aside in Hu as [Hc1 Hm1]. cbn [snd].
    rewrite alone_step. unfold on_nodes. rewrite Hc1. fold (nodes w).
    destruct (apply ctx server content (nodes w)) as [[status detail] n]. rewrite alone_step. cbn [now fst snd]. rewrite alone_ignored.
    match goal with |- context [UpsertNodeRegistryMirrorStatus ?st ?w0] =>
      destruct (UpsertNodeRegistryMirrorStatus st w0) as [r2 w2] eqn:Hu; apply upsert_aside in Hu as [Hc2 Hm2] end. cbn [snd].
    edestruct IH as (w3 & -> & Hc3 & Hm3). exists w3. assert (nodes w2 = n) as Hn by (unfold nodes; by rewrite Hc2).
    rewrite Hn in *. destruct (roll_out apply ctx content servers n) as [statuses n']. cbn [fst snd] in *. rewrite !tally_cons. split_and!.
    + do 3 f_equal; lia.
    + rewrite Hc3, Hc2. done.
    + intros i. rewrite Hm3, Hm2. apply Hm1.
Qed.

(** The row of the mirror after its task. *)
Definition task_over (w : W) (id : Z) (statuses : list string) : Prop :=
  ∃ m, stored_mirror w id = Some m ∧
    ((nm_LastApplyStatus m = "applying" ∧ nm_LastAppliedAt m = None) ∨
     (nm_LastApplyStatus m = "succeeded" ∧ Forall (.= "success") statuses) ∨
     (nm_LastApplyStatus m = "failed" ∧ ¬ Forall (.= "success") statuses)).
Lemma get_mirror id (w : W) r w' :
  GetNodeRegistryMirror id w = (r, w') →
  w_db w' = w_db w ∧ w_cluster w' = w_cluster w ∧ ∀ m, r = Ok m → nm_ID m = id.
Proof.
  intros (Hdb & Hc & Hr)%query_keeps. split_and!; try done. intros m Hm.
  apply Hr, result_bind_Ok in Hm as (m0 & [Hid%bool_decide_eq_true _]%first_row_select & Hm). injection Hm as <-. by destruct m0.
Qed.
Lemma set_statuses_apply m : nm_LastApplyStatus (set_statuses [] m) = nm_LastApplyStatus m ∧ nm_LastAppliedAt (set_statuses [] m) = nm_LastAppliedAt m.
Proof. by destruct m. Qed.
Lemma applied_status at_ (servers : list Server) statuses m :
  length statuses = length servers →
  let m' := applied_mirror at_ (Z.of_nat (length servers)) (0 + tally "success" statuses) (0 + tally "failed" statuses) m in
  (nm_LastApplyStatus m' = "succeeded" ∧ Forall (.= "success") statuses) ∨
  (nm_LastApplyStatus m' = "failed" ∧ ¬ Forall (.= "success") statuses).
Proof.
  intros Hlen m'. unfold m', applied_mirror. rewrite <-Hlen, !Z.add_0_l. destruct (decide (Forall (.= "success") statuses)) as [Hall|Hnot].
  - left. rewrite (proj2 (succeeded_tally statuses) Hall), (failed_tally _ Hall), !bool_decide_true by done. by destruct m.
  - right. rewrite (bool_decide_false (tally "success" statuses = _)) by by rewrite succeeded_tally. rewrite andb_false_r. by destruct m.
Qed.
Lemma alone_runApply ctx id servers content apply (w : W) m :
  stored_mirror w id = Some m → nm_LastApplyStatus m = "applying" → nm_LastAppliedAt m = None →
  let '(statuses, n) := roll_out apply ctx content servers (nodes w) in
  ∃ w', alone (runApply ctx id servers content apply) w = (Ok tt, w') ∧
    w_cluster w' = {| ap_running := ap_running (w_cluster w) ∖ {[id]}; ap_nodes := n |} ∧ task_over w' id statuses.
Proof.
  intros Hrow Hst Hat. unfold runApply. rewrite alone_bind. unfold mbind at 1, M_bind.
  destruct (alone_apply_servers ctx id content apply servers 0 0 w) as (w1 & -> & Hc1 & Hm1).
  pose proof (roll_out_length apply ctx content servers (nodes w)) as Hlen.
  destruct (roll_out apply ctx content servers (nodes w)) as [statuses n]. cbn [fst snd] in *.
  rewrite alone_step. cbn [now]. rewrite alone_tried.
  destruct (GetNodeRegistryMirror id (tick w1)) as [found w2] eqn:Hg. apply get_mirror in Hg as (Hdb & Hc2 & Hid). cbn [fst snd tick w_db w_cluster] in *.
  assert (stored_mirror w2 id = Some m) as Hrow2 by (unfold stored_mirror in *; by rewrite Hdb, <-Hrow, <-Hm1).
  destruct found as [mirror|e]; cbv beta iota.
  - rewrite alone_ignored. set (m' := applied_mirror _ _ _ _ _). destruct (UpdateNodeRegistryMirror m' w2) as [r w3] eqn:Hu.
    apply update_stored_mirror in Hu as [Hc3 Hm3]. cbn [snd]. rewrite alone_last. unfold finishApply. cbn [fst snd map_err].
    eexists. split; [done|]. split; [cbn [w_cluster set_cluster]; by rewrite Hc3, Hc2, Hc1|].
    assert (nm_ID m' = id) as Hid' by by rewrite <-(Hid mirror eq_refl); unfold m', applied_mirror; destruct mirror, (_ && _).
    destruct r as [u|e].
    + rewrite Hid' in Hm3. eexists. split; [exact Hm3|]. right. rewrite (proj1 (set_statuses_apply m')). by apply applied_status.
    + exists m. split; [by rewrite <-Hrow2; apply Hm3|]. by left.
  - rewrite alone_mret, alone_last. eexists. split; [done|]. split; [cbn [finishApply snd w_cluster set_cluster]; by rewrite Hc2, Hc1|].
    exists m. split; [done|]. by left.
Qed.

Definition released (id : Z) (s : Applying N) : Applying N := {| ap_running := ap_running s ∖ {[id]}; ap_nodes := ap_nodes s |}.
Lemma alone_pending id servers (w : W) :
  let '(r, w') := alone (pending_statuses id servers) w in
  w_cluster w' = (if is_ok r then w_cluster w else released id (w_cluster w)) ∧ ∀ i, stored_mirror w' i = stored_mirror w i.
Proof.
  revert w. induction servers as [|server servers IH]; intros w; [done|]. cbn [pending_statuses]. rewrite alone_tried.
  destruct (UpsertNodeRegistryMirrorStatus _ w) as [r1 w1] eqn:Hu. apply upsert_aside in Hu as [Hc1 Hm1]. cbn [fst snd].
  destruct r1 as [u|e]; cbv beta iota.
  - specialize (IH w1). destruct (alone _ w1) as [r w']. rewrite Hc1 in IH. split; [apply IH|]. intros i. rewrite <-Hm1. apply IH.
  - rewrite alone_step. cbn [finishApply alone refuse]. split; [cbn [is_ok w_cluster set_cluster]; by rewrite Hc1|exact Hm1].
Qed.
(** The task, once the mirror is marked. *)
Lemma alone_task id servers content (apply : NodeMirrorApplier N) selected (w : W) :
  nm_ID selected = id →
  let '(r, w') := alone (pending_statuses id servers ;;
    saved ← tried (UpdateNodeRegistryMirror (set_mirror_apply None "applying" "" selected));
    match saved with
    | Err e => step_or (finishApply id) Datatypes.id ;; refuse (EWrap "保存应用任务状态失败: " e "")
    | Ok _ =>
        at_ ← step_or now Datatypes.id;
        answer ← tried (GetNodeRegistryMirror id);
        runApply (Some (at_ + nodeRegistryMirrorApplyTimeout)%Z) id servers content apply ;;
        Finished (sanitizeMirror <$> answer)
    end) w in
  (is_ok r = false ∧ w_cluster w' = released id (w_cluster w)) ∨
  ∃ deadline, let '(statuses, n) := roll_out apply deadline content servers (nodes w) in
    w_cluster w' = released id {| ap_running := ap_running (w_cluster w); ap_nodes := n |} ∧ task_over w' id statuses.
Proof.
  intros Hsel. rewrite alone_bind. unfold mbind at 1, M_bind. pose proof (alone_pending id servers w) as Hp.
  destruct (alone (pending_statuses id servers) w) as [[u|e] w1]; destruct Hp as [Hc1 Hm1]; cbn [is_ok] in Hc1; [|by left].
  rewrite alone_tried. destruct (UpdateNodeRegistryMirror _ w1) as [r w2] eqn:Hu. apply update_stored_mirror in Hu as [Hc2 Hm2]. cbn [fst snd].
  destruct r as [u'|e]; cbv beta iota; [|rewrite alone_step; cbn [finishApply alone refuse]; left; split; [done|]; cbn [w_cluster set_cluster]; by rewrite Hc2, Hc1].
  rewrite alone_step. cbn [now]. rewrite alone_tried.
  destruct (GetNodeRegistryMirror id (tick w2)) as [answer w3] eqn:Hg. apply get_mirror in Hg as (Hdb & Hc3 & _). cbn [fst snd tick w_db w_cluster] in *.
  set (applying := set_mirror_apply None "applying" "" selected) in *.
  assert (nm_ID applying = id) as Hid by by rewrite <-Hsel; unfold applying; destruct selected.
  rewrite Hid in Hm2. match goal with |- context [runApply ?d id servers content apply] => pose proof (alone_runApply d id servers content apply w3 (set_statuses [] applying)) as Hrun; set (deadline := d) in * end.
  assert (nodes w3 = nodes w) as Hn by by unfold nodes; rewrite Hc3, Hc2, Hc1. rewrite Hn in Hrun.
  destruct (roll_out _ _ content servers (nodes w)) as [statuses n] eqn:Hroll.
  destruct Hrun as (w4 & Hrun & Hc4 & Hover).
  { unfold stored_mirror in *. by rewrite Hdb. }
  { unfold applying. by destruct selected. }
  { unfold applying. by destruct selected. }
  rewrite alone_bind. unfold mbind, M_bind. rewrite Hrun. cbn [alone]. right. exists deadline. rewrite Hroll. split; [|done]. rewrite Hc4, Hc3, Hc2, Hc1. done.
Qed.

(** A reading step: when it fails, nothing has happened. *)
#[local] Ltac read_from m w Hdb Hc Hr :=
  let Hq := fresh in
  destruct m as [[?a|?e] w] eqn:Hq; apply query_keeps in Hq as (Hdb & Hc & Hr); [specialize (Hr _ eq_refl)|left; split; [done|congruence]].
#[local] Ltac read w Hdb Hc Hr :=
  rewrite alone_step;
  match goal with |- context [GetNodeRegistryMirror ?i ?w0] => read_from (GetNodeRegistryMirror i w0) w Hdb Hc Hr
  | |- context [ListNodeRegistryMirrors ?w0] => read_from (ListNodeRegistryMirrors w0) w Hdb Hc Hr
  | |- context [ListServers ?w0] => read_from (ListServers w0) w Hdb Hc Hr
  end.
End task.

(** ** Concrete runs *)

#[local] Existing Instances calm toy_cipher.
#[local] Instance mirror_references : ImageReferences := { ParseReference _ := Ok "docker.io" }.
#[local] Instance mirror_library : MirrorLibrary := {| NewRegistry _ := true; yaml_Marshal _ := Ok "mirrors:" |}.
#[local] Instance mirror_entropy : Entropy := λ n _, Some (dec (Z.of_nat n)).
#[local] Instance mirror_names : ImageNames := {|
  ParseImage _ := Err (EText "unused"); NewRepository _ _ := Err (EText "unused");
  ParseRequestURI _ := Ok {| url_Scheme := "https"; url_Host := "mirror.local"; url_Path := "" |}
|}.
#[local] Instance mirror_head : RemoteHead NodeLog := λ _ _ _ _ _ log, (None, log).
#[local] Instance mirror_shell : Shell := λ _ _ _, ("服务已重启: k3s.service", None).

Definition sample_mirror : NodeRegistryMirror :=
  {| nm_ID := 1; nm_Name := "hub"; nm_Registry := "docker.io"; nm_Endpoints := Some (JArr [JStr "https://mirror.local"]);
     nm_VerificationImage := "docker.io/library/busybox:1"; nm_LastVerifiedAt := None; nm_LastVerifyStatus := ""; nm_LastVerifyError := "";
     nm_LastAppliedAt := None; nm_LastApplyStatus := ""; nm_LastApplyError := ""; nm_Username := ""; nm_Credential := "";
     nm_InsecureSkipVerify := false; nm_Enabled := true; nm_CreatedBy := 1; nm_ManagedRegistryID := None; nm_CreatedAt := 1; nm_NodeStatuses := [] |}.
Definition mirror_server (id : Z) (name key : string) : Server :=
  {| sv_ID := id; sv_Name := name; sv_Host := name; sv_ClusterRole := "agent"; sv_K8sNodeName := name; sv_SSHAuthType := "key"; sv_SSHKey := key;
     sv_CreatedAt := id |}.
Definition mirror_world : World (Applying NodeLog) :=
  Build_World (put {| t_rows := {[1%Z := sample_mirror]}; t_next := 2 |}
    (put {| t_rows := list_to_map [(1%Z, mirror_server 1 "a" "key"); (2%Z, mirror_server 2 "b" "")]; t_next := 3 |} empty_db)) 0
    {| ap_running := ∅; ap_nodes := [] |} [].
Definition sample_handler : NodeRegistryMirrorHandler :=
  {| nmh_verifyConnection := verifyNodeRegistryMirrorConnection "keys"; nmh_applyNode := Some (NodeMirrorApplier_Apply true); nmh_audit := false |}.
Definition sample_browser : BrowserCall := {| br_Identity := {| id_UserID := 1; id_Username := "u" |}; br_RequestID := "r"; br_Context := None |}.
Definition mirror_run (schedule : list nat) (calls : list mirror_call) : World (Applying NodeLog) :=
  (interleave schedule (serve_mirror "keys" sample_handler sample_browser <$> calls) mirror_world).2.
Definition apply_state (w : World (Applying NodeLog)) : option (string * string) :=
  (λ m, (nm_LastApplyStatus m, nm_LastApplyError m)) <$> stored_mirror w 1.

(** Of two nodes one has no key: one command is run, and the mirror reads that one node was skipped. *)
Example mirror_applied_to_nodes :
  let w := mirror_run (replicate 60 0) [CallMirrorApply "1" (Some [1; 2; 1]%Z)] in
  length (ap_nodes (w_cluster w)) = 1 ∧ apply_state w = Some ("failed", apply_summary 2 1) ∧
  (mn_Status <$> t_list (tbl (A := NodeRegistryMirrorNode) (w_db w))) = ["success"; "skipped"].
Proof. split_and!; vm_compute; reflexivity. Qed.

(** The task reads the row and writes it back: a mirror that is deleted in between is there again. *)
Example deleted_mirror_restored :
  let schedule rest := replicate 14 0 ++ replicate 5 1 ++ replicate rest 0 in
  let calls := [CallMirrorApply "1" (Some [1%Z]); CallMirrorDelete "1"] in
  apply_state (mirror_run (schedule 0) calls) = None ∧ apply_state (mirror_run (schedule 5) calls) = Some ("succeeded", "").
Proof. split; vm_compute; reflexivity. Qed.

(** An update writes back the state of the task that it has read: after the task it reads as running for ever. *)
Definition sample_input : MirrorInput :=
  {| mi_Name := "hub"; mi_Registry := "docker.io"; mi_Endpoints := ["https://mirror.local"]; mi_VerificationImage := "";
     mi_Username := ""; mi_Credential := ""; mi_InsecureSkipVerify := false; mi_Enabled := None |}.
Example update_restores_running_state :
  let w := mirror_run (replicate 7 0 ++ [1] ++ replicate 14 0 ++ replicate 5 1)
    [CallMirrorApply "1" (Some [1%Z]); CallMirrorUpdate "1" (Some sample_input)] in
  apply_state w = Some ("applying", "") ∧ ap_running (w_cluster w) = ∅.
Proof. split; vm_compute; reflexivity. Qed.
