(* ===== verification/AlertAutomation.v ===== *)
(** * Alerts and their automation

    [internal/service/observability/alerting]: the webhook of Alertmanager, the stored alerts, the policy that
    decides which of them an agent runtime analyses, the analysis ([runtime_dispatcher.go], with the event
    stream of [internal/runtime/chat/sse.go]), silences and the recently resolved alerts, and the handlers of
    [internal/api/system/alerting_handler.go]. An analysis is a goroutine: the handler leaves it in a list
    of started tasks, and any number of programs [run_task] take them up. What is sent to the channels carries
    the notification; its rendering to a card or a mail is not modelled. *)
From Stdlib Require Import ZArith Ascii String Lia.
From stdpp Require Import base sorting pretty numbers gmap strings list.
From S2P Require Import Prelude GoStrings GoTime Json JsonText Interleaving Models PlatformModels Security NodeMaintenance RegistryNodes Cluster KubernetesApplier Store PlatformStore Api Tokens IntegrationSessions AgentRequests ReleaseExecution HandlerSteps.

(** ** Data *)

Record Alert := {
  alert_Fingerprint : string; alert_State : string; alert_Labels : option (gmap string string);
  alert_Annotations : option (gmap string string); alert_StartsAt : Z; alert_EndsAt : Z
}.
Record AlertNotification := { an_Status : string; an_Alerts : list Alert; an_PlatformURL : string }.
Definition set_state (state : string) (a : Alert) : Alert :=
  {| alert_Fingerprint := alert_Fingerprint a; alert_State := state; alert_Labels := alert_Labels a;
     alert_Annotations := alert_Annotations a; alert_StartsAt := alert_StartsAt a; alert_EndsAt := alert_EndsAt a |}.
Definition set_ends (ends : Z) (a : Alert) : Alert :=
  {| alert_Fingerprint := alert_Fingerprint a; alert_State := alert_State a; alert_Labels := alert_Labels a;
     alert_Annotations := alert_Annotations a; alert_StartsAt := alert_StartsAt a; alert_EndsAt := ends |}.
Definition alert_label (a : Alert) (key : string) : string := default "" (default ∅ (alert_Labels a) !! key).
(** [json.Marshal] of a map that may be nil *)
Definition labels_text (m : option (gmap string string)) : string :=
  print (match m with None => JNull | Some m => encode map_codec m end).

Definition IsFiring (a : Alert) : bool :=
  bool_decide (to_lower (trim_space (alert_State a)) ∈ ["active"; "firing"; "unprocessed"]).
Record Overview := { ov_Active : list Alert; ov_Resolved : list Alert; ov_Firing : Z; ov_Silenced : Z }.
Definition overview_step (o : Overview) (a : Alert) : Overview :=
  if decide (alert_State a = "resolved")
  then {| ov_Active := ov_Active o; ov_Resolved := ov_Resolved o ++ [a]; ov_Firing := ov_Firing o; ov_Silenced := ov_Silenced o |}
  else if decide (alert_State a = "suppressed")
  then {| ov_Active := ov_Active o ++ [a]; ov_Resolved := ov_Resolved o; ov_Firing := ov_Firing o; ov_Silenced := ov_Silenced o + 1 |}
  else {| ov_Active := ov_Active o ++ [a]; ov_Resolved := ov_Resolved o;
          ov_Firing := ov_Firing o + (if IsFiring a then 1 else 0); ov_Silenced := ov_Silenced o |}.
Definition BuildOverview (alerts recent : list Alert) : Overview :=
  let o := foldl overview_step {| ov_Active := []; ov_Resolved := []; ov_Firing := 0; ov_Silenced := 0 |} alerts in
  {| ov_Active := ov_Active o; ov_Resolved := take 12 (recent ++ take 12 (ov_Resolved o)); ov_Firing := ov_Firing o; ov_Silenced := ov_Silenced o |}.

(** ** The policy: [automation.go] *)

Definition severityRank (value : string) : Z :=
  let value := to_lower (trim_space value) in
  if decide (value = "critical") then 2 else if decide (value = "warning") then 1 else 0.
Definition ValidPolicy (p : AlertAutomationPolicy) : bool :=
  if bool_decide (128 < String.length (pol_AlertName p)) || bool_decide (pol_CooldownMinutes p < 5)%Z
     || bool_decide (24 * 60 < pol_CooldownMinutes p)%Z then false else
  if bool_decide (pol_Mode p ≠ AlertAutomationReportOnly) && bool_decide (pol_Mode p ≠ AlertAutomationApproval) then false else
  bool_decide (pol_MinimumSeverity p = "warning") || bool_decide (pol_MinimumSeverity p = "critical").
Definition ValidatePolicy (p : AlertAutomationPolicy) : bool :=
  bool_decide (String.length (pol_AlertName p) ≤ 128) && bool_decide (5 ≤ pol_CooldownMinutes p)%Z
  && bool_decide (pol_CooldownMinutes p ≤ 24 * 60)%Z && ValidPolicy p.
Definition Matches (p : AlertAutomationPolicy) (e : AlertEvent) : bool :=
  if negb (pol_Enabled p) || (bool_decide (pol_AlertName p ≠ "") && bool_decide (pol_AlertName p ≠ al_AlertName e)) then false
  else bool_decide (severityRank (pol_MinimumSeverity p) ≤ severityRank (al_Severity e))%Z.
Definition ShouldDispatch (p : AlertAutomationPolicy) (e : AlertEvent) (force : bool) (at_ : Z) : bool :=
  if negb (Matches p e) || bool_decide (al_Status e = AlertEventAwaitingApproval) || bool_decide (al_Status e = AlertEventRemediating)
  then false else
  if force then true else
  match al_LastDispatchedAt e with
  | None => true
  | Some last => bool_decide (pol_CooldownMinutes p * minute ≤ at_ - last)%Z
  end.

(** ** The event stream of a runtime: [sse.go] *)

Definition delta_codec : Codec string.
Proof.
  refine {| zero := ""; encode content := JObj (member string_codec "content" content); valid _ := True;
    decode cur j := match j with JObj ms => get string_codec "content" cur ms | JNull => Some cur | _ => None end |}.
  intros content _. done.
Defined.
Definition choice_codec : Codec string.
Proof.
  refine {| zero := ""; encode content := JObj (member delta_codec "delta" content); valid _ := True;
    decode cur j := match j with JObj ms => get delta_codec "delta" cur ms | JNull => Some cur | _ => None end |}.
  intros content _. done.
Defined.
Definition error_codec : Codec (option string).
Proof.
  refine {| zero := None; encode e := match e with None => JNull | Some message => JObj (member string_codec "message" message) end; valid _ := True;
    decode cur j := match j with JNull => Some None | JObj ms => Some <$> get string_codec "message" (default "" cur) ms | _ => None end |}.
  by intros [message|] _.
Defined.
Definition decode_chunk (j : json) : option (list string * option string) :=
  match j with
  | JNull => Some ([], None)
  | JObj ms =>
      choices ← get (list_codec choice_codec) "choices" [] ms;
      error ← get error_codec "error" None ms; Some (choices, error)
  | _ => None
  end.
(** [None] is an error, of the chunk or of its text. *)
Definition upstreamDelta (payload : string) : option string :=
  chunk ← parse payload ≫= decode_chunk;
  match chunk with
  | (_, Some _) => None
  | (content :: _, None) => Some content
  | ([], None) => Some ""
  end.

(** The message of an error event is not read by anyone here. *)
Inductive ChatEvent := EventDelta (content : string) | EventError | EventDone.
Definition dataPrefix : string := "data:".
Definition line_feed : ascii := "010".
Definition drop_cr (line : string) : string := trim_suffix line (String "013" "").
Definition ErrTooLong : goerr := ESent "bufio.ErrTooLong" "bufio.Scanner: token too long".
Definition max_line : Z := 1024 * 1024.
(** The events of the lines, and the error the reader ends with; nothing is read after the end marker. *)
Fixpoint read_events (failure : option goerr) (lines : list string) : list ChatEvent * option goerr :=
  match lines with
  | [] => ([], failure)
  | line :: lines =>
      if bool_decide (max_line ≤ Z.of_nat (String.length line))%Z then ([], Some ErrTooLong) else
      let line := drop_cr line in
      let payload := trim_space (trim_prefix line dataPrefix) in
      if negb (String.prefix dataPrefix line) || empty_str payload then read_events failure lines else
      if decide (payload = "[DONE]") then ([EventDone], None) else
      let '(events, e) := read_events failure lines in
      match upstreamDelta payload with
      | None => (EventError :: events, e)
      | Some delta => (if empty_str delta then events else EventDelta delta :: events, e)
      end
  end.
(** The lines of a body: a last line that is empty is none. *)
Definition body_lines (body : string) : list string :=
  let lines := split_char line_feed body in
  if bool_decide (last lines = Some "") then removelast lines else lines.
Definition ForEachChatEvent (body : string) (failure : option goerr) : list ChatEvent * option goerr :=
  read_events failure (body_lines body).

Definition maxReport : Z := 24 * 1024.
Definition report_step (report : string) (event : ChatEvent) : string :=
  match event with
  | EventDelta content =>
      if bool_decide (Z.of_nat (String.length report) + Z.of_nat (String.length content) ≤ maxReport)%Z then report +:+ content else report
  | _ => report
  end.

(** ** The service *)

Definition RuntimeTypeNanobot : string := "nanobot".
Definition RuntimeStatusReady : string := "ready".
Definition NanobotAPIPort : Z := 8900.
Definition NanobotSessionPort : Z := 18800.
Definition alertDispatchTimeout : Z := 2 * minute.

Record EmailConfig := {
  em_Enabled : bool; em_SMTPHost : string; em_SMTPPort : Z; em_Username : string; em_Password : string; em_From : string;
  em_To : string; em_TLSMode : string
}.
Definition no_email : EmailConfig :=
  {| em_Enabled := false; em_SMTPHost := ""; em_SMTPPort := 0; em_Username := ""; em_Password := ""; em_From := ""; em_To := ""; em_TLSMode := "" |}.
Record NotificationSecrets := { ns_FeishuWebhookURL : string; ns_RelayToken : string; ns_Email : EmailConfig }.
Definition Configured (s : NotificationSecrets) : bool := negb (empty_str (ns_FeishuWebhookURL s)) || em_Enabled (ns_Email s).
Record Matcher := { ma_Name : string; ma_Value : string; ma_IsRegex : bool; ma_IsEqual : bool }.
Record SilenceRequest := { sr_Matchers : list Matcher; sr_DurationMinutes : Z; sr_Comment : string }.
Record Silence := { si_Matchers : list Matcher; si_StartsAt : Z; si_EndsAt : Z; si_CreatedBy : string; si_Comment : string }.
(** A chat request: its address, its key and its body. *)
Record ChatRequest := { cq_URL : string; cq_APIKey : string; cq_Body : json }.
(** An answer: the status, the body as far as it can be read, and why it ends early. *)
Record ChatResponse := { ca_StatusCode : Z; ca_Body : string; ca_Failure : option goerr }.

(** What lies outside: [N] is its state. *)
Class Outside (N : Type) := {
  secret_data : Context → string → string → N → result (gmap string string) * N;
  alertmanager_ready : Context → N → bool * N;
  alertmanager_alerts : Context → N → result (list Alert) * N;
  alertmanager_silence : Context → Silence → N → result string * N;
  alertmanager_unsilence : Context → string → N → option goerr * N;
  send_feishu : Context → string → AlertNotification → N → option goerr * N;
  send_email : Context → EmailConfig → AlertNotification → N → option goerr * N;
  http_NewRequest : string → option goerr;
  http_Do : Context → ChatRequest → N → result ChatResponse * N
}.

(** The memory of the service: the analyses that were started and the alerts that were resolved last. *)
Record Alerting (N : Type) := { am_tasks : list (Context * AlertEvent); am_resolved : list Alert; am_outside : N }.
Arguments Build_Alerting {N} _ _ _.
Arguments am_tasks {N} _.
Arguments am_resolved {N} _.
Arguments am_outside {N} _.

Section service.
Context {N : Type} `{!Outside N} `{Surroundings} `{AesGcm} `{Digests} `{URLs}.
#[local] Abbreviation W := (World (Alerting N)).
#[local] Abbreviation Handler := (handler W).

Definition on_outside {A} (f : N → A * N) : M W A := λ w,
  let '(a, n) := f (am_outside (w_cluster w)) in
  (Ok a, set_cluster (Build_Alerting (am_tasks (w_cluster w)) (am_resolved (w_cluster w)) n) w).
(** [go dispatcher.Dispatch(ctx, event)] *)
Definition start_task (ctx : Context) (event : AlertEvent) : M W unit := λ w,
  (Ok tt, set_cluster (Build_Alerting (am_tasks (w_cluster w) ++ [(ctx, event)]) (am_resolved (w_cluster w)) (am_outside (w_cluster w))) w).

(** *** Notifications *)

Definition EventFromAlert (a : Alert) (resolved : bool) : Handler AlertEvent :=
  let name := trim_space (alert_label a "alertname") in
  let name := if empty_str name then "unnamed-alert" else name in
  let fingerprint := trim_space (alert_Fingerprint a) in
  let fingerprint := if empty_str fingerprint
    then hex_text (sha256 (name +:+ ("|" +:+ (alert_label a "node" +:+ ("|" +:+ (alert_label a "mountpoint" +:+ ("|" +:+ rfc3339_nano (alert_StartsAt a))))))))
    else fingerprint in
  starts ← (if decide (alert_StartsAt a = time_zero) then step_or now id else mret (alert_StartsAt a));
  let over := resolved || bool_decide (alert_State a = "resolved") in
  ends ← (if negb over then mret None else
          at_ ← (if decide (alert_EndsAt a = time_zero) then step_or now id else mret (alert_EndsAt a)); mret (Some at_));
  mret {| al_ID := 0; al_Fingerprint := fingerprint; al_AlertName := name; al_Severity := to_lower (trim_space (alert_label a "severity"));
          al_NodeName := trim_space (alert_label a "node"); al_MountPoint := trim_space (alert_label a "mountpoint");
          al_Labels := labels_text (alert_Labels a); al_Annotations := labels_text (alert_Annotations a);
          al_Status := if over then AlertEventResolved else AlertEventFiring; al_RuntimeID := None; al_SessionID := ""; al_Report := "";
          al_DiagnosticSummary := ""; al_OperationID := ""; al_LastError := ""; al_StartsAt := starts; al_EndsAt := ends;
          al_LastDispatchedAt := None |}.
Fixpoint events_from (resolved : bool) (alerts : list Alert) : Handler (list AlertEvent) :=
  match alerts with
  | [] => mret []
  | a :: alerts => event ← EventFromAlert a resolved; events ← events_from resolved alerts; mret (event :: events)
  end.

Definition set_dispatched (status : string) (at_ : Z) (e : AlertEvent) : AlertEvent :=
  let '(Build_AlertEvent i f n s nn m l a _ r se re d o le sa ea _) := e in
  Build_AlertEvent i f n s nn m l a status r se re d o le sa ea (Some at_).
(** Whether an analysis of the stored event is started. *)
Definition due (policy : result AlertAutomationPolicy) (dispatcher force : bool) (at_ : Z) (e : AlertEvent) : bool :=
  match policy with
  | Err _ => false
  | Ok p => if negb dispatcher || bool_decide (al_Status e = AlertEventResolved) then false else ShouldDispatch p e force at_
  end.
Fixpoint persist_events (policy : result AlertAutomationPolicy) (dispatcher force : bool) (at_ dispatched : Z) (events : list AlertEvent) : Handler Z :=
  match events with
  | [] => mret dispatched
  | event :: events =>
      persisted ← step_or (UpsertAlertEvent event) id;
      if negb (due policy dispatcher force at_ persisted) then persist_events policy dispatcher force at_ dispatched events else
      let persisted := set_dispatched AlertEventAnalyzing at_ persisted in
      step_or (UpdateAlertEvent persisted) id ;;
      started ← step_or now id;
      step_or (start_task (Some (started + alertDispatchTimeout)%Z) persisted) id ;;
      persist_events policy dispatcher force at_ (dispatched + 1) events
  end.
Definition PersistAndDispatch (dispatcher : bool) (events : list AlertEvent) (force : bool) (at_ : Z) : Handler Z :=
  policy ← tried GetAlertAutomationPolicy;
  persist_events policy dispatcher force at_ 0 events.

(** What is wired: the store and dispatcher of the workflow, the automation service with its dispatcher, the
    client of Alertmanager, the check of its readiness, and the reader of secrets. *)
Record AlertingHandler := {
  alh_store : bool; alh_dispatcher : bool; alh_automation : option bool; alh_client : bool; alh_ready : bool; alh_secrets : bool;
  alh_limit : nat; alh_platformURL : string
}.
Variable h : AlertingHandler.

Definition EventWorkflow_Persist (payload : AlertNotification) (force : bool) : Handler Z :=
  events ← events_from (same_key "resolved" (an_Status payload)) (an_Alerts payload);
  match alh_automation h with
  | Some dispatcher => at_ ← step_or now id; PersistAndDispatch dispatcher events force at_
  | None =>
      if negb (alh_store h) then mret 0%Z else
      at_ ← step_or now id; PersistAndDispatch (alh_dispatcher h) events force at_
  end.
Definition EnsureReady (ctx : Context) : Handler unit :=
  refuse_if (negb (alh_client h)) (EText "Alertmanager 查询不可用") ;;
  if negb (alh_ready h) then mret tt else
  ready ← step_or (on_outside (alertmanager_ready ctx)) id;
  refuse_if (negb ready) (EText "Alertmanager 尚未就绪").
(** [QueryService.ensureReady], with the same client and the same check *)
Definition query_ready (ctx : Context) : Handler unit := EnsureReady ctx.
Definition SyncCurrent (ctx : Context) : Handler Z :=
  EnsureReady ctx ;;
  answer ← step_or (on_outside (alertmanager_alerts ctx)) id;
  alerts ← Finished (map_err (λ e, EWrap "读取 Alertmanager 活跃告警失败: " e "") answer);
  let firing := List.filter IsFiring alerts in
  if empty_list firing then mret 0%Z else
  EventWorkflow_Persist {| an_Status := "firing"; an_Alerts := firing; an_PlatformURL := "" |} true.
Definition UpdatePolicy (ctx : Context) (policy : AlertAutomationPolicy) : Handler Z :=
  refuse_if (bool_decide (alh_automation h = None)) (EText "告警自动化不可用") ;;
  refuse_if (negb (ValidPolicy policy) || bool_decide (pol_RuntimeID policy = 0%Z)) (EText "告警自动化策略无效") ;;
  let unsuitable := EText "必须选择已托管的 Nanobot Runtime" in
  runtime ← step_or (GetRuntime (pol_RuntimeID policy)) (λ _, unsuitable);
  refuse_if (bool_decide (rt_RuntimeType runtime ≠ RuntimeTypeNanobot) || bool_decide (rt_DeploymentMode runtime ≠ RuntimeDeploymentManaged)) unsuitable ;;
  step_or (SaveAlertAutomationPolicy policy) id ;;
  if negb (pol_Enabled policy) then mret 0%Z else SyncCurrent ctx.

(** *** The resolved alerts *)

Fixpoint remove_fingerprint (fingerprint : string) (alerts : list Alert) : list Alert :=
  match alerts with
  | [] => []
  | a :: alerts => if decide (fingerprint ≠ "" ∧ alert_Fingerprint a = fingerprint) then alerts else a :: remove_fingerprint fingerprint alerts
  end.
Definition cache_one (alerts : list Alert) (a : Alert) : list Alert :=
  if decide (alert_State a = "resolved") then a :: remove_fingerprint (alert_Fingerprint a) alerts else alerts.
Definition cache_limit (limit : nat) : nat := if decide (limit = 0) then 12 else limit.
Definition ResolvedCache_Add (limit : nat) (alerts cached : list Alert) : list Alert := take (cache_limit limit) (foldl cache_one cached alerts).
Definition remember (alerts : list Alert) : M W unit := λ w,
  (Ok tt, set_cluster (Build_Alerting (am_tasks (w_cluster w)) (ResolvedCache_Add (alh_limit h) alerts (am_resolved (w_cluster w))) (am_outside (w_cluster w))) w).
Fixpoint resolved_alerts (status : string) (alerts : list Alert) : Handler (list Alert) :=
  match alerts with
  | [] => mret []
  | a :: alerts =>
      if bool_decide (status ≠ "resolved") && bool_decide (alert_State a ≠ "resolved") then resolved_alerts status alerts else
      a ← (if decide (alert_EndsAt a = time_zero) then at_ ← step_or now id; mret (set_ends at_ a) else mret a);
      rest ← resolved_alerts status alerts; mret (set_state "resolved" a :: rest)
  end.
Definition RecordResolved (payload : AlertNotification) : Handler unit :=
  resolved ← resolved_alerts (an_Status payload) (an_Alerts payload); step_or (remember resolved) id.
Definition RecentResolved : Handler (list Alert) := step_or (λ w : W, (Ok (am_resolved (w_cluster w)), w)) id.

(** *** Channels *)

Definition unreadable_secrets : goerr := EText "读取告警通知配置失败".
Definition email_of (data : gmap string string) : result EmailConfig :=
  let field key := trim_space (default "" (data !! key)) in
  if empty_str (field "email-to") then Ok no_email else
  let port := parse_int (field "email-smtp-port") in
  let email := {| em_Enabled := true; em_SMTPHost := field "email-smtp-host"; em_SMTPPort := default 0%Z port; em_Username := field "email-username";
                  em_Password := default "" (data !! "email-password"); em_From := field "email-from"; em_To := field "email-to";
                  em_TLSMode := field "email-tls-mode" |} in
  if bool_decide (port = None) || empty_str (em_SMTPHost email) || bool_decide (em_SMTPPort email < 1)%Z || empty_str (em_From email) || empty_str (em_TLSMode email)
  then Err (EText "邮件通知配置无效") else Ok email.
Definition feishu_url_allowed (address : string) : bool :=
  match URL_Parse address with
  | None => false
  | Some u => bool_decide (URL_Scheme u = "https") && bool_decide (URL_Hostname u = "open.feishu.cn")
  end.
Definition secrets_of (data : gmap string string) : result NotificationSecrets :=
  let field key := trim_space (default "" (data !! key)) in
  if empty_str (field "relay-token") then Err (EText "告警回调令牌尚未配置") else
  if negb (empty_str (field "feishu-webhook-url")) && negb (feishu_url_allowed (field "feishu-webhook-url")) then Err (EText "飞书通知地址无效") else
  email ← email_of data;
  Ok {| ns_FeishuWebhookURL := field "feishu-webhook-url"; ns_RelayToken := field "relay-token"; ns_Email := email |}.
Definition LoadSecrets (ctx : Context) : Handler NotificationSecrets :=
  refuse_if (negb (alh_secrets h)) unreadable_secrets ;;
  answer ← step_or (on_outside (secret_data ctx "monitoring" "cylism-alerting-secret")) id;
  data ← Finished (map_err (λ _, unreadable_secrets) answer);
  Finished (secrets_of data).
Definition channel_failure (channel : string) (failure : option goerr) : list string :=
  match failure with Some e => [channel +:+ (": " +:+ err_text e)] | None => [] end.
Definition Send (ctx : Context) (secrets : NotificationSecrets) (payload : AlertNotification) : Handler unit :=
  feishu ← (if empty_str (ns_FeishuWebhookURL secrets) then mret None
            else step_or (on_outside (send_feishu ctx (ns_FeishuWebhookURL secrets) payload)) id);
  email ← (if negb (em_Enabled (ns_Email secrets)) then mret None
           else step_or (on_outside (send_email ctx (ns_Email secrets) payload)) id);
  let failures := channel_failure "飞书" feishu ++ channel_failure "邮件" email in
  refuse_if (negb (empty_list failures)) (EText (join "; " failures)).
Definition send_one (channel : string) (send : N → option goerr * N) : Handler unit :=
  failure ← step_or (on_outside send) id;
  match failure with Some e => refuse (EWrap (channel +:+ ": ") e "") | None => mret tt end.
Definition SendTest (ctx : Context) (secrets : NotificationSecrets) (payload : AlertNotification) (channel : string) : Handler unit :=
  if decide (channel = "feishu") then
    refuse_if (empty_str (ns_FeishuWebhookURL secrets)) (EText "飞书通知渠道尚未配置") ;;
    send_one "飞书" (send_feishu ctx (ns_FeishuWebhookURL secrets) payload)
  else if decide (channel = "email") then
    refuse_if (negb (em_Enabled (ns_Email secrets))) (EText "邮件通知渠道尚未配置") ;;
    send_one "邮件" (send_email ctx (ns_Email secrets) payload)
  else Send ctx secrets payload.
Definition ValidateRelayToken (header expected : string) : bool :=
  match fields header with
  | [scheme; token] => same_key "Bearer" scheme && negb (empty_str expected) && bool_decide (token = expected)
  | _ => false
  end.
Definition TestPayload (platformURL : string) (at_ : Z) : AlertNotification :=
  {| an_Status := "firing"; an_PlatformURL := platformURL;
     an_Alerts := [{| alert_Fingerprint := ""; alert_State := "firing";
       alert_Labels := Some (list_to_map [("alertname", "CylismAlertingTest"); ("node", "示例节点"); ("severity", "warning")]);
       alert_Annotations := Some (list_to_map [("summary", "测试消息使用真实告警的完整卡片布局"); ("description", "模拟节点根磁盘使用率超过阈值");
         ("rule_name", "节点根磁盘使用率过高（测试）"); ("current_value", "92.4%"); ("threshold", "85%"); ("duration", "10 分钟")]);
       alert_StartsAt := at_; alert_EndsAt := time_zero |}] |}.

(** *** Silences *)

Definition clean_matcher (m : Matcher) : Matcher :=
  {| ma_Name := trim_space (ma_Name m); ma_Value := trim_space (ma_Value m); ma_IsRegex := ma_IsRegex m; ma_IsEqual := true |}.
Definition ValidateSilence (r : SilenceRequest) : result (list Matcher) :=
  if empty_list (sr_Matchers r) || bool_decide (12 < length (sr_Matchers r)) || bool_decide (sr_DurationMinutes r < 1)%Z
     || bool_decide (7 * 24 * 60 < sr_DurationMinutes r)%Z
  then Err (EText "静默需包含匹配条件，且时长应在 1 分钟到 7 天之间") else
  let matchers := clean_matcher <$> sr_Matchers r in
  if existsb (λ m, empty_str (ma_Name m) || empty_str (ma_Value m)) matchers then Err (EText "静默匹配条件不能为空") else Ok matchers.
Definition CreateSilence (ctx : Context) (r : SilenceRequest) (at_ : Z) : Handler (string * Z) :=
  EnsureReady ctx ;;
  query_ready ctx ;;
  matchers ← Finished (ValidateSilence r);
  let ends := (at_ + sr_DurationMinutes r * minute)%Z in
  answer ← step_or (on_outside (alertmanager_silence ctx
    {| si_Matchers := matchers; si_StartsAt := at_; si_EndsAt := ends; si_CreatedBy := "cylism-manager"; si_Comment := trim_space (sr_Comment r) |})) id;
  id_ ← Finished answer; mret (id_, ends).
Definition DeleteSilence (ctx : Context) (id_ : string) : Handler unit :=
  EnsureReady ctx ;;
  query_ready ctx ;;
  let id_ := trim_space id_ in
  refuse_if (empty_str id_ || bool_decide (128 < String.length id_)) (EText "静默 ID 无效") ;;
  failure ← step_or (on_outside (alertmanager_unsilence ctx id_)) id;
  match failure with Some e => refuse e | None => mret tt end.

(** *** The analysis: [RuntimeDispatcher] *)

Variable encKey : string.

Definition truncate_bytes (value : string) (limit : nat) : string :=
  let value := trim_space value in
  if bool_decide (String.length value ≤ limit) then value else String.substring 0 limit value.
Definition set_failed (message : string) (e : AlertEvent) : AlertEvent :=
  let '(Build_AlertEvent i f n s nn m l a _ r se re d o _ sa ea ld) := e in
  Build_AlertEvent i f n s nn m l a AlertEventFailed r se re d o (truncate_bytes message 512) sa ea ld.
Definition fail (event : AlertEvent) (message : string) : Handler unit := ignored (UpdateAlertEvent (set_failed message event)).
Definition set_session (runtimeID at_ : Z) (session : string) (e : AlertEvent) : AlertEvent :=
  let '(Build_AlertEvent i f n s nn m l a st _ _ re d o le sa ea _) := e in
  Build_AlertEvent i f n s nn m l a st (Some runtimeID) session re d o le sa ea (Some at_).
Definition set_report (report : string) (e : AlertEvent) : AlertEvent :=
  let '(Build_AlertEvent i f n s nn m l a st r se _ d o le sa ea ld) := e in
  Build_AlertEvent i f n s nn m l a st r se report d o le sa ea ld.
Definition set_analysed (status summary : string) (e : AlertEvent) : AlertEvent :=
  let '(Build_AlertEvent i f n s nn m l a _ r se re _ o _ sa ea ld) := e in
  Build_AlertEvent i f n s nn m l a status r se re summary o "" sa ea ld.

(** [BuiltinRegistry]: the only adapter is that of nanobot. *)
Definition registered (runtimeType : string) : bool := bool_decide (trim_space runtimeType = RuntimeTypeNanobot).
Definition runtime_host (r : RuntimeInstance) (port : Z) : string :=
  "http://" +:+ (rt_Name r +:+ ("." +:+ (rt_Namespace r +:+ (".svc.cluster.local:" +:+ dec port)))).
Definition addressable (r : RuntimeInstance) : bool := negb (empty_str (trim_space (rt_Name r))) && negb (empty_str (trim_space (rt_Namespace r))).
Definition ChatEndpoint (r : RuntimeInstance) : result string :=
  if addressable r then Ok (runtime_host r NanobotAPIPort +:+ "/v1/chat/completions") else Err (EText "Runtime 缺少名称或命名空间").
Definition SessionEndpoint (r : RuntimeInstance) : result string :=
  if addressable r then Ok (runtime_host r NanobotSessionPort) else Err (EText "Runtime 缺少名称或命名空间").
Definition trim_right_slashes (s : string) : string := of_chars (reverse (trim_left_char "/" (reverse (chars s)))).
Definition chat_request (endpoint modelName apiKey sessionID message : string) : ChatRequest :=
  {| cq_URL := trim_right_slashes endpoint; cq_APIKey := apiKey;
     cq_Body := JObj ([("messages", JArr [JObj [("content", JStr message); ("role", JStr "user")]]); ("model", JStr modelName)] ++
       (if empty_str sessionID then [] else [("session_id", JStr sessionID)]) ++ [("stream", JBool true)]) |}.
Definition StreamChat (ctx : Context) (request : ChatRequest) : Handler (result ChatResponse) :=
  match http_NewRequest (cq_URL request) with
  | Some e => mret (Err (EWrap "构建聊天请求: " e ""))
  | None => step_or (on_outside (http_Do ctx request)) id
  end.

(** A back quote stands for the double quote. *)
Definition AutomationPrompt (event : AlertEvent) (mode : string) : string :=
  with_quotes "你正在处理 Cylism 的持久化告警事件 #" +:+ (dec (al_ID event) +:+ (
  with_quotes "。只能使用 cylism_platform 工具，禁止建议或尝试 shell、SSH、kubectl、网络请求、任意文件操作。

	工具调用契约：cylism_platform(operation=`alert_get`, alert_id=" +:+ (dec (al_ID event) +:+ (
  with_quotes ") 读取本事件；cylism_platform(operation=`alert_list`) 列出最近事件；cylism_platform(operation=`monitoring_disk_growth`, node=" +:+ (quote (al_NodeName event) +:+ (
  with_quotes ", range=`6h`) 查询增长趋势；必须调用 cylism_platform(operation=`maintenance_disk_inspect`, node=" +:+ (quote (al_NodeName event) +:+ (
  with_quotes ") 读取固定目录、journal 和文件系统占用，再判断是否适配清理配方。必要时才使用 operation=`node_get` 并传 name。alert_get/list 中的 automation_status（以及兼容字段 status）表示自动化生命周期，例如 analyzing、awaiting_approval，绝不能据此判断告警是否恢复；只有 alert_state 才表示真实告警状态。判断节点磁盘压力时，以 node_get 返回的 DiskPressure 条件为准，不要把 KubeletHasNoDiskPressure 指标作为节点条件。仅当 alert_state=`firing`、磁盘巡检证据与固定配方匹配时，才可在模式 " +:+ (quote mode +:+ (
  with_quotes " 下调用 cylism_platform(operation=`maintenance_cleanup_request`, alert_id=" +:+ (dec (al_ID event) +:+ (
  with_quotes ", recipe=`journal-vacuum`、`container-image-prune` 或 `docker-image-prune`)；journal 占用高才考虑 journal-vacuum，K3s/containerd 运行时目录或未使用镜像占用高才考虑 container-image-prune，/var/lib/docker（尤其 overlay2）占用高才考虑 docker-image-prune。Docker 配方只清理未使用镜像，不清理容器或卷；业务/PVC/未知数据一律只报告不清理。基于返回的事实生成简洁中文报告：影响、证据、风险、建议。不要声称已执行清理，任何清理都需要管理员审批。")))))))))))).

Definition missing_capability (runtimeID : Z) (capabilities : list string) : Handler bool :=
  (fix missing l := match l with
   | [] => mret false
   | capability :: l =>
       granted ← tried (HasAgentCapability runtimeID capability "");
       match granted with Ok true => missing l | _ => mret true end
   end) capabilities.
(** What the analysis writes when the runtime has answered. *)
Definition analysed (event : AlertEvent) : AlertEvent :=
  if negb (empty_str (al_OperationID event)) then set_analysed AlertEventAwaitingApproval "诊断完成，等待管理员审批固定清理配方" event
  else set_analysed AlertEventFiring "诊断报告已生成" event.
Definition read_report (event : AlertEvent) (response : ChatResponse) : Handler unit :=
  if bool_decide (ca_StatusCode response < 200)%Z || bool_decide (300 ≤ ca_StatusCode response)%Z then
    fail event ("告警自动化 Runtime 返回 HTTP " +:+ (dec (ca_StatusCode response) +:+ (": " +:+ trim_space (String.substring 0 1024 (ca_Body response)))))
  else
    let '(events, failure) := ForEachChatEvent (ca_Body response) (ca_Failure response) in
    match failure with
    | Some e => fail event ("读取告警自动化报告失败: " +:+ err_text e)
    | None =>
        let event := set_report (trim_space (foldl report_step "" events)) event in
        if empty_str (al_Report event) then fail event "告警自动化 Runtime 未生成报告" else ignored (UpdateAlertEvent (analysed event))
    end.
(** The one request of an analysis, and what is made of its answer. *)
Definition ask (ctx : Context) (event : AlertEvent) (runtimeID : Z) (request : AlertEvent → ChatRequest) : Handler unit :=
  at_ ← step_or now id;
  let session := "alert-" +:+ hex_text (String.substring 0 12 (sha256 (al_Fingerprint event))) in
  let event := set_session runtimeID at_ session event in
  ignored (UpdateAlertEvent event) ;;
  started ← step_or now id;
  response ← StreamChat (with_timeout ctx (90 * second) started) (request event);
  match response with
  | Err e => fail event ("连接告警自动化 Runtime 失败: " +:+ err_text e)
  | Ok response => read_report event response
  end.
Definition Dispatch (ctx : Context) (event : AlertEvent) : Handler unit :=
  found ← tried GetAlertAutomationPolicy;
  match found with
  | Err _ => mret tt
  | Ok policy =>
      if negb (pol_Enabled policy) || negb (Matches policy event) then mret tt else
      found ← tried (GetRuntime (pol_RuntimeID policy));
      let unready := fail event "告警自动化 Runtime 未就绪或未启用受控工具" in
      match found with
      | Err _ => unready
      | Ok runtime =>
          if bool_decide (rt_Status runtime ≠ RuntimeStatusReady) || bool_decide (rt_RuntimeType runtime ≠ RuntimeTypeNanobot)
             || negb (rt_AgentToolEnabled runtime) then unready else
          missing ← missing_capability (rt_ID runtime) [AgentCapabilityAlertRead; AgentCapabilityMonitoringRead; AgentCapabilityMaintenanceInspect];
          if (missing : bool) then fail event "告警自动化 Runtime 缺少只读诊断授权" else
          if negb (registered (rt_RuntimeType runtime)) then fail event "告警自动化 Runtime 类型不受支持" else
          match Decrypt encKey (rt_EncryptedRuntimeAPIKey runtime) with
          | Err _ => fail event "读取告警自动化 Runtime 凭据失败"
          | Ok apiKey =>
              if empty_str (trim_space apiKey) then fail event "读取告警自动化 Runtime 凭据失败" else
              match ChatEndpoint runtime, SessionEndpoint runtime with
              | Err _, _ => fail event "构建告警自动化 Runtime 端点失败"
              | _, Err _ => fail event "构建告警自动化会话端点失败"
              | Ok endpoint, Ok _ =>
                  ask ctx event (rt_ID runtime) (λ event,
                    chat_request endpoint (rt_ModelName runtime) apiKey (al_SessionID event) (AutomationPrompt event (pol_Mode policy)))
              end
          end
      end
  end.
(** The [n]-th analysis, once it is started. *)
Definition run_task (n : nat) : Handler unit :=
  task ← step_or (λ w : W, (Ok (am_tasks (w_cluster w) !! n), w)) id;
  match task with Some (ctx, event) => Dispatch ctx event | None => mret tt end.

(** ** The handlers *)

Definition Alerting_Notify (ctx : Context) (authorization : string) (body : option AlertNotification) : Handler bool :=
  let unauthorized := Unauthorized "告警回调未授权" in
  secrets ← reporting (λ _, unauthorized) (LoadSecrets ctx);
  refuse_if (negb (ValidateRelayToken authorization (ns_RelayToken secrets))) unauthorized ;;
  let malformed := BadRequest "告警回调载荷无效" in
  match body with
  | None => refuse malformed
  | Some sent =>
      let payload := {| an_Status := an_Status sent; an_Alerts := an_Alerts sent; an_PlatformURL := alh_platformURL h |} in
      refuse_if (empty_list (an_Alerts payload) || bool_decide (64 < length (an_Alerts payload))) malformed ;;
      reporting (λ _, DBError "持久化告警事件失败") (EventWorkflow_Persist payload false) ;;
      (if Configured secrets then reporting (λ e, K8sAPIError ("转发告警通知失败: " +:+ err_text e)) (Send ctx secrets payload) else mret tt) ;;
      RecordResolved payload ;;
      mret (Configured secrets)
  end.
Definition Alerting_AutomationPolicy : Handler (option AlertAutomationPolicy) :=
  if bool_decide (alh_automation h = None) then mret None else
  found ← tried GetAlertAutomationPolicy; mret (match found with Ok p => Some p | Err _ => None end).
Definition Alerting_UpdateAutomationPolicy (ctx : Context) (body : option AlertAutomationPolicy) : Handler Z :=
  let invalid := ValidationError "告警自动化策略无效" in
  match body with
  | None => refuse invalid
  | Some policy =>
      refuse_if (bool_decide (pol_RuntimeID policy = 0%Z) || negb (ValidatePolicy policy)) invalid ;;
      reporting (λ e, if contains (err_text e) "无效" || contains (err_text e) "必须选择" then ValidationError (err_text e) else InternalError (err_text e))
        (UpdatePolicy ctx policy)
  end.
Definition alertmanager_down (e : goerr) : goerr := Conflict (err_text e).
Definition Alerting_Overview (ctx : Context) : Handler Overview :=
  reporting alertmanager_down (EnsureReady ctx) ;;
  reporting (λ e, K8sAPIError ("读取 Alertmanager 告警失败: " +:+ err_text e))
    (EnsureReady ctx ;;
     recent ← RecentResolved;
     query_ready ctx ;;
     answer ← step_or (on_outside (alertmanager_alerts ctx)) id;
     alerts ← Finished answer; mret (BuildOverview alerts recent)).
Definition Alerting_CreateSilence (ctx : Context) (body : option SilenceRequest) : Handler (string * Z) :=
  reporting alertmanager_down (EnsureReady ctx) ;;
  match body with
  | None => refuse (BadRequest "静默配置无效")
  | Some r =>
      at_ ← step_or now id;
      reporting (λ e, if contains (err_text e) "静默需" || contains (err_text e) "静默匹配" then ValidationError (err_text e)
                      else K8sAPIError ("创建 Alertmanager 静默失败: " +:+ err_text e)) (CreateSilence ctx r at_)
  end.
Definition Alerting_DeleteSilence (ctx : Context) (param_id : string) : Handler string :=
  reporting alertmanager_down (EnsureReady ctx) ;;
  let id_ := trim_space param_id in
  refuse_if (empty_str id_ || bool_decide (128 < String.length id_)) (ValidationError "静默 ID 无效") ;;
  reporting (λ e, K8sAPIError ("删除 Alertmanager 静默失败: " +:+ err_text e)) (DeleteSilence ctx id_) ;;
  mret id_.
Definition Alerting_TestNotification (ctx : Context) (query_channel : string) : Handler string :=
  refuse_if (negb (alh_secrets h)) K8sUnavailable ;;
  let channel := to_lower (trim_space query_channel) in
  refuse_if (bool_decide (channel ≠ "") && bool_decide (channel ≠ "feishu") && bool_decide (channel ≠ "email"))
    (ValidationError "测试通知渠道必须为 feishu 或 email") ;;
  secrets ← reporting (λ e, ValidationError (err_text e)) (LoadSecrets ctx);
  at_ ← step_or now id;
  reporting (λ e, K8sAPIError ("发送测试通知失败: " +:+ err_text e)) (SendTest ctx secrets (TestPayload (alh_platformURL h) at_) channel) ;;
  mret (if decide (channel = "feishu") then "飞书测试通知已发送" else if decide (channel = "email") then "邮件测试通知已发送" else "测试通知已发送").
End service.

(** ** Properties *)

#[export] Instance alert_keyed : KeyedRow AlertEvent.
Proof. by intros id []. Qed.
#[export] Instance policy_keyed : KeyedRow AlertAutomationPolicy.
Proof. by intros id []. Qed.

(** *** What is stored and remembered *)

Definition alert_statuses : list string :=
  [AlertEventFiring; AlertEventAnalyzing; AlertEventAwaitingApproval; AlertEventRemediating; AlertEventResolved; AlertEventFailed].
Record alert_ok (e : AlertEvent) : Prop := {
  aok_fingerprint : al_Fingerprint e ≠ "";
  aok_status : al_Status e ∈ alert_statuses;
  aok_error : String.length (al_LastError e) ≤ 512;
  aok_report : (Z.of_nat (String.length (al_Report e)) ≤ maxReport)%Z;
  aok_approval : al_Status e = AlertEventAwaitingApproval → al_OperationID e ≠ ""
}.
Definition policy_ok (p : AlertAutomationPolicy) : Prop := ValidPolicy p = true ∧ pol_RuntimeID p ≠ 0%Z.
Definition cache_ok (limit : nat) (alerts : list Alert) : Prop :=
  length alerts ≤ cache_limit limit ∧ Forall (λ a, alert_State a = "resolved") alerts ∧
  NoDup (List.filter (λ f, negb (empty_str f)) (alert_Fingerprint <$> alerts)).
Record alerts_formed (db : DB) : Prop := {
  af_keyed : keyed (tbl (A := AlertEvent) db);
  af_rows i e : t_rows (tbl db) !! i = Some e → alert_ok e;
  af_unique i j e e' : t_rows (tbl db) !! i = Some e → t_rows (tbl db) !! j = Some e' → al_Fingerprint e = al_Fingerprint e' → i = j;
  af_policy_keyed : keyed (tbl (A := AlertAutomationPolicy) db);
  af_policies i p : t_rows (tbl db) !! i = Some p → policy_ok p;
  af_one_policy i j p q : t_rows (tbl (A := AlertAutomationPolicy) db) !! i = Some p → t_rows (tbl (A := AlertAutomationPolicy) db) !! j = Some q → i = j
}.
Definition alerting_ok {N} (limit : nat) (w : World (Alerting N)) : Prop :=
  alerts_formed (w_db w) ∧ cache_ok limit (am_resolved (w_cluster w)) ∧ Forall (λ t, alert_ok t.2) (am_tasks (w_cluster w)).

(** The cache. *)
Lemma remove_fingerprint_sublist f l : remove_fingerprint f l `sublist_of` l.
Proof. induction l as [|a l IH]; cbn [remove_fingerprint]; [done|]. case_decide; [by apply sublist_cons|by apply sublist_skip]. Qed.
Lemma filter_sublist {A} (test : A → bool) l k : l `sublist_of` k → List.filter test l `sublist_of` List.filter test k.
Proof.
  induction 1 as [|x l k _ IH|x l k _ IH]; cbn [List.filter]; [done| |]; destruct (test x); try done; [by apply sublist_skip|by apply sublist_cons].
Qed.
Lemma map_sublist {A B} (f : A → B) l k : l `sublist_of` k → f <$> l `sublist_of` f <$> k.
Proof. induction 1; cbn [fmap list_fmap]; [done|by apply sublist_skip|by apply sublist_cons]. Qed.
Lemma remove_fingerprint_gone f l :
  f ≠ "" → NoDup (List.filter (λ f, negb (empty_str f)) (alert_Fingerprint <$> l)) → f ∉ alert_Fingerprint <$> remove_fingerprint f l.
Proof.
  intros Hf. induction l as [|a l IH]; cbn [remove_fingerprint fmap list_fmap List.filter]; [intros _; apply not_elem_of_nil|].
  intros Hn. case_decide as Ha.
  - destruct Ha as [_ Ha]. assert (empty_str (alert_Fingerprint a) = false) as He by (apply bool_decide_eq_false; by rewrite Ha).
    rewrite He in Hn. cbn [negb] in Hn. apply NoDup_cons in Hn as [Hn _]. rewrite Ha in Hn. intros Hin. apply Hn.
    apply list_elem_of_In, filter_In. split; [by apply list_elem_of_In|]. unfold empty_str. by rewrite bool_decide_false.
  - cbn [fmap list_fmap]. rewrite not_elem_of_cons. split; [intros ->; by apply Ha|]. apply IH.
    destruct (negb _); [by apply NoDup_cons in Hn as [_ ?]|done].
Qed.
Lemma cache_one_ok alerts a :
  Forall (λ a, alert_State a = "resolved") alerts → NoDup (List.filter (λ f, negb (empty_str f)) (alert_Fingerprint <$> alerts)) →
  Forall (λ a, alert_State a = "resolved") (cache_one alerts a) ∧
  NoDup (List.filter (λ f, negb (empty_str f)) (alert_Fingerprint <$> cache_one alerts a)).
Proof.
  intros Hr Hn. unfold cache_one. case_decide as Ha; [|done].
  assert (remove_fingerprint (alert_Fingerprint a) alerts `sublist_of` alerts) as Hs by apply remove_fingerprint_sublist.
  split.
  - constructor; [done|]. rewrite Forall_forall in *. intros x Hx. by eapply Hr, elem_of_sublist.
  - cbn [fmap list_fmap List.filter]. assert (NoDup (List.filter (λ f, negb (empty_str f)) (alert_Fingerprint <$> remove_fingerprint (alert_Fingerprint a) alerts))) as Hn'.
    { eapply sublist_NoDup; [exact Hn|]. by apply filter_sublist, map_sublist. }
    destruct (negb (empty_str (alert_Fingerprint a))) eqn:He; [|done]. apply NoDup_cons. split; [|done].
    intros [Hin _]%list_elem_of_In%filter_In. apply list_elem_of_In in Hin. revert Hin. apply remove_fingerprint_gone; [|done].
    unfold empty_str in He. by destruct (bool_decide_reflect (alert_Fingerprint a = "")).
Qed.

Lemma cache_add_ok limit alerts cached : cache_ok limit cached → cache_ok limit (ResolvedCache_Add limit alerts cached).
Proof.
  intros (_ & Hr & Hn). unfold cache_ok, ResolvedCache_Add.
  assert (Forall (λ a, alert_State a = "resolved") (foldl cache_one cached alerts) ∧
    NoDup (List.filter (λ f, negb (empty_str f)) (alert_Fingerprint <$> foldl cache_one cached alerts))) as [Hr' Hn'].
  { revert cached Hr Hn. induction alerts as [|a alerts IH]; intros cached Hr Hn; [done|]. cbn [foldl].
    destruct (cache_one_ok cached a Hr Hn) as [Hr' Hn']. by apply IH. }
  pose proof (sublist_take (foldl cache_one cached alerts) (cache_limit limit)) as Hs. split_and!.
  - rewrite length_take. lia.
  - rewrite Forall_forall in *. intros x Hx. by eapply Hr', elem_of_sublist.
  - eapply sublist_NoDup; [exact Hn'|]. by apply filter_sublist, map_sublist.
Qed.

(** The rows. *)
Lemma saved_apart {A} `{Row A} (a : A) (t t' : table A) i x :
  t_save a t = Ok t' → t_rows t !! i = Some x → i ≠ row_id a → clash x a = false.
Proof.
  unfold t_save. destruct (clashes (row_id a) a t) eqn:Hc; [done|]. intros _ Hi Hne.
  apply not_true_iff_false. apply not_true_iff_false in Hc. intros Hx. apply Hc. unfold clashes. apply existsb_exists.
  exists (i, x). split; [by apply list_elem_of_In, elem_of_map_to_list|]. apply andb_true_iff. split; [|done].
  by apply negb_true_iff, bool_decide_eq_false.
Qed.
Lemma tbl_put_alerts_policies (t : table AlertEvent) db : tbl (A := AlertAutomationPolicy) (put t db) = tbl db.
Proof. by destruct db as [? ? ? ? ? ? ? ? ? ? ? ? ? [] ?]. Qed.
Lemma tbl_put_policies_alerts (t : table AlertAutomationPolicy) db : tbl (A := AlertEvent) (put t db) = tbl db.
Proof. by destruct db as [? ? ? ? ? ? ? ? ? ? ? ? ? [] ?]. Qed.

(** A row that is put at its number, apart from the others. *)
Lemma alerts_insert db t e :
  alerts_formed db → keyed t → t_rows t = <[al_ID e := e]> (t_rows (tbl (A := AlertEvent) db)) → alert_ok e →
  (∀ i x, t_rows (tbl db) !! i = Some x → i ≠ al_ID e → al_Fingerprint x ≠ al_Fingerprint e) → alerts_formed (put t db).
Proof.
  intros [Hk Hr Hu Hpk Hp H1] Hkt Ht He Hne. split.
  - by rewrite tbl_put.
  - intros i x. rewrite tbl_put, Ht. intros [[<- <-]|[_ Hx]]%lookup_insert_Some; [done|by eapply Hr].
  - intros i j x y. rewrite tbl_put, Ht. intros [[<- <-]|[Hi Hx]]%lookup_insert_Some [[<- <-]|[Hj Hy]]%lookup_insert_Some Heq; try done.
    + symmetry in Heq. by apply (Hne j y Hy (not_eq_sym Hj)) in Heq.
    + by apply (Hne i x Hx (not_eq_sym Hi)) in Heq.
    + by eapply Hu.
  - by rewrite tbl_put_alerts_policies.
  - intros i p. rewrite tbl_put_alerts_policies. apply Hp.
  - intros i j p q. rewrite tbl_put_alerts_policies. apply H1.
Qed.
Lemma clash_alerts (a b : AlertEvent) : clash a b = false → al_Fingerprint a ≠ al_Fingerprint b.
Proof. by intros Hc%bool_decide_eq_false. Qed.
Lemma alert_with_id id e : alert_ok (with_id id e) ↔ alert_ok e.
Proof. split; intros []; destruct e; by split. Qed.
Lemma renotified_ok event stored : alert_ok stored → alert_ok (renotified event stored).
Proof.
  intros [Hf Hs He Hr Ha]. destruct stored as [i f n s nn m l a st r se re d o le sa ea ld]; cbn in *. unfold renotified.
  destruct (decide (al_Status event = AlertEventResolved)) as [->|]; [|case_decide]; split; cbn; try done; set_solver.
Qed.
Lemma upserted db event e db' :
  alerts_formed db → alert_ok event → al_ID event = 0%Z →
  (let same e := bool_decide (al_Fingerprint e = al_Fingerprint event) in
   match first_row (select same (tbl db)) with
   | Err _ => p ← t_create event (tbl db); Ok (p.1, put p.2 db)
   | Ok stored =>
       let db := put (t_update (λ e, bool_decide (al_ID e = al_ID stored)) (renotified event) (tbl db)) db in
       stored ← first_row (select same (tbl db));
       Ok (if decide (al_ID event = 0%Z) then stored else event, db)
   end) = Ok (e, db') →
  alerts_formed db' ∧ alert_ok e ∧ al_Fingerprint e = al_Fingerprint event ∧ t_rows (tbl db') !! al_ID e = Some e.
Proof.
  intros Hdb Hev Hid. cbn zeta. pose proof Hdb as [Hk Hr Hu Hpk Hp H1].
  destruct (first_row (select _ (tbl db))) as [stored|err] eqn:Hf.
  - apply first_row_select in Hf as [Hsame%bool_decide_eq_true Hin]. apply keyed_elem in Hin; [|done]. cbn in Hin.
    intros (s' & [Hs'%bool_decide_eq_true Hin']%first_row_select & Hx)%result_bind_Ok. rewrite Hid in Hx. cbn in Hx. injection Hx as <- <-.
    set (t := t_update _ _ _) in *. rewrite tbl_put in *.
    assert (keyed t) as Hkt by (apply keyed_update; [|done]; intros []; unfold renotified; cbn; by repeat case_decide). apply keyed_elem in Hin'; [|done]. cbn in Hin'.
    assert (alerts_formed (put t db)) as Hdb'.
    { split; rewrite ?tbl_put_alerts_policies; try done; rewrite tbl_put; [done| |]; unfold t.
      - intros i x. rewrite lookup_t_update. intros (y & Hy & ->)%fmap_Some. destruct (bool_decide _); [apply renotified_ok|]; by eapply Hr.
      - intros i j x y. rewrite !lookup_t_update. intros (x0 & Hx & ->)%fmap_Some (y0 & Hy & ->)%fmap_Some Heq. eapply (Hu i j x0 y0 Hx Hy).
        revert Heq. assert (∀ z, al_Fingerprint (if bool_decide (al_ID z = al_ID stored) then renotified event z else z) = al_Fingerprint z) as Hfp.
        { intros z. destruct (bool_decide _); [|done]. destruct z; unfold renotified. cbn. by repeat case_decide. }
        by rewrite !Hfp. }
    split_and!; [done| |done|done]. apply (af_rows _ Hdb' (al_ID s')). by rewrite tbl_put.
  - apply first_row_None in Hf as [_ Hno]. intros ([b t] & Hc & Hx)%result_bind_Ok. injection Hx as <- <-. cbn [fst snd] in *.
    pose proof Hc as (Hkt & Hb & Hfree & Ht)%keyed_create; [|done]. cbn in Hb.
    assert (al_ID b = t_next (tbl (A := AlertEvent) db)) as Hid' by by rewrite Hb; destruct event.
    assert (al_Fingerprint b = al_Fingerprint event) as Hfp by by rewrite Hb; destruct event.
    assert (alert_ok b) as Hbo by (rewrite Hb; by apply (alert_with_id _ event)).
    split_and!; [|done|done|rewrite tbl_put, Ht, Hid'; apply lookup_insert_eq].
    eapply alerts_insert; [done|done|by rewrite Hid'|done|]. intros i x Hx _. rewrite Hfp. eapply clash_alerts, created_apart; [|exact Hc|exact Hx]; done.
Qed.
Lemma saved_alert db e t : alerts_formed db → alert_ok e → t_save e (tbl db) = Ok t → alerts_formed (put t db).
Proof.
  intros Hdb He Hs. pose proof Hs as [Hkt Ht]%keyed_save; [|apply Hdb].
  eapply alerts_insert; [done|done|exact Ht|done|]. intros i x Hx Hne. by eapply clash_alerts, saved_apart.
Qed.
Lemma policy_with_id id p : policy_ok (with_id id p) ↔ policy_ok p.
Proof. destruct p. done. Qed.
Lemma valid_policy_defaults p : policy_ok p → defaults p = p.
Proof.
  intros [Hv _]. destruct p as [i r e n s m c]. cbn in *. unfold ValidPolicy in Hv. cbn in Hv.
  match type of Hv with (if ?b then _ else if ?b' then _ else _) = _ => destruct b eqn:Hb; [done|]; destruct b' eqn:Hm; [done|] end.
  apply orb_false_iff in Hb as [[_ Hc%bool_decide_eq_false]%orb_false_iff _].
  unfold or_default. rewrite (decide_False (P := c = 0%Z)) by lia.
  rewrite (decide_False (P := s = "")) by (intros ->; vm_compute in Hv; done). rewrite decide_False; [done|]. intros ->. by vm_compute in Hm.
Qed.
Lemma saved_policy db p t :
  alerts_formed db → policy_ok p →
  match first_row (t_list (tbl (A := AlertAutomationPolicy) db)) with
  | Err _ => q ← t_create p (tbl db); Ok q.2
  | Ok existing => t_save (with_id (pol_ID existing) p) (tbl db)
  end = Ok t → alerts_formed (put t db).
Proof.
  intros [Hk Hr Hu Hpk Hp H1] Hok Ht.
  assert (∃ q, keyed t ∧ t_rows t = <[pol_ID q := q]> (t_rows (tbl db)) ∧ policy_ok q ∧
    ∀ i x, t_rows (tbl (A := AlertAutomationPolicy) db) !! i = Some x → i = pol_ID q) as (q & Hkt & Hrows & Hq & Hone).
  { destruct (t_list (tbl db)) as [|existing l] eqn:Hl; cbn [first_row] in Ht.
    - apply result_bind_Ok in Ht as ([b t'] & Hc & Hx). injection Hx as <-. pose proof Hc as (Hkt & Hb & _ & Hrows)%keyed_create; [|done].
      rewrite valid_policy_defaults in Hb by done. exists b. split_and!; [done| |rewrite Hb; by apply (policy_with_id _ p)|].
      + rewrite Hrows, Hb. by destruct p.
      + intros i x Hx. assert (x ∈ t_list (tbl (A := AlertAutomationPolicy) db)) as Hin by (apply elem_of_t_list; by exists i). rewrite Hl in Hin. by apply not_elem_of_nil in Hin.
    - assert (existing ∈ t_list (tbl (A := AlertAutomationPolicy) db)) as Hin by (rewrite Hl; left). apply keyed_elem in Hin; [|done]. cbn in Hin.
      pose proof Ht as [Hkt Hrows]%keyed_save; [|done]. exists (with_id (pol_ID existing) p).
      assert (pol_ID (with_id (pol_ID existing) p) = pol_ID existing) as Hid by by destruct p. split_and!; [done|exact Hrows|by apply (policy_with_id _ p)|].
      intros i x Hx. rewrite Hid. by eapply H1. }
  split; rewrite ?tbl_put_policies_alerts; try done.
  - by rewrite tbl_put.
  - intros i x. rewrite tbl_put, Hrows. intros [[<- <-]|[_ Hx]]%lookup_insert_Some; [done|by eapply Hp].
  - intros i j x y. rewrite tbl_put, Hrows. intros [[<- <-]|[_ Hx]]%lookup_insert_Some [[<- <-]|[_ Hy]]%lookup_insert_Some; [done| | |by eapply H1].
    + symmetry. by eapply Hone.
    + by eapply Hone.
Qed.

(** Texts. *)
Lemma length_trim s : String.length (trim_space s) ≤ String.length s.
Proof.
  unfold trim_space. rewrite <-(string_of_list_ascii_of_string s) at 2. rewrite !length_of_chars.
  etrans; [apply prefix_length, trim_right_prefix|]. apply suffix_length. apply strip_suffix.
Qed.
Lemma length_substring n s : String.length (String.substring 0 n s) ≤ n.
Proof. revert s. induction n as [|n IH]; intros [|c s]; cbn; try lia. specialize (IH s). lia. Qed.
Lemma length_truncated s limit : String.length (truncate_bytes s limit) ≤ limit.
Proof. unfold truncate_bytes. case_bool_decide; [done|apply length_substring]. Qed.
Lemma length_report events report :
  (Z.of_nat (String.length report) ≤ maxReport → Z.of_nat (String.length (foldl report_step report events)) ≤ maxReport)%Z.
Proof.
  revert report. induction events as [|event events IH]; intros report Hr; [done|]. cbn [foldl]. apply IH.
  destruct event as [content| |]; cbn [report_step]; [|done|done]. case_bool_decide; [|done]. rewrite length_str_app. lia.
Qed.

(** *** Under every schedule *)

Section schedules.
Context {N : Type} `{!Outside N} `{Surroundings} `{AesGcm} `{Digests} `{URLs}.
#[local] Abbreviation W := (World (Alerting N)).
#[local] Abbreviation Handler := (handler W).
Variable h : AlertingHandler.
Variable encKey : string.

#[local] Abbreviation ok := (alerting_ok (N := N) (alh_limit h)).
Definition preserved (w : W) (ks : list unit) (w' : W) (ks' : list unit) : Prop := ok w' ∧ ks' = ks.
(** A part of a handler keeps what is formed, and its answer satisfies [P]. *)
Definition yields {A} (p : Handler A) (P : A → Prop) : Prop :=
  disciplined ok preserved [] p (λ r ks, ks = [] ∧ ∀ a, r = Ok a → P a).
Definition steps {A} (m : M W A) (P : A → Prop) : Prop := ∀ w, ok w → ok (m w).2 ∧ ∀ a, (m w).1 = Ok a → P a.

Lemma yields_weaken {A} (p : Handler A) P Q : yields p P → (∀ a, P a → Q a) → yields p Q.
Proof. intros Hp HPQ. eapply disciplined_weaken; [exact Hp|]. intros r ks [-> Hr]. split; [done|]. auto. Qed.
Lemma yields_known {A} (r : result A) (P : A → Prop) : (∀ a, r = Ok a → P a) → yields (Finished r) P.
Proof. by split. Qed.
Lemma yields_mret {A} (a : A) (P : A → Prop) : P a → yields (mret a) P.
Proof. intros Ha. apply yields_known. by intros ? [= <-]. Qed.
Lemma yields_refuse {A} e (P : A → Prop) : yields (refuse e) P.
Proof. by apply yields_known. Qed.
Lemma yields_refuse_if c e : yields (refuse_if c e) (λ _, True).
Proof. destruct c; [apply yields_refuse|by apply yields_mret]. Qed.
Lemma yields_bind {A B} (p : Handler A) (f : A → Handler B) P Q :
  yields p P → (∀ a, P a → yields (f a) Q) → yields (p ≫= f) Q.
Proof. intros Hp Hf. eapply disciplined_bind; [exact Hp| |]; [intros a ks [-> Ha]; by apply Hf, Ha|by intros e ks [-> _]]. Qed.
Lemma yields_step {A B} (m : M W A) (rest : result A → Handler B) P Q :
  steps m P → (∀ r, (∀ a, r = Ok a → P a) → yields (rest r) Q) → yields (Step m rest) Q.
Proof. intros Hm Hr w Hw. destruct (Hm w Hw) as [Hw' Ha]. exists []. split; [by split|by apply Hr]. Qed.
Lemma yields_single {A} (m : M W A) g P : steps m P → yields (step_or m g) P.
Proof. intros Hm. eapply yields_step; [exact Hm|]. intros [a|e] Hr; [|by apply yields_known]. apply yields_known. intros ? [= <-]. by apply Hr. Qed.
Lemma yields_tried {A} (m : M W A) P : steps m P → yields (tried m) (λ r, ∀ a, r = Ok a → P a).
Proof. intros Hm. eapply yields_step; [exact Hm|]. intros r Hr. apply yields_known. by intros ? [= <-]. Qed.
Lemma yields_ignored {A} (m : M W A) P : steps m P → yields (ignored m) (λ _, True).
Proof. intros Hm. eapply yields_step; [exact Hm|]. intros r Hr. by apply yields_known. Qed.
Lemma yields_reporting {A} g (p : Handler A) P : yields p P → yields (reporting g p) P.
Proof.
  intros Hp. apply disciplined_reporting. eapply disciplined_weaken; [exact Hp|]. intros [a|e] ks [-> Hr]; [by split|done].
Qed.

Lemma steps_statement {A} (f : DB → result (A * DB)) P :
  (∀ db a db', alerts_formed db → f db = Ok (a, db') → alerts_formed db' ∧ P a) → steps (statement f) P.
Proof.
  intros Hf w (Hdb & Hm). destruct (statement_cases f w) as [(e & ->)|(a & db & Ha & ->)]; [done|].
  destruct (Hf _ _ _ Hdb Ha) as [Hdb' HP]. split; [done|]. by intros ? [= <-].
Qed.
Lemma steps_query {A} (f : DB → result A) P : (∀ db a, alerts_formed db → f db = Ok a → P a) → steps (query f) P.
Proof.
  intros Hf. apply steps_statement. intros db a db' Hdb (x & Hx & Hy)%result_bind_Ok. injection Hy as <- <-. split; [done|by eapply Hf].
Qed.
Lemma steps_read {A} (f : DB → result A) : steps (query f) (λ _, True).
Proof. by apply steps_query. Qed.
Lemma steps_capability runtimeID capability namespace : steps (HasAgentCapability runtimeID capability namespace) (λ _, True).
Proof.
  unfold HasAgentCapability. destruct (negb _); [by intros w Hw|]. intros w Hw. unfold mbind, M_bind.
  destruct (steps_read (λ db, Ok (select (grants_capability runtimeID capability namespace) (tbl db))) w Hw) as [Hw' _].
  unfold find. destruct (query _ w) as [[a|e] w']; by cbn in *.
Qed.
Lemma steps_now : steps now (λ _, True).
Proof. by intros w Hw. Qed.
Lemma steps_outside {A} (f : N → A * N) : steps (on_outside f) (λ _, True).
Proof. intros w Hw. unfold on_outside. by destruct (f _). Qed.
Lemma steps_memory {A} (f : Alerting N → A) : steps (λ w : W, (Ok (f (w_cluster w)), w)) (λ _, True).
Proof. by intros w Hw. Qed.
Lemma steps_start ctx event : alert_ok event → steps (start_task ctx event) (λ _, True).
Proof.
  intros He w (Hdb & Hc & Ht). split; [|done]. split_and!; [done|done|]. cbn [start_task snd w_cluster set_cluster am_tasks].
  apply Forall_app. split; [done|]. by apply Forall_singleton.
Qed.
Lemma steps_task n : steps (λ w : W, (Ok (am_tasks (w_cluster w) !! n), w)) (λ t, ∀ task, t = Some task → alert_ok task.2).
Proof.
  intros w (Hdb & Hc & Ht). split; [done|]. intros t [= <-] task Hn. rewrite Forall_forall in Ht. eapply Ht, list_elem_of_lookup_2, Hn.
Qed.
Lemma steps_remember alerts : steps (remember h alerts) (λ _, True).
Proof. intros w (Hdb & Hc & Ht). split; [|done]. split_and!; [done|by apply cache_add_ok|done]. Qed.

(** An event as a notification gives it. *)
Record draft (e : AlertEvent) : Prop := {
  dr_id : al_ID e = 0%Z;
  dr_status : al_Status e = AlertEventResolved ∨ al_Status e = AlertEventFiring;
  dr_error : al_LastError e = "";
  dr_report : al_Report e = ""
}.
Lemma draft_ok e : draft e → al_Fingerprint e ≠ "" → alert_ok e.
Proof.
  intros [Hi Hs He Hr] Hf. split; [done| |by rewrite He; cbn; lia|by rewrite Hr|]; destruct Hs as [-> | ->]; try done; set_solver.
Qed.
Lemma steps_upsert event : draft event → steps (UpsertAlertEvent event) alert_ok.
Proof.
  intros Hd w Hw. unfold UpsertAlertEvent, guard_not. destruct (incomplete_alert event) eqn:Hi; [done|].
  cbv beta iota delta [mbind M_bind]. match goal with |- context [statement ?f] => change (ok (statement f w).2 ∧ ∀ a, (statement f w).1 = Ok a → alert_ok a) end.
  apply steps_statement; [|done]. intros db a db' Hdb Hf. apply upserted in Hf as (Hdb' & Ha & _); try done; [apply draft_ok; [done|]|apply Hd].
  unfold incomplete_alert in Hi. rewrite !orb_false_iff in Hi. destruct Hi as (((((Hi & _) & _) & _) & _) & _). by apply bool_decide_eq_false in Hi.
Qed.
Lemma steps_update event : alert_ok event → steps (UpdateAlertEvent event) (λ _, True).
Proof.
  intros He w Hw. unfold UpdateAlertEvent, guard_not. destruct (bool_decide _); [done|].
  cbv beta iota delta [mbind M_bind]. match goal with |- context [save ?e] => change (ok (save e w).2 ∧ ∀ a, (save e w).1 = Ok a → True) end.
  unfold save, execute. apply steps_statement; [|done]. intros db a db' Hdb (t & Ht & Hx)%result_bind_Ok. injection Hx as _ <-.
  split; [by eapply saved_alert|done].
Qed.
Lemma steps_policy p : policy_ok p → steps (SaveAlertAutomationPolicy p) (λ _, True).
Proof.
  intros Hp. apply steps_statement. intros db a db' Hdb (t & Ht & Hx)%result_bind_Ok. injection Hx as _ <-. split; [by eapply saved_policy|done].
Qed.

#[local] Ltac part := eapply yields_bind; [|intros ? ?].

Lemma yields_clock (given : Z) : yields (if decide (given = time_zero) then step_or now id else mret given) (λ _, True).
Proof. case_decide; [apply yields_single, steps_now|by apply yields_mret]. Qed.
Lemma yields_event a resolved : yields (EventFromAlert a resolved) draft.
Proof.
  unfold EventFromAlert. part; [apply yields_clock|]. part.
  - instantiate (1 := λ _, True). destruct (negb _); [by apply yields_mret|]. part; [apply yields_clock|by apply yields_mret].
  - apply yields_mret. split; cbn; [done| |done|done]. destruct (_ || _); [by left|by right].
Qed.
Lemma yields_events resolved alerts : yields (events_from resolved alerts) (Forall draft).
Proof.
  induction alerts as [|a alerts IH]; cbn [events_from]; [by apply yields_mret|].
  part; [apply yields_event|]. part; [exact IH|]. apply yields_mret. by constructor.
Qed.
Lemma dispatched_ok status at_ e : alert_ok e → status ∈ alert_statuses → status ≠ AlertEventAwaitingApproval → alert_ok (set_dispatched status at_ e).
Proof. intros [] Hs Hne. destruct e. by split. Qed.
Lemma yields_persist policy dispatcher force at_ dispatched events :
  Forall draft events → yields (persist_events policy dispatcher force at_ dispatched events) (λ _, True).
Proof.
  revert dispatched. induction events as [|event events IH]; intros dispatched Hd; cbn [persist_events]; [by apply yields_mret|].
  inversion_clear Hd. part; [apply yields_single, steps_upsert; eassumption|]. destruct (negb _); [by apply IH|].
  assert (alert_ok (set_dispatched AlertEventAnalyzing at_ a)) as Ha by (apply dispatched_ok; [done|set_solver|done]).
  part; [by apply yields_single, steps_update|]. part; [apply yields_single, steps_now|]. part; [by apply yields_single, steps_start|by apply IH].
Qed.
Lemma yields_dispatch dispatcher events force at_ : Forall draft events → yields (PersistAndDispatch dispatcher events force at_) (λ _, True).
Proof. intros Hd. unfold PersistAndDispatch. part; [eapply yields_tried, steps_read|by apply yields_persist]. Qed.
Lemma yields_Persist payload force : yields (EventWorkflow_Persist h payload force) (λ _, True).
Proof.
  unfold EventWorkflow_Persist. part; [apply yields_events|]. destruct (alh_automation h) as [d|].
  - part; [apply yields_single, steps_now|by apply yields_dispatch].
  - destruct (negb _); [by apply yields_mret|]. part; [apply yields_single, steps_now|by apply yields_dispatch].
Qed.
Lemma yields_ready ctx : yields (EnsureReady h ctx) (λ _, True).
Proof.
  unfold EnsureReady. part; [apply yields_refuse_if|]. destruct (negb _); [by apply yields_mret|].
  part; [apply yields_single, steps_outside|apply yields_refuse_if].
Qed.
Lemma yields_sync ctx : yields (SyncCurrent h ctx) (λ _, True).
Proof.
  unfold SyncCurrent. part; [apply yields_ready|]. part; [apply yields_single, steps_outside|].
  part; [by apply yields_known with (P := λ _, True)|]. destruct (empty_list _); [by apply yields_mret|apply yields_Persist].
Qed.
Lemma yields_policy ctx policy : yields (UpdatePolicy h ctx policy) (λ _, True).
Proof.
  unfold UpdatePolicy. part; [apply yields_refuse_if|]. destruct (_ || _) eqn:Hv; [apply yields_refuse|].
  apply orb_false_iff in Hv as [Hv%negb_false_iff Hr%bool_decide_eq_false].
  part; [by apply yields_mret with (P := λ _, True)|]. part; [eapply yields_single, steps_read|]. part; [apply yields_refuse_if|].
  part; [by apply yields_single, steps_policy|]. destruct (negb _); [by apply yields_mret|apply yields_sync].
Qed.
Lemma yields_resolved status alerts : yields (resolved_alerts status alerts) (λ _, True).
Proof.
  induction alerts as [|a alerts IH]; cbn [resolved_alerts]; [by apply yields_mret|]. destruct (_ && _); [done|]. part.
  - instantiate (1 := λ _, True). case_decide; [part; [apply yields_single, steps_now|by apply yields_mret]|by apply yields_mret].
  - part; [exact IH|by apply yields_mret].
Qed.
Lemma yields_record payload : yields (RecordResolved h payload) (λ _, True).
Proof. unfold RecordResolved. part; [apply yields_resolved|apply yields_single, steps_remember]. Qed.
Lemma yields_secrets ctx : yields (LoadSecrets h ctx) (λ _, True).
Proof.
  unfold LoadSecrets. part; [apply yields_refuse_if|]. part; [apply yields_single, steps_outside|].
  part; [by apply yields_known with (P := λ _, True)|by apply yields_known].
Qed.
Lemma yields_optional {A} (c : bool) (f : N → option A * N) : yields (if c then mret None else step_or (on_outside f) id) (λ _, True).
Proof. destruct c; [by apply yields_mret|apply yields_single, steps_outside]. Qed.
Lemma yields_send ctx secrets payload : yields (Send ctx secrets payload) (λ _, True).
Proof. unfold Send. part; [apply yields_optional|]. part; [apply yields_optional|apply yields_refuse_if]. Qed.
Lemma yields_send_one channel send : yields (send_one channel send) (λ _, True).
Proof. unfold send_one. part; [apply yields_single, steps_outside|]. destruct a; [apply yields_refuse|by apply yields_mret]. Qed.
Lemma yields_send_test ctx secrets payload channel : yields (SendTest ctx secrets payload channel) (λ _, True).
Proof.
  unfold SendTest. repeat case_decide; [| |apply yields_send]; (part; [apply yields_refuse_if|apply yields_send_one]).
Qed.
Lemma yields_silence ctx r at_ : yields (CreateSilence h ctx r at_) (λ _, True).
Proof.
  unfold CreateSilence. part; [apply yields_ready|]. part; [apply yields_ready|]. part; [by apply yields_known with (P := λ _, True)|].
  part; [apply yields_single, steps_outside|]. part; [by apply yields_known with (P := λ _, True)|by apply yields_mret].
Qed.
Lemma yields_unsilence ctx id_ : yields (DeleteSilence h ctx id_) (λ _, True).
Proof.
  unfold DeleteSilence. part; [apply yields_ready|]. part; [apply yields_ready|]. part; [apply yields_refuse_if|].
  eapply yields_bind; [apply yields_single, steps_outside|intros [e|] _]; [apply yields_refuse|by apply yields_mret].
Qed.

(** The analysis. *)
Lemma failed_ok message e : alert_ok e → alert_ok (set_failed message e).
Proof.
  intros [Hf Hs He Hr Ha]. destruct e. split; cbn in *; [done|set_solver|apply length_truncated|done|done].
Qed.
Lemma yields_fail event message : alert_ok event → yields (fail event message) (λ _, True).
Proof. intros He. eapply yields_ignored, steps_update. by apply failed_ok. Qed.
Lemma yields_missing runtimeID capabilities : yields (missing_capability runtimeID capabilities) (λ _, True).
Proof.
  unfold missing_capability. induction capabilities as [|capability l IH]; [by apply yields_mret|].
  part; [eapply yields_tried, steps_capability|]. destruct a as [[]|]; [exact IH|by apply yields_mret|by apply yields_mret].
Qed.
Lemma session_kept runtimeID at_ session e : alert_ok e → alert_ok (set_session runtimeID at_ session e).
Proof. intros []. destruct e. by split. Qed.
Lemma analysed_ok events e :
  alert_ok e → alert_ok (analysed (set_report (trim_space (foldl report_step "" events)) e)).
Proof.
  intros [Hf Hs He Hr Ha]. pose proof (length_trim (foldl report_step "" events)). pose proof (length_report events "" ltac:(done)).
  unfold analysed. destruct e as [i f n s nn m l a st r se re d o le sa ea ld]. cbn in *.
  destruct (negb (empty_str o)) eqn:Ho; split; cbn; try done; try lia; try set_solver.
Qed.
Lemma yields_report event response : alert_ok event → yields (read_report event response) (λ _, True).
Proof.
  intros He. unfold read_report. destruct (_ || _); [by apply yields_fail|]. destruct (ForEachChatEvent _ _) as [events [e|]]; [by apply yields_fail|].
  destruct (empty_str _) eqn:Hr.
  - apply yields_fail. pose proof (analysed_ok events event He) as [Hf Hs Her Hre Ha]. destruct He as [Hf' Hs' He' Hr' Ha'].
    destruct event as [i f n s nn m l a st r se re d o le sa ea ld]. cbn in *. split; cbn; try done.
    revert Hre. unfold analysed. cbn. destruct (negb _); done.
  - eapply yields_ignored, steps_update. by apply analysed_ok.
Qed.
Lemma yields_chat ctx request : yields (StreamChat ctx request) (λ _, True).
Proof. unfold StreamChat. destruct (http_NewRequest _); [by apply yields_mret|apply yields_single, steps_outside]. Qed.
Lemma yields_Dispatch ctx event : alert_ok event → yields (Dispatch encKey ctx event) (λ _, True).
Proof.
  intros He. unfold Dispatch. part; [eapply yields_tried, steps_read|]. destruct a as [policy|]; [|by apply yields_mret].
  destruct (_ || _); [by apply yields_mret|]. part; [eapply yields_tried, steps_read|]. destruct a as [runtime|]; [|by apply yields_fail].
  destruct (_ || _); [by apply yields_fail|]. part; [apply yields_missing|]. destruct a; [by apply yields_fail|].
  destruct (negb _); [by apply yields_fail|]. destruct (Decrypt _ _) as [apiKey|]; [|by apply yields_fail].
  destruct (empty_str _); [by apply yields_fail|]. destruct (ChatEndpoint runtime) as [endpoint|], (SessionEndpoint runtime); try by apply yields_fail.
  unfold ask. part; [apply yields_single, steps_now|]. part; [eapply yields_ignored, steps_update; by apply session_kept|].
  part; [apply yields_single, steps_now|]. eapply yields_bind; [apply yields_chat|intros [response|e] _]; [apply yields_report; by apply session_kept|apply yields_fail; by apply session_kept].
Qed.
Lemma yields_task n : yields (run_task encKey n) (λ _, True).
Proof.
  unfold run_task. eapply yields_bind; [apply yields_single, steps_task|intros [[ctx event]|] Ht]; [|by apply yields_mret].
  apply yields_Dispatch. by apply (Ht (ctx, event)).
Qed.

(** The requests, and the analyses that were started. *)
Inductive alerting_call :=
  | CallNotify (ctx : Context) (authorization : string) (body : option AlertNotification) | CallTask (n : nat)
  | CallPolicy | CallUpdatePolicy (ctx : Context) (body : option AlertAutomationPolicy) | CallOverview (ctx : Context)
  | CallSilence (ctx : Context) (body : option SilenceRequest) | CallUnsilence (ctx : Context) (id : string)
  | CallTest (ctx : Context) (channel : string).
Definition serve_alerting (call : alerting_call) : Handler unit :=
  match call with
  | CallNotify ctx authorization body => answered_by (Alerting_Notify h ctx authorization body)
  | CallTask n => run_task encKey n
  | CallPolicy => answered_by (Alerting_AutomationPolicy h)
  | CallUpdatePolicy ctx body => answered_by (Alerting_UpdateAutomationPolicy h ctx body)
  | CallOverview ctx => answered_by (Alerting_Overview h ctx)
  | CallSilence ctx body => answered_by (Alerting_CreateSilence h ctx body)
  | CallUnsilence ctx id => answered_by (Alerting_DeleteSilence h ctx id)
  | CallTest ctx channel => answered_by (Alerting_TestNotification h ctx channel)
  end.
Lemma yields_answered {A} (p : Handler A) P : yields p P → yields (answered_by p) (λ _, True).
Proof. intros Hp. unfold answered_by. part; [exact Hp|by apply yields_mret]. Qed.
Lemma yields_notify ctx authorization body : yields (Alerting_Notify h ctx authorization body) (λ _, True).
Proof.
  unfold Alerting_Notify. part; [apply yields_reporting, yields_secrets|]. part; [apply yields_refuse_if|].
  destruct body as [sent|]; [|apply yields_refuse]. part; [apply yields_refuse_if|]. part; [apply yields_reporting, yields_Persist|].
  part; [instantiate (1 := λ _, True); destruct (Configured _); [apply yields_reporting, yields_send|by apply yields_mret]|].
  part; [apply yields_record|by apply yields_mret].
Qed.
Lemma yields_update_policy ctx body : yields (Alerting_UpdateAutomationPolicy h ctx body) (λ _, True).
Proof.
  unfold Alerting_UpdateAutomationPolicy. destruct body as [policy|]; [|apply yields_refuse].
  part; [apply yields_refuse_if|apply yields_reporting, yields_policy].
Qed.
Lemma yields_overview ctx : yields (Alerting_Overview h ctx) (λ _, True).
Proof.
  unfold Alerting_Overview. part; [apply yields_reporting, yields_ready|]. apply yields_reporting.
  part; [apply yields_ready|]. part; [apply yields_single, steps_memory|]. part; [apply yields_ready|]. part; [apply yields_single, steps_outside|].
  part; [by apply yields_known with (P := λ _, True)|by apply yields_mret].
Qed.
Lemma yields_create_silence ctx body : yields (Alerting_CreateSilence h ctx body) (λ _, True).
Proof.
  unfold Alerting_CreateSilence. part; [apply yields_reporting, yields_ready|]. destruct body as [r|]; [|apply yields_refuse].
  part; [apply yields_single, steps_now|apply yields_reporting, yields_silence].
Qed.
Lemma yields_delete_silence ctx id_ : yields (Alerting_DeleteSilence h ctx id_) (λ _, True).
Proof.
  unfold Alerting_DeleteSilence. part; [apply yields_reporting, yields_ready|]. part; [apply yields_refuse_if|].
  part; [apply yields_reporting, yields_unsilence|by apply yields_mret].
Qed.
Lemma yields_test ctx channel : yields (Alerting_TestNotification h ctx channel) (λ _, True).
Proof.
  unfold Alerting_TestNotification. part; [apply yields_refuse_if|]. part; [apply yields_refuse_if|]. part; [apply yields_reporting, yields_secrets|].
  part; [apply yields_single, steps_now|]. part; [apply yields_reporting, yields_send_test|by apply yields_mret].
Qed.
Lemma yields_shown_policy : yields (Alerting_AutomationPolicy h) (λ _, True).
Proof.
  unfold Alerting_AutomationPolicy. destruct (bool_decide _); [by apply yields_mret|]. part; [eapply yields_tried, steps_read|by apply yields_mret].
Qed.
Lemma yields_serve call : yields (serve_alerting call) (λ _, True).
Proof.
  destruct call; cbn [serve_alerting]; try (eapply yields_answered);
    eauto using yields_notify, yields_update_policy, yields_overview, yields_create_silence, yields_delete_silence, yields_test, yields_shown_policy, yields_task.
Qed.

(** C40: the alerts stay well formed. However notifications, changes of the policy, queries and analyses are interleaved,
    and whatever fails or is answered from outside: stored alerts have one row for each fingerprint, one of the six
    statuses, an error of at most 512 bytes and a report of at most 24 KiB, and wait for an approval only of an
    operation they name; there is at most one policy, and it is valid; the analyses that are started are of such
    alerts; and the cache of resolved alerts keeps its limit and each fingerprint once. *)
Theorem alerts_stay_well_formed (calls : list alerting_call) (schedule : list nat) (w : W) (Hw : ok w) :
  ok (interleave schedule (serve_alerting <$> calls) w).2.
Proof.
  pose proof (interleave_invariant ok preserved (λ w _, ok w) (λ _ _ Hok, Hok) (λ _ _ _ _ Hok, Hok)
    (λ _ _ _ _ _ Ht _, proj1 Ht) (λ _ _, True) schedule (serve_alerting <$> calls) w) as Hrun.
  destruct Hrun as (held & _ & Hok); [|exact Hok]. apply fresh_pool_ok; [|exact Hw].
  apply Forall_fmap, Forall_true. intros call. eapply disciplined_weaken; [apply yields_serve|done].
Qed.
End schedules.

(** *** One request *)

Section alone.
Context {N : Type} `{!Outside N} `{Surroundings} `{AesGcm} `{Digests} `{URLs}.
#[local] Abbreviation W := (World (Alerting N)).
#[local] Abbreviation Handler := (handler W).
Variable h : AlertingHandler.
Variable encKey : string.

Definition alert_rows (w : W) : gmap Z AlertEvent := t_rows (tbl (w_db w)).
Definition policy_of (w : W) : result AlertAutomationPolicy := first_row (select (λ _, true) (tbl (w_db w))).
Definition aside (w w' : W) : Prop := w_db w' = w_db w ∧ w_cluster w' = w_cluster w.

Lemma query_aside {A} (f : DB → result A) (w : W) r w' :
  query f w = (r, w') → aside w w' ∧ ∀ a, r = Ok a → f (w_db w) = Ok a.
Proof. destruct (query_cases f w) as [(e & ->)|(a & Hf & ->)]; intros [= <- <-]; (split; [done|]); by intros b [= <-]. Qed.
Lemma aside_trans w w' w'' : aside w w' → aside w' w'' → aside w w''.
Proof. intros [Hd Hc] [Hd' Hc']. split; congruence. Qed.

(** A part that reads at most the clock, and answers. *)
Definition looks {A} (p : Handler A) : Prop := ∀ w, ∃ a w', alone p w = (Ok a, w') ∧ aside w w'.
Lemma looks_mret {A} (a : A) : looks (mret a).
Proof. intros w. by exists a, w. Qed.
Lemma looks_bind {A B} (p : Handler A) (f : A → Handler B) : looks p → (∀ a, looks (f a)) → looks (p ≫= f).
Proof.
  intros Hp Hf w. rewrite alone_bind. unfold mbind, M_bind. destruct (Hp w) as (a & w1 & -> & H1').
  destruct (Hf a w1) as (b & w2 & -> & H2'). exists b, w2. split; [done|by eapply aside_trans].
Qed.
Lemma looks_clock (given : Z) : looks (if decide (given = time_zero) then step_or now id else mret given).
Proof. case_decide; [|apply looks_mret]. intros w. by eexists _, (tick w). Qed.
Lemma looks_event a resolved : looks (EventFromAlert a resolved).
Proof.
  unfold EventFromAlert. apply looks_bind; [apply looks_clock|]. intros s. apply looks_bind; [|intros e; apply looks_mret].
  destruct (negb _); [apply looks_mret|]. apply looks_bind; [apply looks_clock|intros e; apply looks_mret].
Qed.
Lemma looks_events resolved alerts : looks (events_from resolved alerts).
Proof.
  induction alerts as [|a alerts IH]; [apply looks_mret|]. cbn [events_from]. apply looks_bind; [apply looks_event|]. intros e.
  apply looks_bind; [exact IH|intros es; apply looks_mret].
Qed.

Lemma upsert_stored event (w : W) e w' :
  UpsertAlertEvent event w = (Ok e, w') → al_Fingerprint e = al_Fingerprint event.
Proof.
  unfold UpsertAlertEvent, guard_not. destruct (incomplete_alert event); [done|]. cbv beta iota delta [mbind M_bind].
  match goal with |- context [statement ?f] => change (statement f w = (Ok e, w') → al_Fingerprint e = al_Fingerprint event);
    destruct (statement_cases f w) as [(x & ->)|(a & db & Hf & ->)] end; intros Hx; [done|]. injection Hx as <- _.
  revert Hf. cbn zeta. destruct (first_row _) as [stored|x].
  - intros (s & [Hs%bool_decide_eq_true _]%first_row_select & Hy)%result_bind_Ok. injection Hy as <- _. by case_decide.
  - unfold t_create. destruct (clashes _ _ _); [done|]. intros Hy. injection Hy as <- _. by destruct event.
Qed.
Lemma statement_cluster_same {A} (f : DB → result (A * DB)) (w : W) : w_cluster (statement f w).2 = w_cluster w.
Proof. by destruct (statement_cases f w) as [(e & ->)|(a & db & _ & ->)]. Qed.
Lemma upsert_cluster event (w : W) : w_cluster (UpsertAlertEvent event w).2 = w_cluster w.
Proof.
  unfold UpsertAlertEvent, guard_not. destruct (incomplete_alert event); [done|]. cbv beta iota delta [mbind M_bind].
  match goal with |- context [statement ?f] => exact (statement_cluster_same f w) end.
Qed.
Lemma update_cluster event (w : W) : w_cluster (UpdateAlertEvent event w).2 = w_cluster w.
Proof.
  unfold UpdateAlertEvent, guard_not. destruct (bool_decide _); [done|]. cbv beta iota delta [mbind M_bind].
  exact (statement_cluster_same _ w).
Qed.

(** An analysis that a notification starts: of an alert it names, which the policy wants to be analysed now. *)
Definition wanted (policy : result AlertAutomationPolicy) (events : list AlertEvent) (force : bool) (t : Context * AlertEvent) : Prop :=
  ∃ p stored at_, policy = Ok p ∧ t.2 = set_dispatched AlertEventAnalyzing at_ stored ∧
    al_Fingerprint stored ∈ al_Fingerprint <$> events ∧
    pol_Enabled p = true ∧ (pol_AlertName p = "" ∨ pol_AlertName p = al_AlertName stored) ∧
    (severityRank (pol_MinimumSeverity p) ≤ severityRank (al_Severity stored))%Z ∧
    (al_Status stored ∉ [AlertEventAwaitingApproval; AlertEventRemediating; AlertEventResolved]) ∧
    (force = false → ∀ last, al_LastDispatchedAt stored = Some last → (pol_CooldownMinutes p * minute ≤ at_ - last)%Z).
Lemma due_wanted policy dispatcher events force at_ stored ctx :
  due policy dispatcher force at_ stored = true → al_Fingerprint stored ∈ al_Fingerprint <$> events →
  wanted policy events force (ctx, set_dispatched AlertEventAnalyzing at_ stored).
Proof.
  unfold due. destruct policy as [p|]; [|done]. destruct (negb dispatcher || _) eqn:Hr; [done|]. intros Hd Hin.
  apply orb_false_iff in Hr as [_ Hr%bool_decide_eq_false]. exists p, stored, at_. revert Hd. unfold ShouldDispatch.
  destruct (negb (Matches p stored) || _ || _) eqn:Hm; [done|]. intros Hd.
  apply orb_false_iff in Hm as [[Hm%negb_false_iff Ha%bool_decide_eq_false]%orb_false_iff Hre%bool_decide_eq_false].
  revert Hm. unfold Matches. destruct (negb (pol_Enabled p) || _) eqn:He; [done|]. intros Hs%bool_decide_eq_true.
  apply orb_false_iff in He as [He%negb_false_iff Hn]. split_and!; try done.
  - destruct (decide (pol_AlertName p = "")) as [|Hne]; [by left|right]. rewrite bool_decide_true in Hn by done.
    by apply bool_decide_eq_false, dec_stable in Hn.
  - set_solver.
  - intros -> last Hlast. rewrite Hlast in Hd. by apply bool_decide_eq_true in Hd.
Qed.
Lemma wanted_more policy event events force t : wanted policy events force t → wanted policy (event :: events) force t.
Proof. intros (p & s & at_ & Hp & Ht & Hin & Hrest). exists p, s, at_. split_and!; try done; [|apply Hrest..]. by right. Qed.

Lemma alone_persist policy dispatcher force at_ n events (w : W) :
  let '(r, w') := alone (persist_events policy dispatcher force at_ n events) w in
  ∃ started, w_cluster w' = Build_Alerting (am_tasks (w_cluster w) ++ started) (am_resolved (w_cluster w)) (am_outside (w_cluster w)) ∧
    (∀ m, r = Ok m → m = n + Z.of_nat (length started))%Z ∧ Forall (wanted policy events force) started.
Proof.
  revert n w. induction events as [|event events IH]; intros n w; cbn [persist_events].
  - exists []. rewrite app_nil_r. split_and!; [by destruct (w_cluster w)| |constructor]. intros m [= <-]. cbn. lia.
  - rewrite alone_step. pose proof (upsert_cluster event w) as Hc1. destruct (UpsertAlertEvent event w) as [[stored|e] w1] eqn:Hu; cbn [snd] in Hc1.
    2: { exists []. rewrite app_nil_r, Hc1. split_and!; [by destruct (w_cluster w)|done|constructor]. }
    apply upsert_stored in Hu. destruct (due policy dispatcher force at_ stored) eqn:Hd; cbn [negb].
    + rewrite alone_step. set (d := set_dispatched _ _ _). pose proof (update_cluster d w1) as Hc2. destruct (UpdateAlertEvent d w1) as [[u|e] w2]; cbn [snd] in Hc2.
      2: { exists []. rewrite app_nil_r, Hc2, Hc1. split_and!; [by destruct (w_cluster w)|done|constructor]. }
      rewrite alone_step. cbn [now]. rewrite alone_step. cbn [start_task]. match goal with |- context [alone _ ?w0] => specialize (IH (n + 1)%Z w0); set (w3 := w0) in * end.
      destruct (alone _ w3) as [r w']. destruct IH as (started & Hc & Hm & Hall). cbn [w3 tick w_cluster set_cluster am_tasks am_resolved am_outside] in Hc.
      eexists (_ :: started). split_and!; [rewrite Hc, Hc2, Hc1; cbn; by rewrite <-app_assoc| |].
      * intros m Hr. apply Hm in Hr. cbn [length]. lia.
      * constructor; [|eapply Forall_impl; [exact Hall|]; intros t; apply wanted_more].
        eapply due_wanted; [exact Hd|]. cbn. rewrite Hu. left.
    + specialize (IH n w1). destruct (alone _ w1) as [r w']. rewrite Hc1 in IH. destruct IH as (started & Hc & Hm & Hall).
      exists started. split_and!; try done. eapply Forall_impl; [exact Hall|]. intros t. apply wanted_more.
Qed.
Lemma alone_dispatch dispatcher events force at_ (w : W) :
  let '(r, w') := alone (PersistAndDispatch dispatcher events force at_) w in
  ∃ started, w_cluster w' = Build_Alerting (am_tasks (w_cluster w) ++ started) (am_resolved (w_cluster w)) (am_outside (w_cluster w)) ∧
    (∀ m, r = Ok m → m = Z.of_nat (length started)) ∧ Forall (wanted (policy_of w) events force) started.
Proof.
  unfold PersistAndDispatch. rewrite alone_tried. destruct (GetAlertAutomationPolicy w) as [policy w1] eqn:Hp. apply query_aside in Hp as [[Hd Hc] Hp]. cbn [fst snd].
  pose proof (alone_persist policy dispatcher force at_ 0 events w1) as Hrun. destruct (alone _ w1) as [r w']. rewrite Hc in Hrun.
  destruct Hrun as (started & Hcl & Hm & Hall). exists started. split_and!; [done|intros m Hr; apply Hm in Hr; lia|].
  eapply Forall_impl; [exact Hall|]. intros t (p & s & a & -> & Hrest). exists p, s, a. split; [by apply Hp|exact Hrest].
Qed.


(** *** The webhook is authenticated *)

Lemma alone_secrets ctx (w : W) :
  let '(r, w') := alone (LoadSecrets h ctx) w in
  w_db w' = w_db w ∧ am_tasks (w_cluster w') = am_tasks (w_cluster w) ∧ am_resolved (w_cluster w') = am_resolved (w_cluster w) ∧
  let '(data, n) := secret_data ctx "monitoring" "cylism-alerting-secret" (am_outside (w_cluster w)) in
  (am_outside (w_cluster w') = am_outside (w_cluster w) ∨ am_outside (w_cluster w') = n) ∧
  ∀ secrets, r = Ok secrets → (d ← data; secrets_of d) = Ok secrets.
Proof.
  unfold LoadSecrets. destruct (alh_secrets h); cbn [negb refuse_if]; [|cbn; destruct (secret_data _ _ _ _) as [data n]; split_and!; try done; by left].
  rewrite alone_mret, alone_step. unfold on_outside. destruct (secret_data _ _ _ _) as [data n]. destruct data as [data|e]; cbn.
  - split_and!; try done. by right.
  - split_and!; try done. by right.
Qed.

(** C33: only who knows the token of the installation is heard. A notification without it, or one that is malformed, is
    refused: no row, no analysis and no resolved alert changes, and nothing is done outside but the reading of
    the secret. *)
Theorem notifications_authenticated ctx authorization (body : option AlertNotification) (w : W) :
  let '(r, w') := alone (Alerting_Notify h ctx authorization body) w in
  let '(data, n) := secret_data ctx "monitoring" "cylism-alerting-secret" (am_outside (w_cluster w)) in
  (is_ok r = false ∧ w_db w' = w_db w ∧ am_tasks (w_cluster w') = am_tasks (w_cluster w) ∧ am_resolved (w_cluster w') = am_resolved (w_cluster w) ∧
   (am_outside (w_cluster w') = am_outside (w_cluster w) ∨ am_outside (w_cluster w') = n)) ∨
  ∃ secrets scheme sent, (d ← data; secrets_of d) = Ok secrets ∧ fields authorization = [scheme; ns_RelayToken secrets] ∧
    same_key "Bearer" scheme = true ∧ ns_RelayToken secrets ≠ "" ∧ body = Some sent ∧ 1 ≤ length (an_Alerts sent) ≤ 64.
Proof.
  unfold Alerting_Notify. rewrite alone_bind. unfold mbind at 1, M_bind at 1. rewrite alone_reporting. unfold wrapping.
  pose proof (alone_secrets ctx w) as Hs. destruct (alone (LoadSecrets h ctx) w) as [[secrets|e] w1]; destruct Hs as (Hd & Ht & Hr & Hs).
  all: destruct (secret_data _ _ _ _) as [data n]; destruct Hs as [Ho Hs]; cbn [map_err].
  2: { by left. }
  specialize (Hs _ eq_refl). destruct (ValidateRelayToken authorization (ns_RelayToken secrets)) eqn:Hv; cbn [negb refuse_if]; [|by left].
  destruct body as [sent|]; [|by left]. rewrite alone_mret. cbn [an_Alerts].
  destruct (empty_list (an_Alerts sent) || bool_decide (64 < length (an_Alerts sent))) eqn:Hm; cbn [refuse_if]; [by left|].
  destruct (alone _ w1) as [r w']. right. unfold ValidateRelayToken in Hv.
  destruct (fields authorization) as [|scheme [|token []]] eqn:Hf; try done.
  apply andb_true_iff in Hv as [[Hk He]%andb_true_iff ->%bool_decide_eq_true]. apply orb_false_iff in Hm as [Hm Hl%bool_decide_eq_false].
  exists secrets, scheme, sent. split_and!; try done.
  - intros Htok. by rewrite Htok in He.
  - destruct (an_Alerts sent); [done|cbn; lia].
  - lia.
Qed.
End alone.

(** *** What an analysis may do *)

Section analysis.
Context {N : Type} `{!Outside N} `{Surroundings} `{AesGcm} `{Digests} `{URLs}.
#[local] Abbreviation W := (World (Alerting N)).
#[local] Abbreviation Handler := (handler W).
Variable encKey : string.

(** The same alert, after the analysis: its operation is the one it had when the analysis started. *)
Definition same_alert (event e : AlertEvent) : Prop :=
  al_ID e = al_ID event ∧ al_Fingerprint e = al_Fingerprint event ∧ al_OperationID e = al_OperationID event ∧
  al_Status e ∈ [al_Status event; AlertEventFailed; AlertEventFiring; AlertEventAwaitingApproval] ∧
  (al_Status e = AlertEventAwaitingApproval → al_Status event = AlertEventAwaitingApproval ∨ al_OperationID event ≠ "").
Lemma same_refl event : same_alert event event.
Proof. unfold same_alert. split_and!; try done; [left|by left]. Qed.
Definition touched (event : AlertEvent) (db db' : DB) : Prop :=
  db' = db ∨ ∃ e t, db' = put t db ∧ t_rows t = <[al_ID event := e]> (t_rows (tbl db)) ∧ same_alert event e.
Lemma touched_trans event db db' db'' : touched event db db' → touched event db' db'' → touched event db db''.
Proof.
  intros Ha Hb. destruct Hb as [->|(e & t & -> & Ht & He)]; [done|]. destruct Ha as [->|(e' & t' & -> & Ht' & He')]; [by right; exists e, t|].
  right. exists e, t. split_and!; [by destruct db as [? ? ? ? ? ? ? ? ? ? ? ? ? [] ?]| |done].
  by rewrite Ht, tbl_put, Ht', insert_insert_eq.
Qed.
Definition about (event : AlertEvent) (w w' : W) : Prop := touched event (w_db w) (w_db w') ∧ w_cluster w' = w_cluster w.
Lemma update_about event e (w : W) : same_alert event e → about event w (UpdateAlertEvent e w).2.
Proof.
  intros He. split; [|apply update_cluster]. unfold UpdateAlertEvent, guard_not. destruct (bool_decide _); [by left|].
  cbv beta iota delta [mbind M_bind]. match goal with |- context [save ?x] => change (touched event (w_db w) (w_db (save x w).2)) end.
  unfold save, execute. match goal with |- context [statement ?f w] => destruct (statement_cases f w) as [(x & ->)|(a & db & Hf & ->)] end; [by left|].
  apply result_bind_Ok in Hf as (t & Ht & Hx). injection Hx as _ <-. right. exists e, t. split_and!; [done| |done].
  unfold t_save in Ht. destruct (clashes _ _ _); [done|]. injection Ht as <-. cbn. by rewrite (proj1 He).
Qed.
Lemma alone_ignored_last {A} (m : M W A) (w : W) : alone (ignored m) w = (Ok tt, (m w).2).
Proof. cbn [ignored alone]. by destruct (m w). Qed.
Lemma failed_same event message e : same_alert event e → same_alert event (set_failed message e).
Proof. intros (Hi & Hf & Ho & Hs & Ha). destruct e. unfold same_alert. cbn in *. split_and!; try done. set_solver. Qed.
Lemma alone_fail event e message (w : W) : same_alert event e → about event w (alone (fail e message) w).2.
Proof. intros He. unfold fail. rewrite alone_ignored_last. by apply update_about, failed_same. Qed.
Lemma session_same event runtimeID at_ session : same_alert event (set_session runtimeID at_ session event).
Proof. destruct event. unfold same_alert. cbn. split_and!; try done; [left|by left]. Qed.
Lemma reported_same event report e : same_alert event e → same_alert event (set_report report e).
Proof. by destruct e. Qed.
Lemma analysed_same event e : same_alert event e → same_alert event (analysed e).
Proof.
  intros (Hi & Hf & Ho & Hs & Ha). unfold analysed. destruct (negb (empty_str (al_OperationID e))) eqn:Hop.
  - assert (al_OperationID event ≠ "") as Hne by (rewrite <-Ho; intros Hx; by rewrite Hx in Hop). destruct e. unfold same_alert. cbn in *.
    split_and!; try done; [set_solver|by right].
  - destruct e. unfold same_alert. cbn in *. split_and!; try done. set_solver.
Qed.
Lemma alone_report event e response (w : W) : same_alert event e → about event w (alone (read_report e response) w).2.
Proof.
  intros He. unfold read_report. destruct (_ || _); [by apply alone_fail|]. destruct (ForEachChatEvent _ _) as [events [x|]]; [by apply alone_fail|].
  destruct (empty_str _); [by apply alone_fail, reported_same|]. rewrite alone_ignored_last. by apply update_about, analysed_same, reported_same.
Qed.

Definition holds_capability (db : DB) (runtimeID : Z) (capability : string) : Prop :=
  ∃ g, g ∈ t_list (tbl db) ∧ grants_capability runtimeID capability "" g = true.
Lemma capability_aside runtimeID capability (w : W) r w' :
  HasAgentCapability runtimeID capability "" w = (r, w') → aside w w' ∧ (r = Ok true → holds_capability (w_db w) runtimeID capability).
Proof.
  unfold HasAgentCapability. destruct (negb _); [by intros [= <- <-]|]. unfold mbind, M_bind, find.
  destruct (query _ w) as [x w1] eqn:Hq. apply query_aside in Hq as [Hw Hx]. destruct x as [l|e]; [|by intros [= <- <-]].
  cbn. intros [= <- <-]. split; [done|]. intros [= Hl%bool_decide_eq_true]. specialize (Hx _ eq_refl). injection Hx as <-.
  destruct (select _ _) as [|g l] eqn:Hsel; [cbn in Hl; lia|]. assert (g ∈ select (grants_capability runtimeID capability "") (tbl (w_db w))) as Hin by (rewrite Hsel; left).
  apply elem_of_select in Hin as [Hg Hin]. by exists g.
Qed.
Lemma alone_missing runtimeID capabilities (w : W) :
  ∃ b w', alone (missing_capability runtimeID capabilities) w = (Ok b, w') ∧ aside w w' ∧
    (b = false → Forall (holds_capability (w_db w) runtimeID) capabilities).
Proof.
  unfold missing_capability. revert w. induction capabilities as [|capability l IH]; intros w; [by exists false, w|].
  rewrite alone_tried. destruct (HasAgentCapability _ _ _ w) as [r w1] eqn:Hr. apply capability_aside in Hr as [Hw Hg]. cbn [fst snd].
  destruct r as [[]|]; [|by exists true, w1|by exists true, w1].
  destruct (IH w1) as (b & w2 & -> & Hw2 & Hall). exists b, w2. split_and!; [done|by eapply aside_trans|].
  intros Hb. constructor; [by apply Hg|]. rewrite <-(proj1 Hw). by apply Hall.
Qed.

(** What the runtime must be for its one request. *)
Definition entitled (w : W) (event : AlertEvent) (policy : AlertAutomationPolicy) (runtime : RuntimeInstance) (key : string) : Prop :=
  policy_of w = Ok policy ∧ pol_Enabled policy = true ∧ Matches policy event = true ∧
  (runtime ∈ t_list (tbl (w_db w)) ∧ rt_ID runtime = pol_RuntimeID policy ∧ rt_Status runtime = RuntimeStatusReady ∧
   rt_RuntimeType runtime = RuntimeTypeNanobot ∧ rt_AgentToolEnabled runtime = true) ∧
  Forall (holds_capability (w_db w) (rt_ID runtime)) [AgentCapabilityAlertRead; AgentCapabilityMonitoringRead; AgentCapabilityMaintenanceInspect] ∧
  Decrypt encKey (rt_EncryptedRuntimeAPIKey runtime) = Ok key ∧ trim_space key ≠ "".

(** Where an analysis that starts in [w] may end. *)
Definition analysed_within (event : AlertEvent) (w w' : W) : Prop :=
  touched event (w_db w) (w_db w') ∧ am_tasks (w_cluster w') = am_tasks (w_cluster w) ∧ am_resolved (w_cluster w') = am_resolved (w_cluster w) ∧
  (am_outside (w_cluster w') = am_outside (w_cluster w) ∨
   ∃ policy runtime key endpoint deadline session message, entitled w event policy runtime key ∧ ChatEndpoint runtime = Ok endpoint ∧
     am_outside (w_cluster w') = (http_Do deadline (chat_request endpoint (rt_ModelName runtime) key session message) (am_outside (w_cluster w))).2).
Lemma within_about event (w v v' : W) : aside w v → about event v v' → analysed_within event w v'.
Proof. intros [Hd Hc] [Ht Hc']. unfold analysed_within. rewrite Hc', Hc. rewrite Hd in Ht. split_and!; try done. by left. Qed.
Lemma within_fail event message (w v : W) : aside w v → analysed_within event w (alone (fail event message) v).2.
Proof. intros Hv. eapply within_about; [exact Hv|]. by apply alone_fail, same_refl. Qed.
Lemma within_nothing event (w v : W) : aside w v → analysed_within event w v.
Proof. intros Hv. eapply within_about; [exact Hv|]. split; [by left|done]. Qed.
Lemma alone_chat ctx request (w : W) :
  let '(r, w') := alone (StreamChat ctx request) w in
  (∃ answer, r = Ok answer) ∧ w_db w' = w_db w ∧ am_tasks (w_cluster w') = am_tasks (w_cluster w) ∧ am_resolved (w_cluster w') = am_resolved (w_cluster w) ∧
  (am_outside (w_cluster w') = am_outside (w_cluster w) ∨ am_outside (w_cluster w') = (http_Do ctx request (am_outside (w_cluster w))).2).
Proof.
  unfold StreamChat. destruct (http_NewRequest _) as [e|]; [split_and!; try done; [by eexists|by left]|].
  rewrite alone_last. unfold on_outside. destruct (http_Do _ _ _) as [a n]. cbn. split_and!; try done; [by eexists|by right].
Qed.

(** The one request. *)
Lemma alone_asked ctx event runtimeID request (w : W) :
  let '(_, w') := alone (ask ctx event runtimeID request) w in
  touched event (w_db w) (w_db w') ∧ am_tasks (w_cluster w') = am_tasks (w_cluster w) ∧ am_resolved (w_cluster w') = am_resolved (w_cluster w) ∧
  (am_outside (w_cluster w') = am_outside (w_cluster w) ∨
   ∃ deadline asked, am_outside (w_cluster w') = (http_Do deadline (request asked) (am_outside (w_cluster w))).2).
Proof.
  unfold ask. rewrite alone_step. cbn [now]. cbv zeta. set (e := set_session _ _ _ event). rewrite alone_ignored.
  assert (same_alert event e) as He by apply session_same.
  destruct (update_about event e (tick w) He) as [Ht1 Hc1]. set (w1 := (UpdateAlertEvent e (tick w)).2) in *. cbn [tick w_db w_cluster] in Ht1, Hc1.
  rewrite alone_step. cbn [now]. rewrite alone_bind. unfold mbind at 1, M_bind at 1.
  set (deadline := with_timeout _ _ _). pose proof (alone_chat deadline (request e) (tick w1)) as Hchat.
  destruct (alone (StreamChat _ _) (tick w1)) as [r w2]. destruct Hchat as ((answer & ->) & Hd2 & Hk2 & Hr2 & Ho2).
  cbn [tick w_db w_cluster] in Hd2, Hk2, Hr2, Ho2. rewrite Hc1 in Hk2, Hr2, Ho2.
  cbn beta iota. assert (about event w2 (alone (match answer with Ok response => read_report e response
    | Err x => fail e ("连接告警自动化 Runtime 失败: " +:+ err_text x) end) w2).2) as [Ht Hc] by (destruct answer; [by apply alone_report|by apply alone_fail]).
  destruct (alone _ w2) as [r w']. cbn [snd] in Ht, Hc. rewrite Hc. split_and!; [|done|done|].
  - eapply touched_trans; [exact Ht1|]. by rewrite <-Hd2.
  - destruct Ho2 as [->| ->]; [by left|right; by exists deadline, e].
Qed.

End analysis.

(** ** Concrete runs *)

#[local] Existing Instances calm toy_cipher sample_digests.
#[local] Instance alert_urls : URLs :=
  {| URL := unit; URL_Parse _ := None; URL_Scheme _ := ""; URL_Host _ := ""; URL_Hostname _ := ""; URL_HasUser _ := false;
     URL_SetQuery _ _ u := u; URL_String _ := ""; LoopbackIP _ := false |}.
(** A runtime that answers each request with a report of two parts; the state outside is the addresses that were asked. *)
Definition sample_stream : string :=
  join (String line_feed "") [with_quotes "data: {`choices`:[{`delta`:{`content`:` disk`}}]}"; "";
    with_quotes "data: {`choices`:[{`delta`:{`content`:` is full `}}]}"; "data: [DONE]"; "data: ignored"].
#[local] Instance alert_outside : Outside (list string) := {|
  secret_data _ _ _ n := (Ok {["relay-token" := "token"]}, n); alertmanager_ready _ n := (true, n);
  alertmanager_alerts _ n := (Ok [], n); alertmanager_silence _ _ n := (Ok "silence", n); alertmanager_unsilence _ _ n := (None, n);
  send_feishu _ _ _ n := (None, n); send_email _ _ _ n := (None, n); http_NewRequest _ := None;
  http_Do _ q n := (Ok {| ca_StatusCode := 200; ca_Body := sample_stream; ca_Failure := None |}, n ++ [cq_URL q])
|}.
Definition sample_policy : AlertAutomationPolicy :=
  {| pol_ID := 1; pol_RuntimeID := 1; pol_Enabled := true; pol_AlertName := ""; pol_MinimumSeverity := "warning";
     pol_Mode := AlertAutomationReportOnly; pol_CooldownMinutes := 30 |}.
Definition sample_analyst : RuntimeInstance :=
  {| rt_ID := 1; rt_Name := "bot"; rt_RuntimeType := RuntimeTypeNanobot; rt_DeploymentMode := RuntimeDeploymentManaged; rt_Namespace := "agents";
     rt_ModelName := "m"; rt_EncryptedRuntimeAPIKey := from_ok "" (Encrypt "abcd" "01" "key"); rt_Status := RuntimeStatusReady;
     rt_HealthStatus := ""; rt_HealthDetail := ""; rt_LastHealthAt := None; rt_AgentToolEnabled := true; rt_CreatedBy := 1 |}.
Definition analyst_grant (id : Z) (capability : string) : Z * AgentCapabilityGrant :=
  (id, {| gr_ID := id; gr_RuntimeID := 1; gr_Capability := capability; gr_Namespace := "*"; gr_Enabled := true |}).
Definition alert_world : World (Alerting (list string)) :=
  Build_World (put (one_row sample_policy) (put (one_row sample_analyst)
    (put {| t_rows := list_to_map [analyst_grant 1 AgentCapabilityAlertRead; analyst_grant 2 AgentCapabilityMonitoringRead;
                                   analyst_grant 3 AgentCapabilityMaintenanceInspect]; t_next := 4 |} empty_db))) 0
    {| am_tasks := []; am_resolved := []; am_outside := [] |} [].
Definition sample_wiring : AlertingHandler :=
  {| alh_store := true; alh_dispatcher := true; alh_automation := Some true; alh_client := true; alh_ready := true; alh_secrets := true;
     alh_limit := 0; alh_platformURL := "" |}.
Definition disk_alert (state : string) : Alert :=
  {| alert_Fingerprint := "f1"; alert_State := state; alert_Labels := Some (list_to_map [("alertname", "DiskFull"); ("severity", "critical")]);
     alert_Annotations := None; alert_StartsAt := 5; alert_EndsAt := 9 |}.
Definition notify (state : string) : alerting_call :=
  CallNotify None "bearer token" (Some {| an_Status := state; an_Alerts := [disk_alert state]; an_PlatformURL := "" |}).
Definition alert_run (schedule : list nat) (calls : list alerting_call) : World (Alerting (list string)) :=
  (interleave schedule (serve_alerting sample_wiring "abcd" <$> calls) alert_world).2.
Definition alert_seen (w : World (Alerting (list string))) : list (string * string * option Z) :=
  (λ e, (al_Status e, al_Report e, al_EndsAt e)) <$> t_list (tbl (w_db w)).

Lemma alert_world_ok : alerting_ok 0 alert_world.
Proof.
  assert (t_rows (tbl (A := AlertEvent) (w_db alert_world)) = ∅) as Hnone by reflexivity.
  assert (t_rows (tbl (A := AlertAutomationPolicy) (w_db alert_world)) = {[1%Z := sample_policy]}) as Hone by reflexivity.
  split; [|split; [split_and!; [cbn; lia|constructor|constructor]|constructor]]. split.
  - split; intros i e; rewrite Hnone; by intros [=].
  - intros i e. rewrite Hnone. by intros [=].
  - intros i j e e'. rewrite Hnone. by intros [=].
  - split; intros i p; rewrite Hone; intros [<- <-]%lookup_singleton_Some; [done|].
    change (t_next (tbl (A := AlertAutomationPolicy) (w_db alert_world))) with 2%Z. lia.
  - intros i p. rewrite Hone. intros [<- <-]%lookup_singleton_Some. split; [reflexivity|done].
  - intros i j p q. rewrite Hone. by intros [<- _]%lookup_singleton_Some [<- _]%lookup_singleton_Some.
Qed.

(** A notification starts an analysis, which asks the runtime once and keeps its report. *)
Lemma alerts_stay_well_formed_witness :
  let w := alert_run (replicate 40 0 ++ replicate 40 1) [notify "firing"; CallTask 0] in
  alert_seen w = [(AlertEventFiring, "disk is full", None)] ∧
  am_outside (w_cluster w) = ["http://bot.agents.svc.cluster.local:8900/v1/chat/completions"] ∧ alerting_ok 0 w.
Proof.
  split; [vm_compute; reflexivity|]. split; [vm_compute; reflexivity|].
  exact (alerts_stay_well_formed sample_wiring "abcd" [notify "firing"; CallTask 0] (replicate 40 0 ++ replicate 40 1) alert_world alert_world_ok).
Defined.

(** An alert that is resolved while it is analysed is firing again when the analysis writes its row back. *)
Example resolved_alert_fires_again :
  let schedule rest := replicate 40 0 ++ replicate 9 1 ++ replicate 40 2 ++ replicate rest 1 in
  let calls := [notify "firing"; CallTask 0; notify "resolved"] in
  alert_seen (alert_run (schedule 0) calls) = [(AlertEventResolved, "", Some 9%Z)] ∧
  alert_seen (alert_run (schedule 20) calls) = [(AlertEventFiring, "disk is full", None)].
Proof. split; vm_compute; reflexivity. Qed.
(** Two notifications of one alert, one after the other and at the same time: the cooldown holds only between writes. *)
Example alert_analysed_twice :
  let calls := [notify "firing"; notify "firing"] in
  length (am_tasks (w_cluster (alert_run (replicate 40 0 ++ replicate 40 1) calls))) = 1 ∧
  length (am_tasks (w_cluster (alert_run (replicate 4 0 ++ replicate 40 1 ++ replicate 40 0) calls))) = 2.
Proof. split; vm_compute; reflexivity. Qed.
