(* ===== verification/VolumeMigration.v ===== *)
(** * Moving a volume claim to another node

    [internal/api/infrastructure/storage/pvc_migration_handler.go] with the operations of [internal/k8s/pvc.go],
    [workload.go] and [node.go] it uses and the dispatch of [internal/service/storage/service.go]: a claim that lives
    on the disk of one node is copied to a claim on another node, the workload is stopped, pointed at the copy
    and started again, and on a failure put back. The task is a goroutine: the handler leaves it in a list of
    started tasks. The cluster answers as in the file Cluster; what the shells of the nodes answer, and how long
    they take, is the class [Hosts]. *)
From Stdlib Require Import ZArith Ascii String Lia.
From stdpp Require Import base sorting pretty numbers gmap strings list.
From S2P Require Import Prelude GoStrings Json JsonText ReleaseSpec ReleaseSnapshot Interleaving Models PlatformModels ReleaseValidation ReleaseRendering Cluster ClusterResources KubernetesApplier Store PlatformStore Api ReleaseExecution HandlerSteps RegistryNodes IntegrationSessions.

(** ** The client of the cluster *)

Definition holder_name (migrationID : string) : string := "cylism-pvc-migrate-" +:+ migrationID.
Definition holder_pod (namespace migrationID claimName nodeName image : string) : HolderPod :=
  {| hp_Name := holder_name migrationID; hp_Namespace := namespace;
     hp_Labels := <["cylism.io/pvc-migration" := migrationID]> {[ManagedByLabel := ManagedByValue]};
     hp_NodeName := nodeName; hp_Image := image; hp_ClaimName := claimName |}.
Definition already_exists (e : goerr) : bool := err_is "k8s.AlreadyExists" e.
Definition blank (s : string) : bool := empty_str (trim_space s).

Definition mounts (claimName : string) (d : LiveDeployment) : bool := bool_decide (Some claimName ∈ ld_Claims d).
Definition replaced_claim (source target : string) (volume : option string) : option string :=
  if decide (volume = Some source) then Some target else volume.
Definition set_deployment_claim (source target node : string) (d : LiveDeployment) : LiveDeployment :=
  {| ld_Meta := ld_Meta d; ld_Replicas := ld_Replicas d; ld_Containers := ld_Containers d; ld_Annotations := ld_Annotations d;
     ld_Selector := ld_Selector d; ld_NodeSelector := <["kubernetes.io/hostname" := node]> (ld_NodeSelector d);
     ld_Claims := replaced_claim source target <$> ld_Claims d; ld_Rest := ld_Rest d;
     ld_ObservedGeneration := ld_ObservedGeneration d; ld_UpdatedReplicas := ld_UpdatedReplicas d;
     ld_ReadyReplicas := ld_ReadyReplicas d; ld_AvailableReplicas := ld_AvailableReplicas d;
     ld_UnavailableReplicas := ld_UnavailableReplicas d; ld_Conditions := ld_Conditions d |}.
Definition replicas_of (d : LiveDeployment) : Z := default 1%Z (ld_Replicas d).
(** Of [nodeHealth] only whether the node is ready: the first condition of that type decides. *)
Definition node_ready (n : LiveNode) : bool :=
  match find_first (λ c : string * string, bool_decide (c.1 = "Ready")) (nd_Conditions n) with
  | Some (_, status) => bool_decide (status = "True")
  | None => false
  end.
Definition bound_timeout : Z := 3 * minute.

Section cluster.
Context `{K8sLibrary} `{!APIServer}.
#[local] Abbreviation M := (M Cluster).
Variable client : Client.

Definition CreatePVCBindingPodContext (ctx : Context) (namespace migrationID claimName nodeName image : string) : M unit :=
  guard_not (blank migrationID || blank claimName || blank nodeName || blank image) (EText "迁移绑定 Pod 参数不完整") ;;
  created ← attempt (call ctx (CreatePod (holder_pod namespace migrationID claimName nodeName image)));
  match created with
  | Ok _ => mret tt
  | Err e => if already_exists e then call ctx (GetPod namespace (holder_name migrationID)) ;; mret tt
             else throw (EWrap "create PVC binding pod: " e "")
  end.
Definition DeletePVCBindingPodContext (ctx : Context) (namespace migrationID : string) : M unit :=
  deleted ← attempt (call ctx (DeletePod namespace (holder_name migrationID)));
  match deleted with
  | Ok _ => mret tt
  | Err e => if is_not_found e then mret tt else throw (EWrap "delete PVC binding pod: " e "")
  end.
(** The error of a context that is over is a deadline here: nothing cancels it. *)
Definition deadline_exceeded : goerr := EText "context deadline exceeded".
Definition bound_body (ctx : Context) (namespace name : string) (environmentID : Z) (_ : unit) : M (unit + PersistentVolumeClaimInfo) :=
  claim ← GetManagedPVCContext client ctx namespace name environmentID;
  mret (if decide (pi_Phase claim = "Bound") then inr claim else inl tt).
Definition bound_expired (_ : unit) : M PersistentVolumeClaimInfo := throw (EWrap "等待目标 PVC 绑定: " deadline_exceeded "").
(** Under the timeout of its only caller. *)
Definition WaitForManagedPVCBound (parent : Context) (namespace name : string) (environmentID : Z) : M PersistentVolumeClaimInfo :=
  start ← gets c_time;
  let ctx := with_timeout parent bound_timeout start in
  finished_loop (poll (poll_fuel bound_timeout) ctx start start (bound_body ctx namespace name environmentID) bound_expired tt).
Definition ReplaceDeploymentPVCNodeContext (ctx : Context) (namespace name sourceClaim targetClaim targetNode : string) : M Z :=
  deployment ← wrapping (λ e, EWrap "get deployment: " e "") (call ctx (GetDeployment namespace name));
  guard_not (negb (managed (lm_Labels (ld_Meta deployment)))) (EText ("Deployment " +:+ (quote name +:+ " 未由平台管理"))) ;;
  guard_not (negb (mounts sourceClaim deployment)) (EText ("Deployment " +:+ (quote name +:+ (" 未引用 PVC " +:+ quote sourceClaim)))) ;;
  wrapping (λ e, EWrap "update deployment PVC: " e "")
    (call ctx (UpdateDeployment (set_deployment_claim sourceClaim targetClaim targetNode deployment))) ;;
  mret (replicas_of deployment).
Definition DeploymentUsingPVCContext (ctx : Context) (namespace claimName : string) : M (list LiveDeployment) :=
  deployments ← wrapping (λ e, EWrap "list deployments: " e "") (call ctx (ListDeployments namespace));
  mret (List.filter (mounts claimName) deployments).
Definition ScaleDeploymentContext (ctx : Context) (namespace name : string) (replicas : Z) : M unit :=
  deployment ← wrapping (λ e, EWrap "get deployment scale: " e "") (call ctx (GetDeployment namespace name));
  wrapping (λ e, EWrap "update deployment scale: " e "") (call ctx (UpdateDeployment (set_deployment_replicas replicas deployment))).
Definition ListDeploymentPodsContext (ctx : Context) (namespace name : string) : M (list Pod) :=
  deployment ← wrapping (λ e, EWrap "get deployment: " e "") (call ctx (GetDeployment namespace name));
  wrapping (λ e, EWrap "list pods: " e "") (call ctx (ListPods namespace (ld_Selector deployment))).
Definition GetNodeInfoContext (ctx : Context) (name : string) : M bool :=
  node ← wrapping (λ e, EWrap ("get node " +:+ (name +:+ ": ")) e "") (call ctx (GetNode name));
  mret (node_ready node).

(** [time.After(time.Second)]: the second starts anew with every iteration. *)
Fixpoint pods_loop (fuel : nat) (ctx : Context) (namespace name : string) (ready : bool) : M (option unit) :=
  match fuel with
  | O => mret None
  | S fuel =>
      deployment ← call ctx (GetDeployment namespace name);
      over ← (if ready then mret (bool_decide (1 ≤ ld_AvailableReplicas deployment)%Z)
              else pods ← ListDeploymentPodsContext ctx namespace name; mret (empty_list pods));
      if (over : bool) then mret (Some tt) else
      t ← gets c_time;
      tick ← select_tick ctx t t;
      match tick with
      | None => throw (EText (if ready then "等待目标工作负载就绪超时" else "等待源工作负载停止超时"))
      | Some _ => pods_loop fuel ctx namespace name ready
      end
  end.
Definition waitForStorageDeploymentPods (parent : Context) (namespace name : string) (ready : bool) (timeout : Z) : M unit :=
  start ← gets c_time;
  finished_loop (pods_loop (poll_fuel timeout) (with_timeout parent timeout start) namespace name ready).
End cluster.

(** ** What a migration works on *)

(** A command that was run on a node; a copy from one node to another, with its outcome and the number of
    exchanges with the cluster that came before it. *)
Inductive host_event :=
  | RanOn (server : Server) (command : string)
  | CopiedBetween (source target : Server) (sourcePath targetPath : string) (succeeded : bool) (position : nat).
(** The two ends of a copy: not started, or how many bytes passed, and for each end the error it ended with and
    what it printed to its error stream. *)
Inductive stream_outcome :=
  | StreamRefused (e : goerr)
  | StreamEnded (copied : Z) (source : option goerr * string) (target : option goerr * string).

Record Migrating `{K8sLibrary} := { mg_cluster : Cluster; mg_hosts : list host_event; mg_tasks : list (Z * string) }.

(** The shells of the nodes: output and error of a command within its context, of the two ends of a copy, and
    how long they take. The arguments of [ssh] are made from the server and the key. *)
Class Hosts `{K8sLibrary} := {
  ssh_command : Migrating → Context → Server → string → string * option goerr;
  ssh_stream : Migrating → Context → Server → string → Server → string → stream_outcome;
  ssh_latency : Migrating → N
}.

(** Handlers whose errors are looked at. *)
Fixpoint inspected {W A} (p : handler W A) : handler W (result A) :=
  match p with
  | Finished r => Finished (Ok r)
  | Step m rest => Step m (λ r, inspected (rest r))
  end.

Record pvcMigrationRequest := { pm_EnvironmentID : Z; pm_TargetNode : string; pm_HelperImage : string }.
(** What is wired: the store, the three ports of the cluster and its client, the runner of tasks. *)
Record StorageHandler := {
  sh_store : bool; sh_pvc : bool; sh_migration : bool; sh_workloads : bool; sh_client : Client; sh_executor : bool
}.
Definition defaultPVCMigrationHelperImage : string := "registry.k8s.io/pause:3.10".

Definition trim_right_dashes (s : string) : string := of_chars (reverse (trim_left_char "-" (reverse (chars s)))).
Definition migrationPVCName (source : string) (id : Z) : string :=
  let suffix := "-migrate-" +:+ dec id in
  let base := trim_suffix (trim_space source) "-" in
  let base := if bool_decide (63 < String.length base + String.length suffix)
    then trim_right_dashes (String.substring 0 (63 - String.length suffix) base) else base in
  base +:+ suffix.
Definition single_quote : string := String "'" "".
Definition storageShellQuote (value : string) : string :=
  single_quote +:+ (replace_all value single_quote (with_quotes "'`'`'") +:+ single_quote).

(** The lines of an error stream that say something. *)
Definition streamCommandDiagnostic (output : string) : string :=
  join " " (List.filter (λ line, negb (empty_str line || String.prefix "Warning: Permanently added " line))
    (trim_space <$> split_char "010" output)).
Definition streamCommandFailure (end_ : option goerr * string) : string :=
  let diagnostic := streamCommandDiagnostic end_.2 in
  match end_.1 with
  | None => if empty_str diagnostic then "无错误" else diagnostic
  | Some e => if empty_str diagnostic then err_text e else err_text e +:+ (": " +:+ diagnostic)
  end.
(** The bytes that passed, and the error. *)
Definition stream_result (o : stream_outcome) : Z * option goerr :=
  match o with
  | StreamRefused e => (0%Z, Some e)
  | StreamEnded copied (None, _) (None, _) => (copied, None)
  | StreamEnded copied source target =>
      (copied, Some (EText ("存储卷数据复制失败（已传输 " +:+ (dec copied +:+ (" bytes）: 源=" +:+
        (streamCommandFailure source +:+ ("；目标=" +:+ streamCommandFailure target)))))))
  end.

Definition set_target (name : string) (m : PersistentVolumeMigration) : PersistentVolumeMigration :=
  let '(Build_PersistentVolumeMigration i e a s _ sn tn d r st de b sp c) := m in
  Build_PersistentVolumeMigration i e a s name sn tn d r st de b sp c.
Definition set_copied (bytes : Z) (m : PersistentVolumeMigration) : PersistentVolumeMigration :=
  let '(Build_PersistentVolumeMigration i e a s t sn tn d r st de _ sp c) := m in
  Build_PersistentVolumeMigration i e a s t sn tn d r st de bytes sp c.
Definition with_volumes (node : string) (volumes : list VolumeMountSpec) (s : ReleaseSpec) : ReleaseSpec :=
  let '(Build_ReleaseSpec i v c a r e1 e2 e3 e4 v1 v2 v3 v4 p n rs h g gd gm x xd xm _ hn _ fs sv ep) := s in
  Build_ReleaseSpec i v c a r e1 e2 e3 e4 v1 v2 v3 v4 p n rs h g gd gm x xd xm node hn volumes fs sv ep.
Definition set_claim (source target : string) (v : VolumeMountSpec) : VolumeMountSpec :=
  {| vm_ClaimName := if decide (vm_ClaimName v = source) then target else vm_ClaimName v;
     vm_MountPath := vm_MountPath v; vm_ReadOnly := vm_ReadOnly v |}.
Definition set_template_spec (spec : json) (t : ApplicationDeploymentTemplate) : ApplicationDeploymentTemplate :=
  let '(Build_ApplicationDeploymentTemplate i a n d e _ s r u) := t in Build_ApplicationDeploymentTemplate i a n d e spec s r u.

Section handlers.
Context `{K8sLibrary} `{!APIServer} `{Surroundings} `{!Hosts}.
#[local] Abbreviation W := (World Migrating).
#[local] Abbreviation Handler := (handler W).
Variable h : StorageHandler.

Definition on_kube {A} (m : M Cluster A) : M W A := λ w,
  let '(r, c) := m (mg_cluster (w_cluster w)) in
  (r, set_cluster {| mg_cluster := c; mg_hosts := mg_hosts (w_cluster w); mg_tasks := mg_tasks (w_cluster w) |} w).
(** A command on a node takes time. *)
Definition on_hosts (e : host_event) (s : Migrating) : Migrating :=
  {| mg_cluster := with_time (c_time (mg_cluster s) + Z.of_N (ssh_latency s)) (mg_cluster s); mg_hosts := mg_hosts s ++ [e]; mg_tasks := mg_tasks s |}.
Definition SSHExecContext (parent : Context) (timeout : Z) (server : Server) (command : string) : M W (string * option goerr) := λ w,
  let s := w_cluster w in
  (Ok (ssh_command s (with_timeout parent timeout (c_time (mg_cluster s))) server command), set_cluster (on_hosts (RanOn server command) s) w).
Definition streamPVCData (parent : Context) (source target : Server) (sourcePath targetPath : string) : M W (Z * option goerr) := λ w,
  let s := w_cluster w in
  let outcome := stream_result (ssh_stream s (with_timeout parent (30 * minute) (c_time (mg_cluster s)))
    source ("sudo -n tar --numeric-owner -C " +:+ (storageShellQuote sourcePath +:+ " -cpf - ."))
    target ("sudo -n mkdir -p " +:+ (storageShellQuote targetPath +:+ (" && sudo -n tar --numeric-owner -C " +:+ (storageShellQuote targetPath +:+ " -xpf -"))))) in
  (Ok outcome, set_cluster (on_hosts (CopiedBetween source target sourcePath targetPath (bool_decide (outcome.2 = None)) (length (c_log (mg_cluster s)))) s) w).
Definition start_migration (id_ : Z) (helperImage : string) : M W unit := λ w,
  (Ok tt, set_cluster {| mg_cluster := mg_cluster (w_cluster w); mg_hosts := mg_hosts (w_cluster w); mg_tasks := mg_tasks (w_cluster w) ++ [(id_, helperImage)] |} w).
(** [context.WithTimeout] *)
Definition limited (parent : Context) (timeout : Z) : Handler Context :=
  t ← step_or (on_kube (gets c_time)) id; mret (with_timeout parent timeout t).

(** *** The templates of the application *)

Definition replace_template_claims (source target node : string) (t : ApplicationDeploymentTemplate) : Handler unit :=
  match decode_ReleaseSpec zero_ReleaseSpec (tpl_Spec t) with
  | None => refuse (EText "json: cannot unmarshal the template")
  | Some spec =>
      if negb (existsb (λ v, bool_decide (vm_ClaimName v = source)) (rs_Volumes spec)) then mret tt else
      step_or (UpdateApplicationDeploymentTemplate
        (set_template_spec (encode_ReleaseSpec (with_volumes node (set_claim source target <$> rs_Volumes spec) spec)) t)) id ;;
      mret tt
  end.
Fixpoint each {A} (f : A → Handler unit) (l : list A) : Handler unit :=
  match l with [] => mret tt | a :: l => f a ;; each f l end.
Definition replaceMigrationTemplateClaims (applicationID : Z) (source target node : string) : Handler unit :=
  templates ← step_or (ListApplicationDeploymentTemplates applicationID) id;
  each (replace_template_claims source target node) templates.
Definition migrationTemplateSnapshot (applicationID : Z) : Handler (gmap Z json) :=
  templates ← step_or (ListApplicationDeploymentTemplates applicationID) id;
  mret (foldl (λ m t, <[tpl_ID t := tpl_Spec t]> m) ∅ templates).
Definition restore_template (snapshot : gmap Z json) (t : ApplicationDeploymentTemplate) : Handler unit :=
  match snapshot !! tpl_ID t with
  | Some spec => if bool_decide (print (tpl_Spec t) = print spec) then mret tt else
      step_or (UpdateApplicationDeploymentTemplate (set_template_spec spec t)) id ;; mret tt
  | None => mret tt
  end.
Definition restoreMigrationTemplates (m : PersistentVolumeMigration) : Handler unit :=
  match mig_SourceTemplateSpec m with
  | None => mret tt
  | Some snapshot =>
      templates ← step_or (ListApplicationDeploymentTemplates (mig_ApplicationID m)) id;
      each (restore_template snapshot) templates
  end.

(** *** The task *)

(** A call whose error ends the task as [otherwise] says. *)
Definition must {A} (p : M W A) (otherwise : goerr → Handler unit) (k : A → Handler unit) : Handler unit :=
  r ← tried p; match r with Ok a => k a | Err e => otherwise e end.
(** A change of the status; when it cannot be stored the task returns. *)
Definition stage (m : PersistentVolumeMigration) (status detail : string) (k : PersistentVolumeMigration → Handler unit) : Handler unit :=
  updated ← step_or (UpdatePersistentVolumeMigration m status detail) id;
  match updated with (m, Ok _) => k m | (_, Err _) => mret tt end.
Definition final_stage (m : PersistentVolumeMigration) (status detail : string) : Handler unit := stage m status detail (λ _, mret tt).

Definition failMigration (parent : Context) (m : PersistentVolumeMigration) (cause : goerr) (restoreSource : bool) : Handler unit :=
  ctx ← limited parent (2 * minute);
  (if negb (restoreSource && sh_migration h) then mret tt else
   found ← tried (GetEnvironmentByID (mig_EnvironmentID m));
   match found with
   | Err _ => mret tt
   | Ok environment =>
       let ns := env_Namespace environment in
       deployments ← tried (on_kube (DeploymentUsingPVCContext ctx ns (mig_TargetPVCName m)));
       (if bool_decide (length (from_ok [] deployments) = 1)
        then ignored (on_kube (ReplaceDeploymentPVCNodeContext ctx ns (mig_SourceDeployment m) (mig_TargetPVCName m) (mig_SourcePVCName m) (mig_SourceNodeName m)))
        else mret tt) ;;
       ignored (on_kube (ScaleDeploymentContext ctx ns (mig_SourceDeployment m) (mig_SourceReplicas m))) ;;
       _ ← inspected (restoreMigrationTemplates m); mret tt
   end) ;;
  final_stage m PVCMigrationStatusFailed (err_text cause).
Definition cleanupMigrationTarget (ctx : Context) (environment : Environment) (m : PersistentVolumeMigration) : Handler unit :=
  ignored (on_kube (DeletePVCBindingPodContext ctx (env_Namespace environment) (dec (mig_ID m)))) ;;
  if empty_str (mig_TargetPVCName m) then mret tt
  else ignored (on_kube (DeleteManagedPVCContext ctx (env_Namespace environment) (mig_TargetPVCName m) (env_ID environment))).

Definition server_of (node : string) (servers : list Server) : option Server :=
  last (List.filter (λ s, bool_decide (sv_K8sNodeName s = node)) servers).
Definition uses_key (s : Server) : bool := bool_decide (sv_SSHAuthType s = "key").
Definition check_server (ctx : Context) (server : Server) : Handler unit :=
  answer ← step_or (SSHExecContext ctx (20 * second) server "sudo -n true && command -v tar >/dev/null") id;
  match answer with
  | (out, Some _) => refuse (EText ("服务器 " +:+ (quote (sv_Name server) +:+ (" 的 sudo 或 tar 预检失败: " +:+ trim_space out))))
  | (_, None) => mret tt
  end.
Definition preflightMigration (ctx : Context) (environment : Environment) (m : PersistentVolumeMigration) :
    Handler (Server * Server * PersistentVolumeClaimInfo) :=
  claim ← step_or (on_kube (GetManagedPVCContext (sh_client h) ctx (env_Namespace environment) (mig_SourcePVCName m) (env_ID environment))) id;
  refuse_if (negb (pi_IsLocal claim) || empty_str (pi_LocalPath claim) || negb (bool_decide (pi_BoundNode claim = mig_SourceNodeName m)))
    (EText "源 PVC 状态已变化，无法迁移") ;;
  ready ← step_or (on_kube (GetNodeInfoContext ctx (mig_TargetNodeName m))) (λ e, EWrap "目标节点不可用: " e "");
  refuse_if (negb ready) (EText "目标节点未就绪") ;;
  servers ← step_or ListServers id;
  match server_of (mig_SourceNodeName m) servers, server_of (mig_TargetNodeName m) servers with
  | Some source, Some target =>
      refuse_if (negb (uses_key source) || negb (uses_key target)) (EText "源节点和目标节点必须绑定使用 SSH 密钥认证的平台注册服务器") ;;
      check_server ctx source ;;
      check_server ctx target ;;
      mret (source, target, claim)
  | _, _ => refuse (EText "源节点和目标节点必须绑定使用 SSH 密钥认证的平台注册服务器")
  end.
Definition checkMigrationTargetPath (ctx : Context) (server : Server) (path : string) : Handler unit :=
  answer ← step_or (SSHExecContext ctx (20 * second) server
    ("sudo -n test -d " +:+ (storageShellQuote path +:+ (" && df -Pk " +:+ (storageShellQuote path +:+ " >/dev/null"))))) id;
  match answer with
  | (out, Some _) => refuse (EText ("目标节点目录或磁盘预检失败: " +:+ trim_space out))
  | (_, None) => mret tt
  end.

Definition runPersistentVolumeMigration (id_ : Z) (helperImage : string) : Handler unit :=
  ctx ← limited None (35 * minute);
  must (GetPersistentVolumeMigration id_) (λ _, mret tt) (λ m,
  must (GetEnvironmentByID (mig_EnvironmentID m)) (λ e, failMigration ctx m e false) (λ environment,
  let ns := env_Namespace environment in
  let migrationID := dec (mig_ID m) in
  stage m PVCMigrationStatusPreflight "正在检查源节点、目标节点和工作负载" (λ m,
  checked ← inspected (preflightMigration ctx environment m);
  match checked with
  | Err e => failMigration ctx m e false
  | Ok (source, target, claim) =>
  stage m PVCMigrationStatusProvisioningTarget "正在预配目标本地卷" (λ m,
  must (on_kube (CreateManagedPVCContext ctx ns (env_ID environment)
    {| pq_Name := mig_TargetPVCName m; pq_Storage := pi_Storage claim; pq_StorageClassName := pi_StorageClassName claim |}))
    (λ e, failMigration ctx m e false) (λ _,
  let abandon e restore := cleanupMigrationTarget ctx environment m ;; failMigration ctx m e restore in
  must (on_kube (CreatePVCBindingPodContext ctx ns migrationID (mig_TargetPVCName m) (mig_TargetNodeName m) helperImage)) (λ e, abandon e false) (λ _,
  must (on_kube (WaitForManagedPVCBound (sh_client h) ctx ns (mig_TargetPVCName m) (env_ID environment))) (λ e, abandon e false) (λ targetClaim,
  if negb (pi_IsLocal targetClaim) || negb (bool_decide (pi_BoundNode targetClaim = mig_TargetNodeName m))
  then abandon (EText "目标 PVC 未绑定到所选节点") false else
  reachable ← inspected (checkMigrationTargetPath ctx target (pi_LocalPath targetClaim));
  match reachable with
  | Err e => abandon e false
  | Ok _ =>
  stage m PVCMigrationStatusStoppingSource "正在停止源工作负载" (λ m,
  must (on_kube (ScaleDeploymentContext ctx ns (mig_SourceDeployment m) 0)) (λ e, cleanupMigrationTarget ctx environment m ;; failMigration ctx m e false) (λ _,
  must (on_kube (waitForStorageDeploymentPods ctx ns (mig_SourceDeployment m) false (90 * second)))
    (λ e, cleanupMigrationTarget ctx environment m ;; failMigration ctx m e true) (λ _,
  stage m PVCMigrationStatusCopying "正在复制本地卷数据" (λ m,
  copied ← step_or (streamPVCData ctx source target (pi_LocalPath claim) (pi_LocalPath targetClaim)) id;
  let m := set_copied copied.1 m in
  match copied.2 with
  | Some e => cleanupMigrationTarget ctx environment m ;; failMigration ctx m e true
  | None =>
  stage m PVCMigrationStatusCutover "正在切换应用到目标存储卷" (λ m,
  let undo e := failMigration ctx m e true in
  must (on_kube (DeletePVCBindingPodContext ctx ns migrationID)) undo (λ _,
  must (on_kube (ReplaceDeploymentPVCNodeContext ctx ns (mig_SourceDeployment m) (mig_SourcePVCName m) (mig_TargetPVCName m) (mig_TargetNodeName m))) undo (λ _,
  replaced ← inspected (replaceMigrationTemplateClaims (mig_ApplicationID m) (mig_SourcePVCName m) (mig_TargetPVCName m) (mig_TargetNodeName m));
  match replaced with
  | Err e => undo e
  | Ok _ =>
  must (on_kube (ScaleDeploymentContext ctx ns (mig_SourceDeployment m) (mig_SourceReplicas m))) undo (λ _,
  stage m PVCMigrationStatusWaitingReady "正在等待目标工作负载就绪" (λ m,
  must (on_kube (waitForStorageDeploymentPods ctx ns (mig_SourceDeployment m) true (2 * minute))) (λ e, failMigration ctx m e true) (λ _,
  final_stage m PVCMigrationStatusCleanupPending "目标工作负载已就绪，可确认清理源卷")))
  end)))
  end))))
  end))))
  end))).
(** The [n]-th task, once it is started. *)
Definition run_migration (n : nat) : Handler unit :=
  task ← step_or (λ w : W, (Ok (mg_tasks (w_cluster w) !! n), w)) id;
  match task with Some (id_, helperImage) => runPersistentVolumeMigration id_ helperImage | None => mret tt end.

(** *** The handlers *)

Definition migrationWorkload (ctx : Context) (environmentID : Z) (namespace claimName : string) : Handler (string * Application * Z) :=
  deployments ← step_or (on_kube (DeploymentUsingPVCContext ctx namespace claimName)) id;
  match deployments with
  | [deployment] =>
      refuse_if (negb (managed (lm_Labels (ld_Meta deployment)))) (EText "引用存储卷的 Deployment 未由平台管理") ;;
      applications ← step_or (ListApplications 0 environmentID) id;
      let name := lm_Name (ld_Meta deployment) in
      match find_first (λ a, bool_decide (app_Name a = name)) applications with
      | Some application => mret (name, application, replicas_of deployment)
      | None => refuse (EText "找不到引用存储卷的平台应用")
      end
  | _ => refuse (EText "存储卷必须恰好被一个平台 Deployment 引用")
  end.
Definition uninitialized_store : goerr := InternalError "数据存储未初始化".
Definition Storage_ListMigrations (query_environment_id : string) : Handler (list PersistentVolumeMigration) :=
  refuse_if (negb (sh_store h)) uninitialized_store ;;
  match OptionalID (trim_space query_environment_id) with
  | None => refuse (BadRequest "环境 ID 无效")
  | Some environmentID => step_or (ListPersistentVolumeMigrations environmentID) (λ _, DBError "读取存储卷迁移失败")
  end.
Definition Storage_GetMigration (param_id : string) : Handler PersistentVolumeMigration :=
  refuse_if (negb (sh_store h)) uninitialized_store ;;
  match ParsePositiveID (trim_space param_id) with
  | None => refuse (BadRequest "迁移 ID 无效")
  | Some id_ => step_or (GetPersistentVolumeMigration id_) (λ _, NotFound "迁移任务不存在")
  end.
Definition Storage_CreateMigration (ctx : Context) (sourceName : string) (body : option pvcMigrationRequest) : Handler PersistentVolumeMigration :=
  refuse_if (negb (sh_pvc h && sh_migration h && sh_workloads h)) K8sUnavailable ;;
  refuse_if (negb (sh_store h)) uninitialized_store ;;
  let incomplete := BadRequest "环境和目标节点必填" in
  match body with
  | None => refuse incomplete
  | Some request =>
      refuse_if (bool_decide (pm_EnvironmentID request = 0%Z) || blank (pm_TargetNode request)) incomplete ;;
      environment ← step_or (GetEnvironmentByID (pm_EnvironmentID request)) (λ _, NotFound "环境不存在");
      let ns := env_Namespace environment in
      active ← tried (FindActivePVCMigration (env_ID environment) sourceName);
      match active with Ok _ => refuse (Conflict "该存储卷已有迁移任务")
      | Err e => refuse_if (negb (err_is "gorm.ErrRecordNotFound" e)) (DBError "检查存储卷迁移状态失败") end ;;
      claim ← step_or (on_kube (GetManagedPVCContext (sh_client h) ctx ns sourceName (env_ID environment))) (λ e, ValidationError (err_text e));
      refuse_if (negb (bool_decide (pi_Phase claim = "Bound")) || negb (pi_IsLocal claim) || empty_str (pi_BoundNode claim))
        (ValidationError "仅支持迁移已绑定的 local-path/hostPath 存储卷") ;;
      refuse_if (bool_decide (pi_BoundNode claim = pm_TargetNode request)) (ValidationError "目标节点与当前绑定节点相同") ;;
      workload ← reporting (λ e, Conflict (err_text e)) (migrationWorkload ctx (env_ID environment) ns sourceName);
      let '(deployment, application, replicas) := workload in
      snapshot ← reporting (λ _, DBError "保存迁移前模板快照失败") (migrationTemplateSnapshot (app_ID application));
      migration ← step_or (CreatePersistentVolumeMigration
        {| mig_ID := 0; mig_EnvironmentID := env_ID environment; mig_ApplicationID := app_ID application; mig_SourcePVCName := sourceName;
           mig_TargetPVCName := ""; mig_SourceNodeName := pi_BoundNode claim; mig_TargetNodeName := pm_TargetNode request;
           mig_SourceDeployment := deployment; mig_SourceReplicas := replicas; mig_Status := PVCMigrationStatusPending; mig_Detail := "";
           mig_BytesCopied := 0; mig_SourceTemplateSpec := Some snapshot; mig_CompletedAt := None |}) (λ _, DBError "创建存储卷迁移失败");
      let migration := set_target (migrationPVCName sourceName (mig_ID migration)) migration in
      updated ← step_or (UpdatePersistentVolumeMigration migration PVCMigrationStatusPending "等待预检") id;
      let '(migration, stored) := updated in
      match stored with Ok _ => mret tt | Err _ => refuse (DBError "初始化迁移任务失败") end ;;
      let helperImage := trim_space (pm_HelperImage request) in
      refuse_if (negb (sh_executor h)) (InternalError "存储卷迁移执行器未初始化") ;;
      step_or (start_migration (mig_ID migration) (if empty_str helperImage then defaultPVCMigrationHelperImage else helperImage)) id ;;
      mret migration
  end.
Definition Storage_CleanupMigration (ctx : Context) (param_id : string) : Handler PersistentVolumeMigration :=
  refuse_if (negb (sh_pvc h && sh_migration h)) K8sUnavailable ;;
  match ParsePositiveID (trim_space param_id) with
  | None => refuse (BadRequest "迁移 ID 无效")
  | Some id_ =>
      let unfit := Conflict "迁移任务当前不能清理源卷" in
      m ← step_or (GetPersistentVolumeMigration id_) (λ _, unfit);
      refuse_if (negb (bool_decide (mig_Status m = PVCMigrationStatusCleanupPending))) unfit ;;
      environment ← step_or (GetEnvironmentByID (mig_EnvironmentID m)) (λ _, NotFound "环境不存在");
      let ns := env_Namespace environment in
      deployments ← tried (on_kube (DeploymentUsingPVCContext ctx ns (mig_SourcePVCName m)));
      refuse_if (match deployments with Ok l => negb (empty_list l) | Err _ => true end) (Conflict "源存储卷仍被工作负载引用，不能清理") ;;
      step_or (on_kube (DeleteManagedPVCContext ctx ns (mig_SourcePVCName m) (env_ID environment))) (λ e, ESent "400" (err_text e)) ;;
      updated ← step_or (UpdatePersistentVolumeMigration m PVCMigrationStatusCleaned "源卷已按回收策略清理") id;
      mret updated.1
  end.
End handlers.
